(** * Tickety-Bot: ticket lifecycle and configuration consistency

    A shallow embedding of the two implementations found in the repository:

    - the database-backed bot ([index.js], [commands.js] with [db_config.js]),
      embedded in [Module Db];
    - the select-menu bot that keeps its configuration in [config.json]
      (the second [commands.js] / [index.js] pair), embedded in [Module Menu].

    Strings are Rocq strings read as sequences of code points U+0000..U+00FF.
    Every reply the handlers send is represented by a constructor that stands
    for the message text; the text is quoted next to the constructor. *)

From stdpp Require Import gmap strings list.
From Stdlib Require Import Ascii NArith ZArith Lia.

Open Scope string_scope.

(** ** JavaScript string primitives used by the handlers *)

Module JS.

Definition code (c : ascii) : N := N_of_ascii c.

Definition in_range (lo hi : N) (c : ascii) : bool :=
  ((lo <=? code c) && (code c <=? hi))%N.

(** [\d], [a-z], [A-Z]. *)
Definition is_digit (c : ascii) : bool := in_range 48 57 c.
Definition is_lower (c : ascii) : bool := in_range 97 122 c.
Definition is_upper (c : ascii) : bool := in_range 65 90 c.

(** [\s] restricted to U+0000..U+00FF: TAB, LF, VT, FF, CR, SPACE, NBSP. *)
Definition is_space (c : ascii) : bool :=
  in_range 9 13 c || (code c =? 32)%N || (code c =? 160)%N.

(** [String.prototype.toLowerCase] on one code point: [A-Z] and the Latin-1
    capitals U+00C0..U+00DE (except the multiplication sign U+00D7) move up by
    32; every other code point below U+0100 is its own lower case. *)
Definition toLowerCase_char (c : ascii) : ascii :=
  if is_upper c || (in_range 192 222 c && negb (code c =? 215)%N)
  then ascii_of_N (code c + 32)
  else c.

Fixpoint map_str (f : ascii -> ascii) (s : string) : string :=
  match s with
  | EmptyString => EmptyString
  | String c s' => String (f c) (map_str f s')
  end.

Fixpoint filter_str (p : ascii -> bool) (s : string) : string :=
  match s with
  | EmptyString => EmptyString
  | String c s' => if p c then String c (filter_str p s') else filter_str p s'
  end.

Fixpoint forallb_str (p : ascii -> bool) (s : string) : bool :=
  match s with
  | EmptyString => true
  | String c s' => p c && forallb_str p s'
  end.

Definition toLowerCase (s : string) : string := map_str toLowerCase_char s.

(** [s.replace(/[cls]+/g, r)]: every maximal run of characters of the class
    is replaced by one copy of [r]. [in_run] tells that the previous character
    was in the class. *)
Fixpoint replace_runs (cls : ascii -> bool) (r : string) (in_run : bool)
    (s : string) : string :=
  match s with
  | EmptyString => EmptyString
  | String c s' =>
      if cls c then
        if in_run then replace_runs cls r true s'
        else r ++ replace_runs cls r true s'
      else String c (replace_runs cls r false s')
  end.

(** [s.startsWith(p)], returning the rest of [s] after [p]. *)
Fixpoint strip_prefix (p s : string) : option string :=
  match p with
  | EmptyString => Some s
  | String a p' =>
      match s with
      | EmptyString => None
      | String b s' => if Ascii.eqb a b then strip_prefix p' s' else None
      end
  end.

Definition startsWith (s p : string) : bool :=
  match strip_prefix p s with Some _ => true | None => false end.

(** [s.includes(p)]. *)
Fixpoint includes (s p : string) : bool :=
  startsWith s p ||
  match s with
  | EmptyString => false
  | String _ s' => includes s' p
  end.

(** The longest prefix of digits, [\d*] matched greedily. *)
Fixpoint take_digits (s : string) : string :=
  match s with
  | EmptyString => EmptyString
  | String c s' => if is_digit c then String c (take_digits s') else EmptyString
  end.

(** [s.match(/LIT(\d+)/)]: the capture group of the leftmost match of the
    literal [lit] followed by one or more digits, [None] for [null]. *)
Fixpoint match_lit_digits (lit : string) (s : string) : option string :=
  let here :=
    match strip_prefix lit s with
    | Some rest =>
        match take_digits rest with
        | EmptyString => None
        | ds => Some ds
        end
    | None => None
    end in
  match here with
  | Some ds => Some ds
  | None =>
      match s with
      | EmptyString => None
      | String _ s' => match_lit_digits lit s'
      end
  end.

(** A Number is an IEEE-754 double. The numbers of this program are
    non-negative integers, or Infinity. *)
Inductive Number := Finite (n : N) | Infinity.

(** The double nearest to the integer [n]: up to [2 ^ 53] every integer is a
    double; beyond, 53 significant bits are kept, rounding to the nearest
    double with ties to the even significand, and to Infinity past the largest
    double. *)
Definition to_double (n : N) : Number :=
  if (n <? 2 ^ 53)%N then Finite n
  else
    let e := (N.log2 n - 52)%N in
    let q := N.shiftr n e in
    let r := (n - N.shiftl q e)%N in
    let half := N.shiftl 1 (e - 1) in
    let q' :=
      if (r <? half)%N then q
      else if (half <? r)%N then (q + 1)%N
      else if N.even q then q else (q + 1)%N in
    let m := N.shiftl q' e in
    if (N.log2 m <? 1024)%N then Finite m else Infinity.

(** [parseInt(ds, 10)] on a string of digits: the integer the digits denote,
    as a double. *)
Definition digit_value (c : ascii) : N := (code c - 48)%N.

Fixpoint parseInt_acc (acc : N) (ds : string) : N :=
  match ds with
  | EmptyString => acc
  | String c ds' => parseInt_acc (10 * acc + digit_value c)%N ds'
  end.

Definition mathInt (ds : string) : N := parseInt_acc 0 ds.

Definition parseInt (ds : string) : Number := to_double (mathInt ds).

(** [a > b] *)
Definition gt (a b : Number) : bool :=
  match a, b with
  | Finite x, Finite y => (y <? x)%N
  | Infinity, Finite _ => true
  | _, Infinity => false
  end.

(** [a + 1] *)
Definition add1 (a : Number) : Number :=
  match a with
  | Finite x => to_double (x + 1)
  | Infinity => Infinity
  end.

(** JavaScript truthiness of a value that is a string, [null] or
    [undefined]: the empty string, [null] and [undefined] are falsy. *)
Definition truthy (v : option string) : bool :=
  match v with
  | Some s => negb (String.eqb s "")
  | None => false
  end.

(** [a === b] for two values that are strings, [null] or [undefined], one read
    from a Discord object (absent is [null]) and one from the configuration
    (absent is [undefined] or [null]): equal only as equal strings. *)
Definition strict_eq (a b : option string) : bool :=
  match a, b with
  | Some x, Some y => String.eqb x y
  | _, _ => false
  end.

(** The decimal digits of a non-negative integer [n]. The recursion is
    bounded by the number of binary digits of [n]. *)
Definition digit_char (d : N) : ascii := ascii_of_N (48 + d).

Fixpoint digits_acc (fuel : nat) (n : N) (acc : string) : string :=
  match fuel with
  | O => acc
  | S fuel' =>
      let acc' := String (digit_char (n mod 10)) acc in
      if (n <? 10)%N then acc' else digits_acc fuel' (n / 10) acc'
  end.

Definition decimal (n : N) : string :=
  digits_acc (S (N.to_nat (N.size n))) n EmptyString.

(** [Number.MAX_SAFE_INTEGER] *)
Definition MAX_SAFE_INTEGER : N := 2 ^ 53 - 1.

(** Whether the integer [s * p] is read as the double [x]. *)
Definition represents (x s p : N) : bool :=
  match to_double (s * p) with
  | Finite m => (m =? x)%N
  | Infinity => false
  end.

(** The digits that [String(x)] shows for a double [x] from [2 ^ 53] on: the
    shortest [s] and the exponent [e] such that [s * 10 ^ e] is read as [x],
    the one nearest to [x] when two fit. [p] is [10 ^ e]; the search goes down
    from an exponent given by the number of digits of [x]. *)
Fixpoint shortest (x : N) (e : nat) (p : N) : N * nat :=
  let lo := (x / p)%N in
  let hi := (lo + 1)%N in
  let ok_lo := (0 <? lo)%N && represents x lo p in
  let ok_hi := represents x hi p in
  let next :=
    match e with
    | O => (x, O)
    | S e' => shortest x e' (p / 10)%N
    end in
  if ok_lo then
    if ok_hi then
      let d_lo := (x - lo * p)%N in
      let d_hi := (hi * p - x)%N in
      if (d_lo <? d_hi)%N then (lo, e)
      else if (d_hi <? d_lo)%N then (hi, e)
      else if N.even lo then (lo, e) else (hi, e)
    else (lo, e)
  else if ok_hi then (hi, e)
  else next.

Fixpoint zeros (n : nat) : string :=
  match n with
  | O => EmptyString
  | S n' => String "0" (zeros n')
  end.

(** [String(x)], also [`${x}`]: the decimal digits of an integer below
    [2 ^ 53]; from there on the shortest digits that are read as [x], followed
    by zeros up to 21 digits and in exponent notation beyond. *)
Definition number_to_string (x : Number) : string :=
  match x with
  | Infinity => "Infinity"
  | Finite n =>
      if (n <? 2 ^ 53)%N then decimal n
      else
        let digits := String.length (decimal n) in
        let '(s, e) := shortest n digits (10 ^ N.of_nat digits)%N in
        let ds := decimal s in
        let point := (String.length ds + e)%nat in
        if (point <=? 21)%nat then ds ++ zeros e
        else
          match ds with
          | EmptyString => EmptyString
          | String d EmptyString =>
              String d ("e+" ++ decimal (N.of_nat (point - 1)))
          | String d rest =>
              String d ("." ++ rest ++ "e+" ++ decimal (N.of_nat (point - 1)))
          end
  end.

(** The rest of the string after its longest prefix of digits. *)
Fixpoint drop_digits (s : string) : string :=
  match s with
  | EmptyString => EmptyString
  | String c s' => if is_digit c then drop_digits s' else s
  end.

(** [s.replace(/LIT\d+/, '')]: the leftmost match of [lit] followed by one or
    more digits is removed. *)
Fixpoint remove_lit_digits (lit : string) (s : string) : string :=
  let here :=
    match strip_prefix lit s with
    | Some rest =>
        match take_digits rest with
        | EmptyString => None
        | _ => Some (drop_digits rest)
        end
    | None => None
    end in
  match here with
  | Some rest => rest
  | None =>
      match s with
      | EmptyString => EmptyString
      | String c s' => String c (remove_lit_digits lit s')
      end
  end.

(** [s.replace(/^-+|-+$/g, '')] is [drop_trailing] after [drop_leading] for
    the class of the hyphen. *)
Fixpoint drop_leading (cls : ascii -> bool) (s : string) : string :=
  match s with
  | EmptyString => EmptyString
  | String c s' => if cls c then drop_leading cls s' else s
  end.

Fixpoint drop_trailing (cls : ascii -> bool) (s : string) : string :=
  match s with
  | EmptyString => EmptyString
  | String c s' =>
      match drop_trailing cls s' with
      | EmptyString => if cls c then EmptyString else String c EmptyString
      | r => String c r
      end
  end.

End JS.

(** ** Ticket topics *)

Record Topic := mkTopic {
  label : string;
  value : string;
  description : string;
  emoji : option string
}.

Definition values (ts : list Topic) : list string := map value ts.

(** [topics.some(t => t.value === v)], also [topics.find(...)] used as a
    condition. *)
Definition has_value (v : string) (ts : list Topic) : bool :=
  existsb (fun t => String.eqb (value t) v) ts.

(** [topics.find(t => t.value === v)]. *)
Definition find_topic (v : string) (ts : list Topic) : option Topic :=
  List.find (fun t => String.eqb (value t) v) ts.

(** [topics.filter(t => t.value !== v)]. *)
Definition without_value (v : string) (ts : list Topic) : list Topic :=
  List.filter (fun t => negb (String.eqb (value t) v)) ts.

(** The characters a topic key may hold: [a-z0-9_]. *)
Definition key_char (c : ascii) : bool :=
  JS.is_lower c || JS.is_digit c || Ascii.eqb c "_".

(** Outcome of a topic command. The error constructors stand for the replies
    of [/ticket-topic]. *)
Inductive TopicError :=
  | TopicsNotConfigured   (* "Please run /ticket-config first ..." *)
  | InvalidTopicKey       (* "The ID ... is invalid. Please use letters, ..." *)
  | DuplicateTopicKey     (* "A topic with the ... already exists." *)
  | TopicLimitExceeded    (* "You have reached the maximum limit of 25 ..." *)
  | TopicNotFound.        (* "... not found." / "No topic with the ID ..." *)

Inductive TopicReply :=
  | TopicAdded (t : Topic)
  | TopicRemoved (v : string)
  | TopicFailed (e : TopicError).

(** ** Effects: external calls that may fail

    A handler runs against a world [W] and leaves a trace of the external
    calls it attempted, each with its outcome. A rejected promise that is
    awaited is [Thrown]; the effects performed before it stay. *)

Module Eff.

Section Types.
Context {W C : Type}.

Record State := mkState { world : W; trace : list (C * bool) }.

Inductive Outcome (A : Type) :=
  | Done (a : A)
  | Thrown.

Definition M (A : Type) : Type := State -> State * Outcome A.
End Types.

Arguments State : clear implicits.
Arguments M : clear implicits.
Arguments Done {A} a.
Arguments Thrown {A}.

Section Ops.
Context {W C : Type}.

Definition ret {A} (a : A) : M W C A := fun s => (s, Done a).

Definition bind {A B} (m : M W C A) (k : A -> M W C B) : M W C B :=
  fun s =>
    match m s with
    | (s', Done a) => k a s'
    | (s', Thrown) => (s', Thrown)
    end.

Definition throw {A} : M W C A := fun s => (s, Thrown).

(** [try { m } catch { h }] *)
Definition try_catch {A} (m h : M W C A) : M W C A :=
  fun s =>
    match m s with
    | (s', Done a) => (s', Done a)
    | (s', Thrown) => h s'
    end.

(** [m.catch(() => ...)] with a handler that only logs. *)
Definition tolerate (m : M W C unit) : M W C unit := try_catch m (ret tt).

Definition get : M W C W := fun s => (s, Done (world s)).

Definition modify (f : W -> W) : M W C unit :=
  fun s => (mkState (f (world s)) (trace s), Done tt).

(** An awaited external call [c]: recorded in the trace; when the platform
    accepts it its effect on the world takes place, otherwise it throws. *)
Definition call (accepts : C -> bool) (c : C) (effect : W -> W) : M W C unit :=
  fun s =>
    if accepts c
    then (mkState (effect (world s)) (trace s ++ [(c, true)]), Done tt)
    else (mkState (world s) (trace s ++ [(c, false)]), Thrown).

(** Start a handler on a world with an empty trace. *)
Definition run {A} (m : M W C A) (w : W) : State W C * Outcome A :=
  m (mkState w []).

(** A handler respects a relation on states when every run takes a state
    to a related one, whatever the outcome. *)
Definition respects (R : relation (State W C)) {A} (m : M W C A) : Prop :=
  forall s, R s (fst (m s)).

(** The trace only grows. *)
Definition grows : relation (State W C) :=
  fun s s' => exists t, trace s' = (trace s ++ t)%list.

(** An observation of the world stays the same. *)
Definition keeps {X} (f : W -> X) : relation (State W C) :=
  fun s s' => f (world s') = f (world s).

(** Every call added to the trace satisfies [P]. *)
Definition adds (P : C * bool -> Prop) : relation (State W C) :=
  fun s s' => exists t, trace s' = (trace s ++ t)%list /\ Forall P t.
End Ops.

End Eff.

Global Instance eff_ret {W C} : MRet (Eff.M W C) := @Eff.ret W C.
Global Instance eff_bind {W C} : MBind (Eff.M W C) :=
  fun A B k m => Eff.bind m k.

(** ** Discord objects *)

Inductive ChannelType := GuildText | GuildVoice | GuildCategory.

Definition is_text (t : ChannelType) : bool :=
  match t with GuildText => true | _ => false end.

Definition is_category (t : ChannelType) : bool :=
  match t with GuildCategory => true | _ => false end.

(** A button of the first component row of a message. *)
Record Button := mkButton { customId : string; button_label : string; disabled : bool }.

(** An embed: its fields in order, and the footer text if any. *)
Record Embed := mkEmbed {
  title : string;
  color : N;
  fields : list (string * string);
  footer : option string
}.

(** A message: author, text, the first embed if any, the buttons of the first
    component row (empty when the message has no components). *)
Record Message := mkMessage {
  author : string;
  content : string;
  embed : option Embed;
  buttons : list Button
}.

(** A channel of [guild.channels.cache]. [topic] is absent for channels that
    have none; [messages] is the history, oldest first. *)
Record Channel := mkChannel {
  id : string;
  guild : string;
  name : string;
  type : ChannelType;
  parentId : option string;
  topic : option string;
  messages : list Message
}.

(** [guild.channels.cache]: the channels of one guild, in cache order. *)
Definition guild_channels (g : string) (cs : list Channel) : list Channel :=
  List.filter (fun c => String.eqb (guild c) g) cs.

(** [cache.get(id)] where the id comes from the configuration. *)
Definition cache_get (i : option string) (cs : list Channel) : option Channel :=
  List.find (fun c => JS.strict_eq (Some (id c)) i) cs.

(** [category.children.cache] *)
Definition children (category : Channel) (cs : list Channel) : list Channel :=
  List.filter (fun c => JS.strict_eq (parentId c) (Some (id category))) cs.

(** [c.topic?.includes(s)] and [c.topic && c.topic.includes(s)] *)
Definition topic_includes (c : Channel) (s : string) : bool :=
  match topic c with
  | Some t => JS.includes t s
  | None => false
  end.

(** Replace the channel with the given id. *)
Definition update_channel (i : string) (f : Channel -> Channel)
    (cs : list Channel) : list Channel :=
  map (fun c => if String.eqb (id c) i then f c else c) cs.

Definition set_name (n : string) (c : Channel) : Channel :=
  mkChannel (id c) (guild c) n (type c) (parentId c) (topic c) (messages c).

Definition set_topic (t : string) (c : Channel) : Channel :=
  mkChannel (id c) (guild c) (name c) (type c) (parentId c) (Some t) (messages c).

Definition set_messages (ms : list Message) (c : Channel) : Channel :=
  mkChannel (id c) (guild c) (name c) (type c) (parentId c) (topic c) ms.

Definition post (m : Message) (c : Channel) : Channel :=
  set_messages (messages c ++ [m])%list c.

(** [channel.messages.fetch({ limit: n })]: the [n] most recent messages,
    newest first, each with its position in the history. *)
Definition recent (n : nat) (ms : list Message) : list (nat * Message) :=
  take n (reverse (imap (fun i m => (i, m)) ms)).

(** [message.edit(...)] on the message at a position of the history. *)
Definition edit_message (channel : string) (index : nat) (m : Message)
    (cs : list Channel) : list Channel :=
  update_channel channel (fun c => set_messages (<[index := m]> (messages c)) c) cs.

Definition remove_channel (channel : string) (cs : list Channel) : list Channel :=
  List.filter (fun c => negb (String.eqb (id c) channel)) cs.

(** ** The select-menu bot: configuration in [config.json] *)

Module Menu.

Record GuildConfig := mkGuildConfig {
  categoryId : option string;
  logsChannelId : option string;
  supportRoleId : option string;
  ticketTopics : list Topic
}.

(** The parsed [config.json]: one entry per guild id. An entry without a
    [ticketTopics] array is normalised to the empty array before use, so the
    field is a list here. *)
Abbreviation ConfigFile := (gmap string GuildConfig).

(** Whether the file system calls of this request succeed. *)
Record Io := mkIo { read_ok : bool; write_ok : bool }.

(** [readConfig]: the parsed file, the empty object when reading fails. *)
Definition readConfig (io : Io) (file : ConfigFile) : ConfigFile :=
  if read_ok io then file else ∅.

(** [writeConfig]: replaces the file; a failure is logged and swallowed. *)
Definition writeConfig (io : Io) (file new : ConfigFile) : ConfigFile :=
  if write_ok io then new else file.

Inductive TopicOp :=
  | OpAdd (label raw_value : string) (description emoji : option string)
  | OpRemove (v : string).

(** [.toLowerCase().replace(/\s+/g, '_').replace(/[^a-z0-9_]/g, '')] *)
Definition clean_value (raw : string) : string :=
  JS.filter_str key_char
    (JS.replace_runs JS.is_space "_" false (JS.toLowerCase raw)).

Definition set_topics (g : GuildConfig) (ts : list Topic) : GuildConfig :=
  mkGuildConfig (categoryId g) (logsChannelId g) (supportRoleId g) ts.

(** [ticketTopicCommand.execute] for the subcommands [add] and [remove]. *)
Definition ticketTopicCommand (io : Io) (file : ConfigFile) (guild : string)
    (op : TopicOp) : ConfigFile * TopicReply :=
  let config := readConfig io file in
  match config !! guild with
  | None => (file, TopicFailed TopicsNotConfigured)
  | Some guildConfig =>
      if negb (JS.truthy (categoryId guildConfig))
      then (file, TopicFailed TopicsNotConfigured)
      else
        let topics := ticketTopics guildConfig in
        match op with
        | OpAdd lbl raw descr emo =>
            let value := clean_value raw in
            let description :=
              if JS.truthy descr then default "" descr
              else "Click to open a ticket." in
            let emoji := if JS.truthy emo then emo else None in
            if String.eqb value "" then (file, TopicFailed InvalidTopicKey)
            else if has_value value topics
            then (file, TopicFailed DuplicateTopicKey)
            else if (25 <=? length topics)%nat
            then (file, TopicFailed TopicLimitExceeded)
            else
              let t := mkTopic lbl value description emoji in
              (writeConfig io file
                 (<[guild := set_topics guildConfig (topics ++ [t])]> config),
               TopicAdded t)
        | OpRemove v =>
            let remaining := without_value v topics in
            if (length remaining =? length topics)%nat
            then (file, TopicFailed TopicNotFound)
            else
              (writeConfig io file
                 (<[guild := set_topics guildConfig remaining]> config),
               TopicRemoved v)
        end
  end.

(** The topic list of a guild as stored in the file. *)
Definition topics_of (file : ConfigFile) (guild : string) : list Topic :=
  match file !! guild with
  | Some g => ticketTopics g
  | None => []
  end.

(** A sequence of [/ticket-topic] requests for one guild. *)
Fixpoint run_topic_ops (file : ConfigFile) (guild : string)
    (ops : list (Io * TopicOp)) : ConfigFile :=
  match ops with
  | [] => file
  | (io, op) :: ops' =>
      run_topic_ops (fst (ticketTopicCommand io file guild op)) guild ops'
  end.

(** *** Tickets *)

(** What the bot says to the requester ([reply], [editReply], [followUp],
    [update]). *)
Inductive Reply :=
  | Outdated             (* "This component is outdated or the bot is not
                            configured." *)
  | BotNotConfigured     (* "The bot is not configured on this server. ..." *)
  | NotInTicket          (* "This command can only be used inside an active
                            ticket channel." *)
  | SupportTeamOnly      (* "You must be a member of the Support Team ..." /
                            "This button is for Support Team members only." *)
  | CommandFailed        (* "An error occurred while running this command." *)
  | UnknownError         (* "An unknown error occurred. ..." *)
  | CooldownActive (seconds : Z)
                         (* "Cooldown Active! Please wait <seconds> seconds
                            before creating a new ticket." *)
  | DuplicateTicket (existing : string)
                         (* "You already have an open ticket: <#existing>." *)
  | UnknownTopic         (* "That topic seems to be outdated. ..." /
                            "An error occurred (invalid topic). ..." *)
  | TicketCreated (channel : string)
                         (* "Ticket Created! ... opened in <#channel>." *)
  | MissingPermissions   (* "Permissions Error! I failed to create the ticket
                            channel. ..." *)
  | CreateFailed         (* "An unexpected error occurred while creating your
                            ticket." *)
  | PanelNotFound        (* "Cannot find ticket control panel message." *)
  | AlreadyClaimedByOther (claimer : string)
                         (* "This ticket is already claimed by <claimer>!" *)
  | AlreadyClaimedByYou  (* "You have already claimed this ticket." *)
  | TicketClaimed        (* "Ticket claimed!" *)
  | CreatorNotFound      (* "Cannot find ticket creator ID." *)
  | ClaimButtonNotFound  (* "A critical error occurred. Cannot find claim
                            button." *)
  | LockDone (locked : bool)
                         (* "Ticket locked." / "Ticket unlocked." *)
  | LockFailed           (* "Error: Failed to set permissions. ..." *)
  | OwnerOrSupportOnly   (* "You must be the ticket owner or a Support Team
                            member to close this ticket." *)
  | ConfirmClosePrompt   (* "Are you sure? ..." with Confirm / Cancel *)
  | ClosingInProgress.   (* "Closing ticket and generating transcript..." *)

(** What the bot posts into a channel. *)
Inductive Post :=
  | Posted (m : Message)
  | ClaimNotice (user : string)
  | UnclaimNotice (user : string)
  | LockNotice (locked : bool) (user : string)
  | LockFailedNotice (user : string)
  | LogClosed (channel_name closed_by : string) (creator : option string)
      (transcript : string)
  | LogsSendFailedWarning
                         (* "Critical Error: Failed to send transcript to logs
                            channel. ... Archiving ticket..." *)
  | LogsChannelMissingWarning
                         (* "Warning: Logs channel not found. Transcript will
                            not be saved." *)
  | ClosingNotice        (* "Ticket closed. This channel will be deleted in 5
                            seconds." *)
  | CloseFailedNotice.   (* "An unexpected error occurred while closing the
                            ticket. ..." *)

Inductive Call :=
  | DeferReply
  | DeferUpdate
  | SendReply (r : Reply)
  | ShowModal (topicValue : string)
  | ChannelsCreate (c : Channel)
  | ChannelSend (channel : string) (p : Post)
  | MessagesFetchFirst (channel : string)
  | MessagesFetch (channel : string) (limit : nat)
  | MessageEdit (channel : string) (index : nat) (m : Message)
  | MessageDelete
  | OverwriteEdit (channel user : string) (send : bool)
  | CreateTranscript (channel : string)
  | SetTimeoutCooldown (user : string) (ms : Z)
  | SetTimeoutDelete (channel : string) (ms : Z)
  | ChannelDelete (channel : string).

(** The staff commands whose handlers live in [index.js]. *)
Inductive StaffCommand := TicketClaim | TicketLock | TicketUnlock.

Inductive Kind :=
  | ChatInputCommand (c : StaffCommand)
  | StringSelectMenu (customId : string) (values : list string)
  | ModalSubmit (customId subject description : string)
  | ButtonPress (customId : string).

Record Interaction := mkInteraction {
  i_guild : string;         (* interaction.guildId *)
  i_channel : string;       (* interaction.channel.id *)
  i_user : string;          (* interaction.user.id *)
  i_username : string;      (* interaction.user.username *)
  i_tag : string;           (* interaction.user.tag *)
  i_roles : list string;    (* interaction.member.roles.cache *)
  i_admin : bool;           (* member.permissions.has(Administrator) *)
  i_kind : Kind
}.

Definition isCommand (i : Interaction) : bool :=
  match i_kind i with ChatInputCommand _ => true | _ => false end.

(** The environment of one request: file system outcomes, the external calls
    the platform accepts, the id given to a created channel, whether a
    rejected channel creation carries the error code 50013, the bot's user
    id, and the clock: [now] is the first reading of [Date.now()] in the
    request, [now + clock_step] the second. *)
Record Env := mkEnv {
  fs : Io;
  accepts : Call -> bool;
  new_channel_id : string;
  missing_permissions : bool;
  client_user_id : string;
  now : Z;
  clock_step : Z
}.

Record World := mkWorld {
  file : gmap string GuildConfig;         (* config.json *)
  ticketCooldowns : gmap string Z;        (* client.ticketCooldowns *)
  channels : list Channel
}.

Abbreviation Handler := (Eff.M World Call unit).

Definition TICKET_COOLDOWN_MINUTES : Z := 3.

Definition on_channels (f : list Channel -> list Channel) (w : World) : World :=
  mkWorld (file w) (ticketCooldowns w) (f (channels w)).

Definition on_cooldowns (f : gmap string Z -> gmap string Z) (w : World) : World :=
  mkWorld (file w) (f (ticketCooldowns w)) (channels w).

Definition reply (env : Env) (r : Reply) : Handler :=
  Eff.call (accepts env) (SendReply r) (fun w => w).

Definition schedule (c : Call) : Handler :=
  Eff.call (fun _ => true) c (fun w => w).

Definition current_channel (i : Interaction) : Eff.M World Call Channel :=
  w ← Eff.get;
  match cache_get (Some (i_channel i)) (channels w) with
  | Some c => mret c
  | None => Eff.throw
  end.

(** [isTicketChannel(channel, config)] for a configuration that exists. *)
Definition isTicketChannel (channel : Channel) (config : GuildConfig) : bool :=
  if negb (JS.truthy (categoryId config)) then false
  else is_text (type channel) && JS.strict_eq (parentId channel) (categoryId config).

(** [isSupportUser(member, config)] for a configuration that exists. *)
Definition isSupportUser (i : Interaction) (config : GuildConfig) : bool :=
  if negb (JS.truthy (supportRoleId config)) then false
  else existsb (fun r => JS.strict_eq (Some r) (supportRoleId config)) (i_roles i)
       || i_admin i.

(** [getTicketCreatorId(channel)]: [/User ID: (\d+)/] on the topic. *)
Definition getTicketCreatorId (channel : Channel) : option string :=
  match topic channel with
  | Some t => if String.eqb t "" then None else JS.match_lit_digits "User ID: " t
  | None => None
  end.

(** The names and values of the fields of the control panel embed. In the
    source the two field names carry an emoji in front. *)
Definition CLAIMED_BY : string := "Claimed By".
Definition STATUS : string := "Status".
Definition UNCLAIMED : string := "`Unclaimed`".
Definition OPEN : string := "`Open`".
Definition IN_PROGRESS : string := "`In Progress`".
Definition LOCKED : string := "`Locked`".

(** [`${interaction.user}`], also [`<@${interaction.user.id}>`]. *)
Definition mention (user : string) : string := "<@" ++ user ++ ">".

(** [fields.find(f => f.name === n)], read and written. [None] stands for the
    TypeError of reading [.value] of [undefined]. *)
Definition get_field (n : string) (fs : list (string * string)) : option string :=
  snd <$> List.find (fun f => String.eqb (fst f) n) fs.

Fixpoint set_field (n v : string) (fs : list (string * string))
    : option (list (string * string)) :=
  match fs with
  | [] => None
  | f :: fs' =>
      if String.eqb (fst f) n then Some ((fst f, v) :: fs')
      else cons f <$> set_field n v fs'
  end.

Definition with_fields (e : Embed) (c : N) (fs : list (string * string)) : Embed :=
  mkEmbed (title e) c fs (footer e).

(** The test of [getControlPanelMessage]: written by the bot, and the footer
    of the first embed includes "Ticket ID:". *)
Definition is_control_panel (env : Env) (m : Message) : bool :=
  String.eqb (author m) (client_user_id env) &&
  match embed m with
  | Some e =>
      match footer e with
      | Some t => JS.includes t "Ticket ID:"
      | None => false
      end
  | None => false
  end.

(** [getControlPanelMessage(channel)]: the position and the message. *)
Definition getControlPanelMessage (env : Env) (channel : Channel)
    : Eff.M World Call (option (nat * Message)) :=
  Eff.try_catch
    (Eff.call (accepts env) (MessagesFetchFirst (id channel)) (fun w => w);;
     match messages channel with
     | first :: _ =>
         if is_control_panel env first then mret (Some (0, first))
         else
           Eff.call (accepts env) (MessagesFetch (id channel) 10) (fun w => w);;
           mret (List.find (fun im => is_control_panel env (snd im))
                   (recent 10 (messages channel)))
     | [] =>
         Eff.call (accepts env) (MessagesFetch (id channel) 10) (fun w => w);;
         mret (List.find (fun im => is_control_panel env (snd im))
                 (recent 10 (messages channel)))
     end)
    (mret None).

Definition notice (env : Env) (c : N) : Message :=
  mkMessage (client_user_id env) "" (Some (mkEmbed "" c [] None)) [].

Definition send (env : Env) (channel : string) (p : Post) (m : Message) : Handler :=
  Eff.call (accepts env) (ChannelSend channel p)
    (on_channels (update_channel channel (post m))).

Definition claim_button : Button := mkButton "ticket_claim" "Claim" false.
Definition unclaim_button : Button := mkButton "ticket_unclaim" "Unclaim" false.
Definition lock_button : Button := mkButton "ticket_lock" "Lock" false.
Definition unlock_button : Button := mkButton "ticket_unlock" "Unlock" false.
Definition close_button : Button := mkButton "ticket_close_start" "Close" false.

(** [handleSelectMenuInteraction(interaction, config)] *)
Definition handleSelectMenuInteraction (env : Env) (i : Interaction)
    (config : GuildConfig) (customId : string) (values : list string) : Handler :=
  if negb (String.eqb customId "ticket_panel_menu") then mret tt
  else
    w ← Eff.get;
    let after_cooldown_check : Handler :=
      (* 2. Existing Ticket Check *)
      let existingTicket :=
        List.find
          (fun c => JS.strict_eq (parentId c) (categoryId config) &&
                    topic_includes c ("User ID: " ++ i_user i))
          (guild_channels (i_guild i) (channels w)) in
      match existingTicket with
      | Some existing => reply env (DuplicateTicket (id existing))
      | None =>
          (* 3. Show Modal *)
          let topicValue := head values in
          match topicValue ≫= fun v => find_topic v (ticketTopics config) with
          | None => reply env UnknownTopic
          | Some _ =>
              Eff.call (accepts env) (ShowModal (default "" topicValue))
                (fun w => w)
          end
      end in
    (* 1. Cooldown Check *)
    match ticketCooldowns w !! i_user i with
    | Some cooldownData =>
        if negb (Z.eqb cooldownData 0) then
          (* Math.ceil((cooldownData - Date.now()) / 1000) *)
          reply env (CooldownActive (- ((- (cooldownData - now env)) / 1000))%Z)
        else after_cooldown_check
    | None => after_cooldown_check
    end.

(** The control panel posted into a new ticket. *)
Definition control_panel (env : Env) (i : Interaction) (t : Topic)
    (newChannel subject descr : string) : Message :=
  mkMessage (client_user_id env)
    ("Welcome " ++ mention (i_user i) ++ "!")
    (Some (mkEmbed (label t ++ " Ticket") 5793266
             [("User", mention (i_user i));
              (CLAIMED_BY, UNCLAIMED);
              (STATUS, OPEN);
              ("Subject", subject);
              ("Description", descr)]
             (Some ("Ticket ID: " ++ newChannel))))
    [claim_button; lock_button; close_button].

(** [s.substring(0, n)] *)
Fixpoint substring0 (n : nat) (s : string) : string :=
  match n, s with
  | S n', String c s' => String c (substring0 n' s')
  | _, _ => EmptyString
  end.

(** The callback of the cooldown timer:
    [client.ticketCooldowns.delete(interaction.user.id)]. *)
Definition cooldown_timer_fires (user : string) (w : World) : World :=
  on_cooldowns (delete user) w.

(** [handleModalSubmit(interaction, config)] *)
Definition handleModalSubmit (env : Env) (i : Interaction) (config : GuildConfig)
    (customId subject descr : string) : Handler :=
  match JS.strip_prefix "ticket_create_modal_" customId with
  | None => mret tt
  | Some topicValue =>
      Eff.call (accepts env) DeferReply (fun w => w);;
      match find_topic topicValue (ticketTopics config) with
      | None => reply env UnknownTopic
      | Some t =>
          Eff.try_catch
            (let channelName := value t ++ "-" ++ substring0 15 (i_username i) in
             let newChannel :=
               mkChannel (new_channel_id env) (i_guild i) channelName GuildText
                 (categoryId config)
                 (Some ("Ticket for " ++ i_tag i ++ " (User ID: " ++ i_user i
                        ++ "). Subject: " ++ subject))
                 [] in
             Eff.call (accepts env) (ChannelsCreate newChannel)
               (on_channels (fun cs => cs ++ [newChannel])%list);;
             (* Send Welcome Message & Control Panel *)
             let panel := control_panel env i t (id newChannel) subject descr in
             send env (id newChannel) (Posted panel) panel;;
             (* Set Cooldown *)
             let cooldownEndTime :=
               (now env + TICKET_COOLDOWN_MINUTES * 60 * 1000)%Z in
             Eff.modify (on_cooldowns (<[i_user i := cooldownEndTime]>));;
             schedule (SetTimeoutCooldown (i_user i)
                         (cooldownEndTime - (now env + clock_step env))%Z);;
             reply env (TicketCreated (id newChannel)))
            (if missing_permissions env then
               w ← Eff.get;
               match cache_get (categoryId config)
                       (guild_channels (i_guild i) (channels w)) with
               | Some _ => reply env MissingPermissions
               | None => Eff.throw
               end
             else reply env CreateFailed)
      end
  end.

(** [module.exports.handleClaimTicket(interaction, force)] *)
Definition handleClaimTicket (env : Env) (i : Interaction) (force : bool)
    : Handler :=
  let isCommand := force in
  Eff.call (accepts env) (if isCommand then DeferReply else DeferUpdate)
    (fun w => w);;
  channel ← current_channel i;
  controlPanelMessage ← getControlPanelMessage env channel;
  match controlPanelMessage with
  | None => reply env PanelNotFound
  | Some (index, m) =>
      match embed m ≫= fun e => pair e <$> get_field CLAIMED_BY (fields e) with
      | None => Eff.throw
      | Some (e, claimedBy) =>
          if negb (String.eqb claimedBy UNCLAIMED) &&
             negb (String.eqb claimedBy (mention (i_user i)))
          then reply env (AlreadyClaimedByOther claimedBy)
          else if String.eqb claimedBy (mention (i_user i))
          then reply env AlreadyClaimedByYou
          else
            (* Update Embed *)
            match set_field CLAIMED_BY (mention (i_user i)) (fields e)
                    ≫= set_field STATUS IN_PROGRESS with
            | None => Eff.throw
            | Some fs =>
                let newRow := [unclaim_button; lock_button; close_button] in
                let edited :=
                  mkMessage (author m) (content m)
                    (Some (with_fields e 16705372 fs)) newRow in
                Eff.call (accepts env) (MessageEdit (id channel) index edited)
                  (on_channels (edit_message (id channel) index edited));;
                send env (id channel) (ClaimNotice (i_user i))
                  (notice env 16705372);;
                if isCommand then reply env TicketClaimed else mret tt
            end
      end
  end.

(** [handleUnclaimTicket(interaction)] *)
Definition handleUnclaimTicket (env : Env) (i : Interaction) : Handler :=
  Eff.call (accepts env) DeferUpdate (fun w => w);;
  channel ← current_channel i;
  controlPanelMessage ← getControlPanelMessage env channel;
  match controlPanelMessage with
  | None => mret tt
  | Some (index, m) =>
      match embed m ≫= fun e =>
            pair e <$> (set_field CLAIMED_BY UNCLAIMED (fields e)
                          ≫= set_field STATUS OPEN) with
      | None => Eff.throw
      | Some (e, fs) =>
          let newRow := [claim_button; lock_button; close_button] in
          let edited :=
            mkMessage (author m) (content m)
              (Some (with_fields e 5793266 fs)) newRow in
          Eff.call (accepts env) (MessageEdit (id channel) index edited)
            (on_channels (edit_message (id channel) index edited));;
          send env (id channel) (UnclaimNotice (i_user i)) (notice env 5793266)
      end
  end.

(** The status the control panel shows after [lock] or [unlock]; [None]
    stands for the TypeError of a missing "Claimed By" field. *)
Definition status_after (lock : bool) (e : Embed) : option string :=
  if lock then Some LOCKED
  else
    (fun claimedBy =>
       if String.eqb claimedBy UNCLAIMED then OPEN else IN_PROGRESS)
    <$> get_field CLAIMED_BY (fields e).

Definition color_after (lock : bool) (status : string) : N :=
  if lock then 15548997
  else if String.eqb status OPEN then 5793266 else 16705372.

(** [module.exports.handleLockTicket(interaction, lock)] *)
Definition handleLockTicket (env : Env) (i : Interaction) (lock : bool)
    : Handler :=
  Eff.call (accepts env) (if isCommand i then DeferReply else DeferUpdate)
    (fun w => w);;
  channel ← current_channel i;
  match getTicketCreatorId channel with
  | None => reply env CreatorNotFound
  | Some creatorId =>
      controlPanelMessage ← getControlPanelMessage env channel;
      match controlPanelMessage with
      | None => reply env PanelNotFound
      | Some (index, m) =>
          match embed m, buttons m with
          | None, _ | _, [] => Eff.throw
          | Some e, row =>
              match List.find (fun c => JS.includes (customId c) "claim") row with
              | None => reply env ClaimButtonNotFound
              | Some claimButton =>
                  Eff.try_catch
                    (Eff.call (accepts env)
                       (OverwriteEdit (id channel) creatorId (negb lock))
                       (fun w => w);;
                     match status_after lock e ≫= fun s =>
                           pair s <$> set_field STATUS s (fields e) with
                     | None => Eff.throw
                     | Some (status, fs) =>
                         let newRow :=
                           [claimButton;
                            if lock then unlock_button else lock_button;
                            close_button] in
                         let edited :=
                           mkMessage (author m) (content m)
                             (Some (with_fields e (color_after lock status) fs))
                             newRow in
                         Eff.call (accepts env)
                           (MessageEdit (id channel) index edited)
                           (on_channels (edit_message (id channel) index edited));;
                         send env (id channel) (LockNotice lock (i_user i))
                           (notice env (if lock then 15548997 else 5763719));;
                         if isCommand i then reply env (LockDone lock)
                         else mret tt
                     end)
                    (if isCommand i then reply env LockFailed
                     else
                       send env (id channel) (LockFailedNotice (i_user i))
                         (mkMessage (client_user_id env) "Error" None []))
              end
          end
      end
  end.

(** [handleCloseButton(interaction, config)] *)
Definition handleCloseButton (env : Env) (i : Interaction) (config : GuildConfig)
    : Handler :=
  channel ← current_channel i;
  let creatorId := getTicketCreatorId channel in
  if negb (JS.strict_eq (Some (i_user i)) creatorId) &&
     negb (isSupportUser i config)
  then reply env OwnerOrSupportOnly
  else reply env ConfirmClosePrompt.

(** The callback of the deletion timer: [channel.delete().catch(...)]. *)
Definition deletion_timer_fires (env : Env) (channel : string) : Handler :=
  Eff.tolerate
    (Eff.call (accepts env) (ChannelDelete channel)
       (on_channels (remove_channel channel))).

(** [closeTicket(interaction, config)] *)
Definition closeTicket (env : Env) (i : Interaction) (config : GuildConfig)
    : Handler :=
  let plain (s : string) := mkMessage (client_user_id env) s None [] in
  acknowledged ←
    Eff.try_catch (reply env ClosingInProgress;; mret true) (mret false);
  if negb acknowledged then mret tt
  else
    channel ← current_channel i;
    Eff.try_catch
      ((* 1. Generate Transcript *)
       let transcriptFile := name channel ++ "-transcript.html" in
       Eff.call (accepts env) (CreateTranscript (id channel)) (fun w => w);;
       (* 2. Send Transcript to Logs Channel *)
       w ← Eff.get;
       let logsChannel :=
         cache_get (logsChannelId config)
           (guild_channels (i_guild i) (channels w)) in
       let creatorId := getTicketCreatorId channel in
       match logsChannel with
       | Some logs =>
           Eff.try_catch
             (Eff.call (accepts env)
                (ChannelSend (id logs)
                   (LogClosed (name channel) (i_user i) creatorId
                      transcriptFile))
                (fun w => w))
             (send env (id channel) LogsSendFailedWarning
                (plain "Critical Error"))
       | None =>
           send env (id channel) LogsChannelMissingWarning (plain "Warning")
       end;;
       (* 3. Delete Channel *)
       send env (id channel) ClosingNotice (plain "Ticket closed");;
       schedule (SetTimeoutDelete (id channel) 5000))
      (send env (id channel) CloseFailedNotice (plain "Error")).

(** [handleButtonInteraction(interaction, config)] *)
Definition handleButtonInteraction (env : Env) (i : Interaction)
    (config : GuildConfig) (customId : string) : Handler :=
  channel ← current_channel i;
  if negb (isTicketChannel channel config) then mret tt
  else
    let staffButtons :=
      ["ticket_claim"; "ticket_unclaim"; "ticket_lock"; "ticket_unlock"] in
    if existsb (String.eqb customId) staffButtons && negb (isSupportUser i config)
    then reply env SupportTeamOnly
    else if String.eqb customId "ticket_claim" then handleClaimTicket env i false
    else if String.eqb customId "ticket_unclaim" then handleUnclaimTicket env i
    else if String.eqb customId "ticket_lock" then handleLockTicket env i true
    else if String.eqb customId "ticket_unlock" then handleLockTicket env i false
    else if String.eqb customId "ticket_close_start"
    then handleCloseButton env i config
    else if String.eqb customId "ticket_close_confirm"
    then closeTicket env i config
    else if String.eqb customId "ticket_close_cancel"
    then Eff.tolerate (Eff.call (accepts env) MessageDelete (fun w => w))
    else mret tt.

(** [executeSlashCommand(interaction, config)] for the three staff commands
    whose [execute] calls back into [index.js]. *)
Definition executeSlashCommand (env : Env) (i : Interaction)
    (config : GuildConfig) (c : StaffCommand) : Handler :=
  channel ← current_channel i;
  if negb (isTicketChannel channel config) then reply env NotInTicket
  else if negb (isSupportUser i config) then reply env SupportTeamOnly
  else
    Eff.try_catch
      match c with
      | TicketClaim => handleClaimTicket env i true
      | TicketLock => handleLockTicket env i true
      | TicketUnlock => handleLockTicket env i false
      end
      (reply env CommandFailed).

(** The [interactionCreate] listener, for guild interactions. The bots's
    own [readConfig] of [index.js] differs from the one of [commands.js] only
    in creating a missing file. *)
Definition interactionCreate (env : Env) (i : Interaction) : Handler :=
  Eff.try_catch
    (w ← Eff.get;
     match readConfig (fs env) (file w) !! i_guild i with
     | None =>
         if isCommand i then reply env BotNotConfigured else reply env Outdated
     | Some config =>
         match i_kind i with
         | ChatInputCommand c => executeSlashCommand env i config c
         | StringSelectMenu customId values =>
             handleSelectMenuInteraction env i config customId values
         | ModalSubmit customId subject descr =>
             handleModalSubmit env i config customId subject descr
         | ButtonPress customId => handleButtonInteraction env i config customId
         end
     end)
    (Eff.tolerate (reply env UnknownError)).

End Menu.

(** ** The database-backed bot *)

Module Db.

Record GuildConfig := mkGuildConfig {
  categoryId : option string;
  logsChannelId : option string;
  supportRoleId : option string;
  ticketTopics : list Topic
}.

(** The [GuildConfig] collection, keyed by [guildId]. *)
Abbreviation Store := (gmap string GuildConfig).

(** Whether the database calls of this request succeed. *)
Record Io := mkIo { read_ok : bool; write_ok : bool }.

Definition default_config : GuildConfig := mkGuildConfig None None None [].

(** [getGuildConfig]: find the document or insert one with the defaults; when
    the call fails the unconfigured default is returned and nothing is
    stored. *)
Definition getGuildConfig (io : Io) (db : Store) (guild : string)
    : Store * GuildConfig :=
  if read_ok io then
    match db !! guild with
    | Some c => (db, c)
    | None => (<[guild := default_config]> db, default_config)
    end
  else (db, default_config).

Definition or_null (v : option string) : option string :=
  if JS.truthy v then v else None.

(** [setGuildConfig]: overwrite the four fields of the guild's document
    (upsert); a failure is logged and swallowed. *)
Definition setGuildConfig (io : Io) (db : Store) (guild : string)
    (newConfig : GuildConfig) : Store :=
  if write_ok io then
    <[guild := mkGuildConfig (or_null (categoryId newConfig))
                 (or_null (logsChannelId newConfig))
                 (or_null (supportRoleId newConfig))
                 (ticketTopics newConfig)]> db
  else db.

Inductive TopicOp :=
  | OpAdd (label raw_value description : string) (emoji : option string)
  | OpRemove (v : string).

(** [.toLowerCase().replace(/[^a-z0-9_]+/g, '')] *)
Definition clean_value (raw : string) : string :=
  JS.filter_str key_char (JS.toLowerCase raw).

Definition set_topics (g : GuildConfig) (ts : list Topic) : GuildConfig :=
  mkGuildConfig (categoryId g) (logsChannelId g) (supportRoleId g) ts.

(** [ticketTopicCommand.execute] for the subcommands [add] and [remove]. *)
Definition ticketTopicCommand (io : Io) (db : Store) (guild : string)
    (op : TopicOp) : Store * TopicReply :=
  let '(db1, config) := getGuildConfig io db guild in
  let topics := ticketTopics config in
  match op with
  | OpAdd lbl raw descr emo =>
      let value := clean_value raw in
      if has_value value topics
      then (db1, TopicFailed DuplicateTopicKey)
      else
        let newTopic := mkTopic lbl value descr emo in
        (setGuildConfig io db1 guild (set_topics config (topics ++ [newTopic])),
         TopicAdded newTopic)
  | OpRemove valueToRemove =>
      let remaining := without_value valueToRemove topics in
      if (length remaining =? length topics)%nat
      then (db1, TopicFailed TopicNotFound)
      else
        (setGuildConfig io db1 guild (set_topics config remaining),
         TopicRemoved valueToRemove)
  end.

Definition topics_of (db : Store) (guild : string) : list Topic :=
  match db !! guild with
  | Some g => ticketTopics g
  | None => []
  end.

Fixpoint run_topic_ops (db : Store) (guild : string)
    (ops : list (Io * TopicOp)) : Store :=
  match ops with
  | [] => db
  | (io, op) :: ops' =>
      run_topic_ops (fst (ticketTopicCommand io db guild op)) guild ops'
  end.

(** *** Tickets *)

(** What the bot says to the requester ([interaction.reply], [editReply]). *)
Inductive Reply :=
  | NotConfigured        (* "The ticketing system is not fully configured ..." *)
  | UnknownTopic         (* "Invalid ticket topic selected." *)
  | DuplicateTicket (existing : string)
                         (* "You already have an open ticket: <#existing> ..." *)
  | TicketCreated (channel : string)
                         (* "Your ticket has been created! Head over to ..." *)
  | CreateFailed         (* "There was an error creating your ticket ..." *)
  | NotATicketChannel    (* "This command must be used in a ticket channel." *)
  | StaffInTicketOnly    (* "This command can only be used by support staff in
                            a ticket channel." *)
  | ConfirmClosePrompt   (* "Are you sure you want to close this ticket? ..." *)
  | ClosedAndArchived (channel_name : string)
                         (* "Ticket ... has been closed and archived." *)
  | CloseFailed          (* "An error occurred during the closing process ..." *)
  | SupportRoleOnly      (* "Only users with the configured support role can
                            claim a ticket." *)
  | AlreadyClaimedByYou  (* "You have already claimed this ticket." *)
  | AlreadyClaimedByOther (claimer : string)
                         (* "This ticket is already claimed by <@claimer> ..." *)
  | Claimed (user : string)
                         (* "This ticket has been claimed by <@user> ..." *)
  | ClaimFailed          (* "An error occurred while claiming the ticket." *)
  | CreatorNotFound      (* "Could not find the original ticket creator ..." *)
  | LockChanged (locked : bool) (by_user creator : string)
                         (* "Ticket has been locked/unlocked by ..." *)
  | LockFailed (locked : bool)
                         (* "An error occurred while locking/unlocking ..." *)
  | InvalidName          (* "The new name must be between 2 and 100 characters
                            after cleanup." *)
  | Renamed (new_name by_user : string)
                         (* "Ticket channel renamed to #new_name by ..." *)
  | RenameFailed         (* "An error occurred while renaming the ticket ..." *)
  | UserChanged (added : bool) (user by_user : string)
                         (* "<@user> has been added to / removed from ..." *)
  | UserChangeFailed (added : bool).
                         (* "An error occurred while adding/removing ..." *)

(** What the bot posts into a channel or sends as a direct message. *)
Inductive Post :=
  | Welcome (m : Message)
  | LogOpened (number : JS.Number) (user channel topic_label : string)
  | LogClosed (channel_name : string) (ticket_user : option string)
      (closed_by channel : string) (transcript : string)
  | DmClosed (guild_name channel_name closed_by transcript : string)
  | ClosingNotice (closed_by : string).

(** The external calls of the handlers. *)
Inductive Call :=
  | DeferReply
  | SendReply (r : Reply)
  | ChannelsCreate (c : Channel)
  | ChannelSend (channel : string) (p : Post)
  | CreateTranscript (channel : string)
  | UsersFetch (user : string)
  | UserSend (user : string) (p : Post)
  | SetTopic (channel new_topic : string)
  | SetName (channel new_name : string)
  | OverwriteEdit (channel user : string) (view send attach : option bool)
  | OverwriteDelete (channel user : string)
  | MessagesFetch (channel : string) (limit : nat)
  | MessageEdit (channel : string) (index : nat) (new_buttons : list Button)
  | SetTimeoutDelete (channel : string) (ms : N)
  | ChannelDelete (channel : string).

(** The environment of one request: the outcome of its database calls, which
    external calls the platform accepts, the id the platform gives to a
    channel created by the request, and the bot's own user id. *)
Record Env := mkEnv {
  db_io : Io;
  accepts : Call -> bool;
  new_channel_id : string;
  client_user_id : string
}.

Record World := mkWorld {
  store : gmap string GuildConfig;
  channels : list Channel
}.

Record Interaction := mkInteraction {
  i_guild : string;         (* interaction.guild.id *)
  i_guild_name : string;    (* interaction.guild.name *)
  i_channel : string;       (* interaction.channel.id *)
  i_user : string;          (* interaction.user.id *)
  i_roles : list string;    (* interaction.member.roles.cache *)
  i_acknowledged : bool     (* interaction.deferred || interaction.replied *)
}.

Abbreviation Handler := (Eff.M World Call unit).

Definition fetchGuildConfig (env : Env) (g : string) : Eff.M World Call GuildConfig :=
  w ← Eff.get;
  let '(db1, config) := getGuildConfig (db_io env) (store w) g in
  Eff.modify (fun w => mkWorld db1 (channels w));;
  mret config.

Definition reply (env : Env) (r : Reply) : Handler :=
  Eff.call (accepts env) (SendReply r) (fun w => w).

(** [interaction.channel], looked up in the cache. *)
Definition current_channel (i : Interaction) : Eff.M World Call Channel :=
  w ← Eff.get;
  match cache_get (Some (i_channel i)) (channels w) with
  | Some c => mret c
  | None => Eff.throw
  end.

Definition on_channels (f : list Channel -> list Channel) (w : World) : World :=
  mkWorld (store w) (f (channels w)).

(** The number captured by [/ticket-(\d+)/] in a channel name. *)
Definition ticket_number (channel_name : string) : option JS.Number :=
  JS.parseInt <$> JS.match_lit_digits "ticket-" channel_name.

(** [getNextTicketNumber(guild, categoryId)], on the guild's channel cache. *)
Definition getNextTicketNumber (cache : list Channel) (categoryId : option string)
    : JS.Number :=
  match cache_get categoryId cache with
  | None => JS.Finite 1
  | Some category =>
      if negb (is_category (type category)) then JS.Finite 1
      else
        let ticketChannels :=
          List.filter
            (fun c => JS.startsWith (name c) "ticket-" && is_text (type c))
            (children category cache) in
        let maxNumber :=
          fold_left
            (fun maxNumber channel =>
               match ticket_number (name channel) with
               | Some number =>
                   if JS.gt number maxNumber then number else maxNumber
               | None => maxNumber
               end)
            ticketChannels (JS.Finite 0) in
        JS.add1 maxNumber
  end.

Definition welcome_message (i : Interaction) (config : GuildConfig) (t : Topic)
    (issueDescription : option string) : Message :=
  mkMessage ""
    ("<@" ++ i_user i ++ "> <@&" ++ default "" (supportRoleId config) ++ ">")
    (Some (mkEmbed ("New Ticket Opened: " ++ label t) 39423
             [("Opened By", "<@" ++ i_user i ++ ">"); ("Topic", label t)] None))
    [mkButton "ticket_claim" "Claim Ticket" false;
     mkButton "ticket_close_confirm" "Close" false].

(** [handleTicketCreation(interaction, topicValue, issueDescription)] *)
Definition handleTicketCreation (env : Env) (i : Interaction)
    (topicValue : string) (issueDescription : option string) : Handler :=
  config ← fetchGuildConfig env (i_guild i);
  if negb (JS.truthy (categoryId config)) || negb (JS.truthy (supportRoleId config))
  then Eff.tolerate (reply env NotConfigured)
  else
    match find_topic topicValue (ticketTopics config) with
    | None => Eff.tolerate (reply env UnknownTopic)
    | Some t =>
        w ← Eff.get;
        let cache := guild_channels (i_guild i) (channels w) in
        let existingTicket :=
          List.find
            (fun c => JS.startsWith (name c) "ticket-" &&
                      topic_includes c ("UserID: " ++ i_user i))
            cache in
        match existingTicket with
        | Some existing => Eff.tolerate (reply env (DuplicateTicket (id existing)))
        | None =>
            let ticketNumber := getNextTicketNumber cache (categoryId config) in
            let channelName := "ticket-" ++ JS.number_to_string ticketNumber in
            let ticketChannel :=
              mkChannel (new_channel_id env) (i_guild i) channelName GuildText
                (categoryId config)
                (Some ("Ticket ID: " ++ channelName ++ " | UserID: " ++ i_user i
                       ++ " | Topic: " ++ label t))
                [] in
            let welcome :=
              let m := welcome_message i config t issueDescription in
              mkMessage (client_user_id env) (content m) (embed m) (buttons m) in
            Eff.try_catch
              (Eff.call (accepts env) (ChannelsCreate ticketChannel)
                 (on_channels (fun cs => cs ++ [ticketChannel])%list);;
               Eff.call (accepts env)
                 (ChannelSend (id ticketChannel) (Welcome welcome))
                 (on_channels (update_channel (id ticketChannel) (post welcome)));;
               reply env (TicketCreated (id ticketChannel));;
               if JS.truthy (logsChannelId config) then
                 w' ← Eff.get;
                 match cache_get (logsChannelId config)
                         (guild_channels (i_guild i) (channels w')) with
                 | Some logsChannel =>
                     Eff.tolerate
                       (Eff.call (accepts env)
                          (ChannelSend (id logsChannel)
                             (LogOpened ticketNumber (i_user i)
                                (id ticketChannel) (label t)))
                          (fun w => w))
                 | None => mret tt
                 end
               else mret tt)
              (Eff.tolerate (reply env CreateFailed))
        end
    end.

Definition schedule (c : Call) : Handler :=
  Eff.call (fun _ => true) c (fun w => w).

(** The callback of the deletion timer of a closed ticket:
    [channel.delete().catch(...)]. *)
Definition deletion_timer_fires (env : Env) (channel : string) : Handler :=
  Eff.tolerate
    (Eff.call (accepts env) (ChannelDelete channel)
       (on_channels (remove_channel channel))).

(** [channel.topic?.match(/UserID: (\d+)/)] *)
Definition ticket_user_id (c : Channel) : option string :=
  match topic c with
  | Some t => JS.match_lit_digits "UserID: " t
  | None => None
  end.

(** [interaction.member.roles.cache.has(config.supportRoleId)] *)
Definition has_support_role (i : Interaction) (config : GuildConfig) : bool :=
  existsb (fun r => JS.strict_eq (Some r) (supportRoleId config)) (i_roles i).

(** [handleCloseTicketConfirm(interaction)] *)
Definition handleCloseTicketConfirm (env : Env) (i : Interaction) : Handler :=
  channel ← current_channel i;
  config ← fetchGuildConfig env (i_guild i);
  if negb (JS.startsWith (name channel) "ticket-") ||
     negb (has_support_role i config)
  then reply env StaffInTicketOnly
  else reply env ConfirmClosePrompt.

(** [handleCloseTicket(interaction, silent)] *)
Definition handleCloseTicket (env : Env) (i : Interaction) (silent : bool)
    : Handler :=
  channel ← current_channel i;
  config ← fetchGuildConfig env (i_guild i);
  if negb (JS.startsWith (name channel) "ticket-")
  then reply env NotATicketChannel
  else
    (if i_acknowledged i then mret tt
     else Eff.call (accepts env) DeferReply (fun w => w));;
    Eff.try_catch
      ((* 1. Generate Transcript *)
       let transcriptFile := name channel ++ ".html" in
       Eff.call (accepts env) (CreateTranscript (id channel)) (fun w => w);;
       ticketUser ←
         match ticket_user_id channel with
         | Some u =>
             Eff.call (accepts env) (UsersFetch u) (fun w => w);; mret (Some u)
         | None => mret None
         end;
       (* 2. Send Log/Transcript *)
       (if JS.truthy (logsChannelId config) then
          w ← Eff.get;
          match cache_get (logsChannelId config)
                  (guild_channels (i_guild i) (channels w)) with
          | Some logsChannel =>
              Eff.tolerate
                (Eff.call (accepts env)
                   (ChannelSend (id logsChannel)
                      (LogClosed (name channel) ticketUser (i_user i)
                         (id channel) transcriptFile))
                   (fun w => w))
          | None => mret tt
          end
        else mret tt);;
       (* 3. Notify User via DM *)
       match ticketUser with
       | Some u =>
           Eff.tolerate
             (Eff.call (accepts env)
                (UserSend u
                   (DmClosed (i_guild_name i) (name channel) (i_user i)
                      transcriptFile))
                (fun w => w))
       | None => mret tt
       end;;
       (* 4. Notify Ticket Channel and Delete *)
       (if negb silent
        then Eff.call (accepts env)
               (ChannelSend (id channel) (ClosingNotice (i_user i)))
               (fun w => w)
        else mret tt);;
       reply env (ClosedAndArchived (name channel));;
       schedule (SetTimeoutDelete (id channel) 5000))
      (Eff.tolerate (reply env CloseFailed)).

(** [new ButtonBuilder(c)] for a component [c] of a received message: the
    constructor expects the data of a button, and a component object does not
    hold them as properties of its own, so the builder takes over neither the
    custom id nor the label, the style or the disabled state of [c]. *)
Definition rebuilt (c : Button) : Button := mkButton "" "" false.

(** The replacement row of [handleClaimTicket]: a disabled "Claimed" button,
    then one rebuilt button for each button of the old row other than
    [ticket_claim]. *)
Definition claimed_row (old : list Button) : list Button :=
  mkButton "ticket_claimed_disabled" "Claimed" true ::
  map rebuilt
    (List.filter (fun c => negb (String.eqb (customId c) "ticket_claim")) old).

(** [handleClaimTicket(interaction, forceClaim)] *)
Definition handleClaimTicket (env : Env) (i : Interaction) (forceClaim : bool)
    : Handler :=
  Eff.call (accepts env) DeferReply (fun w => w);;
  channel ← current_channel i;
  config ← fetchGuildConfig env (i_guild i);
  if negb (has_support_role i config) then reply env SupportRoleOnly
  else
    let currentTopic := default "" (topic channel) in
    let claimedMatch := JS.match_lit_digits "Claimed By: " currentTopic in
    match claimedMatch, forceClaim with
    | Some currentClaimerId, false =>
        if String.eqb currentClaimerId (i_user i)
        then reply env AlreadyClaimedByYou
        else reply env (AlreadyClaimedByOther currentClaimerId)
    | _, _ =>
        Eff.try_catch
          (let newTopic := JS.remove_lit_digits " | Claimed By: " currentTopic in
           let claimedTopic := newTopic ++ " | Claimed By: " ++ i_user i in
           Eff.call (accepts env) (SetTopic (id channel) claimedTopic)
             (on_channels (update_channel (id channel) (set_topic claimedTopic)));;
           Eff.call (accepts env) (MessagesFetch (id channel) 5) (fun w => w);;
           let initialMessage :=
             List.find
               (fun im =>
                  existsb (fun c => String.eqb (customId c) "ticket_claim")
                    (buttons (snd im)))
               (recent 5 (messages channel)) in
           match initialMessage with
           | Some (index, m) =>
               let updatedRow := claimed_row (buttons m) in
               Eff.tolerate
                 (Eff.call (accepts env)
                    (MessageEdit (id channel) index updatedRow)
                    (on_channels
                       (edit_message (id channel) index
                          (mkMessage (author m) (content m) (embed m) updatedRow))))
           | None => mret tt
           end;;
           reply env (Claimed (i_user i)))
          (reply env ClaimFailed)
    end.

(** [handleLockTicket(interaction, lockState)] *)
Definition handleLockTicket (env : Env) (i : Interaction) (lockState : bool)
    : Handler :=
  channel ← current_channel i;
  _ ← fetchGuildConfig env (i_guild i);
  if negb (JS.startsWith (name channel) "ticket-")
  then reply env NotATicketChannel
  else
    match ticket_user_id channel with
    | None => reply env CreatorNotFound
    | Some ticketUserId =>
        Eff.try_catch
          (Eff.call (accepts env)
             (OverwriteEdit (id channel) ticketUserId None
                (Some (negb lockState)) None)
             (fun w => w);;
           reply env (LockChanged lockState (i_user i) ticketUserId))
          (reply env (LockFailed lockState))
    end.

(** [newName.toLowerCase().replace(/[^a-z0-9]+/g, '-').replace(/^-+|-+$/g, '')] *)
Definition name_char (c : ascii) : bool := JS.is_lower c || JS.is_digit c.

Definition is_hyphen (c : ascii) : bool := Ascii.eqb c "-".

Definition safe_name (newName : string) : string :=
  JS.drop_trailing is_hyphen
    (JS.drop_leading is_hyphen
       (JS.replace_runs (fun c => negb (name_char c)) "-" false
          (JS.toLowerCase newName))).

(** [handleRenameTicket(interaction, newName)] *)
Definition handleRenameTicket (env : Env) (i : Interaction) (newName : string)
    : Handler :=
  channel ← current_channel i;
  if negb (JS.startsWith (name channel) "ticket-")
  then reply env NotATicketChannel
  else
    let safeName := safe_name newName in
    if (String.length safeName <? 2)%nat || (100 <? String.length safeName)%nat
    then reply env InvalidName
    else
      Eff.try_catch
        (Eff.call (accepts env) (SetName (id channel) safeName)
           (on_channels (update_channel (id channel) (set_name safeName)));;
         reply env (Renamed safeName (i_user i)))
        (reply env RenameFailed).

(** [handleUserManagement(interaction, userToManage, isAdd)] *)
Definition handleUserManagement (env : Env) (i : Interaction)
    (userToManage : string) (isAdd : bool) : Handler :=
  channel ← current_channel i;
  if negb (JS.startsWith (name channel) "ticket-")
  then reply env NotATicketChannel
  else
    Eff.try_catch
      (if isAdd then
         Eff.call (accepts env)
           (OverwriteEdit (id channel) userToManage (Some true) (Some true)
              (Some true))
           (fun w => w);;
         reply env (UserChanged true userToManage (i_user i))
       else
         Eff.call (accepts env) (OverwriteDelete (id channel) userToManage)
           (fun w => w);;
         reply env (UserChanged false userToManage (i_user i)))
      (reply env (UserChangeFailed isAdd)).

End Db.

(** ** Concrete configurations used in the examples *)

Module Sample.

Definition all_ok_menu : Menu.Io := Menu.mkIo true true.
Definition all_ok_db : Db.Io := Db.mkIo true true.

(** Twenty-five topics with the keys [a] .. [y]. *)
Definition topics25 : list Topic :=
  map (fun c => mkTopic "Topic" (String c EmptyString) "Help" None)
    (String.list_ascii_of_string "abcdefghijklmnopqrstuvwxy").

Definition menu_guild (ts : list Topic) : Menu.GuildConfig :=
  Menu.mkGuildConfig (Some "500") (Some "600") (Some "700") ts.

Definition db_guild (ts : list Topic) : Db.GuildConfig :=
  Db.mkGuildConfig (Some "500") (Some "600") (Some "700") ts.

Definition billing : Topic := mkTopic "Billing" "billing" "Payments" None.

End Sample.

(** Whether the first, or the last, character of a string is in a class. *)
Definition first_char_is (cls : ascii -> bool) (s : string) : bool :=
  match s with
  | EmptyString => false
  | String c _ => cls c
  end.

Fixpoint last_char_is (cls : ascii -> bool) (s : string) : bool :=
  match s with
  | EmptyString => false
  | String c EmptyString => cls c
  | String _ s' => last_char_is cls s'
  end.

(** The sanitization of a topic key as the specification words it:
    lower-case, then strip every character outside [a-z0-9_]. *)
Definition spec_sanitize (raw : string) : string :=
  JS.filter_str key_char (JS.toLowerCase raw).


(** The numbered scheme in the words of the specification. *)

(** A decimal digit, and its value. *)
Definition spec_digit (c : ascii) : Prop :=
  (N_of_ascii "0" <= N_of_ascii c <= N_of_ascii "9")%N.

Fixpoint spec_all_digits (s : string) : Prop :=
  match s with
  | EmptyString => True
  | String c s' => spec_digit c /\ spec_all_digits s'
  end.

(** The end of a string, or a character that is no digit. *)
Definition spec_no_digit_first (s : string) : Prop :=
  match s with
  | EmptyString => True
  | String c _ => ~ spec_digit c
  end.

(** The number that a string of digits denotes: each digit counts with the
    power of ten of its position. *)
Fixpoint spec_digits_value (ds : string) : N :=
  match ds with
  | EmptyString => 0
  | String c ds' =>
      ((N_of_ascii c - N_of_ascii "0") * 10 ^ N.of_nat (String.length ds')
       + spec_digits_value ds')%N
  end.

(** The digits that a channel name shows as its ticket number: the run of
    digits behind the first [ticket-] that a digit follows. For a name
    [ticket-<digits>] this is its numeric suffix. *)
Inductive spec_number_digits : string -> string -> Prop :=
  | number_digits_here (ds rest : string) :
      ds <> "" -> spec_all_digits ds -> spec_no_digit_first rest ->
      spec_number_digits ("ticket-" ++ ds ++ rest) ds
  | number_digits_later (c : ascii) (s ds : string) :
      (forall rest, String c s = "ticket-" ++ rest -> spec_no_digit_first rest) ->
      spec_number_digits s ds ->
      spec_number_digits (String c s) ds.

(** The channel that the cache holds under an id; the ids are the keys of the
    cache, so no other channel of the cache has that id. *)
Definition spec_cached (cache : list Channel) (i : option string) (c : Channel)
    : Prop :=
  i = Some (id c)
  /\ c ∈ cache
  /\ forall c', c' ∈ cache -> id c' = id c -> c' = c.

(** The cache holds no channel under an id. *)
Definition spec_not_cached (cache : list Channel) (i : option string) : Prop :=
  forall c, c ∈ cache -> i <> Some (id c).

(** A sibling of the numbered scheme: a text channel whose parent is the
    category and whose name starts with [ticket-]. *)
Definition spec_ticket_sibling (category c : Channel) : Prop :=
  parentId c = Some (id category)
  /\ type c = GuildText
  /\ exists rest, name c = "ticket-" ++ rest.

(** [k] is the number of a sibling in the cache. *)
Definition spec_sibling_number (cache : list Channel) (category : Channel)
    (k : N) : Prop :=
  exists c ds,
    c ∈ cache
    /\ spec_ticket_sibling category c
    /\ spec_number_digits (name c) ds
    /\ k = spec_digits_value ds.


(** ** The precondition checks of ticket creation *)

Inductive CreationFailure :=
  | FailNotConfigured
  | FailUnknownTopic
  | FailDuplicateTicket (existing : string)
  | FailCooldownActive (seconds : Z).

(** The order of the checks as the specification gives it: configuration,
    topic, open ticket, cooldown; the first failure wins. *)
Definition spec_creation_check (configured topic_exists : bool)
    (open_ticket : option string) (cooldown_seconds : option Z)
    : option CreationFailure :=
  if negb configured then Some FailNotConfigured
  else if negb topic_exists then Some FailUnknownTopic
  else
    match open_ticket with
    | Some existing => Some (FailDuplicateTicket existing)
    | None =>
        match cooldown_seconds with
        | Some s => Some (FailCooldownActive s)
        | None => None
        end
    end.

(** The order of the select-menu bot: configuration, cooldown, open ticket,
    topic. *)
Definition menu_creation_check (configured topic_exists : bool)
    (open_ticket : option string) (cooldown_seconds : option Z)
    : option CreationFailure :=
  if negb configured then Some FailNotConfigured
  else
    match cooldown_seconds with
    | Some s => Some (FailCooldownActive s)
    | None =>
        match open_ticket with
        | Some existing => Some (FailDuplicateTicket existing)
        | None => if negb topic_exists then Some FailUnknownTopic else None
        end
    end.

(** The failure a reply of the database-backed bot reports, if any. *)
Definition db_failure_of (c : Db.Call) : option CreationFailure :=
  match c with
  | Db.SendReply Db.NotConfigured => Some FailNotConfigured
  | Db.SendReply Db.UnknownTopic => Some FailUnknownTopic
  | Db.SendReply (Db.DuplicateTicket e) => Some (FailDuplicateTicket e)
  | _ => None
  end.

Definition menu_failure_of (c : Menu.Call) : option CreationFailure :=
  match c with
  | Menu.SendReply Menu.Outdated => Some FailNotConfigured
  | Menu.SendReply Menu.UnknownTopic => Some FailUnknownTopic
  | Menu.SendReply (Menu.DuplicateTicket e) => Some (FailDuplicateTicket e)
  | Menu.SendReply (Menu.CooldownActive s) => Some (FailCooldownActive s)
  | _ => None
  end.

(** The failure reported by the first call of a trace. *)
Definition first_failure {C : Type} (failure_of : C -> option CreationFailure)
    (trace : list (C * bool)) : option CreationFailure :=
  head trace ≫= fun cb => failure_of (fst cb).

Definition db_creates_channel (trace : list (Db.Call * bool)) : bool :=
  existsb (fun cb => match fst cb with Db.ChannelsCreate _ => true | _ => false end)
    trace.

Definition menu_creates_channel (trace : list (Menu.Call * bool)) : bool :=
  existsb
    (fun cb => match fst cb with Menu.ChannelsCreate _ => true | _ => false end)
    trace.

(** What the checks of the database-backed bot look at. *)
Definition db_configured (config : Db.GuildConfig) : bool :=
  JS.truthy (Db.categoryId config) && JS.truthy (Db.supportRoleId config).

Definition db_open_ticket (cache : list Channel) (user : string) : option string :=
  id <$> List.find
           (fun c => JS.startsWith (name c) "ticket-" &&
                     topic_includes c ("UserID: " ++ user))
           cache.

(** What the checks of the select-menu bot look at. *)
Definition menu_open_ticket (config : Menu.GuildConfig) (cache : list Channel)
    (user : string) : option string :=
  id <$> List.find
           (fun c => JS.strict_eq (parentId c) (Menu.categoryId config) &&
                     topic_includes c ("User ID: " ++ user))
           cache.

Definition menu_cooldown_seconds (cooldowns : gmap string Z) (user : string)
    (now : Z) : option Z :=
  match cooldowns !! user with
  | Some cooldownData =>
      if Z.eqb cooldownData 0 then None
      else Some (- ((- (cooldownData - now)) / 1000))%Z
  | None => None
  end.

Definition topic_exists (v : option string) (ts : list Topic) : bool :=
  match v ≫= fun v => find_topic v ts with Some _ => true | None => false end.


(** The expiry the select-menu bot writes into the cooldown map:
    [Date.now() + TICKET_COOLDOWN_MINUTES * 60 * 1000]. *)
Definition cooldown_expiry (env : Menu.Env) : Z :=
  (Menu.now env + 3 * 60 * 1000)%Z.

(** A guild "1" with a ticket category and a logs channel, a second guild "2",
    the user "77" (alice) and the staff member "88" (bob). *)
Module Scene.

Definition category : Channel :=
  mkChannel "500" "1" "Tickets" GuildCategory None None [].

Definition logs : Channel :=
  mkChannel "600" "1" "ticket-logs" GuildText None None [].

Definition category2 : Channel :=
  mkChannel "510" "2" "Tickets" GuildCategory None None [].

Definition menu_config : Menu.GuildConfig :=
  Menu.mkGuildConfig (Some "500") (Some "600") (Some "700") [Sample.billing].

Definition menu_config2 : Menu.GuildConfig :=
  Menu.mkGuildConfig (Some "510") None (Some "710") [Sample.billing].

Definition menu_env : Menu.Env :=
  Menu.mkEnv Sample.all_ok_menu (fun _ => true) "900" false "42" 1000000 5.

Definition menu_world : Menu.World :=
  Menu.mkWorld {[ "1" := menu_config; "2" := menu_config2 ]} ∅
    [category; logs; category2].

Definition alice (k : Menu.Kind) : Menu.Interaction :=
  Menu.mkInteraction "1" "600" "77" "alice" "alice#0001" [] false k.

Definition alice_elsewhere (k : Menu.Kind) : Menu.Interaction :=
  Menu.mkInteraction "2" "610" "77" "alice" "alice#0001" [] false k.

Definition submit_billing : Menu.Kind :=
  Menu.ModalSubmit "ticket_create_modal_billing" "Refund"
    "I was charged twice this month.".

Definition select (v : string) : Menu.Kind :=
  Menu.StringSelectMenu "ticket_panel_menu" [v].

(** The world after alice opened a ticket in guild "1". *)
Definition menu_world_after_ticket : Menu.World :=
  Eff.world (fst (Eff.run (Menu.interactionCreate menu_env (alice submit_billing))
                    menu_world)).

End Scene.


(** The same guild for the database-backed bot, with the open ticket
    [ticket-7] of alice. *)
Module DbScene.

Definition config : Db.GuildConfig :=
  Db.mkGuildConfig (Some "500") (Some "600") (Some "700") [Sample.billing].

Definition env : Db.Env := Db.mkEnv Sample.all_ok_db (fun _ => true) "900" "42".

Definition welcome : Message :=
  mkMessage "42" "<@77> <@&700>"
    (Some (mkEmbed "New Ticket Opened: Billing" 39423
             [("Opened By", "<@77>"); ("Topic", "Billing")] None))
    [mkButton "ticket_claim" "Claim Ticket" false;
     mkButton "ticket_close_confirm" "Close" false].

Definition ticket7 : Channel :=
  mkChannel "807" "1" "ticket-7" GuildText (Some "500")
    (Some "Ticket ID: ticket-7 | UserID: 77 | Topic: Billing") [welcome].

Definition world : Db.World :=
  Db.mkWorld {[ "1" := config ]} [Scene.category; Scene.logs; ticket7].

(** An interaction of alice, and one of the staff member bob, in [ticket-7]. *)
Definition alice : Db.Interaction :=
  Db.mkInteraction "1" "Guild One" "807" "77" [] false.

Definition bob : Db.Interaction :=
  Db.mkInteraction "1" "Guild One" "807" "88" ["700"] false.

End DbScene.


(** Whether a trace of the database-backed bot holds the reply "This command
    must be used in a ticket channel." *)
Definition db_refused (trace : list (Db.Call * bool)) : bool :=
  existsb
    (fun cb =>
       match fst cb with
       | Db.SendReply Db.NotATicketChannel => true
       | _ => false
       end)
    trace.


(** ** Reading the traces of a close *)

(** Number of calls of a trace that satisfy a test, accepted or not. *)
Definition count_calls {C : Type} (p : C -> bool) (trace : list (C * bool)) : nat :=
  length (List.filter (fun cb => p (fst cb)) trace).

Definition db_is_transcript (c : Db.Call) : bool :=
  match c with Db.CreateTranscript _ => true | _ => false end.

(** A message to the given channel that carries the transcript file. *)
Definition db_is_log_with (logs transcript : string) (c : Db.Call) : bool :=
  match c with
  | Db.ChannelSend ch (Db.LogClosed _ _ _ _ file) =>
      String.eqb ch logs && String.eqb file transcript
  | _ => false
  end.

(** A direct message to the given user that carries the transcript file. *)
Definition db_is_dm_with (user transcript : string) (c : Db.Call) : bool :=
  match c with
  | Db.UserSend u (Db.DmClosed _ _ _ file) =>
      String.eqb u user && String.eqb file transcript
  | _ => false
  end.

(** What was posted into the given channel, in order. *)
Definition db_posts_in (channel : string) (trace : list (Db.Call * bool))
    : list Db.Post :=
  omap
    (fun cb =>
       match fst cb with
       | Db.ChannelSend ch p => if String.eqb ch channel then Some p else None
       | _ => None
       end)
    trace.

Definition db_is_delete (channel : string) (c : Db.Call) : bool :=
  match c with
  | Db.SetTimeoutDelete ch _ => String.eqb ch channel
  | _ => false
  end.

(** The timer that deletes the channel after the given delay. *)
Definition db_is_delete_after (channel : string) (ms : N) (c : Db.Call) : bool :=
  match c with
  | Db.SetTimeoutDelete ch delay => String.eqb ch channel && (delay =? ms)%N
  | _ => false
  end.

Definition menu_is_transcript (c : Menu.Call) : bool :=
  match c with Menu.CreateTranscript _ => true | _ => false end.

Definition menu_is_log_with (logs transcript : string) (c : Menu.Call) : bool :=
  match c with
  | Menu.ChannelSend ch (Menu.LogClosed _ _ _ file) =>
      String.eqb ch logs && String.eqb file transcript
  | _ => false
  end.

Definition menu_posts_in (channel : string) (trace : list (Menu.Call * bool))
    : list Menu.Post :=
  omap
    (fun cb =>
       match fst cb with
       | Menu.ChannelSend ch p => if String.eqb ch channel then Some p else None
       | _ => None
       end)
    trace.

Definition menu_is_delete (channel : string) (c : Menu.Call) : bool :=
  match c with
  | Menu.SetTimeoutDelete ch _ => String.eqb ch channel
  | _ => false
  end.

Definition menu_is_delete_after (channel : string) (ms : Z) (c : Menu.Call)
    : bool :=
  match c with
  | Menu.SetTimeoutDelete ch delay => String.eqb ch channel && (delay =? ms)%Z
  | _ => false
  end.


(** Closing scenes: bob closes [ticket-7] in the database-backed bot, and
    alice's ticket in the select-menu bot, once with every call accepted and
    once with a logs channel that rejects the message. *)
Module CloseScene.

Definition db_logs_down : Db.Env :=
  Db.mkEnv Sample.all_ok_db
    (fun c => negb (db_is_log_with "600" "ticket-7.html" c)) "900" "42".

(** The logs channel rejects the message and the creator takes no direct
    messages. *)
Definition db_logs_and_dm_down : Db.Env :=
  Db.mkEnv Sample.all_ok_db
    (fun c =>
       negb (db_is_log_with "600" "ticket-7.html" c) &&
       negb (db_is_dm_with "77" "ticket-7.html" c))
    "900" "42".

Definition db_trace (env : Db.Env) : list (Db.Call * bool) :=
  Eff.trace (fst (Eff.run (Db.handleCloseTicket env DbScene.bob false)
                    DbScene.world)).

Definition bob : Menu.Interaction :=
  Menu.mkInteraction "1" "900" "88" "bob" "bob#0002" ["700"] false
    (Menu.ButtonPress "ticket_close_confirm").

(** The ticket channel of alice in the select-menu bot. *)
Definition menu_ticket : Channel :=
  default Scene.logs
    (cache_get (Some "900") (Menu.channels Scene.menu_world_after_ticket)).

Definition menu_logs_down : Menu.Env :=
  Menu.mkEnv Sample.all_ok_menu
    (fun c =>
       negb (menu_is_log_with "600" "billing-alice-transcript.html" c))
    "900" false "42" 1000000 5.

Definition menu_trace (env : Menu.Env) : list (Menu.Call * bool) :=
  Eff.trace (fst (Eff.run (Menu.interactionCreate env bob)
                    Scene.menu_world_after_ticket)).

End CloseScene.


(** ** Reading the control panel and the claim *)

(** What the control panel of the select-menu bot shows. *)
Record PanelView := mkPanelView {
  claimed_by : string;
  status : string
}.

(** The two fields of the control panel of a ticket channel, read as the
    handlers read them: from the embed of the first message, which has to pass
    the test of [getControlPanelMessage]. *)
Definition menu_view (env : Menu.Env) (channel : string) (w : Menu.World)
    : option PanelView :=
  c ← cache_get (Some channel) (Menu.channels w);
  m ← head (messages c);
  if Menu.is_control_panel env m then
    e ← embed m;
    claimedBy ← Menu.get_field Menu.CLAIMED_BY (fields e);
    st ← Menu.get_field Menu.STATUS (fields e);
    Some (mkPanelView claimedBy st)
  else None.

(** What [handleLockTicket] needs besides the panel: the creator in the topic
    and a claim or unclaim button in the row of the first message. *)
Definition menu_lockable (channel : string) (w : Menu.World) : bool :=
  match cache_get (Some channel) (Menu.channels w) with
  | Some c =>
      match Menu.getTicketCreatorId c, head (messages c) with
      | Some _, Some m =>
          match List.find (fun b => JS.includes (customId b) "claim") (buttons m) with
          | Some _ => true
          | None => false
          end
      | _, _ => false
      end
  | None => false
  end.

(** The status label that fits a claim field on a ticket that is not locked. *)
Definition unlocked_status (claimedBy : string) : string :=
  if String.eqb claimedBy Menu.UNCLAIMED then Menu.OPEN else Menu.IN_PROGRESS.

Definition menu_replies (trace : list (Menu.Call * bool)) : list Menu.Reply :=
  omap (fun cb => match fst cb with Menu.SendReply r => Some r | _ => None end)
    trace.

(** The claimer the database-backed bot reads from the topic of a channel:
    [/Claimed By: (\d+)/]. *)
Definition db_claimer (channel : string) (w : Db.World) : option string :=
  c ← cache_get (Some channel) (Db.channels w);
  JS.match_lit_digits "Claimed By: " (default "" (topic c)).

Definition db_replies (trace : list (Db.Call * bool)) : list Db.Reply :=
  omap (fun cb => match fst cb with Db.SendReply r => Some r | _ => None end)
    trace.


(** ** Reading a match at the start of a string *)

(** The match of the literal and the digits at the very start of a string:
    the first alternative of [JS.match_lit_digits]. *)
Definition match_here (lit s : string) : option string :=
  match JS.strip_prefix lit s with
  | Some rest =>
      match JS.take_digits rest with
      | EmptyString => None
      | ds => Some ds
      end
  | None => None
  end.

Fixpoint proper_suffixes (s : string) : list string :=
  match s with
  | EmptyString => []
  | String _ s' => s' :: proper_suffixes s'
  end.

(** Staff at work in the two scenes: bob ("88") and carol ("99") hold the
    support role "700". *)
Module StaffScene.

Definition menu_bob (k : Menu.Kind) : Menu.Interaction :=
  Menu.mkInteraction "1" "900" "88" "bob" "bob#0002" ["700"] false k.

Definition menu_carol (k : Menu.Kind) : Menu.Interaction :=
  Menu.mkInteraction "1" "900" "99" "carol" "carol#0003" ["700"] false k.

Definition db_carol : Db.Interaction :=
  Db.mkInteraction "1" "Guild One" "807" "99" ["700"] false.

End StaffScene.


(** ** Steps of the topic registries *)

(** What one [/ticket-topic] request can do to the guild's stored list. *)
Inductive menu_topic_step (ts : list Topic) : list Topic -> Prop :=
  | menu_step_same : menu_topic_step ts ts
  | menu_step_add t :
      value t ∉ values ts ->
      value t <> "" ->
      JS.forallb_str key_char (value t) = true ->
      length ts < 25 ->
      menu_topic_step ts (ts ++ [t])
  | menu_step_remove v :
      v ∈ values ts ->
      menu_topic_step ts (without_value v ts).

(** The invariant of a stored topic list. *)
Record menu_topics_ok (ts : list Topic) : Prop := {
  menu_ok_nodup : NoDup (values ts);
  menu_ok_bound : length ts <= 25;
}.

(** What one [/ticket-topic] request of the database-backed bot can do. *)
Inductive db_topic_step (ts : list Topic) : list Topic -> Prop :=
  | db_step_same : db_topic_step ts ts
  | db_step_add t :
      value t ∉ values ts ->
      JS.forallb_str key_char (value t) = true ->
      db_topic_step ts (ts ++ [t])
  | db_step_reset t :
      JS.forallb_str key_char (value t) = true ->
      db_topic_step ts [t]
  | db_step_remove v :
      v ∈ values ts ->
      db_topic_step ts (without_value v ts).

(** A run that refuses the channel as no ticket and does nothing else: its
    only call is the reply "This command must be used in a ticket channel.",
    and the channels are as before. *)
Definition db_only_refusal (env : Db.Env) (w : Db.World)
    (s : Eff.State Db.World Db.Call) : Prop :=
  Eff.trace s =
    [(Db.SendReply Db.NotATicketChannel,
      Db.accepts env (Db.SendReply Db.NotATicketChannel))]
  /\ Db.channels (Eff.world s) = Db.channels w.

(** A call other than the reply that refuses a channel as no ticket. *)
Definition not_refusal (cb : Db.Call * bool) : Prop :=
  fst cb <> Db.SendReply Db.NotATicketChannel.

(** ** The shape of a channel name *)

(** The characters of a cleaned channel name: [a-z0-9] and the hyphen. *)
Definition rename_char (c : ascii) : bool := Db.name_char c || Db.is_hyphen c.

Definition starts_with_hyphen (s : string) : bool :=
  match s with
  | String c _ => Db.is_hyphen c
  | EmptyString => false
  end.

Fixpoint ends_with_hyphen (s : string) : bool :=
  match s with
  | EmptyString => false
  | String c EmptyString => Db.is_hyphen c
  | String _ s' => ends_with_hyphen s'
  end.

Fixpoint no_double_hyphen (s : string) : bool :=
  match s with
  | String a s' =>
      negb (Db.is_hyphen a && starts_with_hyphen s') && no_double_hyphen s'
  | EmptyString => true
  end.

(** A name made of [a-z0-9] and single hyphens between them. *)
Definition clean_name (s : string) : bool :=
  JS.forallb_str rename_char s && negb (starts_with_hyphen s) &&
  negb (ends_with_hyphen s) && no_double_hyphen s.

(** Whether a character occurs in a string. *)
Fixpoint has_char (a : ascii) (s : string) : bool :=
  match s with
  | EmptyString => false
  | String c s' => Ascii.eqb a c || has_char a s'
  end.

(** The button row of the first message of a channel of the select-menu
    bot. *)
Definition menu_row (channel : string) (w : Menu.World) : list Button :=
  match cache_get (Some channel) (Menu.channels w) with
  | Some c =>
      match head (messages c) with
      | Some m => buttons m
      | None => []
      end
  | None => []
  end.

(** The permission edits of a trace of the select-menu bot: channel, user and
    whether the user may send, for the accepted ones. *)
Definition menu_permission_edits (trace : list (Menu.Call * bool))
    : list (string * string * bool) :=
  omap
    (fun cb =>
       match cb with
       | (Menu.OverwriteEdit ch u send, true) => Some (ch, u, send)
       | _ => None
       end)
    trace.

(** ** Who may use the staff actions of the select-menu bot *)

(** The staff commands and the staff buttons. *)
Definition menu_is_staff_action (k : Menu.Kind) : bool :=
  match k with
  | Menu.ChatInputCommand _ => true
  | Menu.ButtonPress customId =>
      existsb (String.eqb customId)
        ["ticket_claim"; "ticket_unclaim"; "ticket_lock"; "ticket_unlock"]
  | _ => false
  end.

(** The guild is configured, the channel of the request is a ticket channel
    and the requester is a support user. *)
Definition menu_authorised (env : Menu.Env) (i : Menu.Interaction) (w : Menu.World)
    : bool :=
  match Menu.readConfig (Menu.fs env) (Menu.file w) !! Menu.i_guild i,
        cache_get (Some (Menu.i_channel i)) (Menu.channels w) with
  | Some config, Some c =>
      Menu.isTicketChannel c config && Menu.isSupportUser i config
  | _, _ => false
  end.

(** The replies that turn a request down. *)
Definition menu_is_refusal (c : Menu.Call) : bool :=
  match c with
  | Menu.SendReply Menu.Outdated
  | Menu.SendReply Menu.BotNotConfigured
  | Menu.SendReply Menu.NotInTicket
  | Menu.SendReply Menu.SupportTeamOnly
  | Menu.SendReply Menu.UnknownError => true
  | _ => false
  end.

(** The direct messages of a trace of the database-backed bot, accepted or
    not. *)
Definition db_direct_messages (trace : list (Db.Call * bool))
    : list (string * Db.Post) :=
  omap
    (fun cb => match fst cb with Db.UserSend u p => Some (u, p) | _ => None end)
    trace.

(** The users that a trace of the database-backed bot fetches. *)
Definition db_users_fetched (trace : list (Db.Call * bool)) : list string :=
  omap (fun cb => match fst cb with Db.UsersFetch u => Some u | _ => None end)
    trace.

(** The log messages of closed tickets in a trace: the channel each one goes
    to and the ticket user it records. *)
Definition db_close_logs (trace : list (Db.Call * bool))
    : list (string * option string) :=
  omap
    (fun cb =>
       match fst cb with
       | Db.ChannelSend ch (Db.LogClosed _ ticketUser _ _ _) => Some (ch, ticketUser)
       | _ => None
       end)
    trace.

(** The messages to channels other than the given one. *)
Definition db_posts_elsewhere (channel : string) (trace : list (Db.Call * bool))
    : list (string * Db.Post) :=
  omap
    (fun cb =>
       match fst cb with
       | Db.ChannelSend ch p =>
           if String.eqb ch channel then None else Some (ch, p)
       | _ => None
       end)
    trace.

(** ** The configuration and panel commands of the select-menu bot *)

Module MenuCommands.

Inductive Permission :=
  | ViewChannel
  | SendMessages
  | AttachFiles
  | ManageChannels
  | ManageRoles.

Definition REQUIRED_LOGS_PERMISSIONS : list Permission :=
  [ViewChannel; SendMessages; AttachFiles].

Definition REQUIRED_CATEGORY_PERMISSIONS : list Permission :=
  [ViewChannel; ManageChannels; ManageRoles].

(** [REQUIRED.filter(perm => !perms.has(perm))]; the permissions of the bot
    in a channel are given by the answers of [perms.has]. *)
Definition missing_of (required : list Permission) (has : Permission -> bool)
    : list Permission :=
  List.filter (fun perm => negb (has perm)) required.

Inductive ConfigReply :=
  | MissingLogsPermissions (missing : list Permission)
                         (* "I'm missing the following permissions in the Logs
                            Channel ..." *)
  | MissingCategoryPermissions (missing : list Permission)
                         (* "I'm missing the following permissions in the
                            Ticket Category ..." *)
  | Configured (category role logs : string).
                         (* "System Configured Successfully" *)

(** [ticketConfigCommand.execute]: the three options are required, so all
    of them are given; [logPerms] and [categoryPerms] are the permissions of
    the bot in the two channels. *)
Definition ticketConfigCommand (io : Menu.Io) (file : Menu.ConfigFile)
    (guild : string) (categoryChannel supportRole logsChannel : string)
    (logPerms categoryPerms : Permission -> bool)
    : Menu.ConfigFile * ConfigReply :=
  (* 1. Permission Check: Logs Channel *)
  let missingLogPerms := missing_of REQUIRED_LOGS_PERMISSIONS logPerms in
  if (0 <? length missingLogPerms)%nat
  then (file, MissingLogsPermissions missingLogPerms)
  else
    (* 2. Permission Check: Ticket Category *)
    let missingCategoryPerms :=
      missing_of REQUIRED_CATEGORY_PERMISSIONS categoryPerms in
    if (0 <? length missingCategoryPerms)%nat
    then (file, MissingCategoryPermissions missingCategoryPerms)
    else
      (* 3. Save Configuration *)
      let config := Menu.readConfig io file in
      let guildConfig :=
        match config !! guild with
        | Some g => g
        | None => Menu.mkGuildConfig None None None []
        end in
      let saved :=
        Menu.mkGuildConfig (Some categoryChannel) (Some logsChannel)
          (Some supportRole) (Menu.ticketTopics guildConfig) in
      (Menu.writeConfig io file (<[guild := saved]> config),
       Configured categoryChannel supportRole logsChannel).

(** One option of the select menu of the panel. *)
Record SelectOption := mkSelectOption {
  option_label : string;
  option_description : string;
  option_value : string;
  option_emoji : option string
}.

(** The message of the panel: the embed and the select menu. *)
Record Panel := mkPanel {
  panel_title : string;
  panel_description : string;
  panel_customId : string;
  panel_options : list SelectOption
}.

Inductive PanelReply :=
  | PanelNeedsConfig     (* "Please run /ticket-config first." *)
  | PanelNeedsTopics     (* "You must add at least one topic ..." *)
  | PanelPosted          (* "Ticket panel posted successfully!" *)
  | PanelMissingPermissions
                         (* "Permissions Error! I failed to post the panel" *)
  | PanelFailed.         (* "An unexpected error occurred while posting the
                            panel." *)

(** How [interaction.channel.send] ends: accepted, rejected with the error
    code 50013, or rejected with another error. *)
Inductive SendResult := SendAccepted | SendMissingPermissions | SendRejected.

(** The options of the select menu: one per topic, with
    [emoji: topic.emoji || undefined]. *)
Definition select_options (topics : list Topic) : list SelectOption :=
  map (fun topic =>
         mkSelectOption (label topic) (description topic) (value topic)
           (if JS.truthy (emoji topic) then emoji topic else None))
    topics.

(** [ticketPanelCommand.execute]: the panel that was posted, if any, and the
    reply. *)
Definition ticketPanelCommand (io : Menu.Io) (file : Menu.ConfigFile)
    (guild : string) (title description : string) (send : SendResult)
    : option Panel * PanelReply :=
  let config := Menu.readConfig io file in
  match config !! guild with
  | None => (None, PanelNeedsConfig)
  | Some guildConfig =>
      if negb (JS.truthy (Menu.categoryId guildConfig))
      then (None, PanelNeedsConfig)
      else if (length (Menu.ticketTopics guildConfig) =? 0)%nat
      then (None, PanelNeedsTopics)
      else
        let selectMenu := select_options (Menu.ticketTopics guildConfig) in
        let panel := mkPanel title description "ticket_panel_menu" selectMenu in
        match send with
        | SendAccepted => (Some panel, PanelPosted)
        | SendMissingPermissions => (None, PanelMissingPermissions)
        | SendRejected => (None, PanelFailed)
        end
  end.

(** The administrator commands that write the configuration file. *)
Inductive AdminOp :=
  | TicketConfig (categoryChannel supportRole logsChannel : string)
      (logPerms categoryPerms : Permission -> bool)
  | TicketTopic (op : Menu.TopicOp).

Definition admin_step (io : Menu.Io) (file : Menu.ConfigFile) (guild : string)
    (op : AdminOp) : Menu.ConfigFile :=
  match op with
  | TicketConfig c r l lp cp => fst (ticketConfigCommand io file guild c r l lp cp)
  | TicketTopic op => fst (Menu.ticketTopicCommand io file guild op)
  end.

(** A sequence of administrator commands for one guild. *)
Fixpoint run_admin (file : Menu.ConfigFile) (guild : string)
    (ops : list (Menu.Io * AdminOp)) : Menu.ConfigFile :=
  match ops with
  | [] => file
  | (io, op) :: ops' => run_admin (admin_step io file guild op) guild ops'
  end.

(** All permissions held. *)
Definition all_permissions : Permission -> bool := fun _ => true.

End MenuCommands.

(** ** The configuration and panel commands of the database-backed bot *)

Module DbCommands.

(** [isConfigured(config)]: [config.categoryId && config.supportRoleId]. *)
Definition isConfigured (config : Db.GuildConfig) : bool :=
  JS.truthy (Db.categoryId config) && JS.truthy (Db.supportRoleId config).

Definition REQUIRED_LOGS_PERMISSIONS : list MenuCommands.Permission :=
  [MenuCommands.ViewChannel; MenuCommands.SendMessages; MenuCommands.AttachFiles].

Definition REQUIRED_CATEGORY_PERMISSIONS : list MenuCommands.Permission :=
  [MenuCommands.ViewChannel; MenuCommands.ManageChannels].

(** The object given to [updateGuildConfig]: a key that is absent is [None]. *)
Record Update := mkUpdate {
  u_categoryId : option string;
  u_logsChannelId : option string;
  u_supportRoleId : option string
}.

(** [Object.keys(update).length] *)
Definition keys (u : Update) : nat :=
  let present (v : option string) :=
    match v with Some _ => 1 | None => 0 end in
  present (u_categoryId u) + present (u_logsChannelId u)
  + present (u_supportRoleId u).

Definition set_field (new old : option string) : option string :=
  match new with
  | Some v => Some v
  | None => old
  end.

(** [updateGuildConfig]: [$set] of the given keys on the guild's document,
    which is created with the defaults of the schema when it is missing; a
    failure is logged and swallowed. *)
Definition updateGuildConfig (io : Db.Io) (db : Db.Store) (guild : string)
    (updateObject : Update) : Db.Store :=
  if Db.write_ok io then
    let old := default Db.default_config (db !! guild) in
    <[guild := Db.mkGuildConfig
                 (set_field (u_categoryId updateObject) (Db.categoryId old))
                 (set_field (u_logsChannelId updateObject) (Db.logsChannelId old))
                 (set_field (u_supportRoleId updateObject) (Db.supportRoleId old))
                 (Db.ticketTopics old)]> db
  else db.

(** The embed of [createConfigViewEmbed(config, guild)]. *)
Record ConfigView := mkConfigView {
  view_ready : bool;             (* the description and the colour *)
  view_category : string;
  view_role : string;
  view_logs : string;
  view_topic_count : nat;        (* "Configured Topics (n)" *)
  view_topics : list (string * string * string)
                                 (* emoji, label and value of each line *)
}.

Definition createConfigViewEmbed (config : Db.GuildConfig) : ConfigView :=
  let isReady :=
    isConfigured config && (0 <? length (Db.ticketTopics config))%nat in
  let shown (pre : string) (v : option string) : string :=
    if JS.truthy v
    then pre ++ default "" v ++ "> (`" ++ default "" v ++ "`)"
    else "`Not Set`" in
  mkConfigView isReady
    (shown "<#" (Db.categoryId config))
    (shown "<@&" (Db.supportRoleId config))
    (shown "<#" (Db.logsChannelId config))
    (length (Db.ticketTopics config))
    (map (fun t =>
            (if JS.truthy (emoji t) then default "" (emoji t) else "📄",
             label t, value t))
       (Db.ticketTopics config)).

(** The choices of the option [action]. *)
Inductive Action := View | Reset.

(** A channel given as an option, with the answers of
    [guild.members.me.permissionsIn(channel).has]. *)
Record ChannelOption := mkChannelOption {
  channel_id : string;
  channel_permissions : MenuCommands.Permission -> bool
}.

Inductive ConfigReply :=
  | ShowConfig (v : ConfigView)
                         (* the embed alone *)
  | ConfigReset (v : ConfigView)
                         (* "All ticketing configuration (category, logs,
                            role, topics) has been reset to default values." *)
  | CategoryPermissionsRequired
                         (* "Bot requires the following permissions in the
                            ... category" *)
  | LogsPermissionsRequired
                         (* "Bot requires the following permissions in the
                            ... channel" *)
  | ConfigUpdated (v : ConfigView).
                         (* "Ticketing configuration updated." *)

(** [ticketConfigCommand.execute] *)
Definition ticketConfigCommand (io : Db.Io) (db : Db.Store) (guild : string)
    (action : option Action) (category logsChannel : option ChannelOption)
    (supportRole : option string) : Db.Store * ConfigReply :=
  let '(db1, config) := Db.getGuildConfig io db guild in
  match action with
  | Some View => (db1, ShowConfig (createConfigViewEmbed config))
  | Some Reset =>
      (Db.setGuildConfig io db1 guild (Db.mkGuildConfig None None None []),
       ConfigReset (createConfigViewEmbed (Db.mkGuildConfig None None None [])))
  | None =>
      (* Apply Updates *)
      let category_ok :=
        match category with
        | Some c => forallb (channel_permissions c) REQUIRED_CATEGORY_PERMISSIONS
        | None => true
        end in
      if negb category_ok then (db1, CategoryPermissionsRequired)
      else
        let logs_ok :=
          match logsChannel with
          | Some c => forallb (channel_permissions c) REQUIRED_LOGS_PERMISSIONS
          | None => true
          end in
        if negb logs_ok then (db1, LogsPermissionsRequired)
        else
          let update :=
            mkUpdate (channel_id <$> category) (channel_id <$> logsChannel)
              supportRole in
          if (0 <? keys update)%nat then
            let db2 := updateGuildConfig io db1 guild update in
            (* Re-fetch the config to show the updated state *)
            let '(db3, config') := Db.getGuildConfig io db2 guild in
            (db3, ConfigUpdated (createConfigViewEmbed config'))
          else (db1, ShowConfig (createConfigViewEmbed config))
  end.

(** The choices of the option [style]. *)
Inductive Style := Buttons | Select.

Record PanelButton := mkPanelButton {
  pb_customId : string;
  pb_label : string;
  pb_emoji : string
}.

Record SelectOption := mkSelectOption {
  option_label : string;
  option_description : string;
  option_value : string;
  option_emoji : option string
}.

Inductive Components :=
  | ButtonRow (row : list PanelButton)
  | SelectMenu (customId : string) (options : list SelectOption).

Record Panel := mkPanel {
  panel_title : string;
  panel_description : string;
  panel_components : Components
}.

Inductive PanelReply :=
  | PanelNotConfigured   (* "The ticketing system is not fully configured." *)
  | PanelNoTopics        (* "No ticket topics have been configured." *)
  | PanelTooManyButtons  (* "You selected the Button style, but you have more
                            than 5 topics." *)
  | PanelSent            (* "Ticket panel sent successfully to this channel." *)
  | PanelBuildRejected   (* a builder of discord.js throws on the components;
                            the command does not catch it and answers
                            nothing *)
  | PanelSendRejected.   (* the rejection of [channel.send] is not caught by
                            the command *)

(** The options of the select menu: one per topic. *)
Definition select_options (topics : list Topic) : list SelectOption :=
  map (fun topic =>
         mkSelectOption (label topic) (description topic) (value topic)
           (emoji topic))
    topics.

(** The button row of the panel: one button per topic, with
    [setEmoji(topic.emoji || '🎫')]. *)
Definition button_row (topics : list Topic) : list PanelButton :=
  map (fun topic =>
         mkPanelButton ("ticket_open_" ++ value topic) (label topic)
           (if JS.truthy (emoji topic) then default "" (emoji topic) else "🎫"))
    topics.

(** [ticketPanelCommand.execute]: the store, the panel that was posted, if
    any, and the reply. [builds] tells whether the builders of discord.js
    accept the components: they validate what they are given ([addOptions]
    when it is called, the buttons at the latest when the message is
    serialised) and throw otherwise, before anything is sent. [send_ok] is
    whether [interaction.channel.send] is accepted. *)
Definition ticketPanelCommand (io : Db.Io) (db : Db.Store) (guild : string)
    (style : Style) (title description : option string)
    (builds : Components -> bool) (send_ok : bool)
    : Db.Store * option Panel * PanelReply :=
  let '(db1, config) := Db.getGuildConfig io db guild in
  let title :=
    if JS.truthy title then default "" title
    else "Need Assistance? Open a Ticket!" in
  let description :=
    if JS.truthy description then default "" description
    else "Select a topic below to open a private support ticket. Please be detailed in your request." in
  if negb (isConfigured config) then (db1, None, PanelNotConfigured)
  else if (length (Db.ticketTopics config) =? 0)%nat
  then (db1, None, PanelNoTopics)
  else
    let post (components : Components) :=
      if negb (builds components) then (db1, None, PanelBuildRejected)
      else if send_ok
      then (db1, Some (mkPanel title description components), PanelSent)
      else (db1, None, PanelSendRejected) in
    match style with
    | Buttons =>
        if (5 <? length (Db.ticketTopics config))%nat
        then (db1, None, PanelTooManyButtons)
        else
          post (ButtonRow (button_row (Db.ticketTopics config)))
    | Select =>
        post (SelectMenu "ticket_panel_topic_select"
                (select_options (Db.ticketTopics config)))
    end.

End DbCommands.

(** ** The interaction router of the database-backed bot *)

Module DbRouter.

(** The interaction that arrives. For a slash command, [execute] is the
    handler that [client.commands.get(interaction.commandName)] finds, if
    any. *)
Inductive Kind :=
  | ChatInputCommand (execute : option Db.Handler)
  | Button (customId : string)
  | ModalSubmit (customId issue_description : string)
  | StringSelectMenu (customId : string) (values : list string)
  | OtherInteraction.

(** The external calls of the router: those of the handlers it runs and its
    own. *)
Inductive Call :=
  | Handled (c : Db.Call)
  | FollowUpError        (* followUp: "There was an error while executing this
                            command!" *)
  | ReplyError           (* reply: "There was an error while executing this
                            command!" *)
  | UpdateCancelled      (* update: "Ticket closure cancelled.", no components *)
  | ReplyInvalidTopic    (* "Invalid ticket topic." *)
  | ShowModal (customId title : string).

(** [await handler(...)]: the handler runs on the world; its calls join the
    trace of the router. *)
Definition lift {A} (m : Eff.M Db.World Db.Call A) : Eff.M Db.World Call A :=
  fun s =>
    let '(s', o) := Eff.run m (Eff.world s) in
    (Eff.mkState (Eff.world s')
       (Eff.trace s ++ map (fun cb => (Handled (fst cb), snd cb)) (Eff.trace s')),
     o).

(** [interaction.replied || interaction.deferred] after the calls of the
    trace: an accepted [deferReply] or reply acknowledges the interaction. *)
Definition acknowledged (i : Db.Interaction) (trace : list (Call * bool)) : bool :=
  Db.i_acknowledged i ||
  existsb
    (fun cb =>
       snd cb &&
       match fst cb with
       | Handled Db.DeferReply | Handled (Db.SendReply _) => true
       | _ => false
       end)
    trace.

(** The modal that asks for the description of the issue. *)
Definition open_modal (env : Db.Env) (accepts : Call -> bool) (i : Db.Interaction)
    (topicValue : option string) : Eff.M Db.World Call unit :=
  config ← lift (Db.fetchGuildConfig env (Db.i_guild i));
  match topicValue ≫= fun v => find_topic v (Db.ticketTopics config) with
  | None => Eff.call accepts ReplyInvalidTopic (fun w => w)
  | Some topic =>
      Eff.call accepts
        (ShowModal ("ticket_modal_" ++ default "" topicValue)
           ("Open Ticket: " ++ label topic))
        (fun w => w)
  end.

(** [client.on('interactionCreate', ...)] *)
Definition interactionCreate (env : Db.Env) (accepts : Call -> bool)
    (i : Db.Interaction) (k : Kind) : Eff.M Db.World Call unit :=
  match k with
  | ChatInputCommand command =>
      match command with
      | None => mret tt
      | Some execute =>
          Eff.try_catch (lift execute)
            (fun s =>
               if acknowledged i (Eff.trace s)
               then Eff.call accepts FollowUpError (fun w => w) s
               else Eff.call accepts ReplyError (fun w => w) s)
      end
  | Button customId =>
      if String.eqb customId "ticket_close_confirm"
      then lift (Db.handleCloseTicketConfirm env i)
      else if String.eqb customId "ticket_close_final"
      then lift (Db.handleCloseTicket env i false)
      else if String.eqb customId "ticket_cancel_close"
      then Eff.call accepts UpdateCancelled (fun w => w)
      else if String.eqb customId "ticket_claim"
      then lift (Db.handleClaimTicket env i false)
      else
        match JS.strip_prefix "ticket_open_" customId with
        | Some topicValue => open_modal env accepts i (Some topicValue)
        | None => mret tt
        end
  | ModalSubmit customId issueDescription =>
      match JS.strip_prefix "ticket_modal_" customId with
      | Some topicValue =>
          lift (Eff.call (Db.accepts env) Db.DeferReply (fun w => w));;
          lift (Db.handleTicketCreation env i topicValue (Some issueDescription))
      | None => mret tt
      end
  | StringSelectMenu customId values =>
      if String.eqb customId "ticket_panel_topic_select"
      then open_modal env accepts i (head values)
      else mret tt
  | OtherInteraction => mret tt
  end.

End DbRouter.

(** Whether the ticket numbers read in the names of the category's ticket
    channels are all below a bound. *)
Definition db_numbers_below (bound : N) (cache : list Channel)
    (category : Channel) : bool :=
  forallb
    (fun c =>
       match JS.match_lit_digits "ticket-" (name c) with
       | Some ds => (JS.mathInt ds <? bound)%N
       | None => true
       end)
    (List.filter
       (fun c => JS.startsWith (name c) "ticket-" && is_text (type c))
       (children category cache)).

(** * Properties *)

(** ** Strings *)

Lemma filter_str_all (p : ascii -> bool) (s : string) :
  JS.forallb_str p (JS.filter_str p s) = true.
Proof.
  induction s as [|c s IH]; simpl; [done|].
  destruct (p c) eqn:Hc; simpl; [|done].
  by rewrite Hc, IH.
Qed.

Lemma filter_str_id (p : ascii -> bool) (s : string) :
  JS.forallb_str p s = true -> JS.filter_str p s = s.
Proof.
  induction s as [|c s IH]; simpl; [done|].
  intros [Hc Hs]%andb_prop. rewrite Hc. by rewrite IH.
Qed.

(** ** Topic lists *)

Lemma has_value_spec (v : string) (ts : list Topic) :
  has_value v ts = true <-> v ∈ values ts.
Proof.
  unfold has_value, values. induction ts as [|t ts IH]; simpl.
  - split; [done|]. by intros ?%elem_of_nil.
  - rewrite orb_true_iff, IH, elem_of_cons, String.eqb_eq.
    split; (intros [H|H]; [left|right]); done.
Qed.

Lemma has_value_false (v : string) (ts : list Topic) :
  has_value v ts = false <-> v ∉ values ts.
Proof.
  rewrite <- has_value_spec. destruct (has_value v ts); naive_solver.
Qed.

Lemma values_app (ts us : list Topic) :
  values (ts ++ us) = (values ts ++ values us)%list.
Proof. unfold values. apply map_app. Qed.

Lemma NoDup_values_snoc (ts : list Topic) (t : Topic) :
  NoDup (values ts) -> value t ∉ values ts -> NoDup (values (ts ++ [t])).
Proof.
  intros Hnd Hnew. rewrite values_app. apply NoDup_app. split; [done|].
  split; [|apply NoDup_singleton].
  intros v Hv Hv'. simpl in Hv'. apply list_elem_of_singleton in Hv'. by subst.
Qed.

Lemma without_value_sublist (v : string) (ts : list Topic) :
  values (without_value v ts) `sublist_of` values ts.
Proof.
  unfold without_value, values. induction ts as [|t ts IH]; simpl; [done|].
  destruct (negb _); simpl; by constructor.
Qed.

Lemma NoDup_without_value (v : string) (ts : list Topic) :
  NoDup (values ts) -> NoDup (values (without_value v ts)).
Proof. intros H. exact (sublist_NoDup _ _ H (without_value_sublist v ts)). Qed.

Lemma without_value_length (v : string) (ts : list Topic) :
  length (without_value v ts) <= length ts.
Proof.
  unfold without_value. induction ts as [|t ts IH]; simpl; [lia|].
  destruct (negb _); simpl; lia.
Qed.

Lemma without_value_absent (v : string) (ts : list Topic) :
  v ∉ values ts -> without_value v ts = ts.
Proof.
  unfold without_value, values. induction ts as [|t ts IH]; simpl; [done|].
  rewrite not_elem_of_cons. intros [Hne Hnot].
  apply not_eq_sym, String.eqb_neq in Hne. rewrite Hne. simpl. by rewrite IH.
Qed.

Lemma without_value_same_length (v : string) (ts : list Topic) :
  length (without_value v ts) = length ts <-> v ∉ values ts.
Proof.
  split; [|by intros ->%without_value_absent].
  unfold without_value, values. induction ts as [|t ts IH]; simpl.
  - intros _. apply not_elem_of_nil.
  - destruct (String.eqb (value t) v) eqn:E; simpl.
    + pose proof (without_value_length v ts) as Hle.
      unfold without_value in Hle. lia.
    + intros Hlen. apply not_elem_of_cons. split.
      * apply String.eqb_neq in E. congruence.
      * apply IH. lia.
Qed.

Lemma without_value_gone (v : string) (ts : list Topic) :
  v ∉ values (without_value v ts).
Proof.
  unfold without_value, values. induction ts as [|t ts IH]; simpl.
  - apply not_elem_of_nil.
  - destruct (String.eqb (value t) v) eqn:E; simpl; [done|].
    apply not_elem_of_cons. split; [|done].
    apply String.eqb_neq in E. congruence.
Qed.

Lemma without_value_removes_one (v : string) (ts : list Topic) :
  NoDup (values ts) -> v ∈ values ts ->
  S (length (without_value v ts)) = length ts.
Proof.
  unfold values. induction ts as [|t ts IH]; simpl.
  - by intros _ ?%elem_of_nil.
  - intros [Hnot Hnd]%NoDup_cons Hin.
    destruct (String.eqb (value t) v) eqn:E; simpl.
    + apply String.eqb_eq in E. subst v.
      by rewrite (without_value_absent (value t) ts).
    + apply elem_of_cons in Hin as [->|Hin].
      * by rewrite String.eqb_refl in E.
      * f_equal. by apply IH.
Qed.

(** ** The topic registry of the select-menu bot *)

Lemma menu_topics_of_insert (file : gmap string Menu.GuildConfig) guild g :
  Menu.topics_of (<[guild := g]> file) guild = Menu.ticketTopics g.
Proof. unfold Menu.topics_of. by rewrite lookup_insert_eq. Qed.

Lemma menu_clean_value_chars (raw : string) :
  JS.forallb_str key_char (Menu.clean_value raw) = true.
Proof. apply filter_str_all. Qed.

Lemma menu_topic_command_step io file guild op :
  menu_topic_step (Menu.topics_of file guild)
    (Menu.topics_of (fst (Menu.ticketTopicCommand io file guild op)) guild).
Proof.
  unfold Menu.ticketTopicCommand, Menu.readConfig, Menu.writeConfig.
  destruct (Menu.read_ok io) eqn:Hr.
  2:{ rewrite lookup_empty. constructor. }
  destruct (file !! guild) as [g|] eqn:Hg; [|constructor].
  assert (Hts : Menu.topics_of file guild = Menu.ticketTopics g)
    by (unfold Menu.topics_of; by rewrite Hg).
  destruct (negb _); [constructor|].
  destruct op as [lbl raw d e|v].
  - destruct (String.eqb _ "") eqn:He; [constructor|].
    destruct (has_value _ _) eqn:Hdup; [constructor|].
    destruct (25 <=? _)%nat eqn:Hlim; [constructor|].
    destruct (Menu.write_ok io); simpl; [|constructor].
    rewrite menu_topics_of_insert, Hts. simpl.
    apply menu_step_add; simpl.
    + by apply has_value_false.
    + by apply String.eqb_neq.
    + apply menu_clean_value_chars.
    + apply Nat.leb_gt in Hlim. lia.
  - destruct (_ =? _)%nat eqn:Hlen; [constructor|].
    destruct (Menu.write_ok io); simpl; [|constructor].
    rewrite menu_topics_of_insert, Hts. simpl.
    apply menu_step_remove.
    apply Nat.eqb_neq in Hlen.
    destruct (decide (v ∈ values (Menu.ticketTopics g))) as [|Hn]; [done|].
    by apply without_value_same_length in Hn.
Qed.

Lemma menu_topic_step_ok ts ts' :
  menu_topic_step ts ts' -> menu_topics_ok ts -> menu_topics_ok ts'.
Proof.
  intros Hstep [Hnd Hlen]. destruct Hstep.
  - by split.
  - split; [by apply NoDup_values_snoc|].
    rewrite length_app. simpl. lia.
  - split; [by apply NoDup_without_value|].
    pose proof (without_value_length v ts). lia.
Qed.

Lemma menu_run_topic_ops_ok file guild ops :
  menu_topics_ok (Menu.topics_of file guild) ->
  menu_topics_ok (Menu.topics_of (Menu.run_topic_ops file guild ops) guild).
Proof.
  revert file. induction ops as [|[io op] ops IH]; intros file Hok; simpl.
  - done.
  - apply IH. eapply menu_topic_step_ok; [apply menu_topic_command_step|done].
Qed.

(** ** The topic registry of the database-backed bot *)

Lemma db_topics_of_insert (db : gmap string Db.GuildConfig) guild g :
  Db.topics_of (<[guild := g]> db) guild = Db.ticketTopics g.
Proof. unfold Db.topics_of. by rewrite lookup_insert_eq. Qed.

Lemma db_clean_value_chars (raw : string) :
  JS.forallb_str key_char (Db.clean_value raw) = true.
Proof. apply filter_str_all. Qed.

(** Reading the configuration does not change the guild's topic list, and on
    success returns it. *)
Lemma db_getGuildConfig_topics io db guild :
  Db.topics_of (fst (Db.getGuildConfig io db guild)) guild = Db.topics_of db guild
  /\ (Db.read_ok io = true ->
      Db.ticketTopics (snd (Db.getGuildConfig io db guild)) = Db.topics_of db guild)
  /\ (Db.read_ok io = false ->
      snd (Db.getGuildConfig io db guild) = Db.default_config).
Proof.
  unfold Db.getGuildConfig, Db.topics_of.
  destruct (Db.read_ok io); [|done].
  destruct (db !! guild) as [g|] eqn:Hg; simpl.
  - by rewrite Hg.
  - by rewrite lookup_insert_eq.
Qed.

Lemma db_topic_command_step io db guild op :
  db_topic_step (Db.topics_of db guild)
    (Db.topics_of (fst (Db.ticketTopicCommand io db guild op)) guild).
Proof.
  unfold Db.ticketTopicCommand.
  destruct (db_getGuildConfig_topics io db guild) as (Hsame & Hread & Hfail).
  destruct (Db.getGuildConfig io db guild) as [db1 config]. simpl in *.
  unfold Db.setGuildConfig.
  destruct op as [lbl raw d e|v].
  - destruct (has_value _ _) eqn:Hdup; simpl; [rewrite Hsame; constructor|].
    destruct (Db.write_ok io); simpl; [|rewrite Hsame; constructor].
    rewrite db_topics_of_insert. simpl.
    destruct (Db.read_ok io).
    + rewrite Hread in * by done. apply db_step_add; simpl.
      * by apply has_value_false.
      * apply db_clean_value_chars.
    + rewrite Hfail by done. simpl. apply db_step_reset. simpl.
      apply db_clean_value_chars.
  - destruct (_ =? _)%nat eqn:Hlen; simpl; [rewrite Hsame; constructor|].
    destruct (Db.write_ok io); simpl; [|rewrite Hsame; constructor].
    rewrite db_topics_of_insert. simpl.
    apply Nat.eqb_neq in Hlen.
    destruct (Db.read_ok io).
    + rewrite Hread in * by done. apply db_step_remove.
      destruct (decide (v ∈ values (Db.topics_of db guild))) as [|Hn]; [done|].
      by apply without_value_same_length in Hn.
    + rewrite Hfail in Hlen by done. done.
Qed.

Lemma db_topic_step_nodup ts ts' :
  db_topic_step ts ts' -> NoDup (values ts) -> NoDup (values ts').
Proof.
  intros Hstep Hnd. destruct Hstep.
  - done.
  - by apply NoDup_values_snoc.
  - apply NoDup_singleton.
  - by apply NoDup_without_value.
Qed.

Lemma db_run_topic_ops_nodup db guild ops :
  NoDup (values (Db.topics_of db guild)) ->
  NoDup (values (Db.topics_of (Db.run_topic_ops db guild ops) guild)).
Proof.
  revert db. induction ops as [|[io op] ops IH]; intros db Hok; simpl.
  - done.
  - apply IH. eapply db_topic_step_nodup; [apply db_topic_command_step|done].
Qed.

Lemma menu_topic_step_nodup ts ts' :
  menu_topic_step ts ts' -> NoDup (values ts) -> NoDup (values ts').
Proof.
  intros Hstep Hnd. destruct Hstep.
  - done.
  - by apply NoDup_values_snoc.
  - by apply NoDup_without_value.
Qed.

Lemma menu_run_topic_ops_nodup file guild ops :
  NoDup (values (Menu.topics_of file guild)) ->
  NoDup (values (Menu.topics_of (Menu.run_topic_ops file guild ops) guild)).
Proof.
  revert file. induction ops as [|[io op] ops IH]; intros file Hok; simpl.
  - done.
  - apply IH. eapply menu_topic_step_nodup; [apply menu_topic_command_step|done].
Qed.

Lemma menu_topic_step_bound ts ts' :
  menu_topic_step ts ts' -> length ts <= 25 -> length ts' <= 25.
Proof.
  intros Hstep Hlen. destruct Hstep.
  - done.
  - rewrite length_app. simpl. lia.
  - pose proof (without_value_length v ts). lia.
Qed.

Lemma menu_run_topic_ops_bound file guild ops :
  length (Menu.topics_of file guild) <= 25 ->
  length (Menu.topics_of (Menu.run_topic_ops file guild ops) guild) <= 25.
Proof.
  revert file. induction ops as [|[io op] ops IH]; intros file Hok; simpl.
  - done.
  - apply IH. eapply menu_topic_step_bound; [apply menu_topic_command_step|done].
Qed.

(** The reply of [add] in the select-menu bot once the guild is configured
    and the file was read: the three checks in the order of the source. *)
Lemma menu_add_reply io file guild g lbl raw d e :
  Menu.read_ok io = true ->
  file !! guild = Some g ->
  JS.truthy (Menu.categoryId g) = true ->
  (String.eqb (Menu.clean_value raw) "" = true
   \/ has_value (Menu.clean_value raw) (Menu.ticketTopics g) = true
   \/ (25 <=? length (Menu.ticketTopics g))%nat = true) ->
  Menu.ticketTopicCommand io file guild (Menu.OpAdd lbl raw d e) =
    (file, TopicFailed
       (if String.eqb (Menu.clean_value raw) "" then InvalidTopicKey
        else if has_value (Menu.clean_value raw) (Menu.ticketTopics g)
             then DuplicateTopicKey
             else TopicLimitExceeded)).
Proof.
  intros Hr Hg Hc Hfail.
  unfold Menu.ticketTopicCommand, Menu.readConfig. rewrite Hr, Hg, Hc.
  cbn [negb].
  destruct (String.eqb _ ""); [done|].
  destruct (has_value _ _); [done|].
  destruct (25 <=? _)%nat; [done|].
  by destruct Hfail as [?|[?|?]].
Qed.

Lemma menu_add_success io file guild lbl raw d e file' t :
  Menu.ticketTopicCommand io file guild (Menu.OpAdd lbl raw d e) =
    (file', TopicAdded t) ->
  value t = Menu.clean_value raw
  /\ value t <> ""
  /\ (value t ∉ values (Menu.topics_of file guild))
  /\ length (Menu.topics_of file guild) < 25
  /\ (Menu.write_ok io = true ->
      Menu.topics_of file' guild = (Menu.topics_of file guild ++ [t])%list).
Proof.
  unfold Menu.ticketTopicCommand, Menu.readConfig, Menu.writeConfig.
  destruct (Menu.read_ok io); [|by rewrite lookup_empty].
  destruct (file !! guild) as [g|] eqn:Hg; [|done].
  assert (Hts : Menu.topics_of file guild = Menu.ticketTopics g)
    by (unfold Menu.topics_of; by rewrite Hg).
  destruct (negb _); [done|].
  destruct (String.eqb _ "") eqn:He; [done|].
  destruct (has_value _ _) eqn:Hdup; [done|].
  destruct (25 <=? _)%nat eqn:Hlim; [done|].
  intros [= <- <-]. simpl. rewrite Hts.
  apply String.eqb_neq in He. apply has_value_false in Hdup.
  apply Nat.leb_gt in Hlim.
  repeat split; try done.
  intros ->. by rewrite menu_topics_of_insert.
Qed.

Lemma db_add_success io db guild lbl raw d e db' t :
  Db.ticketTopicCommand io db guild (Db.OpAdd lbl raw d e) =
    (db', TopicAdded t) ->
  value t = Db.clean_value raw
  /\ (Db.write_ok io = true -> Db.read_ok io = true ->
      Db.topics_of db' guild = (Db.topics_of db guild ++ [t])%list).
Proof.
  unfold Db.ticketTopicCommand.
  destruct (db_getGuildConfig_topics io db guild) as (Hsame & Hread & Hfail).
  destruct (Db.getGuildConfig io db guild) as [db1 config]. simpl in *.
  destruct (has_value _ _); [done|].
  intros [= <- <-]. split; [done|].
  intros Hw Hr. unfold Db.setGuildConfig. rewrite Hw.
  rewrite db_topics_of_insert. simpl. by rewrite Hread.
Qed.

Lemma db_add_duplicate io db guild lbl raw d e :
  Db.read_ok io = true ->
  Db.clean_value raw ∈ values (Db.topics_of db guild) ->
  snd (Db.ticketTopicCommand io db guild (Db.OpAdd lbl raw d e)) =
    TopicFailed DuplicateTopicKey
  /\ Db.topics_of (fst (Db.ticketTopicCommand io db guild (Db.OpAdd lbl raw d e)))
       guild = Db.topics_of db guild.
Proof.
  intros Hr Hin. unfold Db.ticketTopicCommand.
  destruct (db_getGuildConfig_topics io db guild) as (Hsame & Hread & _).
  destruct (Db.getGuildConfig io db guild) as [db1 config]. simpl in *.
  rewrite Hread by done. apply has_value_spec in Hin. rewrite Hin.
  simpl. by rewrite Hsame.
Qed.

Lemma db_remove_absent io db guild v :
  v ∉ values (Db.topics_of db guild) ->
  snd (Db.ticketTopicCommand io db guild (Db.OpRemove v)) =
    TopicFailed TopicNotFound
  /\ Db.topics_of (fst (Db.ticketTopicCommand io db guild (Db.OpRemove v)))
       guild = Db.topics_of db guild.
Proof.
  intros Hnot. unfold Db.ticketTopicCommand.
  destruct (db_getGuildConfig_topics io db guild) as (Hsame & Hread & Hfail).
  destruct (Db.getGuildConfig io db guild) as [db1 config]. simpl in *.
  assert (Hlen : length (without_value v (Db.ticketTopics config)) =
                 length (Db.ticketTopics config)).
  { destruct (Db.read_ok io).
    - rewrite Hread by done. by apply without_value_same_length.
    - by rewrite Hfail. }
  apply Nat.eqb_eq in Hlen. by rewrite Hlen.
Qed.

Lemma menu_remove_absent io file guild g v :
  Menu.read_ok io = true ->
  file !! guild = Some g ->
  JS.truthy (Menu.categoryId g) = true ->
  v ∉ values (Menu.ticketTopics g) ->
  Menu.ticketTopicCommand io file guild (Menu.OpRemove v) =
    (file, TopicFailed TopicNotFound).
Proof.
  intros Hr Hg Hc Hnot.
  unfold Menu.ticketTopicCommand, Menu.readConfig. rewrite Hr, Hg, Hc.
  cbn [negb].
  apply without_value_same_length in Hnot. apply Nat.eqb_eq in Hnot.
  by rewrite Hnot.
Qed.

Lemma menu_topic_step_nonempty ts ts' :
  menu_topic_step ts ts' -> "" ∉ values ts -> "" ∉ values ts'.
Proof.
  intros Hstep Hne. destruct Hstep as [|t Hnew Ht Hchars Hlen|v Hin].
  - done.
  - rewrite values_app. intros [Hin|Hin]%elem_of_app; [done|].
    simpl in Hin. apply list_elem_of_singleton in Hin. congruence.
  - intros Hin'. apply Hne.
    eapply elem_of_sublist; [done|apply without_value_sublist].
Qed.

Lemma menu_run_topic_ops_nonempty file guild ops :
  "" ∉ values (Menu.topics_of file guild) ->
  "" ∉ values (Menu.topics_of (Menu.run_topic_ops file guild ops) guild).
Proof.
  revert file. induction ops as [|[io op] ops IH]; intros file Hok; simpl.
  - done.
  - apply IH. eapply menu_topic_step_nonempty; [apply menu_topic_command_step|done].
Qed.

(** C3. Topic values stay pairwise distinct under any sequence of [add] and
    [remove] requests, in both bots; [add] answers DuplicateTopicKey when the
    cleaned value is already in the list, and [remove] of an absent value
    answers TopicNotFound and leaves the list as it was. *)
Theorem topic_values_stay_unique :
  (forall (file : gmap string Menu.GuildConfig) guild ops,
      NoDup (values (Menu.topics_of file guild)) ->
      NoDup (values (Menu.topics_of (Menu.run_topic_ops file guild ops) guild)))
  /\ (forall (db : gmap string Db.GuildConfig) guild ops,
      NoDup (values (Db.topics_of db guild)) ->
      NoDup (values (Db.topics_of (Db.run_topic_ops db guild ops) guild)))
  /\ (forall io (file : gmap string Menu.GuildConfig) guild g lbl raw d e,
      Menu.read_ok io = true ->
      file !! guild = Some g ->
      JS.truthy (Menu.categoryId g) = true ->
      "" ∉ values (Menu.ticketTopics g) ->
      Menu.clean_value raw ∈ values (Menu.ticketTopics g) ->
      Menu.ticketTopicCommand io file guild (Menu.OpAdd lbl raw d e) =
        (file, TopicFailed DuplicateTopicKey))
  /\ (forall io (db : gmap string Db.GuildConfig) guild lbl raw d e,
      Db.read_ok io = true ->
      Db.clean_value raw ∈ values (Db.topics_of db guild) ->
      snd (Db.ticketTopicCommand io db guild (Db.OpAdd lbl raw d e)) =
        TopicFailed DuplicateTopicKey
      /\ Db.topics_of
           (fst (Db.ticketTopicCommand io db guild (Db.OpAdd lbl raw d e)))
           guild = Db.topics_of db guild)
  /\ (forall io (file : gmap string Menu.GuildConfig) guild g v,
      Menu.read_ok io = true ->
      file !! guild = Some g ->
      JS.truthy (Menu.categoryId g) = true ->
      v ∉ values (Menu.ticketTopics g) ->
      Menu.ticketTopicCommand io file guild (Menu.OpRemove v) =
        (file, TopicFailed TopicNotFound))
  /\ (forall io (db : gmap string Db.GuildConfig) guild v,
      v ∉ values (Db.topics_of db guild) ->
      snd (Db.ticketTopicCommand io db guild (Db.OpRemove v)) =
        TopicFailed TopicNotFound
      /\ Db.topics_of (fst (Db.ticketTopicCommand io db guild (Db.OpRemove v)))
           guild = Db.topics_of db guild).
Proof.
  split; [exact menu_run_topic_ops_nodup|].
  split; [exact db_run_topic_ops_nodup|].
  split.
  { intros io file guild g lbl raw d e Hr Hg Hc Hne Hin.
    rewrite (menu_add_reply io file guild g) by
      (try done; right; left; by apply has_value_spec).
    destruct (String.eqb_spec (Menu.clean_value raw) "") as [Heq|_].
    - rewrite Heq in Hin. done.
    - apply has_value_spec in Hin. by rewrite Hin. }
  split; [exact db_add_duplicate|].
  split; [exact menu_remove_absent|exact db_remove_absent].
Qed.

Lemma topic_values_stay_unique_witness :
  let file : gmap string Menu.GuildConfig :=
    {[ "1" := Sample.menu_guild [Sample.billing] ]} in
  let db : gmap string Db.GuildConfig :=
    {[ "1" := Sample.db_guild [Sample.billing] ]} in
  NoDup (values (Menu.topics_of
           (Menu.run_topic_ops file "1"
              [(Sample.all_ok_menu, Menu.OpAdd "Sales" "Sales" None None);
               (Sample.all_ok_menu, Menu.OpRemove "billing")]) "1"))
  /\ NoDup (values (Db.topics_of
           (Db.run_topic_ops db "1"
              [(Sample.all_ok_db, Db.OpAdd "Sales" "Sales" "Offers" None);
               (Sample.all_ok_db, Db.OpRemove "billing")]) "1"))
  /\ Menu.ticketTopicCommand Sample.all_ok_menu file "1"
       (Menu.OpAdd "Bills" "Billing" None None) =
       (file, TopicFailed DuplicateTopicKey)
  /\ snd (Db.ticketTopicCommand Sample.all_ok_db db "1"
            (Db.OpAdd "Bills" "Billing" "Payments" None)) =
       TopicFailed DuplicateTopicKey
  /\ Menu.ticketTopicCommand Sample.all_ok_menu file "1" (Menu.OpRemove "sales") =
       (file, TopicFailed TopicNotFound)
  /\ snd (Db.ticketTopicCommand Sample.all_ok_db db "1" (Db.OpRemove "sales")) =
       TopicFailed TopicNotFound.
Proof.
  intros file db.
  destruct topic_values_stay_unique as (Hm & Hd & Hma & Hda & Hmr & Hdr).
  assert (Hfile : file !! "1" = Some (Sample.menu_guild [Sample.billing]))
    by apply lookup_singleton_eq.
  assert (Hdb : Db.topics_of db "1" = [Sample.billing])
    by (unfold Db.topics_of, db; by rewrite lookup_singleton_eq).
  assert (Hin : "billing" ∈ ["billing"]) by apply list_elem_of_singleton, eq_refl.
  assert (Hout : "sales" ∉ ["billing"])
    by (intros H%list_elem_of_singleton; discriminate H).
  assert (Hne : "" ∉ ["billing"])
    by (intros H%list_elem_of_singleton; discriminate H).
  split.
  { apply Hm. unfold Menu.topics_of. rewrite Hfile. simpl. apply NoDup_singleton. }
  split.
  { apply Hd. rewrite Hdb. simpl. apply NoDup_singleton. }
  split.
  { apply (Hma Sample.all_ok_menu file "1" (Sample.menu_guild [Sample.billing])
             "Bills" "Billing" None None eq_refl Hfile eq_refl Hne).
    exact Hin. }
  split.
  { apply (Hda Sample.all_ok_db db "1" "Bills" "Billing" "Payments" None eq_refl).
    rewrite Hdb. exact Hin. }
  split.
  { apply (Hmr Sample.all_ok_menu file "1" (Sample.menu_guild [Sample.billing])
             "sales" eq_refl Hfile eq_refl).
    exact Hout. }
  { apply (Hdr Sample.all_ok_db db "1" "sales"). rewrite Hdb. exact Hout. }
Defined.

(** C2, as the code has it in the select-menu bot. With 25 topics stored,
    [add] stores nothing and answers InvalidTopicKey for an empty cleaned key,
    DuplicateTopicKey for a key already present, and TopicLimitExceeded
    otherwise; and a list of at most 25 topics never grows beyond 25 under any
    sequence of [add] and [remove] requests. *)
Theorem menu_topic_limit :
  (forall io (file : gmap string Menu.GuildConfig) guild g lbl raw d e,
      Menu.read_ok io = true ->
      file !! guild = Some g ->
      JS.truthy (Menu.categoryId g) = true ->
      25 <= length (Menu.ticketTopics g) ->
      Menu.ticketTopicCommand io file guild (Menu.OpAdd lbl raw d e) =
        (file, TopicFailed
           (if String.eqb (Menu.clean_value raw) "" then InvalidTopicKey
            else if has_value (Menu.clean_value raw) (Menu.ticketTopics g)
                 then DuplicateTopicKey
                 else TopicLimitExceeded)))
  /\ (forall io (file : gmap string Menu.GuildConfig) guild lbl raw d e,
      25 <= length (Menu.topics_of file guild) ->
      exists err,
        Menu.ticketTopicCommand io file guild (Menu.OpAdd lbl raw d e) =
          (file, TopicFailed err))
  /\ (forall (file : gmap string Menu.GuildConfig) guild ops,
      length (Menu.topics_of file guild) <= 25 ->
      length (Menu.topics_of (Menu.run_topic_ops file guild ops) guild) <= 25).
Proof.
  split.
  { intros io file guild g lbl raw d e Hr Hg Hc Hlen.
    apply menu_add_reply; try done.
    right; right. by apply Nat.leb_le. }
  split; [|exact menu_run_topic_ops_bound].
  intros io file guild lbl raw d e Hlen.
  destruct (Menu.ticketTopicCommand io file guild (Menu.OpAdd lbl raw d e))
    as [file' r] eqn:Hcmd.
  destruct r as [t|v|err].
  - apply menu_add_success in Hcmd as (_ & _ & _ & Hlt & _). lia.
  - exfalso. revert Hcmd.
    unfold Menu.ticketTopicCommand.
    repeat (case_match; try done).
  - exists err. f_equal.
    pose proof (menu_topic_command_step io file guild (Menu.OpAdd lbl raw d e))
      as Hstep.
    revert Hcmd. unfold Menu.ticketTopicCommand, Menu.writeConfig.
    repeat (case_match; try done); by intros [= <- <-].
Qed.

Lemma menu_topic_limit_witness :
  let file : gmap string Menu.GuildConfig :=
    {[ "1" := Sample.menu_guild Sample.topics25 ]} in
  Menu.ticketTopicCommand Sample.all_ok_menu file "1"
    (Menu.OpAdd "Sales" "Sales" None None) =
    (file, TopicFailed TopicLimitExceeded)
  /\ (exists err,
        Menu.ticketTopicCommand (Menu.mkIo true false) file "1"
          (Menu.OpAdd "Sales" "Sales" None None) = (file, TopicFailed err))
  /\ length (Menu.topics_of
       (Menu.run_topic_ops file "1"
          [(Sample.all_ok_menu, Menu.OpRemove "a");
           (Sample.all_ok_menu, Menu.OpAdd "Sales" "Sales" None None);
           (Sample.all_ok_menu, Menu.OpAdd "Refunds" "Refunds" None None)])
       "1") <= 25.
Proof.
  intros file.
  destruct menu_topic_limit as (Hreply & Hfail & Hbound).
  assert (Hfile : file !! "1" = Some (Sample.menu_guild Sample.topics25))
    by apply lookup_singleton_eq.
  assert (Hlen : 25 <= length (Menu.topics_of file "1")).
  { unfold Menu.topics_of. rewrite Hfile. simpl. lia. }
  split.
  { apply (Hreply Sample.all_ok_menu file "1" (Sample.menu_guild Sample.topics25)
             "Sales" "Sales" None None eq_refl Hfile eq_refl).
    simpl. lia. }
  split.
  { apply (Hfail (Menu.mkIo true false) file "1" "Sales" "Sales" None None Hlen). }
  { apply Hbound. unfold Menu.topics_of. rewrite Hfile. simpl. lia. }
Defined.

(** C2 as stated fails in both bots: with 25 topics stored, the select-menu bot
    answers an [add] of a key that is already present with DuplicateTopicKey,
    and the database-backed bot, which has no limit check, stores a 26th
    topic. *)
Lemma topic_limit_counterexample :
  ~ (forall io (file : gmap string Menu.GuildConfig) guild lbl raw d e,
       length (Menu.topics_of file guild) = 25 ->
       snd (Menu.ticketTopicCommand io file guild (Menu.OpAdd lbl raw d e)) =
         TopicFailed TopicLimitExceeded)
  /\ ~ (forall io (db : gmap string Db.GuildConfig) guild lbl raw d e,
       length (Db.topics_of db guild) = 25 ->
       snd (Db.ticketTopicCommand io db guild (Db.OpAdd lbl raw d e)) =
         TopicFailed TopicLimitExceeded
       /\ length (Db.topics_of
                    (fst (Db.ticketTopicCommand io db guild (Db.OpAdd lbl raw d e)))
                    guild) <= 25).
Proof.
  split.
  - intros H.
    specialize (H Sample.all_ok_menu
                  {[ "1" := Sample.menu_guild Sample.topics25 ]} "1"
                  "Again" "A" None None).
    unfold Menu.topics_of, Menu.ticketTopicCommand, Menu.readConfig in H.
    simpl in H. rewrite lookup_singleton_eq in H. simpl in H.
    specialize (H eq_refl). discriminate H.
  - intros H.
    specialize (H Sample.all_ok_db
                  {[ "1" := Sample.db_guild Sample.topics25 ]} "1"
                  "Sales" "sales" "Offers" None).
    unfold Db.topics_of, Db.ticketTopicCommand, Db.getGuildConfig in H.
    simpl in H. rewrite lookup_singleton_eq in H. simpl in H.
    destruct (H eq_refl) as [H1 _]. discriminate H1.
Qed.

(** The database-backed bot at the same input: the 26th topic is stored. *)
Lemma db_add_has_no_limit :
  let db : gmap string Db.GuildConfig :=
    {[ "1" := Sample.db_guild Sample.topics25 ]} in
  let r := Db.ticketTopicCommand Sample.all_ok_db db "1"
             (Db.OpAdd "Sales" "sales" "Offers" None) in
  snd r = TopicAdded (mkTopic "Sales" "sales" "Offers" None)
  /\ length (Db.topics_of (fst r) "1") = 26.
Proof.
  intros db r. unfold r, db, Db.ticketTopicCommand, Db.getGuildConfig.
  simpl. rewrite lookup_singleton_eq. simpl. split; [done|].
  unfold Db.setGuildConfig. simpl. by rewrite db_topics_of_insert.
Qed.

(** ** Strings *)

Lemma str_app_cons (c : ascii) (s1 s2 : string) :
  String c s1 ++ s2 = String c (s1 ++ s2).
Proof. reflexivity. Qed.

Lemma str_app_nil (s : string) : "" ++ s = s.
Proof. reflexivity. Qed.

Lemma str_app_assoc (s1 s2 s3 : string) : (s1 ++ s2) ++ s3 = s1 ++ (s2 ++ s3).
Proof.
  induction s1 as [|c s1 IH]; [done|]. rewrite !str_app_cons. by rewrite IH.
Qed.

Lemma str_app_empty_r (s : string) : s ++ "" = s.
Proof. induction s as [|c s IH]; [done|]. rewrite str_app_cons. by rewrite IH. Qed.

Lemma forallb_str_app (p : ascii -> bool) (s1 s2 : string) :
  JS.forallb_str p (s1 ++ s2) = JS.forallb_str p s1 && JS.forallb_str p s2.
Proof.
  induction s1 as [|c s1 IH]; [done|]. rewrite str_app_cons. simpl.
  rewrite IH. by rewrite andb_assoc.
Qed.

(** ** Key sanitization *)

Lemma toLowerCase_char_space (c : ascii) :
  JS.is_space (JS.toLowerCase_char c) = JS.is_space c.
Proof. destruct c as [[] [] [] [] [] [] [] []]; reflexivity. Qed.

Lemma replace_runs_none (cls : ascii -> bool) (r : string) (b : bool) (s : string) :
  JS.forallb_str (fun c => negb (cls c)) s = true ->
  JS.replace_runs cls r b s = s.
Proof.
  revert b. induction s as [|c s IH]; intros b; simpl; [done|].
  intros [Hc Hs]%andb_prop. apply negb_true_iff in Hc. rewrite Hc.
  by rewrite IH.
Qed.

Lemma toLowerCase_no_space (s : string) :
  JS.forallb_str (fun c => negb (JS.is_space c)) s = true ->
  JS.forallb_str (fun c => negb (JS.is_space c)) (JS.toLowerCase s) = true.
Proof.
  induction s as [|c s IH]; simpl; [done|].
  intros [Hc Hs]%andb_prop. rewrite toLowerCase_char_space, Hc. by apply IH.
Qed.

Lemma map_str_app (f : ascii -> ascii) (s1 s2 : string) :
  JS.map_str f (s1 ++ s2) = JS.map_str f s1 ++ JS.map_str f s2.
Proof.
  induction s1 as [|c s1 IH]; [done|]. rewrite str_app_cons.
  cbn [JS.map_str]. by rewrite IH.
Qed.

Lemma filter_str_app (p : ascii -> bool) (s1 s2 : string) :
  JS.filter_str p (s1 ++ s2) = JS.filter_str p s1 ++ JS.filter_str p s2.
Proof.
  induction s1 as [|c s1 IH]; [done|]. rewrite str_app_cons.
  cbn [JS.filter_str]. rewrite IH. by destruct (p c).
Qed.

Lemma toLowerCase_all_space (s : string) :
  JS.forallb_str JS.is_space s = true ->
  JS.forallb_str JS.is_space (JS.toLowerCase s) = true.
Proof.
  induction s as [|c s IH]; [done|]. cbn.
  intros [Hc Hs]%andb_prop. rewrite toLowerCase_char_space, Hc. by apply IH.
Qed.

Lemma toLowerCase_first_space (s : string) :
  first_char_is JS.is_space (JS.toLowerCase s) = first_char_is JS.is_space s.
Proof. destruct s as [|c s]; [done|]. cbn. apply toLowerCase_char_space. Qed.

Lemma toLowerCase_last_space (s : string) :
  last_char_is JS.is_space (JS.toLowerCase s) = last_char_is JS.is_space s.
Proof.
  induction s as [|c s IH]; [done|]. destruct s as [|d s].
  - cbn. apply toLowerCase_char_space.
  - exact IH.
Qed.

(** A run of the class that starts inside a run adds nothing; one that
    starts outside adds the replacement once. *)
Lemma replace_runs_in_run (cls : ascii -> bool) (r ws s : string) :
  JS.forallb_str cls ws = true ->
  JS.replace_runs cls r true (ws ++ s) = JS.replace_runs cls r true s.
Proof.
  induction ws as [|c ws IH]; [done|]. cbn [JS.forallb_str].
  intros [Hc Hws]%andb_prop. rewrite str_app_cons. cbn [JS.replace_runs].
  rewrite Hc. by apply IH.
Qed.

Lemma replace_runs_run (cls : ascii -> bool) (r ws s : string) :
  ws <> "" -> JS.forallb_str cls ws = true ->
  JS.replace_runs cls r false (ws ++ s) = r ++ JS.replace_runs cls r true s.
Proof.
  destruct ws as [|c ws]; [done|]. intros _. cbn [JS.forallb_str].
  intros [Hc Hws]%andb_prop. rewrite str_app_cons. cbn [JS.replace_runs].
  rewrite Hc. by rewrite replace_runs_in_run.
Qed.

Lemma replace_runs_after_run (cls : ascii -> bool) (r s : string) :
  first_char_is cls s = false ->
  JS.replace_runs cls r true s = JS.replace_runs cls r false s.
Proof. destruct s as [|c s]; [done|]. cbn. by intros ->. Qed.

Lemma replace_runs_before (cls : ascii -> bool) (r a s : string) (b : bool) :
  a <> "" -> last_char_is cls a = false ->
  JS.replace_runs cls r b (a ++ s) =
    JS.replace_runs cls r b a ++ JS.replace_runs cls r false s.
Proof.
  revert b. induction a as [|c a IH]; intros b Hne Hlast; [done|].
  rewrite str_app_cons. destruct a as [|d a].
  - cbn [last_char_is] in Hlast. rewrite str_app_nil. cbn [JS.replace_runs].
    by rewrite Hlast.
  - cbn [JS.replace_runs]. destruct (cls c).
    + destruct b; rewrite IH by done; [done|]. by rewrite str_app_assoc.
    + rewrite IH by done. done.
Qed.

(** The key cleanup of the select-menu bot around a run of white space: the
    run becomes one underscore between the cleaned parts. *)
Lemma menu_clean_value_space (a ws b : string) :
  ws <> "" ->
  JS.forallb_str JS.is_space ws = true ->
  last_char_is JS.is_space a = false ->
  first_char_is JS.is_space b = false ->
  Menu.clean_value (a ++ ws ++ b) =
    Menu.clean_value a ++ "_" ++ Menu.clean_value b.
Proof.
  intros Hne Hws Ha Hb. unfold Menu.clean_value, JS.toLowerCase.
  rewrite !map_str_app.
  assert (Hne' : JS.map_str JS.toLowerCase_char ws <> "") by by destruct ws.
  pose proof (toLowerCase_all_space ws Hws) as Hws'.
  pose proof (toLowerCase_last_space a) as Ha'. rewrite Ha in Ha'.
  pose proof (toLowerCase_first_space b) as Hb'. rewrite Hb in Hb'.
  unfold JS.toLowerCase in *.
  destruct (JS.map_str JS.toLowerCase_char a) as [|c a'] eqn:Ea.
  - rewrite str_app_nil, replace_runs_run, replace_runs_after_run by done.
    by rewrite filter_str_app.
  - rewrite replace_runs_before, replace_runs_run, replace_runs_after_run
      by done.
    by rewrite !filter_str_app.
Qed.

Lemma db_add_stores io db guild lbl raw d e db' t :
  Db.ticketTopicCommand io db guild (Db.OpAdd lbl raw d e) =
    (db', TopicAdded t) ->
  Db.write_ok io = true ->
  Db.topics_of db' guild =
    ((if Db.read_ok io then Db.topics_of db guild else []) ++ [t])%list.
Proof.
  unfold Db.ticketTopicCommand.
  destruct (db_getGuildConfig_topics io db guild) as (Hsame & Hread & Hfail).
  destruct (Db.getGuildConfig io db guild) as [db1 config]. simpl in *.
  destruct (has_value _ _); [done|].
  intros [= <- <-] Hw. unfold Db.setGuildConfig. rewrite Hw.
  rewrite db_topics_of_insert. simpl.
  destruct (Db.read_ok io); [by rewrite Hread|by rewrite Hfail].
Qed.

(** C4, as the code has it. Both sanitizers lower-case the input and keep
    only [a-z0-9_]; the database-backed bot is exactly the sanitization of the
    specification. The select-menu bot first turns every run of white space
    into one underscore: it agrees with the specification on inputs without
    white space, and a run of white space between two parts gives the cleaned
    parts with one underscore between them. In the select-menu bot a
    successful [add] stores the cleaned key, which is non-empty, and an empty
    cleaned key is answered with InvalidTopicKey; in the database-backed bot
    a successful [add] stores the cleaned key as well: the topic with that key
    is the last of the stored list. *)
Theorem topic_key_sanitized :
  (forall raw,
      JS.forallb_str key_char (Menu.clean_value raw) = true
      /\ JS.forallb_str key_char (Db.clean_value raw) = true
      /\ Db.clean_value raw = spec_sanitize raw)
  /\ (forall raw,
      JS.forallb_str (fun c => negb (JS.is_space c)) raw = true ->
      Menu.clean_value raw = spec_sanitize raw)
  /\ (forall a ws b,
      ws <> "" ->
      JS.forallb_str JS.is_space ws = true ->
      last_char_is JS.is_space a = false ->
      first_char_is JS.is_space b = false ->
      Menu.clean_value (a ++ ws ++ b) =
        Menu.clean_value a ++ "_" ++ Menu.clean_value b)
  /\ (forall io (file : gmap string Menu.GuildConfig) guild lbl raw d e file' t,
      Menu.ticketTopicCommand io file guild (Menu.OpAdd lbl raw d e) =
        (file', TopicAdded t) ->
      value t = Menu.clean_value raw
      /\ value t <> ""
      /\ JS.forallb_str key_char (value t) = true
      /\ (Menu.write_ok io = true ->
          Menu.topics_of file' guild = (Menu.topics_of file guild ++ [t])%list))
  /\ (forall io (file : gmap string Menu.GuildConfig) guild g lbl raw d e,
      Menu.read_ok io = true ->
      file !! guild = Some g ->
      JS.truthy (Menu.categoryId g) = true ->
      Menu.clean_value raw = "" ->
      Menu.ticketTopicCommand io file guild (Menu.OpAdd lbl raw d e) =
        (file, TopicFailed InvalidTopicKey))
  /\ (forall io (db : gmap string Db.GuildConfig) guild lbl raw d e db' t,
      Db.ticketTopicCommand io db guild (Db.OpAdd lbl raw d e) =
        (db', TopicAdded t) ->
      value t = Db.clean_value raw
      /\ JS.forallb_str key_char (value t) = true
      /\ (Db.write_ok io = true ->
          Db.topics_of db' guild =
            ((if Db.read_ok io then Db.topics_of db guild else []) ++ [t])%list)).
Proof.
  split.
  { intros raw. split; [apply menu_clean_value_chars|].
    split; [apply db_clean_value_chars|done]. }
  split.
  { intros raw Hraw. unfold Menu.clean_value, spec_sanitize.
    rewrite replace_runs_none; [done|]. by apply toLowerCase_no_space. }
  split; [exact menu_clean_value_space|].
  split.
  { intros io file guild lbl raw d e file' t Hcmd.
    apply menu_add_success in Hcmd as (Hv & Hne & _ & _ & Hstore).
    repeat split; try done. rewrite Hv. apply menu_clean_value_chars. }
  split.
  { intros io file guild g lbl raw d e Hr Hg Hc Hempty.
    rewrite (menu_add_reply io file guild g) by
      (try done; left; by rewrite Hempty).
    by rewrite Hempty. }
  { intros io db guild lbl raw d e db' t Hcmd.
    pose proof (db_add_stores _ _ _ _ _ _ _ _ _ Hcmd) as Hstore.
    apply db_add_success in Hcmd as (Hv & _).
    split; [done|]. split; [|exact Hstore].
    rewrite Hv. apply db_clean_value_chars. }
Qed.

Lemma topic_key_sanitized_witness :
  let file : gmap string Menu.GuildConfig :=
    {[ "1" := Sample.menu_guild [Sample.billing] ]} in
  let db : gmap string Db.GuildConfig :=
    {[ "1" := Sample.db_guild [Sample.billing] ]} in
  Menu.clean_value "Pre-Sales!" = spec_sanitize "Pre-Sales!"
  /\ Menu.clean_value ("Pre" ++ "  " ++ "Sales") =
       Menu.clean_value "Pre" ++ "_" ++ Menu.clean_value "Sales"
  /\ (value (mkTopic "Sales" "pre_sales" "Click to open a ticket." None) <> "")
  /\ Menu.ticketTopicCommand Sample.all_ok_menu file "1"
       (Menu.OpAdd "Odd" "?!" None None) = (file, TopicFailed InvalidTopicKey)
  /\ value (mkTopic "Sales" "presales" "Offers" None) = Db.clean_value "Pre-Sales".
Proof.
  intros file db.
  destruct topic_key_sanitized as (_ & Hspec & Hspace & Hmenu & Hinvalid & Hdb).
  assert (Hfile : file !! "1" = Some (Sample.menu_guild [Sample.billing]))
    by apply lookup_singleton_eq.
  split.
  { apply Hspec. reflexivity. }
  split.
  { apply Hspace; [done|reflexivity..]. }
  split.
  { refine (proj1 (proj2 (Hmenu Sample.all_ok_menu file "1" "Sales" "Pre Sales"
                            None None _ _ _))).
    unfold Menu.ticketTopicCommand, Menu.readConfig. simpl.
    rewrite Hfile. reflexivity. }
  split.
  { apply (Hinvalid Sample.all_ok_menu file "1"
             (Sample.menu_guild [Sample.billing]) "Odd" "?!" None None
             eq_refl Hfile eq_refl).
    reflexivity. }
  { refine (proj1 (Hdb Sample.all_ok_db db "1" "Sales" "Pre-Sales" "Offers"
                     None _ _ _)).
    unfold Db.ticketTopicCommand, Db.getGuildConfig. simpl.
    unfold db. rewrite lookup_singleton_eq. reflexivity. }
Defined.

(** C4 as stated fails in both bots: the select-menu bot does not strip white
    space but turns it into an underscore, and the database-backed bot, which
    has no check for an empty key, stores the empty key. *)
Lemma topic_key_counterexample :
  Menu.clean_value "a b" = "a_b"
  /\ spec_sanitize "a b" = "ab"
  /\ snd (Db.ticketTopicCommand Sample.all_ok_db
            {[ "1" := Sample.db_guild [] ]} "1"
            (Db.OpAdd "Odd" "?!" "Help" None)) =
       TopicAdded (mkTopic "Odd" "" "Help" None)
  /\ Db.topics_of
       (fst (Db.ticketTopicCommand Sample.all_ok_db
               {[ "1" := Sample.db_guild [] ]} "1"
               (Db.OpAdd "Odd" "?!" "Help" None))) "1" =
       [mkTopic "Odd" "" "Help" None].
Proof.
  split; [reflexivity|]. split; [reflexivity|].
  unfold Db.ticketTopicCommand, Db.getGuildConfig. simpl.
  rewrite lookup_singleton_eq. simpl. split; [reflexivity|].
  unfold Db.setGuildConfig. simpl. by rewrite db_topics_of_insert.
Qed.

(** ** Decimal rendering and parsing *)

Lemma small_digit (d : N) :
  (d < 10)%N ->
  JS.is_digit (JS.digit_char d) = true /\ JS.digit_value (JS.digit_char d) = d.
Proof.
  intros Hd.
  assert (d = 0 \/ d = 1 \/ d = 2 \/ d = 3 \/ d = 4 \/ d = 5 \/ d = 6 \/
          d = 7 \/ d = 8 \/ d = 9)%N as Hcases by lia.
  repeat (destruct Hcases as [->|Hcases]; [by vm_compute|]).
  subst d. by vm_compute.
Qed.

Lemma parseInt_acc_app (a : N) (s1 s2 : string) :
  JS.parseInt_acc a (s1 ++ s2) = JS.parseInt_acc (JS.parseInt_acc a s1) s2.
Proof.
  revert a. induction s1 as [|c s1 IH]; intros a; [done|].
  rewrite str_app_cons. simpl. apply IH.
Qed.

Lemma digits_acc_S (fuel : nat) (n : N) (acc : string) :
  JS.digits_acc (S fuel) n acc =
    if (n <? 10)%N then String (JS.digit_char (n mod 10)) acc
    else JS.digits_acc fuel (n / 10) (String (JS.digit_char (n mod 10)) acc).
Proof. reflexivity. Qed.

Lemma digits_acc_spec (fuel : nat) (n : N) :
  (n < 2 ^ N.of_nat fuel)%N ->
  exists d,
    (forall acc, JS.digits_acc (S fuel) n acc = d ++ acc)
    /\ JS.forallb_str JS.is_digit d = true
    /\ d <> ""
    /\ JS.mathInt d = n.
Proof.
  revert n. induction fuel as [|fuel IH]; intros n Hn.
  - assert (n = 0%N) as -> by (simpl in Hn; lia).
    exists "0". by repeat split.
  - assert (Hmod : (n mod 10 < 10)%N) by (apply N.mod_lt; lia).
    destruct (small_digit _ Hmod) as [Hdig Hval].
    destruct (n <? 10)%N eqn:Hcmp.
    + apply N.ltb_lt in Hcmp.
      exists (String (JS.digit_char (n mod 10)) "").
      split.
      { intros acc. rewrite digits_acc_S.
        by rewrite (proj2 (N.ltb_lt n 10) Hcmp). }
      split; [simpl; by rewrite Hdig|]. split; [done|].
      unfold JS.mathInt. simpl. rewrite Hval. rewrite N.mod_small by done. lia.
    + destruct (IH (n / 10)%N) as (d & Hd & Hdigits & Hne & Hparse).
      { assert (2 ^ N.of_nat (S fuel) = 2 * 2 ^ N.of_nat fuel)%N as Hpow.
        { rewrite Nat2N.inj_succ, N.pow_succ_r by lia. done. }
        rewrite Hpow in Hn.
        apply N.Div0.div_lt_upper_bound. lia. }
      exists (d ++ String (JS.digit_char (n mod 10)) "").
      split.
      { intros acc. rewrite digits_acc_S, Hcmp, Hd. by rewrite str_app_assoc. }
      split.
      { rewrite forallb_str_app, Hdigits. simpl. by rewrite Hdig. }
      split.
      { by destruct d. }
      unfold JS.mathInt in *. rewrite parseInt_acc_app, Hparse. simpl.
      rewrite Hval. pose proof (N.div_mod n 10). lia.
Qed.

Lemma decimal_spec (n : N) :
  JS.forallb_str JS.is_digit (JS.decimal n) = true
  /\ JS.decimal n <> ""
  /\ JS.mathInt (JS.decimal n) = n.
Proof.
  unfold JS.decimal.
  destruct (digits_acc_spec (N.to_nat (N.size n)) n) as (d & Hd & H1 & H2 & H3).
  { rewrite N2Nat.id. apply N.size_gt. }
  rewrite Hd, str_app_empty_r. done.
Qed.

Lemma strip_prefix_app (p s : string) : JS.strip_prefix p (p ++ s) = Some s.
Proof.
  induction p as [|c p IH]; [done|]. rewrite str_app_cons. simpl.
  by rewrite Ascii.eqb_refl.
Qed.

Lemma startsWith_app (p s : string) : JS.startsWith (p ++ s) p = true.
Proof. unfold JS.startsWith. by rewrite strip_prefix_app. Qed.

Lemma take_digits_all (d : string) :
  JS.forallb_str JS.is_digit d = true -> JS.take_digits d = d.
Proof.
  induction d as [|c d IH]; simpl; [done|].
  intros [Hc Hd]%andb_prop. rewrite Hc. by rewrite IH.
Qed.

Lemma match_lit_digits_here (lit d : string) :
  JS.forallb_str JS.is_digit d = true -> d <> "" ->
  JS.match_lit_digits lit (lit ++ d) = Some d.
Proof.
  intros Hd Hne.
  destruct (lit ++ d) as [|c s] eqn:E; simpl; rewrite <- E;
    rewrite strip_prefix_app, take_digits_all by done; by destruct d.
Qed.

(** ** Running handlers *)

Ltac eff_unfold :=
  unfold Eff.run, Eff.tolerate, Eff.try_catch, Eff.call, Eff.get, Eff.modify,
    Eff.throw, mbind, mret, eff_bind, eff_ret, Eff.bind, Eff.ret in *.

Section Respects.
Context {W C : Type} (R : relation (Eff.State W C)) `{!PreOrder R}.

Lemma respects_ret {A} (a : A) : Eff.respects R (Eff.ret a).
Proof. intros s. reflexivity. Qed.

Lemma respects_throw {A} : Eff.respects R (@Eff.throw W C A).
Proof. intros s. reflexivity. Qed.

Lemma respects_get : Eff.respects R (@Eff.get W C).
Proof. intros s. reflexivity. Qed.

Lemma respects_bind {A B} (m : Eff.M W C A) (k : A -> Eff.M W C B) :
  Eff.respects R m -> (forall a, Eff.respects R (k a)) ->
  Eff.respects R (Eff.bind m k).
Proof.
  intros Hm Hk s. unfold Eff.bind. specialize (Hm s).
  destruct (m s) as [s' [a|]]; simpl in *; [|done].
  etrans; [exact Hm|apply Hk].
Qed.

Lemma respects_try_catch {A} (m h : Eff.M W C A) :
  Eff.respects R m -> Eff.respects R h -> Eff.respects R (Eff.try_catch m h).
Proof.
  intros Hm Hh s. unfold Eff.try_catch. specialize (Hm s).
  destruct (m s) as [s' [a|]]; simpl in *; [done|].
  etrans; [exact Hm|apply Hh].
Qed.

Lemma respects_tolerate (m : Eff.M W C unit) :
  Eff.respects R m -> Eff.respects R (Eff.tolerate m).
Proof. intros Hm. apply respects_try_catch; [done|apply respects_ret]. Qed.


Lemma respects_modify (f : W -> W) :
  (forall s, R s (Eff.mkState (f (Eff.world s)) (Eff.trace s))) ->
  Eff.respects R (Eff.modify f).
Proof. intros Hf s. apply Hf. Qed.

Lemma respects_call (accepts : C -> bool) (c : C) (effect : W -> W) :
  (forall s, R s (Eff.mkState (effect (Eff.world s))
                    (Eff.trace s ++ [(c, true)]))) ->
  (forall s, R s (Eff.mkState (Eff.world s) (Eff.trace s ++ [(c, false)]))) ->
  Eff.respects R (Eff.call accepts c effect).
Proof.
  intros Hok Hfail s. unfold Eff.call. destruct (accepts c); simpl; auto.
Qed.
End Respects.

Global Instance grows_preorder {W C} : PreOrder (@Eff.grows W C).
Proof.
  split.
  - intros s. exists []. by rewrite app_nil_r.
  - intros s1 s2 s3 [t1 H1] [t2 H2]. exists (t1 ++ t2)%list.
    by rewrite H2, H1, app_assoc.
Qed.

Global Instance keeps_preorder {W C X} (f : W -> X) : PreOrder (@Eff.keeps W C X f).
Proof.
  split.
  - intros s. reflexivity.
  - intros s1 s2 s3 H1 H2. unfold Eff.keeps in *. congruence.
Qed.

Global Instance adds_preorder {W C} (P : C * bool -> Prop) :
  PreOrder (@Eff.adds W C P).
Proof.
  split.
  - intros s. exists []. split; [by rewrite app_nil_r|constructor].
  - intros s1 s2 s3 (t1 & H1 & HP1) (t2 & H2 & HP2). exists (t1 ++ t2)%list.
    split; [by rewrite H2, H1, app_assoc|]. by apply Forall_app.
Qed.

Lemma adds_call {W C} (P : C * bool -> Prop) (accepts : C -> bool) (c : C)
    (effect : W -> W) :
  P (c, true) -> P (c, false) ->
  Eff.respects (Eff.adds P) (Eff.call accepts c effect).
Proof.
  intros Ht Hf. apply respects_call; intros s; eexists; (split; [done|]);
    by repeat constructor.
Qed.

Lemma adds_modify {W C} (P : C * bool -> Prop) (f : W -> W) :
  Eff.respects (@Eff.adds W C P) (Eff.modify f).
Proof.
  apply respects_modify. intros s. exists []. simpl.
  split; [by rewrite app_nil_r|constructor].
Qed.

Lemma grows_call {W C} (accepts : C -> bool) (c : C) (effect : W -> W) :
  Eff.respects Eff.grows (Eff.call accepts c effect).
Proof. apply respects_call; intros s; by eexists. Qed.

Lemma grows_modify {W C} (f : W -> W) :
  Eff.respects (@Eff.grows W C) (Eff.modify f).
Proof.
  apply respects_modify. intros s. exists []. simpl.
  by rewrite app_nil_r.
Qed.

Lemma keeps_call {W C X} (g : W -> X) (accepts : C -> bool) (c : C)
    (effect : W -> W) :
  (forall w, g (effect w) = g w) ->
  Eff.respects (Eff.keeps g) (Eff.call accepts c effect).
Proof.
  intros Hg. apply respects_call; intros s; unfold Eff.keeps; simpl;
    [apply Hg|done].
Qed.

Lemma keeps_modify {W C X} (g : W -> X) (f : W -> W) :
  (forall w, g (f w) = g w) ->
  Eff.respects (@Eff.keeps W C X g) (Eff.modify f).
Proof. intros Hg. apply respects_modify. intros s. apply Hg. Qed.

(** Decompose a goal [respects R handler] along the structure of the handler. *)
Ltac respects_step :=
  match goal with
  | |- Eff.respects _ (Eff.bind _ _) =>
      apply respects_bind; [apply _| |intros ?]
  | |- Eff.respects _ (Eff.ret _) => apply respects_ret; apply _
  | |- Eff.respects _ Eff.throw => apply respects_throw; apply _
  | |- Eff.respects _ Eff.get => apply respects_get; apply _
  | |- Eff.respects _ (Eff.try_catch _ _) =>
      apply respects_try_catch; [apply _|..]
  | |- Eff.respects _ (Eff.tolerate _) =>
      apply respects_tolerate; [apply _|]
  | |- Eff.respects Eff.grows (Eff.call _ _ _) => apply grows_call
  | |- Eff.respects Eff.grows (Eff.modify _) => apply grows_modify
  | |- Eff.respects (Eff.adds _) (Eff.call _ _ _) =>
      apply adds_call; try done
  | |- Eff.respects (Eff.adds _) (Eff.modify _) => apply adds_modify
  | |- Eff.respects (Eff.keeps _) (Eff.call _ _ _) =>
      apply keeps_call; intros ?; try reflexivity
  | |- Eff.respects (Eff.keeps _) (Eff.modify _) =>
      apply keeps_modify; intros ?; try reflexivity
  | |- Eff.respects _ (if ?b then _ else _) => destruct b
  | |- Eff.respects _ (match ?x with _ => _ end) => destruct x
  | |- Eff.respects _ (let '(_, _) := ?x in _) => destruct x
  end.

Ltac respects_tac :=
  unfold mbind, mret, eff_bind, eff_ret; repeat respects_step.

Lemma grows_head {W C A} (m : Eff.M W C A) (s : Eff.State W C) (x : C * bool) :
  Eff.respects Eff.grows m ->
  head (Eff.trace s) = Some x ->
  head (Eff.trace (fst (m s))) = Some x.
Proof.
  intros Hm Hx. destruct (Hm s) as [t ->].
  destruct (Eff.trace s); [done|]. done.
Qed.

(** ** Ticket creation in the database-backed bot *)

Lemma db_handleTicketCreation_grows env i topicValue issue :
  Eff.respects Eff.grows (Db.handleTicketCreation env i topicValue issue).
Proof.
  unfold Db.handleTicketCreation, Db.fetchGuildConfig, Db.reply.
  respects_tac.
Qed.

Lemma tolerate_call_run {W C} (accepts : C -> bool) (c : C) (effect : W -> W)
    (s : Eff.State W C) :
  Eff.tolerate (Eff.call accepts c effect) s =
    (Eff.mkState (if accepts c then effect (Eff.world s) else Eff.world s)
       (Eff.trace s ++ [(c, accepts c)]), Eff.Done tt).
Proof. unfold Eff.tolerate, Eff.try_catch, Eff.call. by destruct (accepts c). Qed.

Lemma call_run {W C} (accepts : C -> bool) (c : C) (effect : W -> W)
    (s : Eff.State W C) :
  Eff.call accepts c effect s =
    (Eff.mkState (if accepts c then effect (Eff.world s) else Eff.world s)
       (Eff.trace s ++ [(c, accepts c)]),
     if accepts c then Eff.Done tt else Eff.Thrown).
Proof. unfold Eff.call. by destruct (accepts c). Qed.

(** A handler that starts with a call on an empty trace has that call at the
    head of its trace, whatever follows and whatever catches. *)
Lemma head_call_bind {W C A} (accepts : C -> bool) (c : C) (effect : W -> W)
    (k : unit -> Eff.M W C A) (s : Eff.State W C) :
  Eff.trace s = [] ->
  (forall a, Eff.respects Eff.grows (k a)) ->
  head (Eff.trace (fst (Eff.bind (Eff.call accepts c effect) k s))) =
    Some (c, accepts c).
Proof.
  intros Hs Hk. unfold Eff.bind. rewrite call_run, Hs.
  destruct (accepts c); [|done].
  by apply (grows_head (k tt)).
Qed.

Lemma head_try_catch {W C A} (m h : Eff.M W C A) (s : Eff.State W C) x :
  head (Eff.trace (fst (m s))) = Some x ->
  Eff.respects Eff.grows h ->
  head (Eff.trace (fst (Eff.try_catch m h s))) = Some x.
Proof.
  intros Hm Hh. unfold Eff.try_catch.
  destruct (m s) as [s' [a|]]; simpl in *; [done|].
  by apply (grows_head h).
Qed.

Lemma db_fetch_run env g (s : Eff.State Db.World Db.Call) :
  Db.fetchGuildConfig env g s =
    (Eff.mkState
       (Db.mkWorld
          (fst (Db.getGuildConfig (Db.db_io env) (Db.store (Eff.world s)) g))
          (Db.channels (Eff.world s)))
       (Eff.trace s),
     Eff.Done (snd (Db.getGuildConfig (Db.db_io env) (Db.store (Eff.world s)) g))).
Proof.
  unfold Db.fetchGuildConfig. eff_unfold.
  by destruct (Db.getGuildConfig _ _ _).
Qed.

Lemma bind_run {W C A B} (m : Eff.M W C A) (k : A -> Eff.M W C B)
    (s : Eff.State W C) :
  Eff.bind m k s =
    match m s with
    | (s', Eff.Done a) => k a s'
    | (s', Eff.Thrown) => (s', Eff.Thrown)
    end.
Proof. reflexivity. Qed.

Lemma get_run {W C} (s : Eff.State W C) : Eff.get s = (s, Eff.Done (Eff.world s)).
Proof. reflexivity. Qed.

Ltac eff_classes := unfold mbind, mret, eff_bind, eff_ret in *.

Lemma db_creation_answer env i topicValue issue w :
  let config :=
    snd (Db.getGuildConfig (Db.db_io env) (Db.store w) (Db.i_guild i)) in
  let cache := guild_channels (Db.i_guild i) (Db.channels w) in
  let s := fst (Eff.run (Db.handleTicketCreation env i topicValue issue) w) in
  let expected :=
    spec_creation_check (db_configured config)
      (topic_exists (Some topicValue) (Db.ticketTopics config))
      (db_open_ticket cache (Db.i_user i)) None in
  first_failure db_failure_of (Eff.trace s) = expected
  /\ (expected <> None ->
      Db.channels (Eff.world s) = Db.channels w
      /\ db_creates_channel (Eff.trace s) = false).
Proof.
  unfold Db.handleTicketCreation, Eff.run. eff_classes.
  rewrite bind_run, db_fetch_run.
  cbn [Eff.world Eff.trace Db.channels Db.store].
  set (config := snd (Db.getGuildConfig _ _ _)).
  set (db1 := fst (Db.getGuildConfig _ _ _)).
  unfold spec_creation_check, db_configured, topic_exists, db_open_ticket, Db.reply.
  destruct (JS.truthy (Db.categoryId config)); cbn [negb orb andb].
  2:{ rewrite tolerate_call_run. cbn. by destruct (Db.accepts env _). }
  destruct (JS.truthy (Db.supportRoleId config)); cbn [negb orb andb].
  2:{ rewrite tolerate_call_run. cbn. by destruct (Db.accepts env _). }
  cbn [mbind option_bind].
  destruct (find_topic topicValue (Db.ticketTopics config)) as [t|];
    cbn [negb].
  2:{ rewrite tolerate_call_run. cbn. by destruct (Db.accepts env _). }
  rewrite bind_run, get_run.
  cbn [Eff.world Eff.trace Db.channels Db.store].
  destruct (List.find _ _) as [existing|]; cbn [fmap option_fmap option_map].
  { rewrite tolerate_call_run. cbn. by destruct (Db.accepts env _). }
  split; [|done].
  unfold first_failure.
  erewrite head_try_catch; [| |respects_tac].
  2:{ apply head_call_bind; [done|]. intros []. respects_tac. }
  done.
Qed.

(** ** Ticket creation in the select-menu bot *)

Lemma try_call_run {W C} (accepts : C -> bool) (c : C) (effect : W -> W)
    (h : Eff.M W C unit) (s : Eff.State W C) :
  Eff.try_catch (Eff.call accepts c effect) h s =
    if accepts c
    then (Eff.mkState (effect (Eff.world s)) (Eff.trace s ++ [(c, true)]),
          Eff.Done tt)
    else h (Eff.mkState (Eff.world s) (Eff.trace s ++ [(c, false)])).
Proof. unfold Eff.try_catch, Eff.call. by destruct (accepts c). Qed.

Lemma try_catch_run {W C A} (m h : Eff.M W C A) (s : Eff.State W C) :
  Eff.try_catch m h s =
    match m s with
    | (s', Eff.Done a) => (s', Eff.Done a)
    | (s', Eff.Thrown) => h s'
    end.
Proof. reflexivity. Qed.

Lemma menu_select_answer env i w values :
  Menu.i_kind i = Menu.StringSelectMenu "ticket_panel_menu" values ->
  let s := fst (Eff.run (Menu.interactionCreate env i) w) in
  first_failure menu_failure_of (Eff.trace s) =
    match Menu.readConfig (Menu.fs env) (Menu.file w) !! Menu.i_guild i with
    | None => Some FailNotConfigured
    | Some config =>
        menu_creation_check true
          (topic_exists (head values) (Menu.ticketTopics config))
          (menu_open_ticket config
             (guild_channels (Menu.i_guild i) (Menu.channels w)) (Menu.i_user i))
          (menu_cooldown_seconds (Menu.ticketCooldowns w) (Menu.i_user i)
             (Menu.now env))
    end
  /\ Eff.world s = w
  /\ menu_creates_channel (Eff.trace s) = false.
Proof.
  intros Hkind.
  unfold Menu.interactionCreate, Eff.run, Menu.isCommand. rewrite Hkind.
  unfold topic_exists, Menu.handleSelectMenuInteraction.
  eff_classes. rewrite try_catch_run, bind_run, get_run.
  cbn [Eff.world Eff.trace].
  destruct (Menu.readConfig _ _ !! _) as [config|].
  2:{ unfold Menu.reply. rewrite call_run, tolerate_call_run. cbn.
      destruct (Menu.accepts env (Menu.SendReply Menu.Outdated)); cbn; [done|].
      by destruct (Menu.accepts env _). }
  unfold Menu.handleSelectMenuInteraction. eff_classes.
  cbn [String.eqb Ascii.eqb Bool.eqb negb].
  rewrite bind_run, get_run. cbn [Eff.world Eff.trace Menu.ticketCooldowns].
  unfold menu_creation_check, menu_cooldown_seconds, menu_open_ticket,
    topic_exists, Menu.reply.
  cbn [negb].
  assert (Hreply : forall c,
    let r := Eff.call (Menu.accepts env) c (fun w => w)
               (Eff.mkState w []) in
    let s := fst (let (s', o) := r in
                  match o with
                  | Eff.Done a => (s', Eff.Done a)
                  | Eff.Thrown =>
                      Eff.tolerate
                        (Eff.call (Menu.accepts env)
                           (Menu.SendReply Menu.UnknownError) (fun w => w)) s'
                  end) in
    first_failure menu_failure_of (Eff.trace s) = menu_failure_of c
    /\ Eff.world s = w
    /\ menu_creates_channel (Eff.trace s) =
         match c with Menu.ChannelsCreate _ => true | _ => false end).
  { intros c. rewrite call_run. cbn.
    destruct (Menu.accepts env c); cbn.
    - by rewrite orb_false_r.
    - rewrite tolerate_call_run. cbn.
      destruct (Menu.accepts env _); cbn; by rewrite orb_false_r. }
  destruct (Menu.ticketCooldowns w !! Menu.i_user i) as [cd|] eqn:Hcd.
  - destruct (Z.eqb cd 0) eqn:Hz; cbn [negb].
    + destruct (List.find _ _) as [existing|]; cbn [fmap option_fmap option_map].
      * exact (Hreply (Menu.SendReply (Menu.DuplicateTicket (id existing)))).
      * destruct (option_bind _ _ _ (head values)) as [t|]; cbn [negb].
        -- exact (Hreply (Menu.ShowModal (default "" (head values)))).
        -- exact (Hreply (Menu.SendReply Menu.UnknownTopic)).
    + exact (Hreply (Menu.SendReply
                       (Menu.CooldownActive
                          (- (- (cd - Menu.now env) / 1000))%Z))).
  - destruct (List.find _ _) as [existing|]; cbn [fmap option_fmap option_map].
    + exact (Hreply (Menu.SendReply (Menu.DuplicateTicket (id existing)))).
    + destruct (option_bind _ _ _ (head values)) as [t|]; cbn [negb].
      * exact (Hreply (Menu.ShowModal (default "" (head values)))).
      * exact (Hreply (Menu.SendReply Menu.UnknownTopic)).
Qed.

(** ** The cooldown map of the select-menu bot *)

Ltac menu_unfold :=
  unfold Menu.interactionCreate, Menu.executeSlashCommand,
    Menu.handleButtonInteraction, Menu.handleSelectMenuInteraction,
    Menu.handleModalSubmit, Menu.handleClaimTicket, Menu.handleUnclaimTicket,
    Menu.handleLockTicket, Menu.handleCloseButton, Menu.closeTicket,
    Menu.deletion_timer_fires, Menu.getControlPanelMessage,
    Menu.current_channel, Menu.send, Menu.schedule, Menu.reply.

Lemma menu_select_keeps_cooldowns env i config customId values :
  Eff.respects (Eff.keeps Menu.ticketCooldowns)
    (Menu.handleSelectMenuInteraction env i config customId values).
Proof. menu_unfold. respects_tac. Qed.

Lemma menu_button_keeps_cooldowns env i config customId :
  Eff.respects (Eff.keeps Menu.ticketCooldowns)
    (Menu.handleButtonInteraction env i config customId).
Proof. menu_unfold. respects_tac. Qed.

Lemma menu_command_keeps_cooldowns env i config c :
  Eff.respects (Eff.keeps Menu.ticketCooldowns)
    (Menu.executeSlashCommand env i config c).
Proof. menu_unfold. respects_tac. Qed.

Lemma try_bind_run {W C A B} (m : Eff.M W C A) (k : A -> Eff.M W C B)
    (h : Eff.M W C B) (s : Eff.State W C) :
  Eff.try_catch (Eff.bind m k) h s =
    match m s with
    | (s', Eff.Done a) => Eff.try_catch (k a) h s'
    | (s', Eff.Thrown) => h s'
    end.
Proof.
  unfold Eff.try_catch, Eff.bind. by destruct (m s) as [s' [a|]].
Qed.

Lemma modify_run {W C} (f : W -> W) (s : Eff.State W C) :
  Eff.modify f s = (Eff.mkState (f (Eff.world s)) (Eff.trace s), Eff.Done tt).
Proof. reflexivity. Qed.

Lemma grows_elem {W C A} (m : Eff.M W C A) (s : Eff.State W C) (x : C * bool) :
  Eff.respects Eff.grows m ->
  x ∈ Eff.trace s -> x ∈ Eff.trace (fst (m s)).
Proof.
  intros Hm Hx. destruct (Hm s) as [t ->]. apply elem_of_app. by left.
Qed.

Lemma menu_modal_cooldowns env i config customId subject descr s0 :
  let s := fst (Menu.handleModalSubmit env i config customId subject descr s0) in
  Menu.ticketCooldowns (Eff.world s) = Menu.ticketCooldowns (Eff.world s0)
  \/ (Menu.ticketCooldowns (Eff.world s) =
        <[Menu.i_user i := cooldown_expiry env]>
          (Menu.ticketCooldowns (Eff.world s0))
      /\ exists c, (Menu.ChannelsCreate c, true) ∈ Eff.trace s
                   /\ guild c = Menu.i_guild i
                   /\ parentId c = Menu.categoryId config).
Proof.
  unfold Menu.handleModalSubmit, Menu.send, Menu.reply, Menu.schedule.
  eff_classes.
  destruct (JS.strip_prefix _ customId) as [topicValue|]; [|by left].
  rewrite bind_run, call_run.
  destruct (Menu.accepts env Menu.DeferReply); [|by left].
  cbn [Eff.world Eff.trace].
  destruct (find_topic topicValue _) as [t|].
  2:{ left. rewrite call_run. by destruct (Menu.accepts env _). }
  set (h := if Menu.missing_permissions env then _ else _).
  assert (Hh_keeps : Eff.respects (Eff.keeps Menu.ticketCooldowns) h)
    by (unfold h; respects_tac).
  assert (Hh_grows : Eff.respects Eff.grows h) by (unfold h; respects_tac).
  rewrite try_bind_run, call_run.
  destruct (Menu.accepts env (Menu.ChannelsCreate _)) eqn:Hcreate.
  2:{ left. etrans; [apply (Hh_keeps (Eff.mkState _ _))|done]. }
  rewrite try_bind_run, call_run.
  destruct (Menu.accepts env (Menu.ChannelSend _ _)) eqn:Hsend.
  2:{ left. etrans; [apply (Hh_keeps (Eff.mkState _ _))|done]. }
  rewrite try_bind_run, modify_run.
  cbn [Eff.world Eff.trace].
  right.
  match goal with
  | |- context [Eff.try_catch ?m h ?s] =>
      set (rest := Eff.try_catch m h); set (s3 := s)
  end.
  assert (Hrest_keeps : Eff.respects (Eff.keeps Menu.ticketCooldowns) rest).
  { unfold rest. apply respects_try_catch; [apply _| |done]. respects_tac. }
  assert (Hrest_grows : Eff.respects Eff.grows rest).
  { unfold rest. apply respects_try_catch; [apply _| |done]. respects_tac. }
  split.
  - etrans; [apply (Hrest_keeps s3)|done].
  - eexists. split.
    + apply (grows_elem rest s3); [done|].
      unfold s3. cbn [Eff.trace]. apply elem_of_app. left.
      apply elem_of_app. right. apply list_elem_of_singleton. reflexivity.
    + done.
Qed.

Lemma try_catch_keeps_after {W C A X} (f : W -> X) (m h : Eff.M W C A)
    (s : Eff.State W C) :
  Eff.respects (Eff.keeps f) h ->
  f (Eff.world (fst (Eff.try_catch m h s))) = f (Eff.world (fst (m s))).
Proof.
  intros Hh. rewrite try_catch_run. destruct (m s) as [s' [a|]]; [done|].
  apply (Hh s').
Qed.

Lemma try_catch_elem_after {W C A} (m h : Eff.M W C A)
    (s : Eff.State W C) (x : C * bool) :
  Eff.respects Eff.grows h ->
  x ∈ Eff.trace (fst (m s)) -> x ∈ Eff.trace (fst (Eff.try_catch m h s)).
Proof.
  intros Hh Hx. rewrite try_catch_run. destruct (m s) as [s' [a|]]; [done|].
  by apply (grows_elem h).
Qed.

Lemma menu_interaction_cooldowns env i w :
  let s := fst (Eff.run (Menu.interactionCreate env i) w) in
  Menu.ticketCooldowns (Eff.world s) = Menu.ticketCooldowns w
  \/ (Menu.ticketCooldowns (Eff.world s) =
        <[Menu.i_user i := cooldown_expiry env]> (Menu.ticketCooldowns w)
      /\ exists c, (Menu.ChannelsCreate c, true) ∈ Eff.trace s
                   /\ guild c = Menu.i_guild i
                   /\ exists customId subject descr,
                        Menu.i_kind i = Menu.ModalSubmit customId subject descr).
Proof.
  unfold Menu.interactionCreate, Eff.run. eff_classes. cbv zeta.
  set (h := Eff.tolerate _).
  assert (Hh_keeps : Eff.respects (Eff.keeps Menu.ticketCooldowns) h)
    by (unfold h, Menu.reply; respects_tac).
  assert (Hh_grows : Eff.respects Eff.grows h)
    by (unfold h, Menu.reply; respects_tac).
  rewrite (try_catch_keeps_after Menu.ticketCooldowns) by done.
  set (m := Eff.bind _ _).
  assert (Hm :
    Menu.ticketCooldowns (Eff.world (fst (m (Eff.mkState w [])))) =
      Menu.ticketCooldowns w
    \/ (Menu.ticketCooldowns (Eff.world (fst (m (Eff.mkState w [])))) =
          <[Menu.i_user i := cooldown_expiry env]> (Menu.ticketCooldowns w)
        /\ exists c, (Menu.ChannelsCreate c, true) ∈
                       Eff.trace (fst (m (Eff.mkState w [])))
                     /\ guild c = Menu.i_guild i
                     /\ exists customId subject descr,
                          Menu.i_kind i =
                            Menu.ModalSubmit customId subject descr)).
  { unfold m. rewrite bind_run, get_run. cbn [Eff.world].
    destruct (Menu.readConfig _ _ !! _) as [config|].
    2:{ left. unfold Menu.reply.
        destruct (Menu.isCommand i); rewrite call_run; by destruct (Menu.accepts _ _). }
    destruct (Menu.i_kind i) as [c|customId values|customId subject descr|customId]
      eqn:Hkind.
    - left. apply (menu_command_keeps_cooldowns env i config c (Eff.mkState w [])).
    - left. apply (menu_select_keeps_cooldowns env i config customId values
                     (Eff.mkState w [])).
    - destruct (menu_modal_cooldowns env i config customId subject descr
                  (Eff.mkState w [])) as [Hsame|(Hset & c & Hin & Hg & _)].
      + by left.
      + right. split; [done|]. exists c. repeat split; try done. by eauto.
    - left. apply (menu_button_keeps_cooldowns env i config customId
                     (Eff.mkState w [])). }
  destruct Hm as [Hsame|(Hset & c & Hin & Hrest)]; [by left|].
  right. split; [done|]. exists c. split; [|done].
  by apply try_catch_elem_after.
Qed.

Lemma menu_modal_success env i w config customId subject descr topicValue t :
  (forall c, Menu.accepts env c = true) ->
  Menu.i_kind i = Menu.ModalSubmit customId subject descr ->
  Menu.readConfig (Menu.fs env) (Menu.file w) !! Menu.i_guild i = Some config ->
  JS.strip_prefix "ticket_create_modal_" customId = Some topicValue ->
  find_topic topicValue (Menu.ticketTopics config) = Some t ->
  let s := fst (Eff.run (Menu.interactionCreate env i) w) in
  Menu.ticketCooldowns (Eff.world s) =
    <[Menu.i_user i := cooldown_expiry env]> (Menu.ticketCooldowns w)
  /\ exists c,
       map fst (Eff.trace s) =
         [Menu.DeferReply;
          Menu.ChannelsCreate c;
          Menu.ChannelSend (id c)
            (Menu.Posted (Menu.control_panel env i t (id c) subject descr));
          Menu.SetTimeoutCooldown (Menu.i_user i)
            (3 * 60 * 1000 - Menu.clock_step env)%Z;
          Menu.SendReply (Menu.TicketCreated (id c))]
       /\ guild c = Menu.i_guild i
       /\ parentId c = Menu.categoryId config
       /\ name c = value t ++ "-" ++ Menu.substring0 15 (Menu.i_username i).
Proof.
  intros Hacc Hkind Hcfg Hstrip Htopic.
  unfold Menu.interactionCreate, Menu.handleModalSubmit, Menu.send, Menu.reply,
    Menu.schedule, Eff.run.
  eff_unfold. cbn [Eff.world Eff.trace].
  rewrite Hcfg, Hkind, Hstrip. rewrite !Hacc. cbn [Eff.world Eff.trace].
  rewrite Htopic. rewrite !Hacc. cbn [Eff.world Eff.trace fst].
  split; [done|].
  eexists. split.
  - cbn [map fst app].
    replace (Menu.now env + Menu.TICKET_COOLDOWN_MINUTES * 60 * 1000 -
             (Menu.now env + Menu.clock_step env))%Z
      with (3 * 60 * 1000 - Menu.clock_step env)%Z
      by (unfold Menu.TICKET_COOLDOWN_MINUTES; lia).
    reflexivity.
  - done.
Qed.





(** C10. In the select-menu bot an interaction either leaves the cooldown map
    as it was or writes, for the requesting user, the expiry three minutes
    after the clock reading that follows the channel's creation; the latter
    happens only when the trace holds an accepted channel creation in the
    guild of the request. The entry is looked up by user id alone: after a
    creation, a request of the same user from any configured guild is answered
    with CooldownActive. *)
Theorem cooldown_follows_creation :
  (forall env i w,
      let s := fst (Eff.run (Menu.interactionCreate env i) w) in
      Menu.ticketCooldowns (Eff.world s) = Menu.ticketCooldowns w
      \/ (Menu.ticketCooldowns (Eff.world s) =
            <[Menu.i_user i := (Menu.now env + 3 * 60 * 1000)%Z]>
              (Menu.ticketCooldowns w)
          /\ exists c, (Menu.ChannelsCreate c, true) ∈ Eff.trace s
                       /\ guild c = Menu.i_guild i))
  /\ (forall env i w,
      let s := fst (Eff.run (Menu.interactionCreate env i) w) in
      (forall c, (Menu.ChannelsCreate c, true) ∉ Eff.trace s) ->
      Menu.ticketCooldowns (Eff.world s) = Menu.ticketCooldowns w)
  /\ (forall env i w config customId subject descr topicValue t,
      (forall c, Menu.accepts env c = true) ->
      (0 <= Menu.now env)%Z ->
      Menu.i_kind i = Menu.ModalSubmit customId subject descr ->
      Menu.readConfig (Menu.fs env) (Menu.file w) !! Menu.i_guild i = Some config ->
      JS.strip_prefix "ticket_create_modal_" customId = Some topicValue ->
      find_topic topicValue (Menu.ticketTopics config) = Some t ->
      let w1 := Eff.world (fst (Eff.run (Menu.interactionCreate env i) w)) in
      Menu.ticketCooldowns w1 !! Menu.i_user i =
        Some (Menu.now env + 3 * 60 * 1000)%Z
      /\ forall env2 i2 values config2,
           Menu.i_user i2 = Menu.i_user i ->
           Menu.i_kind i2 = Menu.StringSelectMenu "ticket_panel_menu" values ->
           Menu.readConfig (Menu.fs env2) (Menu.file w1) !! Menu.i_guild i2 =
             Some config2 ->
           first_failure menu_failure_of
             (Eff.trace (fst (Eff.run (Menu.interactionCreate env2 i2) w1))) =
             Some (FailCooldownActive
                     (- (- (Menu.now env + 3 * 60 * 1000 - Menu.now env2) / 1000))%Z)).
Proof.
  split.
  { intros env i w.
    destruct (menu_interaction_cooldowns env i w)
      as [Hsame|(Hset & c & Hin & Hg & _)]; [by left|].
    right. split; [exact Hset|]. by exists c. }
  split.
  { intros env i w s Hnone.
    destruct (menu_interaction_cooldowns env i w)
      as [Hsame|(_ & c & Hin & _)]; [done|].
    by destruct (Hnone c). }
  intros env i w config customId subject descr topicValue t
    Hacc Hnow Hkind Hcfg Hstrip Htopic w1.
  destruct (menu_modal_success env i w config customId subject descr
              topicValue t Hacc Hkind Hcfg Hstrip Htopic) as [Hset _].
  fold w1 in Hset. unfold cooldown_expiry in Hset.
  assert (Hlookup : Menu.ticketCooldowns w1 !! Menu.i_user i =
                    Some (Menu.now env + 3 * 60 * 1000)%Z).
  { rewrite Hset. apply lookup_insert_eq. }
  split; [exact Hlookup|].
  intros env2 i2 values config2 Huser Hkind2 Hcfg2.
  destruct (menu_select_answer env2 i2 w1 values Hkind2) as [Hans _].
  rewrite Hans, Hcfg2. unfold menu_creation_check, menu_cooldown_seconds.
  rewrite Huser, Hlookup.
  destruct (Z.eqb_spec (Menu.now env + 3 * 60 * 1000) 0) as [Hz|_]; [lia|].
  done.
Qed.

Lemma cooldown_follows_creation_witness :
  Menu.ticketCooldowns
    (Eff.world (fst (Eff.run (Menu.interactionCreate Scene.menu_env
                                (Scene.alice (Scene.select "billing")))
                       Scene.menu_world))) =
    Menu.ticketCooldowns Scene.menu_world
  /\ Menu.ticketCooldowns Scene.menu_world_after_ticket !! "77" = Some 1180000%Z
  /\ first_failure menu_failure_of
       (Eff.trace (fst (Eff.run (Menu.interactionCreate Scene.menu_env
                                   (Scene.alice_elsewhere (Scene.select "billing")))
                          Scene.menu_world_after_ticket))) =
       Some (FailCooldownActive 180).
Proof.
  destruct cooldown_follows_creation as (_ & Hkeep & Hcross).
  split.
  { apply Hkeep. intros c Hin. vm_compute in Hin.
    apply list_elem_of_singleton in Hin. discriminate Hin. }
  destruct (Hcross Scene.menu_env (Scene.alice Scene.submit_billing)
              Scene.menu_world Scene.menu_config "ticket_create_modal_billing"
              "Refund" "I was charged twice this month." "billing" Sample.billing)
    as [Hentry Hany].
  { intros c. reflexivity. }
  { vm_compute. discriminate. }
  { reflexivity. }
  { vm_compute. reflexivity. }
  { reflexivity. }
  { reflexivity. }
  split; [exact Hentry|].
  apply (Hany Scene.menu_env (Scene.alice_elsewhere (Scene.select "billing"))
           ["billing"] Scene.menu_config2); [reflexivity|reflexivity|].
  vm_compute. reflexivity.
Defined.

(** ** Allocation of the channel name in the database-backed bot *)

Lemma db_creation_first_call env i topicValue issue w :
  let config :=
    snd (Db.getGuildConfig (Db.db_io env) (Db.store w) (Db.i_guild i)) in
  let cache := guild_channels (Db.i_guild i) (Db.channels w) in
  let s := fst (Eff.run (Db.handleTicketCreation env i topicValue issue) w) in
  spec_creation_check (db_configured config)
    (topic_exists (Some topicValue) (Db.ticketTopics config))
    (db_open_ticket cache (Db.i_user i)) None = None ->
  exists c t,
    head (Eff.trace s) = Some (Db.ChannelsCreate c, Db.accepts env (Db.ChannelsCreate c))
    /\ find_topic topicValue (Db.ticketTopics config) = Some t
    /\ id c = Db.new_channel_id env
    /\ guild c = Db.i_guild i
    /\ name c =
         "ticket-" ++
         JS.number_to_string (Db.getNextTicketNumber cache (Db.categoryId config))
    /\ type c = GuildText
    /\ parentId c = Db.categoryId config
    /\ topic c =
         Some ("Ticket ID: " ++ name c ++ " | UserID: " ++ Db.i_user i
               ++ " | Topic: " ++ label t).
Proof.
  unfold Db.handleTicketCreation, Eff.run. unfold topic_exists. eff_classes.
  rewrite bind_run, db_fetch_run.
  cbn [Eff.world Eff.trace Db.channels Db.store].
  set (config := snd (Db.getGuildConfig _ _ _)).
  set (db1 := fst (Db.getGuildConfig _ _ _)).
  unfold spec_creation_check, db_configured, db_open_ticket.
  destruct (JS.truthy (Db.categoryId config)); cbn [negb orb andb]; [|done].
  destruct (JS.truthy (Db.supportRoleId config)); cbn [negb orb andb]; [|done].
  cbn [option_bind].
  destruct (find_topic topicValue (Db.ticketTopics config)) as [t|];
    cbn [negb]; [|done].
  rewrite bind_run, get_run.
  cbn [Eff.world Eff.trace Db.channels Db.store].
  destruct (List.find _ _) as [existing|]; cbn [fmap option_fmap option_map];
    [done|].
  intros _. eexists _, t. split.
  - apply head_try_catch; [|unfold Db.reply; respects_tac].
    apply head_call_bind; [done|]. intros []. unfold Db.reply. respects_tac.
  - done.
Qed.

(** ** Recognition of ticket channels in the database-backed bot *)

Lemma db_refused_adds (s s' : Eff.State Db.World Db.Call) :
  Eff.adds not_refusal s s' ->
  db_refused (Eff.trace s') = db_refused (Eff.trace s).
Proof.
  intros (t & -> & Ht). unfold db_refused. rewrite existsb_app.
  assert (Hnone : existsb
            (fun cb => match fst cb with
                       | Db.SendReply Db.NotATicketChannel => true
                       | _ => false
                       end) t = false).
  { induction Ht as [|[c b] t Hc _ IH]; [done|]. simpl. rewrite IH.
    unfold not_refusal in Hc. simpl in Hc.
    destruct c as [|[]| | | | | | | | | | | | |]; try done. }
  rewrite Hnone. by rewrite orb_false_r.
Qed.

Lemma db_current_channel_run i channel (s : Eff.State Db.World Db.Call) :
  cache_get (Some (Db.i_channel i)) (Db.channels (Eff.world s)) = Some channel ->
  Db.current_channel i s = (s, Eff.Done channel).
Proof.
  intros Hc. unfold Db.current_channel. eff_classes.
  rewrite bind_run, get_run. by rewrite Hc.
Qed.

Ltac db_unfold :=
  unfold Db.handleCloseTicket, Db.handleCloseTicketConfirm, Db.handleClaimTicket,
    Db.handleLockTicket, Db.handleRenameTicket, Db.handleUserManagement,
    Db.handleTicketCreation, Db.deletion_timer_fires, Db.schedule, Db.reply.

Lemma db_close_refused env i silent w channel :
  cache_get (Some (Db.i_channel i)) (Db.channels w) = Some channel ->
  db_refused (Eff.trace (fst (Eff.run (Db.handleCloseTicket env i silent) w))) =
    negb (JS.startsWith (name channel) "ticket-").
Proof.
  intros Hc. db_unfold. unfold Eff.run. eff_classes.
  rewrite bind_run, (db_current_channel_run i channel) by done.
  rewrite bind_run, db_fetch_run.
  destruct (JS.startsWith (name channel) "ticket-"); cbn [negb].
  - match goal with
    | |- context [fst (?m ?s)] =>
        assert (Hm : Eff.respects (Eff.adds not_refusal) m) by respects_tac;
        apply (db_refused_adds _ _ (Hm s))
    end.
  - rewrite call_run. cbn. done.
Qed.

Lemma db_lock_refused env i lockState w channel :
  cache_get (Some (Db.i_channel i)) (Db.channels w) = Some channel ->
  db_refused (Eff.trace (fst (Eff.run (Db.handleLockTicket env i lockState) w))) =
    negb (JS.startsWith (name channel) "ticket-").
Proof.
  intros Hc. db_unfold. unfold Eff.run. eff_classes.
  rewrite bind_run, (db_current_channel_run i channel) by done.
  rewrite bind_run, db_fetch_run.
  destruct (JS.startsWith (name channel) "ticket-"); cbn [negb].
  - match goal with
    | |- context [fst (?m ?s)] =>
        assert (Hm : Eff.respects (Eff.adds not_refusal) m) by respects_tac;
        apply (db_refused_adds _ _ (Hm s))
    end.
  - rewrite call_run. cbn. done.
Qed.

Lemma db_rename_refused env i newName w channel :
  cache_get (Some (Db.i_channel i)) (Db.channels w) = Some channel ->
  db_refused (Eff.trace (fst (Eff.run (Db.handleRenameTicket env i newName) w))) =
    negb (JS.startsWith (name channel) "ticket-").
Proof.
  intros Hc. db_unfold. unfold Eff.run. eff_classes.
  rewrite bind_run, (db_current_channel_run i channel) by done.
  destruct (JS.startsWith (name channel) "ticket-"); cbn [negb].
  - match goal with
    | |- context [fst (?m ?s)] =>
        assert (Hm : Eff.respects (Eff.adds not_refusal) m) by respects_tac;
        apply (db_refused_adds _ _ (Hm s))
    end.
  - rewrite call_run. cbn. done.
Qed.

Lemma db_user_refused env i user isAdd w channel :
  cache_get (Some (Db.i_channel i)) (Db.channels w) = Some channel ->
  db_refused
    (Eff.trace (fst (Eff.run (Db.handleUserManagement env i user isAdd) w))) =
    negb (JS.startsWith (name channel) "ticket-").
Proof.
  intros Hc. db_unfold. unfold Eff.run. eff_classes.
  rewrite bind_run, (db_current_channel_run i channel) by done.
  destruct (JS.startsWith (name channel) "ticket-"); cbn [negb].
  - match goal with
    | |- context [fst (?m ?s)] =>
        assert (Hm : Eff.respects (Eff.adds not_refusal) m) by respects_tac;
        apply (db_refused_adds _ _ (Hm s))
    end.
  - rewrite call_run. cbn. done.
Qed.

Lemma db_close_only_refusal env i silent w channel :
  cache_get (Some (Db.i_channel i)) (Db.channels w) = Some channel ->
  JS.startsWith (name channel) "ticket-" = false ->
  db_only_refusal env w (fst (Eff.run (Db.handleCloseTicket env i silent) w)).
Proof.
  intros Hc Hprefix. db_unfold. unfold Eff.run. eff_classes.
  rewrite bind_run, (db_current_channel_run i channel) by done.
  rewrite bind_run, db_fetch_run. rewrite Hprefix. cbn [negb].
  rewrite call_run. split; [reflexivity|].
  cbn [fst Eff.world Eff.trace]. by destruct (Db.accepts env _).
Qed.

Lemma db_lock_only_refusal env i lockState w channel :
  cache_get (Some (Db.i_channel i)) (Db.channels w) = Some channel ->
  JS.startsWith (name channel) "ticket-" = false ->
  db_only_refusal env w (fst (Eff.run (Db.handleLockTicket env i lockState) w)).
Proof.
  intros Hc Hprefix. db_unfold. unfold Eff.run. eff_classes.
  rewrite bind_run, (db_current_channel_run i channel) by done.
  rewrite bind_run, db_fetch_run. rewrite Hprefix. cbn [negb].
  rewrite call_run. split; [reflexivity|].
  cbn [fst Eff.world Eff.trace]. by destruct (Db.accepts env _).
Qed.

Lemma db_rename_only_refusal env i newName w channel :
  cache_get (Some (Db.i_channel i)) (Db.channels w) = Some channel ->
  JS.startsWith (name channel) "ticket-" = false ->
  db_only_refusal env w (fst (Eff.run (Db.handleRenameTicket env i newName) w)).
Proof.
  intros Hc Hprefix. db_unfold. unfold Eff.run. eff_classes.
  rewrite bind_run, (db_current_channel_run i channel) by done.
  rewrite Hprefix. cbn [negb].
  rewrite call_run. split; [reflexivity|].
  cbn [fst Eff.world Eff.trace]. by destruct (Db.accepts env _).
Qed.

Lemma db_user_only_refusal env i user isAdd w channel :
  cache_get (Some (Db.i_channel i)) (Db.channels w) = Some channel ->
  JS.startsWith (name channel) "ticket-" = false ->
  db_only_refusal env w
    (fst (Eff.run (Db.handleUserManagement env i user isAdd) w)).
Proof.
  intros Hc Hprefix. db_unfold. unfold Eff.run. eff_classes.
  rewrite bind_run, (db_current_channel_run i channel) by done.
  rewrite Hprefix. cbn [negb].
  rewrite call_run. split; [reflexivity|].
  cbn [fst Eff.world Eff.trace]. by destruct (Db.accepts env _).
Qed.

Lemma cache_get_update (i : string) (f : Channel -> Channel) (cs : list Channel) :
  (forall c, id (f c) = id c) ->
  cache_get (Some i) (update_channel i f cs) = f <$> cache_get (Some i) cs.
Proof.
  intros Hf. unfold cache_get, update_channel.
  induction cs as [|c cs IH]; [done|]. cbn [map List.find JS.strict_eq].
  destruct (String.eqb (id c) i) eqn:E.
  - by rewrite Hf, E.
  - rewrite E. apply IH.
Qed.

Lemma guild_channels_update (g i : string) (f : Channel -> Channel)
    (cs : list Channel) :
  (forall c, guild (f c) = guild c) ->
  guild_channels g (update_channel i f cs) =
    update_channel i f (guild_channels g cs).
Proof.
  intros Hf. unfold guild_channels, update_channel.
  induction cs as [|c cs IH]; [done|]. cbn [map List.filter].
  destruct (String.eqb (id c) i) eqn:E.
  - rewrite Hf. destruct (String.eqb (guild c) g); [|done].
    cbn [map]. by rewrite E, IH.
  - destruct (String.eqb (guild c) g); [|done].
    cbn [map]. by rewrite E, IH.
Qed.

(** The scan for an open ticket looks at channels named [ticket-...] only. *)
Lemma db_open_ticket_prefix_only (cache : list Channel) (user : string) :
  db_open_ticket cache user =
    db_open_ticket
      (List.filter (fun c => JS.startsWith (name c) "ticket-") cache) user.
Proof.
  unfold db_open_ticket. f_equal.
  induction cache as [|c cache IH]; [done|]. cbn [List.find List.filter].
  destruct (JS.startsWith (name c) "ticket-") eqn:E; cbn [andb List.find].
  - rewrite E. cbn [andb]. destruct (topic_includes c _); [done|apply IH].
  - apply IH.
Qed.

(** A channel renamed to a name without the prefix drops out of the scan. *)
Lemma db_open_ticket_renamed (cache : list Channel) (i n user : string) :
  JS.startsWith n "ticket-" = false ->
  db_open_ticket (update_channel i (set_name n) cache) user =
    db_open_ticket
      (List.filter (fun c => negb (String.eqb (id c) i)) cache) user.
Proof.
  intros Hn. unfold db_open_ticket, update_channel. f_equal.
  induction cache as [|c cache IH]; [done|]. cbn [map List.find List.filter].
  destruct (String.eqb (id c) i) eqn:E; cbn [negb].
  - cbn [set_name name]. rewrite Hn. cbn [andb]. apply IH.
  - cbn [List.find]. destruct (_ && _); [done|apply IH].
Qed.

Lemma db_rename_success env i newName w channel :
  cache_get (Some (Db.i_channel i)) (Db.channels w) = Some channel ->
  JS.startsWith (name channel) "ticket-" = true ->
  2 <= String.length (Db.safe_name newName) <= 100 ->
  Db.accepts env (Db.SetName (id channel) (Db.safe_name newName)) = true ->
  Eff.world (fst (Eff.run (Db.handleRenameTicket env i newName) w)) =
    Db.on_channels
      (update_channel (id channel) (set_name (Db.safe_name newName))) w.
Proof.
  intros Hc Hprefix [Hlo Hhi] Hacc. db_unfold. unfold Eff.run. eff_classes.
  rewrite bind_run, (db_current_channel_run i channel) by done.
  rewrite Hprefix. cbn [negb].
  destruct (Nat.ltb_spec (String.length (Db.safe_name newName)) 2); [lia|].
  destruct (Nat.ltb_spec 100 (String.length (Db.safe_name newName))); [lia|].
  cbn [orb]. rewrite try_bind_run, call_run, Hacc.
  rewrite try_catch_run, call_run.
  destruct (Db.accepts env (Db.SendReply (Db.Renamed _ _))); [reflexivity|].
  rewrite call_run.
  destruct (Db.accepts env (Db.SendReply Db.RenameFailed)); reflexivity.
Qed.

Lemma cache_get_id (i : string) (cs : list Channel) (c : Channel) :
  cache_get (Some i) cs = Some c -> id c = i.
Proof.
  unfold cache_get. intros H. apply find_some in H as [_ H].
  cbn [JS.strict_eq] in H. by apply String.eqb_eq in H.
Qed.

(** C9. In the database-backed bot close, lock/unlock, rename and user
    add/remove answer "This command must be used in a ticket channel." exactly
    when the name of the channel does not start with [ticket-]; in that case
    the answer is their only call and the channels stay as they are. The scan
    for an open ticket of a user skips every channel whose name does not start
    with the prefix. So after a successful rename of a ticket to a name
    without the prefix, close, lock and rename in that channel only answer
    with the refusal and change nothing, the channel no longer counts as an
    open ticket, and its creator, having no other ticket, passes the checks of
    ticket creation: the creation of a second channel is attempted. *)
Theorem ticket_recognised_by_prefix :
  (forall env i w channel,
      cache_get (Some (Db.i_channel i)) (Db.channels w) = Some channel ->
      (forall silent,
          let s := fst (Eff.run (Db.handleCloseTicket env i silent) w) in
          db_refused (Eff.trace s) = negb (JS.startsWith (name channel) "ticket-")
          /\ (JS.startsWith (name channel) "ticket-" = false ->
              db_only_refusal env w s))
      /\ (forall lockState,
          let s := fst (Eff.run (Db.handleLockTicket env i lockState) w) in
          db_refused (Eff.trace s) = negb (JS.startsWith (name channel) "ticket-")
          /\ (JS.startsWith (name channel) "ticket-" = false ->
              db_only_refusal env w s))
      /\ (forall newName,
          let s := fst (Eff.run (Db.handleRenameTicket env i newName) w) in
          db_refused (Eff.trace s) = negb (JS.startsWith (name channel) "ticket-")
          /\ (JS.startsWith (name channel) "ticket-" = false ->
              db_only_refusal env w s))
      /\ (forall user isAdd,
          let s := fst (Eff.run (Db.handleUserManagement env i user isAdd) w) in
          db_refused (Eff.trace s) = negb (JS.startsWith (name channel) "ticket-")
          /\ (JS.startsWith (name channel) "ticket-" = false ->
              db_only_refusal env w s)))
  /\ (forall cache user,
      db_open_ticket cache user =
        db_open_ticket
          (List.filter (fun c => JS.startsWith (name c) "ticket-") cache) user)
  /\ (forall env i newName w channel,
      cache_get (Some (Db.i_channel i)) (Db.channels w) = Some channel ->
      JS.startsWith (name channel) "ticket-" = true ->
      2 <= String.length (Db.safe_name newName) <= 100 ->
      Db.accepts env (Db.SetName (id channel) (Db.safe_name newName)) = true ->
      JS.startsWith (Db.safe_name newName) "ticket-" = false ->
      let w' := Eff.world (fst (Eff.run (Db.handleRenameTicket env i newName) w)) in
      (forall env' silent,
          db_only_refusal env' w'
            (fst (Eff.run (Db.handleCloseTicket env' i silent) w')))
      /\ (forall env' lockState,
          db_only_refusal env' w'
            (fst (Eff.run (Db.handleLockTicket env' i lockState) w')))
      /\ (forall env' newName',
          db_only_refusal env' w'
            (fst (Eff.run (Db.handleRenameTicket env' i newName') w')))
      /\ (forall user,
          db_open_ticket (guild_channels (Db.i_guild i) (Db.channels w')) user =
            db_open_ticket
              (List.filter (fun c => negb (String.eqb (id c) (Db.i_channel i)))
                 (guild_channels (Db.i_guild i) (Db.channels w)))
              user)
      /\ (forall env' i' topicValue issue,
          Db.i_guild i' = Db.i_guild i ->
          let config :=
            snd (Db.getGuildConfig (Db.db_io env') (Db.store w) (Db.i_guild i')) in
          db_configured config = true ->
          topic_exists (Some topicValue) (Db.ticketTopics config) = true ->
          db_open_ticket
            (List.filter (fun c => negb (String.eqb (id c) (Db.i_channel i)))
               (guild_channels (Db.i_guild i) (Db.channels w)))
            (Db.i_user i') = None ->
          exists c,
            head (Eff.trace
                    (fst (Eff.run
                            (Db.handleTicketCreation env' i' topicValue issue) w'))) =
              Some (Db.ChannelsCreate c, Db.accepts env' (Db.ChannelsCreate c)))).
Proof.
  split.
  { intros env i w channel Hc.
    split.
    { intros silent s. split; [by apply db_close_refused|].
      intros Hp. by eapply db_close_only_refusal. }
    split.
    { intros lockState s. split; [by apply db_lock_refused|].
      intros Hp. by eapply db_lock_only_refusal. }
    split.
    { intros newName s. split; [by apply db_rename_refused|].
      intros Hp. by eapply db_rename_only_refusal. }
    intros user isAdd s. split; [by apply db_user_refused|].
    intros Hp. by eapply db_user_only_refusal. }
  split; [exact db_open_ticket_prefix_only|].
  intros env i newName w channel Hc Hprefix Hlen Hacc Hnew w'.
  assert (Hw' : w' = Db.on_channels
                       (update_channel (id channel)
                          (set_name (Db.safe_name newName))) w)
    by by apply db_rename_success.
  assert (Hid : id channel = Db.i_channel i) by by eapply cache_get_id.
  assert (Hc' : cache_get (Some (Db.i_channel i)) (Db.channels w') =
                Some (set_name (Db.safe_name newName) channel)).
  { rewrite Hw'. cbn [Db.on_channels Db.channels]. rewrite Hid.
    rewrite cache_get_update by done. by rewrite Hc. }
  assert (Hscan : forall user,
    db_open_ticket (guild_channels (Db.i_guild i) (Db.channels w')) user =
      db_open_ticket
        (List.filter (fun c => negb (String.eqb (id c) (Db.i_channel i)))
           (guild_channels (Db.i_guild i) (Db.channels w)))
        user).
  { intros user. rewrite Hw'. cbn [Db.on_channels Db.channels]. rewrite Hid.
    rewrite guild_channels_update by done. by apply db_open_ticket_renamed. }
  split.
  { intros env' silent. by eapply db_close_only_refusal. }
  split.
  { intros env' lockState. by eapply db_lock_only_refusal. }
  split.
  { intros env' newName'. by eapply db_rename_only_refusal. }
  split; [exact Hscan|].
  intros env' i' topicValue issue Hguild config Hconf Htopic Hnone.
  destruct (db_creation_first_call env' i' topicValue issue w')
    as (c & t & Hhead & _).
  { assert (Hstore : Db.store w' = Db.store w) by by rewrite Hw'.
    rewrite Hstore. fold config. rewrite Hconf, Htopic, Hguild, Hscan, Hnone.
    done. }
  by exists c.
Qed.

Lemma ticket_recognised_by_prefix_witness :
  let renamed :=
    Eff.world (fst (Eff.run (Db.handleRenameTicket DbScene.env DbScene.bob
                               "VIP Alice!") DbScene.world)) in
  db_refused
    (Eff.trace (fst (Eff.run (Db.handleCloseTicket DbScene.env DbScene.bob false)
                       DbScene.world))) = false
  /\ db_only_refusal DbScene.env renamed
       (fst (Eff.run (Db.handleCloseTicket DbScene.env DbScene.bob false) renamed))
  /\ db_open_ticket (guild_channels "1" (Db.channels renamed)) "77" = None
  /\ exists c,
       head (Eff.trace
               (fst (Eff.run (Db.handleTicketCreation DbScene.env DbScene.alice
                                "billing" None) renamed))) =
         Some (Db.ChannelsCreate c, true).
Proof.
  intros renamed.
  destruct ticket_recognised_by_prefix as (Hiff & _ & Hrename).
  destruct (Hiff DbScene.env DbScene.bob DbScene.world DbScene.ticket7 eq_refl)
    as (Hclose & _).
  destruct (Hrename DbScene.env DbScene.bob "VIP Alice!" DbScene.world
              DbScene.ticket7 eq_refl eq_refl)
    as (Hclose' & _ & _ & Hscan & Hcreate).
  { vm_compute. lia. }
  { reflexivity. }
  { reflexivity. }
  split; [exact (proj1 (Hclose false))|].
  split; [exact (Hclose' DbScene.env false)|].
  split; [etrans; [exact (Hscan "77")|reflexivity]|].
  apply (Hcreate DbScene.env DbScene.alice "billing" None eq_refl);
    reflexivity.
Defined.

(** ** Closing a ticket *)

Lemma db_close_run env i w channel logs creator :
  cache_get (Some (Db.i_channel i)) (Db.channels w) = Some channel ->
  JS.startsWith (name channel) "ticket-" = true ->
  let config :=
    snd (Db.getGuildConfig (Db.db_io env) (Db.store w) (Db.i_guild i)) in
  let db1 := fst (Db.getGuildConfig (Db.db_io env) (Db.store w) (Db.i_guild i)) in
  let transcript := name channel ++ ".html" in
  let log :=
    Db.ChannelSend (id logs)
      (Db.LogClosed (name channel) (Some creator) (Db.i_user i) (id channel)
         transcript) in
  JS.truthy (Db.logsChannelId config) = true ->
  cache_get (Db.logsChannelId config)
    (guild_channels (Db.i_guild i) (Db.channels w)) = Some logs ->
  Db.ticket_user_id channel = Some creator ->
  let dm :=
    Db.UserSend creator
      (Db.DmClosed (Db.i_guild_name i) (name channel) (Db.i_user i) transcript) in
  (forall c, db_is_log_with (id logs) transcript c = false ->
             db_is_dm_with creator transcript c = false ->
             Db.accepts env c = true) ->
  Eff.run (Db.handleCloseTicket env i false) w =
    (Eff.mkState (Db.mkWorld db1 (Db.channels w))
       ((if Db.i_acknowledged i then [] else [(Db.DeferReply, true)]) ++
        [(Db.CreateTranscript (id channel), true);
         (Db.UsersFetch creator, true);
         (log, Db.accepts env log);
         (dm, Db.accepts env dm);
         (Db.ChannelSend (id channel) (Db.ClosingNotice (Db.i_user i)), true);
         (Db.SendReply (Db.ClosedAndArchived (name channel)), true);
         (Db.SetTimeoutDelete (id channel) 5000, true)]),
     Eff.Done tt).
Proof.
  intros Hc Hprefix config db1 transcript log Hlogs Hcache Hcreator dm Hacc.
  unfold config in Hlogs, Hcache. unfold db1.
  db_unfold. unfold Eff.run. eff_classes.
  rewrite bind_run, (db_current_channel_run i channel) by done.
  rewrite bind_run, db_fetch_run.
  cbn [Eff.world Eff.trace Db.channels Db.store].
  rewrite Hprefix. cbn [negb].
  eff_unfold. cbv beta iota. cbn [Eff.world Eff.trace Db.channels Db.store].
  rewrite Hcreator, Hlogs. cbv beta iota.
  destruct (Db.i_acknowledged i).
  - rewrite !Hacc by reflexivity. cbv beta iota.
    cbn [Eff.world Eff.trace Db.channels Db.store negb]. rewrite Hcache.
    cbv beta iota. fold transcript. fold log. fold dm.
    destruct (Db.accepts env log), (Db.accepts env dm); cbv beta iota;
      cbn [Eff.world Eff.trace Db.channels Db.store negb];
      rewrite ?Hacc by reflexivity; reflexivity.
  - rewrite !Hacc by reflexivity. cbv beta iota.
    cbn [Eff.world Eff.trace Db.channels Db.store negb]. rewrite Hcache.
    cbv beta iota. fold transcript. fold log. fold dm.
    destruct (Db.accepts env log), (Db.accepts env dm); cbv beta iota;
      cbn [Eff.world Eff.trace Db.channels Db.store negb];
      rewrite ?Hacc by reflexivity; reflexivity.
Qed.

Lemma menu_current_channel_run i channel (s : Eff.State Menu.World Menu.Call) :
  cache_get (Some (Menu.i_channel i)) (Menu.channels (Eff.world s)) = Some channel ->
  Menu.current_channel i s = (s, Eff.Done channel).
Proof.
  intros Hc. unfold Menu.current_channel. eff_classes.
  rewrite bind_run, get_run. by rewrite Hc.
Qed.

Lemma menu_close_run env i config w channel logs :
  cache_get (Some (Menu.i_channel i)) (Menu.channels w) = Some channel ->
  cache_get (Menu.logsChannelId config)
    (guild_channels (Menu.i_guild i) (Menu.channels w)) = Some logs ->
  let transcript := name channel ++ "-transcript.html" in
  let log :=
    Menu.ChannelSend (id logs)
      (Menu.LogClosed (name channel) (Menu.i_user i)
         (Menu.getTicketCreatorId channel) transcript) in
  (forall c, menu_is_log_with (id logs) transcript c = false ->
             Menu.accepts env c = true) ->
  let r := Eff.run (Menu.closeTicket env i config) w in
  Eff.trace (fst r) =
    ([(Menu.SendReply Menu.ClosingInProgress, true);
      (Menu.CreateTranscript (id channel), true);
      (log, Menu.accepts env log)] ++
     (if Menu.accepts env log then []
      else [(Menu.ChannelSend (id channel) Menu.LogsSendFailedWarning, true)]) ++
     [(Menu.ChannelSend (id channel) Menu.ClosingNotice, true);
      (Menu.SetTimeoutDelete (id channel) 5000, true)])%list
  /\ snd r = Eff.Done tt.
Proof.
  intros Hc Hcache transcript log Hacc.
  unfold Menu.closeTicket, Menu.reply, Menu.send, Menu.schedule, Eff.run.
  eff_classes.
  rewrite bind_run, try_bind_run, call_run.
  rewrite Hacc by reflexivity. cbn [Eff.world Eff.trace].
  rewrite try_catch_run. cbn [Eff.ret negb].
  rewrite bind_run, (menu_current_channel_run i channel) by done.
  eff_unfold. cbv beta iota. cbn [Eff.world Eff.trace Menu.channels].
  rewrite !Hacc by reflexivity. cbv beta iota.
  cbn [Eff.world Eff.trace Menu.channels]. rewrite Hcache. cbv beta iota.
  fold transcript. fold log.
  destruct (Menu.accepts env log); cbv beta iota;
    cbn [Eff.world Eff.trace Menu.channels];
    rewrite ?Hacc by reflexivity; cbv beta iota; by cbn.
Qed.

Lemma cache_get_removed (i : string) (cs : list Channel) :
  cache_get (Some i) (remove_channel i cs) = None.
Proof.
  unfold cache_get, remove_channel. induction cs as [|c cs IH]; [done|].
  cbn [List.filter]. destruct (String.eqb (id c) i) eqn:E; cbn [negb]; [done|].
  cbn [List.find JS.strict_eq]. by rewrite E.
Qed.

Lemma deletion_removes_db env channel w :
  Db.accepts env (Db.ChannelDelete channel) = true ->
  cache_get (Some channel)
    (Db.channels (Eff.world (fst (Eff.run (Db.deletion_timer_fires env channel) w))))
  = None.
Proof.
  intros Hacc. unfold Db.deletion_timer_fires, Eff.run.
  rewrite tolerate_call_run, Hacc. cbn. apply cache_get_removed.
Qed.

Lemma deletion_removes_menu env channel w :
  Menu.accepts env (Menu.ChannelDelete channel) = true ->
  cache_get (Some channel)
    (Menu.channels
       (Eff.world (fst (Eff.run (Menu.deletion_timer_fires env channel) w))))
  = None.
Proof.
  intros Hacc. unfold Menu.deletion_timer_fires, Eff.run.
  rewrite tolerate_call_run, Hacc. cbn. apply cache_get_removed.
Qed.

(** C5, as the code has it. A confirmed close in a ticket channel of a guild
    whose logs channel is configured and cached attempts exactly one
    transcript, one message to the logs channel that carries the transcript
    file, one closing notice in the ticket channel, and sets exactly one timer
    for the deletion of the channel, with a delay of 5000 ms; this holds
    whether or not the logs channel accepts the message, every other call
    being accepted. The database-backed bot (for a topic that names the
    creator) also attempts exactly one direct message with the transcript to
    the creator, and goes on in the same way whether that message is accepted
    or rejected; it posts nothing but the closing notice in the ticket channel,
    so no warning follows a rejected logs message. The select-menu bot posts
    the warning before the closing notice when the logs message is rejected,
    and makes no call besides the reply, the transcript, the logs message, the
    posts in the ticket channel and the timer, so no direct message. In both
    bots the timer, when it fires and the deletion is accepted, removes the
    channel. *)
Theorem close_sequence :
  (forall env i w channel logs creator,
      cache_get (Some (Db.i_channel i)) (Db.channels w) = Some channel ->
      JS.startsWith (name channel) "ticket-" = true ->
      let config :=
        snd (Db.getGuildConfig (Db.db_io env) (Db.store w) (Db.i_guild i)) in
      let transcript := name channel ++ ".html" in
      let log :=
        Db.ChannelSend (id logs)
          (Db.LogClosed (name channel) (Some creator) (Db.i_user i) (id channel)
             transcript) in
      JS.truthy (Db.logsChannelId config) = true ->
      cache_get (Db.logsChannelId config)
        (guild_channels (Db.i_guild i) (Db.channels w)) = Some logs ->
      id logs <> id channel ->
      Db.ticket_user_id channel = Some creator ->
      (forall c, db_is_log_with (id logs) transcript c = false ->
                 db_is_dm_with creator transcript c = false ->
                 Db.accepts env c = true) ->
      let r := Eff.run (Db.handleCloseTicket env i false) w in
      let t := Eff.trace (fst r) in
      snd r = Eff.Done tt
      /\ count_calls db_is_transcript t = 1
      /\ count_calls (db_is_log_with (id logs) transcript) t = 1
      /\ count_calls (db_is_dm_with creator transcript) t = 1
      /\ db_posts_in (id channel) t = [Db.ClosingNotice (Db.i_user i)]
      /\ count_calls (db_is_delete (id channel)) t = 1
      /\ count_calls (db_is_delete_after (id channel) 5000) t = 1)
  /\ (forall env i config w channel logs,
      cache_get (Some (Menu.i_channel i)) (Menu.channels w) = Some channel ->
      cache_get (Menu.logsChannelId config)
        (guild_channels (Menu.i_guild i) (Menu.channels w)) = Some logs ->
      id logs <> id channel ->
      let transcript := name channel ++ "-transcript.html" in
      let log :=
        Menu.ChannelSend (id logs)
          (Menu.LogClosed (name channel) (Menu.i_user i)
             (Menu.getTicketCreatorId channel) transcript) in
      (forall c, menu_is_log_with (id logs) transcript c = false ->
                 Menu.accepts env c = true) ->
      let r := Eff.run (Menu.closeTicket env i config) w in
      let t := Eff.trace (fst r) in
      snd r = Eff.Done tt
      /\ count_calls menu_is_transcript t = 1
      /\ count_calls (menu_is_log_with (id logs) transcript) t = 1
      /\ menu_posts_in (id channel) t =
           ((if Menu.accepts env log then [] else [Menu.LogsSendFailedWarning])
            ++ [Menu.ClosingNotice])%list
      /\ count_calls (menu_is_delete (id channel)) t = 1
      /\ count_calls (menu_is_delete_after (id channel) 5000) t = 1
      /\ (length t = length (menu_posts_in (id channel) t) + 4)%nat)
  /\ (forall env channel w,
      Db.accepts env (Db.ChannelDelete channel) = true ->
      cache_get (Some channel)
        (Db.channels
           (Eff.world (fst (Eff.run (Db.deletion_timer_fires env channel) w))))
      = None)
  /\ (forall env channel w,
      Menu.accepts env (Menu.ChannelDelete channel) = true ->
      cache_get (Some channel)
        (Menu.channels
           (Eff.world (fst (Eff.run (Menu.deletion_timer_fires env channel) w))))
      = None).
Proof.
  split; [|split; [|split; [exact deletion_removes_db|exact deletion_removes_menu]]].
  - intros env i w channel logs creator Hc Hprefix config transcript log
      Htruthy Hcache Hne Hcreator Hacc r t.
    assert (Hne' : String.eqb (id logs) (id channel) = false)
      by by apply String.eqb_neq.
    unfold t, r.
    rewrite (db_close_run env i w channel logs creator Hc Hprefix Htruthy Hcache
               Hcreator Hacc).
    fold transcript. fold log. cbn [fst snd Eff.trace].
    unfold count_calls, db_posts_in.
    destruct (Db.i_acknowledged i);
      cbn [app List.filter fst db_is_transcript db_is_log_with db_is_dm_with
           db_is_delete db_is_delete_after log omap list_omap];
      rewrite ?String.eqb_refl, ?Hne'; cbn; rewrite ?String.eqb_refl; done.
  - intros env i config w channel logs Hc Hcache Hne transcript log Hacc r t.
    assert (Hne' : String.eqb (id logs) (id channel) = false)
      by by apply String.eqb_neq.
    destruct (menu_close_run env i config w channel logs Hc Hcache Hacc)
      as [Ht Hr].
    unfold t, r. rewrite Ht, Hr. fold transcript. fold log.
    unfold count_calls, menu_posts_in.
    destruct (Menu.accepts env log);
      cbn [app List.filter fst menu_is_transcript menu_is_log_with
           menu_is_delete menu_is_delete_after log omap list_omap];
      rewrite ?String.eqb_refl, ?Hne'; cbn; rewrite ?String.eqb_refl; done.
Qed.

Lemma close_sequence_witness :
  (count_calls db_is_transcript
     (CloseScene.db_trace CloseScene.db_logs_and_dm_down) = 1
   /\ count_calls (db_is_dm_with "77" "ticket-7.html")
        (CloseScene.db_trace CloseScene.db_logs_and_dm_down) = 1
   /\ db_posts_in "807" (CloseScene.db_trace CloseScene.db_logs_and_dm_down) =
        [Db.ClosingNotice "88"])
  /\ menu_posts_in "900"
       (Eff.trace (fst (Eff.run (Menu.closeTicket CloseScene.menu_logs_down
                                   CloseScene.bob Scene.menu_config)
                          Scene.menu_world_after_ticket))) =
       [Menu.LogsSendFailedWarning; Menu.ClosingNotice]
  /\ cache_get (Some "807")
       (Db.channels
          (Eff.world (fst (Eff.run (Db.deletion_timer_fires DbScene.env "807")
                             DbScene.world)))) = None.
Proof.
  destruct close_sequence as (Hdb & Hmenu & Hgone & _).
  split.
  { destruct (Hdb CloseScene.db_logs_and_dm_down DbScene.bob DbScene.world
                DbScene.ticket7 Scene.logs "77")
      as (_ & Htranscript & _ & Hdm & Hposts & _).
    - reflexivity.
    - reflexivity.
    - reflexivity.
    - vm_compute. reflexivity.
    - vm_compute. discriminate.
    - vm_compute. reflexivity.
    - intros c Hl Hd.
      exact (f_equal2 (fun a b => negb a && negb b) Hl Hd).
    - split; [exact Htranscript|]. split; [exact Hdm|exact Hposts]. }
  split.
  { destruct (Hmenu CloseScene.menu_logs_down CloseScene.bob Scene.menu_config
                Scene.menu_world_after_ticket
                CloseScene.menu_ticket Scene.logs)
      as (_ & _ & _ & Hposts & _).
    - vm_compute. reflexivity.
    - vm_compute. reflexivity.
    - vm_compute. discriminate.
    - intros c Hc. exact (f_equal negb Hc).
    - exact Hposts. }
  apply (Hgone DbScene.env "807" DbScene.world). reflexivity.
Defined.

(** The claim as worded fails in each bot: with a logs channel that rejects
    the message, the database-backed bot posts the closing notice and no
    warning in the ticket channel; and a close in the select-menu bot, with
    every call accepted, makes five calls, none of them a direct message. *)
Lemma close_sequence_counterexample :
  (CloseScene.db_trace CloseScene.db_logs_down !! 3 =
     Some (Db.ChannelSend "600"
             (Db.LogClosed "ticket-7" (Some "77") "88" "807" "ticket-7.html"),
           false)
   /\ db_posts_in "807" (CloseScene.db_trace CloseScene.db_logs_down) =
        [Db.ClosingNotice "88"])
  /\ CloseScene.menu_trace Scene.menu_env =
       [(Menu.SendReply Menu.ClosingInProgress, true);
        (Menu.CreateTranscript "900", true);
        (Menu.ChannelSend "600"
           (Menu.LogClosed "billing-alice" "88" (Some "77")
              "billing-alice-transcript.html"), true);
        (Menu.ChannelSend "900" Menu.ClosingNotice, true);
        (Menu.SetTimeoutDelete "900" 5000, true)].
Proof. vm_compute. done. Qed.

(** ** The control panel of the select-menu bot *)

Lemma set_field_get (n v : string) (fs : list (string * string)) (x : string) :
  Menu.get_field n fs = Some x ->
  exists fs',
    Menu.set_field n v fs = Some fs'
    /\ Menu.get_field n fs' = Some v
    /\ forall n', n' <> n -> Menu.get_field n' fs' = Menu.get_field n' fs.
Proof.
  unfold Menu.get_field. revert x.
  induction fs as [|f fs IH]; intros x Hx; [done|].
  cbn [List.find Menu.set_field] in *.
  destruct (String.eqb (fst f) n) eqn:E.
  - eexists. split; [done|]. cbn [List.find fst]. rewrite E. split; [done|].
    intros n' Hn'. apply String.eqb_eq in E. subst n.
    destruct (String.eqb_spec (fst f) n') as [<-|_]; [done|]. done.
  - destruct (IH x Hx) as (fs' & -> & Hget & Hother).
    eexists. split; [done|]. cbn [List.find]. rewrite E. split; [done|].
    intros n' Hn'. destruct (String.eqb (fst f) n'); [done|]. by apply Hother.
Qed.

Lemma menu_panel_run env channel m rest (s : Eff.State Menu.World Menu.Call) :
  messages channel = m :: rest ->
  Menu.is_control_panel env m = true ->
  Menu.accepts env (Menu.MessagesFetchFirst (id channel)) = true ->
  Menu.getControlPanelMessage env channel s =
    (Eff.mkState (Eff.world s)
       (Eff.trace s ++ [(Menu.MessagesFetchFirst (id channel), true)]),
     Eff.Done (Some (0, m))).
Proof.
  intros Hm Hpanel Hacc. unfold Menu.getControlPanelMessage. eff_classes.
  rewrite try_bind_run, call_run, Hacc, Hm, Hpanel. reflexivity.
Qed.

Lemma menu_view_inv env channel w v :
  menu_view env channel w = Some v ->
  exists c m rest e,
    cache_get (Some channel) (Menu.channels w) = Some c
    /\ messages c = m :: rest
    /\ Menu.is_control_panel env m = true
    /\ embed m = Some e
    /\ Menu.get_field Menu.CLAIMED_BY (fields e) = Some (claimed_by v)
    /\ Menu.get_field Menu.STATUS (fields e) = Some (status v).
Proof.
  unfold menu_view. intros H.
  destruct (cache_get _ _) as [c|] eqn:Hc; [|done]. cbn in H.
  destruct (messages c) as [|m rest] eqn:Hm; [done|]. cbn in H.
  destruct (Menu.is_control_panel env m) eqn:Hp; [|done].
  destruct (embed m) as [e|] eqn:He; [|done]. cbn in H.
  destruct (Menu.get_field Menu.CLAIMED_BY _) as [cb|] eqn:Hcb; [|done].
  cbn in H.
  destruct (Menu.get_field Menu.STATUS _) as [st|] eqn:Hst; [|done]. cbn in H.
  injection H as <-. by exists c, m, rest, e.
Qed.

Lemma is_control_panel_edited env m e col fs row :
  embed m = Some e ->
  Menu.is_control_panel env m = true ->
  Menu.is_control_panel env
    (mkMessage (author m) (content m) (Some (Menu.with_fields e col fs)) row) = true.
Proof.
  unfold Menu.is_control_panel. intros ->. done.
Qed.

Lemma menu_cache_edited cid cs c m rest edited n :
  cache_get (Some cid) cs = Some c ->
  messages c = m :: rest ->
  cache_get (Some cid)
    (update_channel cid (post n) (edit_message cid 0 edited cs)) =
    Some (mkChannel (id c) (guild c) (name c) (type c) (parentId c) (topic c)
            (edited :: rest ++ [n])%list).
Proof.
  intros Hc Hm. unfold edit_message.
  rewrite !cache_get_update, Hc by done. cbn.
  unfold post, set_messages. cbn. by rewrite Hm.
Qed.

Lemma menu_view_edited env cid file cds cs c m rest e col fs row n cb st :
  cache_get (Some cid) cs = Some c ->
  messages c = m :: rest ->
  Menu.is_control_panel env m = true ->
  embed m = Some e ->
  Menu.get_field Menu.CLAIMED_BY fs = Some cb ->
  Menu.get_field Menu.STATUS fs = Some st ->
  menu_view env cid
    (Menu.mkWorld file cds
       (update_channel cid (post n)
          (edit_message cid 0
             (mkMessage (author m) (content m) (Some (Menu.with_fields e col fs))
                row) cs))) =
    Some (mkPanelView cb st).
Proof.
  intros Hc Hm Hp He Hcb Hst. unfold menu_view. cbn [Menu.channels].
  rewrite (menu_cache_edited cid cs c m rest _ n Hc Hm).
  cbn -[Menu.get_field Menu.is_control_panel].
  rewrite (is_control_panel_edited env m e col fs row He Hp).
  cbn -[Menu.get_field]. rewrite Hcb. cbn -[Menu.get_field]. by rewrite Hst.
Qed.

Lemma menu_lock_run env i (lock : bool) w c m rest e creator btn cb st :
  cache_get (Some (Menu.i_channel i)) (Menu.channels w) = Some c ->
  messages c = m :: rest ->
  Menu.is_control_panel env m = true ->
  embed m = Some e ->
  Menu.get_field Menu.CLAIMED_BY (fields e) = Some cb ->
  Menu.get_field Menu.STATUS (fields e) = Some st ->
  Menu.getTicketCreatorId c = Some creator ->
  List.find (fun b => JS.includes (customId b) "claim") (buttons m) = Some btn ->
  (forall call, Menu.accepts env call = true) ->
  let status' := if lock then Menu.LOCKED else unlocked_status cb in
  exists fs,
    Menu.get_field Menu.CLAIMED_BY fs = Some cb
    /\ Menu.get_field Menu.STATUS fs = Some status'
    /\ Eff.world (fst (Eff.run (Menu.handleLockTicket env i lock) w)) =
       Menu.mkWorld (Menu.file w) (Menu.ticketCooldowns w)
         (update_channel (id c)
            (post (Menu.notice env (if lock then 15548997 else 5763719)%N))
            (edit_message (id c) 0
               (mkMessage (author m) (content m)
                  (Some (Menu.with_fields e (Menu.color_after lock status') fs))
                  [btn; if lock then Menu.unlock_button else Menu.lock_button;
                   Menu.close_button])
               (Menu.channels w))).
Proof.
  intros Hc Hm Hp He Hcb Hst Hcreator Hbtn Hacc status'.
  destruct (set_field_get Menu.STATUS status' (fields e) st Hst)
    as (fs & Hset & Hget & Hother).
  exists fs. split; [rewrite Hother; [done|discriminate]|]. split; [done|].
  unfold Menu.handleLockTicket, Eff.run. eff_classes.
  rewrite bind_run, call_run, Hacc. cbn [Eff.world Eff.trace].
  rewrite bind_run, (menu_current_channel_run i c) by done.
  rewrite Hcreator.
  rewrite bind_run, (menu_panel_run env c m rest) by done.
  cbv beta iota. rewrite He.
  destruct (buttons m) as [|b0 row] eqn:Hrow; [done|]. rewrite Hbtn.
  unfold Menu.status_after.
  assert (Hstatus :
    (if lock then Some Menu.LOCKED
     else (fun claimedBy =>
             if String.eqb claimedBy Menu.UNCLAIMED then Menu.OPEN
             else Menu.IN_PROGRESS) <$> Menu.get_field Menu.CLAIMED_BY (fields e))
    = Some status').
  { unfold status', unlocked_status. destruct lock; [done|]. by rewrite Hcb. }
  rewrite Hstatus. cbn [mbind option_bind]. rewrite Hset. cbn [fmap option_fmap option_map].
  unfold Menu.send, Menu.reply. eff_unfold. rewrite !Hacc.
  cbn [Eff.world Eff.trace]. rewrite ?Hacc.
  by destruct (Menu.isCommand i); cbn; rewrite ?Hacc.
Qed.

Lemma menu_lockable_inv channel w :
  menu_lockable channel w = true ->
  exists c m creator btn,
    cache_get (Some channel) (Menu.channels w) = Some c
    /\ head (messages c) = Some m
    /\ Menu.getTicketCreatorId c = Some creator
    /\ List.find (fun b => JS.includes (customId b) "claim") (buttons m) = Some btn.
Proof.
  unfold menu_lockable. intros H.
  destruct (cache_get _ _) as [c|] eqn:Hc; [|done].
  destruct (Menu.getTicketCreatorId c) as [creator|] eqn:Hcreator; [|done].
  destruct (head (messages c)) as [m|] eqn:Hm; [|done].
  destruct (List.find _ (buttons m)) as [btn|] eqn:Hbtn; [|done].
  by exists c, m, creator, btn.
Qed.

Lemma menu_lockable_edited cid file cds cs c m rest emb btn row n creator :
  cache_get (Some cid) cs = Some c ->
  messages c = m :: rest ->
  Menu.getTicketCreatorId c = Some creator ->
  JS.includes (customId btn) "claim" = true ->
  menu_lockable cid
    (Menu.mkWorld file cds
       (update_channel cid (post n)
          (edit_message cid 0
             (mkMessage (author m) (content m) emb (btn :: row)) cs))) = true.
Proof.
  intros Hc Hm Hcreator Hbtn. unfold menu_lockable. cbn [Menu.channels].
  rewrite (menu_cache_edited cid cs c m rest _ n Hc Hm).
  unfold Menu.getTicketCreatorId in *. cbn [topic messages head buttons List.find].
  rewrite Hcreator, Hbtn. done.
Qed.

Lemma menu_lock_step env i (lock : bool) w v :
  menu_view env (Menu.i_channel i) w = Some v ->
  menu_lockable (Menu.i_channel i) w = true ->
  (forall call, Menu.accepts env call = true) ->
  let w1 := Eff.world (fst (Eff.run (Menu.handleLockTicket env i lock) w)) in
  menu_view env (Menu.i_channel i) w1 =
    Some (mkPanelView (claimed_by v)
            (if lock then Menu.LOCKED else unlocked_status (claimed_by v)))
  /\ menu_lockable (Menu.i_channel i) w1 = true.
Proof.
  intros Hview Hlockable Hacc w1.
  destruct (menu_view_inv _ _ _ _ Hview)
    as (c & m & rest & e & Hc & Hm & Hp & He & Hcb & Hst).
  destruct (menu_lockable_inv _ _ Hlockable)
    as (c' & m' & creator & btn & Hc' & Hm' & Hcreator & Hbtn).
  rewrite Hc in Hc'. injection Hc' as <-.
  rewrite Hm in Hm'. injection Hm' as <-.
  destruct (menu_lock_run env i lock w c m rest e creator btn (claimed_by v)
              (status v) Hc Hm Hp He Hcb Hst Hcreator Hbtn Hacc)
    as (fs & Hcb' & Hst' & Hw).
  unfold w1. rewrite Hw. rewrite (cache_get_id _ _ _ Hc). split.
  - by apply (menu_view_edited env _ _ _ _ c m rest e).
  - apply (menu_lockable_edited _ _ _ _ c m rest _ _ _ _ creator); try done.
    by apply find_some in Hbtn as [_ Hbtn].
Qed.

Lemma unclaimed_not_mention (u : string) :
  String.eqb Menu.UNCLAIMED (Menu.mention u) = false.
Proof. reflexivity. Qed.

Lemma str_app_inv_last (a b : string) (c : ascii) :
  a ++ String c "" = b ++ String c "" -> a = b.
Proof.
  revert b. induction a as [|x a IH]; intros [|y b]; rewrite ?str_app_cons,
    ?str_app_nil; intros H.
  - done.
  - injection H as _ H. by destruct b.
  - injection H as _ H. by destruct a.
  - injection H as -> H. by rewrite (IH b H).
Qed.

Lemma mention_eqb (a b : string) :
  String.eqb (Menu.mention a) (Menu.mention b) = String.eqb a b.
Proof.
  destruct (String.eqb_spec a b) as [->|Hne]; [apply String.eqb_refl|].
  apply String.eqb_neq. intros H. apply Hne. unfold Menu.mention in H.
  rewrite !str_app_cons, !str_app_nil in H. injection H as H.
  by apply str_app_inv_last in H.
Qed.

Lemma menu_claim_run env i (force : bool) w c m rest e st :
  cache_get (Some (Menu.i_channel i)) (Menu.channels w) = Some c ->
  messages c = m :: rest ->
  Menu.is_control_panel env m = true ->
  embed m = Some e ->
  Menu.get_field Menu.CLAIMED_BY (fields e) = Some Menu.UNCLAIMED ->
  Menu.get_field Menu.STATUS (fields e) = Some st ->
  (forall call, Menu.accepts env call = true) ->
  exists fs,
    Menu.get_field Menu.CLAIMED_BY fs = Some (Menu.mention (Menu.i_user i))
    /\ Menu.get_field Menu.STATUS fs = Some Menu.IN_PROGRESS
    /\ let edited :=
         mkMessage (author m) (content m)
           (Some (Menu.with_fields e 16705372 fs))
           [Menu.unclaim_button; Menu.lock_button; Menu.close_button] in
       Eff.run (Menu.handleClaimTicket env i force) w =
         (Eff.mkState
            (Menu.mkWorld (Menu.file w) (Menu.ticketCooldowns w)
               (update_channel (id c) (post (Menu.notice env 16705372))
                  (edit_message (id c) 0 edited (Menu.channels w))))
            ([(if force then Menu.DeferReply else Menu.DeferUpdate, true);
              (Menu.MessagesFetchFirst (id c), true);
              (Menu.MessageEdit (id c) 0 edited, true);
              (Menu.ChannelSend (id c) (Menu.ClaimNotice (Menu.i_user i)), true)]
             ++ if force then [(Menu.SendReply Menu.TicketClaimed, true)] else [])%list,
          Eff.Done tt).
Proof.
  intros Hc Hm Hp He Hcb Hst Hacc.
  destruct (set_field_get Menu.CLAIMED_BY (Menu.mention (Menu.i_user i))
              (fields e) _ Hcb) as (fs1 & Hset1 & Hget1 & Hother1).
  assert (Hst1 : Menu.get_field Menu.STATUS fs1 = Some st)
    by (rewrite Hother1; [done|discriminate]).
  destruct (set_field_get Menu.STATUS Menu.IN_PROGRESS fs1 _ Hst1)
    as (fs & Hset & Hget & Hother).
  exists fs. split; [rewrite Hother; [done|discriminate]|]. split; [done|].
  intros edited. unfold edited.
  unfold Menu.handleClaimTicket, Eff.run. eff_classes.
  rewrite bind_run, call_run, Hacc. cbn [Eff.world Eff.trace].
  rewrite bind_run, (menu_current_channel_run i c) by done.
  rewrite bind_run, (menu_panel_run env c m rest) by done.
  cbv beta iota. rewrite He. cbn [mbind option_bind]. rewrite Hcb.
  cbn [fmap option_fmap option_map].
  rewrite String.eqb_refl, unclaimed_not_mention. cbn [negb andb].
  rewrite Hset1. cbn [option_bind]. rewrite Hset.
  unfold Menu.send, Menu.reply. eff_unfold. rewrite !Hacc.
  cbn [Eff.world Eff.trace]. rewrite ?Hacc.
  by destruct force; cbn; rewrite ?Hacc.
Qed.

Lemma menu_claim_refused_run env i (force : bool) w v :
  menu_view env (Menu.i_channel i) w = Some v ->
  claimed_by v <> Menu.UNCLAIMED ->
  (forall call, Menu.accepts env call = true) ->
  let r := Eff.run (Menu.handleClaimTicket env i force) w in
  Eff.world (fst r) = w
  /\ menu_replies (Eff.trace (fst r)) =
       [if String.eqb (claimed_by v) (Menu.mention (Menu.i_user i))
        then Menu.AlreadyClaimedByYou
        else Menu.AlreadyClaimedByOther (claimed_by v)].
Proof.
  intros Hview Hne Hacc.
  destruct (menu_view_inv _ _ _ _ Hview)
    as (c & m & rest & e & Hc & Hm & Hp & He & Hcb & Hst).
  apply String.eqb_neq in Hne.
  unfold Menu.handleClaimTicket, Eff.run. eff_classes.
  rewrite bind_run, call_run, Hacc. cbn [Eff.world Eff.trace].
  rewrite bind_run, (menu_current_channel_run i c) by done.
  rewrite bind_run, (menu_panel_run env c m rest) by done.
  cbv beta iota. rewrite He. cbn [mbind option_bind]. rewrite Hcb.
  cbn [fmap option_fmap option_map]. rewrite Hne. cbn [negb andb].
  unfold Menu.reply.
  destruct (String.eqb (claimed_by v) (Menu.mention (Menu.i_user i)));
    cbn [negb]; rewrite call_run, Hacc; cbn [fst Eff.world Eff.trace];
    (split; [by destruct w|]); by destruct force.
Qed.

(** ** The claim in the topic of the database-backed bot *)

Lemma match_lit_digits_eq (lit s : string) :
  JS.match_lit_digits lit s =
    match match_here lit s with
    | Some ds => Some ds
    | None =>
        match s with
        | EmptyString => None
        | String _ s' => JS.match_lit_digits lit s'
        end
    end.
Proof. by destruct s. Qed.

Lemma match_here_app (lit t x : string) :
  match_here lit t = None ->
  t <> "" ->
  Forall (fun l => match_here l x = None) (proper_suffixes lit) ->
  (lit = "" -> JS.take_digits x = "") ->
  match_here lit (t ++ x) = None.
Proof.
  revert t. induction lit as [|a lit IH]; intros t Hhere Hne Hsuf Hx.
  - destruct t as [|b t]; [done|]. unfold match_here in *.
    cbn [JS.strip_prefix] in *. rewrite str_app_cons. cbn [JS.take_digits] in *.
    by destruct (JS.is_digit b).
  - destruct t as [|b t]; [done|]. rewrite str_app_cons.
    unfold match_here in *. cbn [JS.strip_prefix] in *.
    destruct (Ascii.eqb a b); [|done].
    cbn [proper_suffixes] in Hsuf. apply Forall_cons in Hsuf as [Hlit Hsuf].
    destruct t as [|b' t].
    + rewrite str_app_nil. exact Hlit.
    + apply IH; [exact Hhere|done|exact Hsuf|].
      intros ->. unfold match_here in Hlit. cbn [JS.strip_prefix] in Hlit.
      by destruct (JS.take_digits x).
Qed.

Lemma match_lit_digits_app (lit t x : string) :
  JS.match_lit_digits lit t = None ->
  Forall (fun l => match_here l x = None) (proper_suffixes lit) ->
  (lit = "" -> JS.take_digits x = "") ->
  JS.match_lit_digits lit (t ++ x) = JS.match_lit_digits lit x.
Proof.
  intros Hnone Hsuf Hx. induction t as [|c t IH]; [done|].
  rewrite match_lit_digits_eq in Hnone.
  destruct (match_here lit (String c t)) eqn:Hhere; [done|].
  rewrite match_lit_digits_eq, match_here_app by done.
  rewrite str_app_cons. by apply IH.
Qed.

Lemma match_lit_digits_suffix (lit p s : string) :
  JS.match_lit_digits lit (p ++ s) = None -> JS.match_lit_digits lit s = None.
Proof.
  induction p as [|c p IH]; [done|]. rewrite str_app_cons, match_lit_digits_eq.
  destruct (match_here lit _); [done|]. exact IH.
Qed.

Lemma strip_prefix_inv (p s rest : string) :
  JS.strip_prefix p s = Some rest -> s = p ++ rest.
Proof.
  revert s. induction p as [|a p IH]; intros s H.
  - by injection H as ->.
  - destruct s as [|b s]; [done|]. cbn [JS.strip_prefix] in H.
    destruct (Ascii.eqb_spec a b) as [->|]; [|done].
    rewrite str_app_cons. by rewrite (IH s H).
Qed.

Lemma remove_lit_digits_none (pre lit t : string) :
  JS.match_lit_digits lit t = None ->
  JS.remove_lit_digits (pre ++ lit) t = t.
Proof.
  intros Hnone.
  assert (Hhere : forall s, JS.match_lit_digits lit s = None ->
            match JS.strip_prefix (pre ++ lit) s with
            | Some rest =>
                match JS.take_digits rest with
                | EmptyString => None
                | _ => Some (JS.drop_digits rest)
                end
            | None => None
            end = None).
  { intros s Hs. destruct (JS.strip_prefix (pre ++ lit) s) as [rest|] eqn:E; [|done].
    apply strip_prefix_inv in E. subst s. rewrite str_app_assoc in Hs.
    apply match_lit_digits_suffix in Hs. rewrite match_lit_digits_eq in Hs.
    unfold match_here in Hs. rewrite strip_prefix_app in Hs.
    by destruct (JS.take_digits rest). }
  induction t as [|c t IH].
  - cbn [JS.remove_lit_digits]. by rewrite (Hhere "" Hnone).
  - cbn [JS.remove_lit_digits]. rewrite (Hhere _ Hnone).
    f_equal. apply IH. rewrite match_lit_digits_eq in Hnone.
    by destruct (match_here lit (String c t)).
Qed.

Lemma claimed_topic_match (t u : string) :
  JS.match_lit_digits "Claimed By: " t = None ->
  JS.forallb_str JS.is_digit u = true -> u <> "" ->
  JS.match_lit_digits "Claimed By: "
    (JS.remove_lit_digits " | Claimed By: " t ++ " | Claimed By: " ++ u) = Some u.
Proof.
  intros Hnone Hd Hne.
  change " | Claimed By: " with (" | " ++ "Claimed By: ") at 1.
  rewrite (remove_lit_digits_none " | " "Claimed By: " t Hnone).
  rewrite match_lit_digits_app; [|done| |done].
  - change (" | Claimed By: " ++ u) with (" | " ++ ("Claimed By: " ++ u)).
    rewrite !str_app_cons, str_app_nil.
    do 3 (rewrite match_lit_digits_eq; unfold match_here at 1;
          cbn [JS.strip_prefix Ascii.eqb Bool.eqb]; cbv beta iota).
    exact (match_lit_digits_here "Claimed By: " u Hd Hne).
  - cbn [proper_suffixes]. repeat constructor.
Qed.

Lemma db_cache_topic cid cs c t :
  cache_get (Some cid) cs = Some c ->
  topic <$> cache_get (Some cid) (update_channel cid (set_topic t) cs) =
    Some (Some t).
Proof.
  intros Hc. by rewrite cache_get_update, Hc.
Qed.

Lemma db_cache_topic_edited cid cs index m :
  topic <$> cache_get (Some cid) (edit_message cid index m cs) =
    topic <$> cache_get (Some cid) cs.
Proof.
  unfold edit_message. rewrite cache_get_update by done.
  by destruct (cache_get (Some cid) cs).
Qed.

Lemma db_claimer_topic channel w :
  db_claimer channel w =
    match topic <$> cache_get (Some channel) (Db.channels w) with
    | Some t => JS.match_lit_digits "Claimed By: " (default "" t)
    | None => None
    end.
Proof. unfold db_claimer. by destruct (cache_get _ _). Qed.

Lemma db_claim_first env i (force : bool) w c :
  cache_get (Some (Db.i_channel i)) (Db.channels w) = Some c ->
  Db.has_support_role i
    (snd (Db.getGuildConfig (Db.db_io env) (Db.store w) (Db.i_guild i))) = true ->
  JS.match_lit_digits "Claimed By: " (default "" (topic c)) = None ->
  JS.forallb_str JS.is_digit (Db.i_user i) = true ->
  Db.i_user i <> "" ->
  (forall call, Db.accepts env call = true) ->
  let s := fst (Eff.run (Db.handleClaimTicket env i force) w) in
  db_claimer (Db.i_channel i) (Eff.world s) = Some (Db.i_user i)
  /\ db_replies (Eff.trace s) = [Db.Claimed (Db.i_user i)].
Proof.
  intros Hc Hrole Hnone Hd Hne Hacc.
  assert (Hid := cache_get_id _ _ _ Hc).
  unfold Db.handleClaimTicket, Db.reply, Eff.run. eff_classes.
  rewrite bind_run, call_run, Hacc. cbn [Eff.world Eff.trace].
  rewrite bind_run, (db_current_channel_run i c) by done.
  rewrite bind_run, db_fetch_run. cbn [Eff.world Eff.trace Db.store Db.channels].
  rewrite Hrole, Hnone. cbn [negb].
  rewrite try_bind_run, call_run, Hacc. cbn [Eff.world Eff.trace].
  rewrite try_bind_run, call_run, Hacc. cbn [Eff.world Eff.trace].
  rewrite try_bind_run.
  destruct (List.find _ (recent 5 (messages c))) as [[index m]|].
  - rewrite tolerate_call_run, Hacc. cbv beta iota. cbn [Eff.world Eff.trace].
    rewrite try_catch_run, call_run, Hacc. cbn [fst Eff.world Eff.trace].
    split; [|done].
    rewrite db_claimer_topic. unfold Db.on_channels. cbn [Db.channels].
    rewrite Hid, db_cache_topic_edited, (db_cache_topic _ _ c) by done.
    cbn [default]. by apply claimed_topic_match.
  - unfold Eff.ret. cbv beta iota. rewrite try_catch_run, call_run, Hacc.
    cbn [fst Eff.world Eff.trace]. split; [|done].
    rewrite db_claimer_topic. unfold Db.on_channels. cbn [Db.channels].
    rewrite Hid, (db_cache_topic _ _ c) by done.
    cbn [default]. by apply claimed_topic_match.
Qed.

Lemma db_claim_again env i w u :
  db_claimer (Db.i_channel i) w = Some u ->
  Db.has_support_role i
    (snd (Db.getGuildConfig (Db.db_io env) (Db.store w) (Db.i_guild i))) = true ->
  (forall call, Db.accepts env call = true) ->
  let s := fst (Eff.run (Db.handleClaimTicket env i false) w) in
  Db.channels (Eff.world s) = Db.channels w
  /\ db_replies (Eff.trace s) =
       [if String.eqb u (Db.i_user i) then Db.AlreadyClaimedByYou
        else Db.AlreadyClaimedByOther u].
Proof.
  intros Hclaimer Hrole Hacc. unfold db_claimer in Hclaimer.
  destruct (cache_get (Some (Db.i_channel i)) (Db.channels w)) as [c|] eqn:Hc;
    [|done].
  cbn [mbind option_bind] in Hclaimer.
  unfold Db.handleClaimTicket, Db.reply, Eff.run. eff_classes.
  rewrite bind_run, call_run, Hacc. cbn [Eff.world Eff.trace].
  rewrite bind_run, (db_current_channel_run i c) by done.
  rewrite bind_run, db_fetch_run. cbn [Eff.world Eff.trace Db.store Db.channels].
  rewrite Hrole, Hclaimer. cbn [negb].
  by destruct (String.eqb u (Db.i_user i)); rewrite call_run, Hacc.
Qed.

(** ** Claiming, locking and unlocking *)

(** C6. A claim on an unclaimed ticket records the requester as the claimer
    (select-menu bot: the "Claimed By" field of the control panel, with the
    status In Progress and a claim notice in the channel; database-backed bot:
    the "Claimed By: <id>" part of the topic, answered with the success
    reply). A following claim in the same channel is answered with "already
    claimed by you" when it comes from the same user and with
    AlreadyClaimedByOther, naming the claimer, when it comes from another
    user, and leaves the channels, so the recorded claimer, as they were. In
    the select-menu bot this holds for the button and for the command; in the
    database-backed bot the following claim is the one without the force
    option. *)
Theorem claim_is_idempotent :
  (forall env i (force : bool) w v,
      menu_view env (Menu.i_channel i) w = Some v ->
      claimed_by v = Menu.UNCLAIMED ->
      (forall call, Menu.accepts env call = true) ->
      let s1 := fst (Eff.run (Menu.handleClaimTicket env i force) w) in
      menu_view env (Menu.i_channel i) (Eff.world s1) =
        Some (mkPanelView (Menu.mention (Menu.i_user i)) Menu.IN_PROGRESS)
      /\ menu_posts_in (Menu.i_channel i) (Eff.trace s1) =
           [Menu.ClaimNotice (Menu.i_user i)]
      /\ forall i2 (force2 : bool),
           Menu.i_channel i2 = Menu.i_channel i ->
           let s2 :=
             fst (Eff.run (Menu.handleClaimTicket env i2 force2) (Eff.world s1)) in
           Eff.world s2 = Eff.world s1
           /\ menu_replies (Eff.trace s2) =
                [if String.eqb (Menu.i_user i2) (Menu.i_user i)
                 then Menu.AlreadyClaimedByYou
                 else Menu.AlreadyClaimedByOther (Menu.mention (Menu.i_user i))])
  /\ (forall env i (force : bool) w,
      db_claimer (Db.i_channel i) w = None ->
      cache_get (Some (Db.i_channel i)) (Db.channels w) <> None ->
      Db.has_support_role i
        (snd (Db.getGuildConfig (Db.db_io env) (Db.store w) (Db.i_guild i))) = true ->
      JS.forallb_str JS.is_digit (Db.i_user i) = true ->
      Db.i_user i <> "" ->
      (forall call, Db.accepts env call = true) ->
      let s1 := fst (Eff.run (Db.handleClaimTicket env i force) w) in
      db_claimer (Db.i_channel i) (Eff.world s1) = Some (Db.i_user i)
      /\ db_replies (Eff.trace s1) = [Db.Claimed (Db.i_user i)]
      /\ forall i2,
           Db.i_channel i2 = Db.i_channel i ->
           Db.has_support_role i2
             (snd (Db.getGuildConfig (Db.db_io env) (Db.store (Eff.world s1))
                     (Db.i_guild i2))) = true ->
           let s2 :=
             fst (Eff.run (Db.handleClaimTicket env i2 false) (Eff.world s1)) in
           Db.channels (Eff.world s2) = Db.channels (Eff.world s1)
           /\ db_claimer (Db.i_channel i) (Eff.world s2) = Some (Db.i_user i)
           /\ db_replies (Eff.trace s2) =
                [if String.eqb (Db.i_user i2) (Db.i_user i)
                 then Db.AlreadyClaimedByYou
                 else Db.AlreadyClaimedByOther (Db.i_user i)]).
Proof.
  split.
  - intros env i force w v Hview Hcb Hacc s1.
    destruct (menu_view_inv _ _ _ _ Hview)
      as (c & m & rest & e & Hc & Hm & Hp & He & Hcb' & Hst).
    rewrite Hcb in Hcb'.
    destruct (menu_claim_run env i force w c m rest e (status v) Hc Hm Hp He
                Hcb' Hst Hacc) as (fs & Hget1 & Hget2 & Hrun).
    assert (Hid := cache_get_id _ _ _ Hc).
    assert (Hview1 : menu_view env (Menu.i_channel i) (Eff.world s1) =
              Some (mkPanelView (Menu.mention (Menu.i_user i)) Menu.IN_PROGRESS)).
    { unfold s1. rewrite Hrun. cbn [fst Eff.world]. rewrite Hid.
      by apply (menu_view_edited env _ _ _ _ c m rest e). }
    split; [exact Hview1|]. split.
    + unfold s1. rewrite Hrun. cbn [fst Eff.trace]. rewrite Hid.
      unfold menu_posts_in.
      destruct force; cbn [app omap list_omap fst]; by rewrite String.eqb_refl.
    + intros i2 force2 Hch s2. rewrite <- Hch in Hview1.
      destruct (menu_claim_refused_run env i2 force2 (Eff.world s1) _ Hview1)
        as [Hw Hreplies]; [|done|].
      { cbn [claimed_by]. intros H.
        pose proof (unclaimed_not_mention (Menu.i_user i)) as Hno.
        rewrite <- H, String.eqb_refl in Hno. done. }
      split; [exact Hw|]. unfold s2. rewrite Hreplies. cbn [claimed_by].
      by rewrite mention_eqb, String.eqb_sym.
  - intros env i force w Hnone Hsome Hrole Hd Hne Hacc s1.
    destruct (cache_get (Some (Db.i_channel i)) (Db.channels w)) as [c|] eqn:Hc;
      [|done].
    assert (Hnone' : JS.match_lit_digits "Claimed By: " (default "" (topic c))
                     = None).
    { unfold db_claimer in Hnone. by rewrite Hc in Hnone. }
    destruct (db_claim_first env i force w c Hc Hrole Hnone' Hd Hne Hacc)
      as [Hclaimer Hreplies].
    split; [exact Hclaimer|]. split; [exact Hreplies|].
    intros i2 Hch Hrole2 s2. fold s1 in Hclaimer. rewrite <- Hch in Hclaimer.
    destruct (db_claim_again env i2 (Eff.world s1) (Db.i_user i) Hclaimer Hrole2
                Hacc) as [Hchannels Hreplies2].
    split; [exact Hchannels|]. split.
    + rewrite <- Hch. unfold db_claimer in *. unfold s2. by rewrite Hchannels.
    + unfold s2. rewrite Hreplies2. by rewrite String.eqb_sym.
Qed.

(** C7. In the select-menu bot a lock sets the status label of the control
    panel to Locked whatever the claim field says, and leaves the claim field
    alone; the unlock that follows sets the label to Open when the claim field
    says Unclaimed and to In Progress otherwise. So lock followed by unlock
    gives back the panel fields that held before the lock, when the label then
    was the one of an unlocked ticket: Open on an unclaimed ticket, In
    Progress on a claimed one. *)
Theorem lock_unlock_restores_status :
  forall env i1 i2 w v,
    menu_view env (Menu.i_channel i1) w = Some v ->
    menu_lockable (Menu.i_channel i1) w = true ->
    Menu.i_channel i2 = Menu.i_channel i1 ->
    (forall call, Menu.accepts env call = true) ->
    let w1 := Eff.world (fst (Eff.run (Menu.handleLockTicket env i1 true) w)) in
    let w2 := Eff.world (fst (Eff.run (Menu.handleLockTicket env i2 false) w1)) in
    menu_view env (Menu.i_channel i1) w1 =
      Some (mkPanelView (claimed_by v) Menu.LOCKED)
    /\ menu_view env (Menu.i_channel i1) w2 =
         Some (mkPanelView (claimed_by v)
                 (if String.eqb (claimed_by v) Menu.UNCLAIMED then Menu.OPEN
                  else Menu.IN_PROGRESS))
    /\ (status v = unlocked_status (claimed_by v) ->
        menu_view env (Menu.i_channel i1) w2 = Some v).
Proof.
  intros env i1 i2 w v Hview Hlockable Hch Hacc w1 w2.
  destruct (menu_lock_step env i1 true w v Hview Hlockable Hacc)
    as [Hview1 Hlockable1].
  fold w1 in Hview1, Hlockable1. rewrite <- Hch in Hview1, Hlockable1.
  destruct (menu_lock_step env i2 false w1 _ Hview1 Hlockable1 Hacc)
    as [Hview2 _].
  fold w2 in Hview2. cbn [claimed_by] in Hview2. rewrite Hch in Hview1, Hview2.
  split; [exact Hview1|]. split; [exact Hview2|].
  intros Hst. rewrite Hview2, <- Hst. by destruct v.
Qed.

Lemma claim_is_idempotent_witness :
  (let w1 :=
     Eff.world (fst (Eff.run (Menu.handleClaimTicket Scene.menu_env
                                (StaffScene.menu_bob (Menu.ButtonPress "ticket_claim"))
                                false) Scene.menu_world_after_ticket)) in
   menu_view Scene.menu_env "900" w1 =
     Some (mkPanelView "<@88>" "`In Progress`")
   /\ menu_replies
        (Eff.trace (fst (Eff.run (Menu.handleClaimTicket Scene.menu_env
                                    (StaffScene.menu_bob
                                       (Menu.ButtonPress "ticket_claim")) false)
                           w1))) = [Menu.AlreadyClaimedByYou]
   /\ menu_replies
        (Eff.trace (fst (Eff.run (Menu.handleClaimTicket Scene.menu_env
                                    (StaffScene.menu_carol
                                       (Menu.ButtonPress "ticket_claim")) false)
                           w1))) = [Menu.AlreadyClaimedByOther "<@88>"])
  /\ (let w1 :=
        Eff.world (fst (Eff.run (Db.handleClaimTicket DbScene.env DbScene.bob false)
                          DbScene.world)) in
      db_claimer "807" w1 = Some "88"
      /\ db_replies
           (Eff.trace (fst (Eff.run (Db.handleClaimTicket DbScene.env DbScene.bob
                                       false) w1))) = [Db.AlreadyClaimedByYou]
      /\ db_replies
           (Eff.trace (fst (Eff.run (Db.handleClaimTicket DbScene.env
                                       StaffScene.db_carol false) w1))) =
           [Db.AlreadyClaimedByOther "88"]).
Proof.
  destruct claim_is_idempotent as [Hmenu Hdb]. split.
  - destruct (Hmenu Scene.menu_env
                (StaffScene.menu_bob (Menu.ButtonPress "ticket_claim")) false
                Scene.menu_world_after_ticket
                (mkPanelView Menu.UNCLAIMED Menu.OPEN))
      as (Hview & _ & Hagain).
    + vm_compute. reflexivity.
    + reflexivity.
    + intros call. reflexivity.
    + split; [exact Hview|]. split.
      * exact (proj2 (Hagain (StaffScene.menu_bob (Menu.ButtonPress "ticket_claim"))
                        false eq_refl)).
      * exact (proj2 (Hagain (StaffScene.menu_carol
                                (Menu.ButtonPress "ticket_claim")) false eq_refl)).
  - destruct (Hdb DbScene.env DbScene.bob false DbScene.world)
      as (Hclaimer & _ & Hagain).
    + vm_compute. reflexivity.
    + vm_compute. discriminate.
    + vm_compute. reflexivity.
    + reflexivity.
    + discriminate.
    + intros call. reflexivity.
    + split; [exact Hclaimer|]. split.
      * refine (proj2 (proj2 (Hagain DbScene.bob eq_refl _))).
        vm_compute. reflexivity.
      * refine (proj2 (proj2 (Hagain StaffScene.db_carol eq_refl _))).
        vm_compute. reflexivity.
Defined.

Lemma lock_unlock_restores_status_witness :
  let lock := StaffScene.menu_bob (Menu.ButtonPress "ticket_lock") in
  let unlock := StaffScene.menu_carol (Menu.ButtonPress "ticket_unlock") in
  let w1 :=
    Eff.world (fst (Eff.run (Menu.handleLockTicket Scene.menu_env lock true)
                      Scene.menu_world_after_ticket)) in
  let w2 :=
    Eff.world (fst (Eff.run (Menu.handleLockTicket Scene.menu_env unlock false)
                      w1)) in
  menu_view Scene.menu_env "900" w1 = Some (mkPanelView "`Unclaimed`" "`Locked`")
  /\ menu_view Scene.menu_env "900" w2 = Some (mkPanelView "`Unclaimed`" "`Open`").
Proof.
  intros lock unlock w1 w2.
  destruct (lock_unlock_restores_status Scene.menu_env lock unlock
              Scene.menu_world_after_ticket
              (mkPanelView Menu.UNCLAIMED Menu.OPEN))
    as (Hlocked & _ & Hrestored).
  - vm_compute. reflexivity.
  - vm_compute. reflexivity.
  - reflexivity.
  - intros call. reflexivity.
  - split; [exact Hlocked|]. apply Hrestored. reflexivity.
Defined.

(** ** The name cleanup of the rename command *)

Lemma name_char_not_hyphen (c : ascii) :
  Db.name_char c = true -> Db.is_hyphen c = false.
Proof.
  unfold Db.is_hyphen. destruct (Ascii.eqb_spec c "-") as [->|]; [|done].
  by vm_compute.
Qed.

Lemma replace_runs_shape (in_run : bool) (s : string) :
  let r := JS.replace_runs (fun c => negb (Db.name_char c)) "-" in_run s in
  JS.forallb_str rename_char r = true
  /\ no_double_hyphen r = true
  /\ (in_run = true -> starts_with_hyphen r = false).
Proof.
  revert in_run. induction s as [|c s IH]; intros in_run; [done|].
  cbn [JS.replace_runs]. destruct (Db.name_char c) eqn:Hc; cbn [negb].
  - destruct (IH false) as (Hall & Hnd & _). cbn zeta in *.
    cbn [JS.forallb_str no_double_hyphen starts_with_hyphen].
    unfold rename_char at 1. rewrite Hc, (name_char_not_hyphen c Hc).
    by rewrite Hall, Hnd.
  - destruct (IH true) as (Hall & Hnd & Hstart). cbn zeta in *.
    destruct in_run; [done|].
    rewrite str_app_cons, str_app_nil.
    cbn [JS.forallb_str no_double_hyphen starts_with_hyphen].
    rewrite Hall, Hnd, Hstart by done. done.
Qed.

Lemma no_double_hyphen_tail (c : ascii) (s : string) :
  no_double_hyphen (String c s) = true -> no_double_hyphen s = true.
Proof. cbn [no_double_hyphen]. by intros [_ H]%andb_prop. Qed.

Lemma drop_leading_shape (s : string) :
  JS.forallb_str rename_char s = true ->
  no_double_hyphen s = true ->
  let r := JS.drop_leading Db.is_hyphen s in
  JS.forallb_str rename_char r = true
  /\ no_double_hyphen r = true
  /\ starts_with_hyphen r = false.
Proof.
  induction s as [|c s IH]; intros Hall Hnd; [done|].
  cbn [JS.drop_leading]. destruct (Db.is_hyphen c) eqn:Hc.
  - apply IH.
    + cbn [JS.forallb_str] in Hall. by apply andb_prop in Hall as [_ ?].
    + by apply no_double_hyphen_tail in Hnd.
  - cbn zeta. by cbn [starts_with_hyphen].
Qed.

Lemma drop_trailing_empty (s : string) :
  JS.drop_trailing Db.is_hyphen s = "" ->
  JS.forallb_str Db.is_hyphen s = true.
Proof.
  induction s as [|c s IH]; [done|]. cbn [JS.drop_trailing JS.forallb_str].
  destruct (JS.drop_trailing Db.is_hyphen s) eqn:E; [|done].
  destruct (Db.is_hyphen c); [|done]. intros _. by apply IH.
Qed.

Lemma drop_trailing_shape (s : string) :
  JS.forallb_str rename_char s = true ->
  no_double_hyphen s = true ->
  starts_with_hyphen s = false ->
  let r := JS.drop_trailing Db.is_hyphen s in
  JS.forallb_str rename_char r = true
  /\ no_double_hyphen r = true
  /\ starts_with_hyphen r = false
  /\ ends_with_hyphen r = false.
Proof.
  assert (Hgen : forall s,
    JS.forallb_str rename_char s = true ->
    no_double_hyphen s = true ->
    let r := JS.drop_trailing Db.is_hyphen s in
    JS.forallb_str rename_char r = true
    /\ no_double_hyphen r = true
    /\ starts_with_hyphen r = (starts_with_hyphen s && negb (String.eqb r ""))
    /\ ends_with_hyphen r = false).
  { clear s. induction s as [|c s IH]; intros Hall Hnd; [done|].
    cbn [JS.forallb_str] in Hall. apply andb_prop in Hall as [Hc Hall].
    pose proof (no_double_hyphen_tail _ _ Hnd) as Hnd'.
    destruct (IH Hall Hnd') as (Hall1 & Hnd1 & Hstart1 & Hend1). cbn zeta in *.
    cbn [JS.drop_trailing].
    destruct (JS.drop_trailing Db.is_hyphen s) as [|d r] eqn:E.
    - destruct (Db.is_hyphen c) eqn:Hh.
      + cbn. by rewrite andb_false_r.
      + cbn [JS.forallb_str no_double_hyphen starts_with_hyphen
             ends_with_hyphen]. rewrite Hc, Hh. cbn. done.
    - cbn [JS.forallb_str no_double_hyphen starts_with_hyphen ends_with_hyphen].
      cbn [JS.forallb_str no_double_hyphen] in Hall1, Hnd1.
      rewrite Hc, Hall1. cbn [andb]. split; [done|]. split.
      + rewrite Hnd1, andb_true_r.
        cbn [no_double_hyphen] in Hnd. apply andb_prop in Hnd as [Hnd _].
        cbn [starts_with_hyphen String.eqb] in Hstart1.
        rewrite andb_true_r in Hstart1. by rewrite Hstart1.
      + split; [by rewrite andb_true_r|]. exact Hend1. }
  intros Hall Hnd Hstart. destruct (Hgen s Hall Hnd) as (H1 & H2 & H3 & H4).
  cbn zeta in *. rewrite Hstart in H3. done.
Qed.

Lemma safe_name_is_clean (newName : string) :
  clean_name (Db.safe_name newName) = true.
Proof.
  unfold Db.safe_name, clean_name.
  destruct (replace_runs_shape false (JS.toLowerCase newName)) as (H1 & H2 & _).
  cbn zeta in *.
  destruct (drop_leading_shape _ H1 H2) as (H3 & H4 & H5). cbn zeta in *.
  destruct (drop_trailing_shape _ H3 H4 H5) as (H6 & H7 & H8 & H9).
  cbn zeta in *. by rewrite H6, H7, H8, H9.
Qed.

(** X1. The name that [handleRenameTicket] of the database-backed bot builds
    from the requested name holds only the characters [a-z0-9] and the
    hyphen, neither starts nor ends with a hyphen, and has no two hyphens in
    a row. *)
Theorem safe_name_shape (newName : string) :
  JS.forallb_str rename_char (Db.safe_name newName) = true
  /\ starts_with_hyphen (Db.safe_name newName) = false
  /\ ends_with_hyphen (Db.safe_name newName) = false
  /\ no_double_hyphen (Db.safe_name newName) = true.
Proof.
  pose proof (safe_name_is_clean newName) as H. unfold clean_name in H.
  apply andb_prop in H as [[[H1 H2]%andb_prop H3]%andb_prop H4].
  apply negb_true_iff in H2, H3. done.
Qed.

Lemma toLowerCase_rename_char (c : ascii) :
  rename_char c = true -> JS.toLowerCase_char c = c.
Proof.
  revert c. intros [[] [] [] [] [] [] [] []]; vm_compute; done.
Qed.

Lemma toLowerCase_clean (s : string) :
  JS.forallb_str rename_char s = true -> JS.toLowerCase s = s.
Proof.
  unfold JS.toLowerCase. induction s as [|c s IH]; [done|].
  cbn [JS.forallb_str JS.map_str]. intros [Hc Hs]%andb_prop.
  by rewrite toLowerCase_rename_char, IH.
Qed.

Lemma rename_char_cases (c : ascii) :
  rename_char c = true -> Db.name_char c = negb (Db.is_hyphen c).
Proof.
  unfold rename_char. destruct (Db.name_char c) eqn:Hc.
  - by rewrite (name_char_not_hyphen c Hc).
  - cbn. by intros ->.
Qed.

Lemma replace_runs_clean (in_run : bool) (s : string) :
  JS.forallb_str rename_char s = true ->
  no_double_hyphen s = true ->
  (in_run = true -> starts_with_hyphen s = false) ->
  JS.replace_runs (fun c => negb (Db.name_char c)) "-" in_run s = s.
Proof.
  revert in_run. induction s as [|c s IH]; intros in_run Hall Hnd Hstart; [done|].
  cbn [JS.forallb_str] in Hall. apply andb_prop in Hall as [Hc Hall].
  pose proof (no_double_hyphen_tail _ _ Hnd) as Hnd'.
  cbn [JS.replace_runs]. rewrite (rename_char_cases c Hc), negb_involutive.
  destruct (Db.is_hyphen c) eqn:Hh.
  - destruct in_run.
    { specialize (Hstart eq_refl). cbn [starts_with_hyphen] in Hstart.
      congruence. }
    rewrite str_app_cons, str_app_nil.
    unfold Db.is_hyphen in Hh. apply Ascii.eqb_eq in Hh. subst c.
    f_equal. apply IH; [done..|]. intros _.
    cbn [no_double_hyphen] in Hnd. apply andb_prop in Hnd as [Hnd _].
    by destruct (starts_with_hyphen s).
  - f_equal. by apply IH.
Qed.

Lemma drop_leading_clean (s : string) :
  starts_with_hyphen s = false -> JS.drop_leading Db.is_hyphen s = s.
Proof. destruct s as [|c s]; [done|]. cbn. by intros ->. Qed.

Lemma drop_trailing_clean (s : string) :
  ends_with_hyphen s = false -> JS.drop_trailing Db.is_hyphen s = s.
Proof.
  induction s as [|c s IH]; [done|]. cbn [ends_with_hyphen JS.drop_trailing].
  destruct s as [|d s].
  - cbn. by intros ->.
  - intros H. by rewrite (IH H).
Qed.

Lemma safe_name_clean (s : string) : clean_name s = true -> Db.safe_name s = s.
Proof.
  unfold clean_name. intros [[[Hall Hstart]%andb_prop Hend]%andb_prop Hnd]%andb_prop.
  apply negb_true_iff in Hstart, Hend.
  unfold Db.safe_name.
  by rewrite (toLowerCase_clean s Hall), (replace_runs_clean false s Hall Hnd),
    drop_leading_clean, drop_trailing_clean.
Qed.

(** X2. The name cleanup of the rename command leaves a name alone that is
    already made of [a-z0-9] and single hyphens between them, so cleaning a
    cleaned name changes nothing. *)
Theorem safe_name_idempotent :
  (forall s, clean_name s = true -> Db.safe_name s = s)
  /\ (forall s, Db.safe_name (Db.safe_name s) = Db.safe_name s).
Proof.
  split; [exact safe_name_clean|].
  intros s. apply safe_name_clean, safe_name_is_clean.
Qed.

Lemma safe_name_idempotent_witness :
  Db.safe_name "urgent-issue-42" = "urgent-issue-42".
Proof. apply (proj1 safe_name_idempotent). vm_compute. reflexivity. Defined.

Ltac db_case_accept :=
  match goal with
  | |- context [Db.accepts ?e ?c] => destruct (Db.accepts e c)
  end.

Ltac trace_cases H :=
  cbn [app] in H;
  repeat (apply elem_of_cons in H as [H|H]; [try discriminate H|]);
  try (by apply elem_of_nil in H).

(** X3. Whatever name is requested, a rename of the database-backed bot calls
    [setName] at most for the channel of the request, with the cleaned name,
    and only when that name is 2 to 100 characters long; the channels are
    left as they were unless that call was accepted, in which case only the
    name of the channel of the request changes. *)
Theorem rename_sets_bounded_clean_name env i newName w :
  let s := fst (Eff.run (Db.handleRenameTicket env i newName) w) in
  let safe := Db.safe_name newName in
  (forall ch n b,
      (Db.SetName ch n, b) ∈ Eff.trace s ->
      ch = Db.i_channel i /\ n = safe /\ clean_name n = true
      /\ 2 <= String.length n <= 100)
  /\ (Db.channels (Eff.world s) = Db.channels w
      \/ ((Db.SetName (Db.i_channel i) safe, true) ∈ Eff.trace s
          /\ Db.channels (Eff.world s) =
               update_channel (Db.i_channel i) (set_name safe) (Db.channels w))).
Proof.
  intros s safe. unfold s. db_unfold. unfold Eff.run. eff_classes.
  rewrite bind_run. unfold Db.current_channel. eff_classes.
  rewrite bind_run, get_run. cbn [Eff.world].
  destruct (cache_get (Some (Db.i_channel i)) (Db.channels w)) as [c|] eqn:Hc.
  2:{ cbn. split; [|by left]. intros ch n b H. by apply elem_of_nil in H. }
  pose proof (cache_get_id _ _ _ Hc) as Hid. unfold Eff.ret. cbv beta iota.
  destruct (JS.startsWith (name c) "ticket-"); cbn [negb].
  2:{ rewrite call_run. cbn [fst Eff.world Eff.trace]. split.
      - intros ch n b H. trace_cases H.
      - left. try db_case_accept; done. }
  fold safe.
  destruct (Nat.ltb_spec (String.length safe) 2) as [Hlo|Hlo]; cbn [orb].
  { rewrite call_run. cbn [fst Eff.world Eff.trace]. split.
    - intros ch n b H. trace_cases H.
    - left. try db_case_accept; done. }
  destruct (Nat.ltb_spec 100 (String.length safe)) as [Hhi|Hhi].
  { rewrite call_run. cbn [fst Eff.world Eff.trace]. split.
    - intros ch n b H. trace_cases H.
    - left. try db_case_accept; done. }
  rewrite try_bind_run, call_run. rewrite Hid.
  destruct (Db.accepts env (Db.SetName (Db.i_channel i) safe)) eqn:Hacc.
  - rewrite try_catch_run, call_run. cbn [Eff.world Eff.trace].
    destruct (Db.accepts env (Db.SendReply (Db.Renamed safe (Db.i_user i)))).
    + cbn [fst Eff.world Eff.trace]. split.
      * intros ch n b H. trace_cases H. injection H as -> -> _.
        split; [done|]. split; [done|]. split; [apply safe_name_is_clean|lia].
      * right. split; [|done]. cbn. apply elem_of_cons. by left.
    + rewrite call_run. cbn [fst Eff.world Eff.trace]. split.
      * intros ch n b H. trace_cases H. injection H as -> -> _.
        split; [done|]. split; [done|]. split; [apply safe_name_is_clean|lia].
      * right. split.
        -- cbn. apply elem_of_cons. by left.
        -- by destruct (Db.accepts env (Db.SendReply Db.RenameFailed)).
  - rewrite call_run. cbn [fst Eff.world Eff.trace]. split.
    + intros ch n b H. trace_cases H. injection H as -> -> _.
      split; [done|]. split; [done|]. split; [apply safe_name_is_clean|lia].
    + left. by destruct (Db.accepts env (Db.SendReply Db.RenameFailed)).
Qed.

(** ** The configuration store of the database-backed bot *)

(** X4. With the database reachable, a configuration written by
    [setGuildConfig] is what [getGuildConfig] returns next for that guild,
    with empty ids stored as [null], and the lookup stores nothing more; the
    documents of other guilds are as before. When the write fails the store
    is unchanged. *)
Theorem db_set_then_get (io : Db.Io) (db : Db.Store) (guild : string)
    (newConfig : Db.GuildConfig) :
  let db1 := Db.setGuildConfig io db guild newConfig in
  (Db.write_ok io = true -> Db.read_ok io = true ->
   Db.getGuildConfig io db1 guild =
     (db1,
      Db.mkGuildConfig (Db.or_null (Db.categoryId newConfig))
        (Db.or_null (Db.logsChannelId newConfig))
        (Db.or_null (Db.supportRoleId newConfig))
        (Db.ticketTopics newConfig)))
  /\ (forall g, g <> guild -> db1 !! g = db !! g)
  /\ (Db.write_ok io = false -> db1 = db).
Proof.
  intros db1. unfold db1, Db.setGuildConfig, Db.getGuildConfig.
  split; [|split].
  - intros -> ->. by rewrite lookup_insert_eq.
  - intros g Hg. destruct (Db.write_ok io); [|done].
    by rewrite lookup_insert_ne.
  - by intros ->.
Qed.

Lemma db_set_then_get_witness :
  Db.getGuildConfig Sample.all_ok_db
    (Db.setGuildConfig Sample.all_ok_db ∅ "1"
       (Db.mkGuildConfig (Some "500") (Some "") None [Sample.billing])) "1" =
    (Db.setGuildConfig Sample.all_ok_db ∅ "1"
       (Db.mkGuildConfig (Some "500") (Some "") None [Sample.billing]),
     Db.mkGuildConfig (Some "500") None None [Sample.billing]).
Proof.
  exact (proj1 (db_set_then_get Sample.all_ok_db ∅ "1"
                  (Db.mkGuildConfig (Some "500") (Some "") None [Sample.billing]))
           eq_refl eq_refl).
Defined.

(** X5. [getGuildConfig] is a lookup that stores: for a guild without a
    document it returns the unconfigured default and, when the database is
    reachable, stores that default; a second lookup returns the same
    configuration and changes nothing more. The documents of other guilds
    stay as they are, and a failed call returns the default and stores
    nothing. *)
Theorem db_get_upserts_default (io : Db.Io) (db : Db.Store) (guild : string) :
  let r := Db.getGuildConfig io db guild in
  Db.getGuildConfig io (fst r) guild = r
  /\ (forall g, g <> guild -> fst r !! g = db !! g)
  /\ (db !! guild = None -> snd r = Db.default_config)
  /\ (db !! guild = None -> Db.read_ok io = true ->
      fst r !! guild = Some Db.default_config)
  /\ (Db.read_ok io = false -> r = (db, Db.default_config)).
Proof.
  intros r. unfold r, Db.getGuildConfig.
  destruct (Db.read_ok io); [|done].
  destruct (db !! guild) as [c|] eqn:E; cbn [fst snd].
  - rewrite E. done.
  - rewrite lookup_insert_eq. split; [done|]. split.
    + intros g Hg. by rewrite lookup_insert_ne.
    + done.
Qed.

Lemma db_get_upserts_default_witness :
  fst (Db.getGuildConfig Sample.all_ok_db ∅ "1") !! "1" = Some Db.default_config.
Proof.
  exact (proj1 (proj2 (proj2 (proj2 (db_get_upserts_default Sample.all_ok_db ∅ "1"))))
           eq_refl eq_refl).
Defined.

(** ** Ticket numbering *)

Lemma to_double_small (n : N) :
  (n < 2 ^ 53)%N -> JS.to_double n = JS.Finite n.
Proof. intros H. unfold JS.to_double. by rewrite (proj2 (N.ltb_lt _ _) H). Qed.

Lemma number_to_string_small (n : N) :
  (n < 2 ^ 53)%N -> JS.number_to_string (JS.Finite n) = JS.decimal n.
Proof. intros H. unfold JS.number_to_string. by rewrite (proj2 (N.ltb_lt _ _) H). Qed.

Lemma spec_digit_is_digit (c : ascii) : spec_digit c <-> JS.is_digit c = true.
Proof.
  unfold spec_digit, JS.is_digit, JS.in_range, JS.code.
  change (N_of_ascii "0") with 48%N. change (N_of_ascii "9") with 57%N.
  rewrite andb_true_iff, !N.leb_le. done.
Qed.

Lemma spec_all_digits_forallb (ds : string) :
  spec_all_digits ds <-> JS.forallb_str JS.is_digit ds = true.
Proof.
  induction ds as [|c ds IH]; cbn [spec_all_digits JS.forallb_str]; [done|].
  by rewrite andb_true_iff, IH, spec_digit_is_digit.
Qed.

Lemma spec_no_digit_first_take (s : string) :
  spec_no_digit_first s <-> JS.take_digits s = "".
Proof.
  destruct s as [|c s]; cbn [spec_no_digit_first JS.take_digits]; [done|].
  rewrite spec_digit_is_digit. by destruct (JS.is_digit c).
Qed.

Lemma parseInt_acc_value (acc : N) (ds : string) :
  JS.parseInt_acc acc ds =
    (acc * 10 ^ N.of_nat (String.length ds) + spec_digits_value ds)%N.
Proof.
  revert acc. induction ds as [|c ds IH]; intros acc.
  - cbn. lia.
  - cbn [JS.parseInt_acc spec_digits_value String.length]. rewrite IH.
    unfold JS.digit_value, JS.code. change (N_of_ascii "0") with 48%N.
    rewrite Nat2N.inj_succ, N.pow_succ_r'. lia.
Qed.

Lemma spec_digits_value_mathInt (ds : string) :
  spec_digits_value ds = JS.mathInt ds.
Proof. unfold JS.mathInt. rewrite parseInt_acc_value. lia. Qed.

(** The longest prefix of digits splits a string in one way only. *)
Lemma take_digits_split (s : string) :
  exists rest,
    s = JS.take_digits s ++ rest
    /\ JS.forallb_str JS.is_digit (JS.take_digits s) = true
    /\ JS.take_digits rest = "".
Proof.
  induction s as [|c s (rest & Hs & Hd & Hr)].
  - by exists "".
  - cbn [JS.take_digits]. destruct (JS.is_digit c) eqn:E.
    + exists rest. rewrite str_app_cons, <- Hs. cbn [JS.forallb_str].
      by rewrite E, Hd.
    + exists (String c s). repeat split. cbn [JS.take_digits]. by rewrite E.
Qed.

Lemma take_digits_app (ds rest : string) :
  JS.forallb_str JS.is_digit ds = true -> JS.take_digits rest = "" ->
  JS.take_digits (ds ++ rest) = ds.
Proof.
  intros Hd Hr. induction ds as [|c ds IH]; [done|].
  cbn [JS.forallb_str] in Hd. apply andb_prop in Hd as [Hc Hd].
  rewrite str_app_cons. cbn [JS.take_digits]. by rewrite Hc, IH.
Qed.

Lemma match_here_spec (s ds : string) :
  match_here "ticket-" s = Some ds <->
  exists rest,
    s = "ticket-" ++ ds ++ rest
    /\ ds <> "" /\ spec_all_digits ds /\ spec_no_digit_first rest.
Proof.
  unfold match_here. split.
  - destruct (JS.strip_prefix "ticket-" s) as [r|] eqn:E; [|done].
    apply strip_prefix_inv in E.
    destruct (take_digits_split r) as (rest & Hr & Hd & Hrest).
    destruct (JS.take_digits r) as [|c d] eqn:Et; [done|].
    intros [= <-]. exists rest. rewrite E, Hr.
    by rewrite spec_all_digits_forallb, spec_no_digit_first_take.
  - intros (rest & -> & Hne & Hd & Hrest).
    rewrite strip_prefix_app.
    rewrite take_digits_app
      by (by apply spec_all_digits_forallb || by apply spec_no_digit_first_take).
    by destruct ds.
Qed.

Lemma match_here_none_spec (s : string) :
  match_here "ticket-" s = None <->
  forall rest, s = "ticket-" ++ rest -> spec_no_digit_first rest.
Proof.
  unfold match_here. split.
  - intros H rest ->. rewrite strip_prefix_app in H.
    apply spec_no_digit_first_take. by destruct (JS.take_digits rest).
  - intros H. destruct (JS.strip_prefix "ticket-" s) as [r|] eqn:E; [|done].
    apply strip_prefix_inv in E. apply H, spec_no_digit_first_take in E.
    by rewrite E.
Qed.

(** [/ticket-(\\d+)/] reads the digits that the specification names. *)
Lemma match_ticket_digits_spec (s ds : string) :
  JS.match_lit_digits "ticket-" s = Some ds <-> spec_number_digits s ds.
Proof.
  split.
  - revert ds. induction s as [|c s IH]; intros ds.
    + rewrite match_lit_digits_eq. by cbn.
    + rewrite match_lit_digits_eq.
      destruct (match_here "ticket-" (String c s)) as [d|] eqn:E.
      * intros [= ->]. apply match_here_spec in E as (rest & -> & Hne & Hd & Hr).
        by constructor.
      * intros H. apply number_digits_later; [|by apply IH].
        by apply match_here_none_spec.
  - induction 1 as [ds rest Hne Hd Hr|c s ds Hnone _ IH].
    + rewrite match_lit_digits_eq.
      assert (E : match_here "ticket-" ("ticket-" ++ ds ++ rest) = Some ds).
      { apply match_here_spec. by exists rest. }
      by rewrite E.
    + rewrite match_lit_digits_eq.
      apply match_here_none_spec in Hnone. by rewrite Hnone.
Qed.

Lemma ticket_number_spec (s : string) (x : JS.Number) :
  Db.ticket_number s = Some x <->
  exists ds, spec_number_digits s ds /\ x = JS.to_double (spec_digits_value ds).
Proof.
  unfold Db.ticket_number, JS.parseInt. split.
  - destruct (JS.match_lit_digits "ticket-" s) as [ds|] eqn:E; [|done].
    intros [= <-]. exists ds. rewrite spec_digits_value_mathInt.
    split; [by apply match_ticket_digits_spec|done].
  - intros (ds & Hds & ->). apply match_ticket_digits_spec in Hds.
    rewrite Hds. cbn. by rewrite spec_digits_value_mathInt.
Qed.

Lemma ticket_number_of_name (n : N) :
  (n < 2 ^ 53)%N ->
  Db.ticket_number ("ticket-" ++ JS.number_to_string (JS.Finite n)) =
    Some (JS.Finite n).
Proof.
  intros Hn. rewrite number_to_string_small by done.
  destruct (decimal_spec n) as (Hd & Hne & Hparse).
  unfold Db.ticket_number, JS.parseInt.
  rewrite (match_lit_digits_here "ticket-") by done.
  cbn [fmap option_fmap option_map].
  by rewrite Hparse, to_double_small.
Qed.

Lemma elem_of_List_filter {A} (p : A -> bool) (l : list A) (x : A) :
  x ∈ List.filter p l <-> x ∈ l /\ p x = true.
Proof. rewrite !list_elem_of_In. apply filter_In. Qed.

Lemma startsWith_spec (s p : string) :
  JS.startsWith s p = true <-> exists rest, s = p ++ rest.
Proof.
  unfold JS.startsWith. split.
  - destruct (JS.strip_prefix p s) as [rest|] eqn:E; [|done].
    intros _. exists rest. by apply strip_prefix_inv.
  - intros [rest ->]. by rewrite strip_prefix_app.
Qed.

(** The channels that [getNextTicketNumber] looks at are the siblings of the
    specification. *)
Lemma ticket_channels_spec (cache : list Channel) (category c : Channel) :
  c ∈ List.filter
        (fun c => JS.startsWith (name c) "ticket-" && is_text (type c))
        (children category cache)
  <-> c ∈ cache /\ spec_ticket_sibling category c.
Proof.
  unfold children, spec_ticket_sibling.
  rewrite !elem_of_List_filter, andb_true_iff, startsWith_spec.
  assert (Hp : JS.strict_eq (parentId c) (Some (id category)) = true
               <-> parentId c = Some (id category)).
  { destruct (parentId c) as [p|]; cbn [JS.strict_eq]; [|done].
    rewrite String.eqb_eq. split; [by intros ->|by intros [= ->]]. }
  assert (Ht : is_text (type c) = true <-> type c = GuildText)
    by by destruct (type c).
  rewrite Hp, Ht. tauto.
Qed.

(** The loop of [getNextTicketNumber] over channels whose numbers are read
    exactly: the largest of them and the start value. *)
Lemma fold_ticket_numbers (cs : list Channel) (acc : N) :
  (forall c x, c ∈ cs -> Db.ticket_number (name c) = Some x ->
               exists k, x = JS.Finite k) ->
  exists m,
    fold_left
      (fun maxNumber channel =>
         match Db.ticket_number (name channel) with
         | Some number => if JS.gt number maxNumber then number else maxNumber
         | None => maxNumber
         end)
      cs (JS.Finite acc) = JS.Finite m
    /\ (acc <= m)%N
    /\ (forall c k, c ∈ cs -> Db.ticket_number (name c) = Some (JS.Finite k) ->
                    (k <= m)%N)
    /\ (m = acc \/
        exists c, c ∈ cs /\ Db.ticket_number (name c) = Some (JS.Finite m)).
Proof.
  revert acc. induction cs as [|c cs IH]; intros acc Hfin.
  - exists acc. cbn [fold_left]. split; [done|]. split; [lia|].
    split; [by intros c k ?%elem_of_nil|by left].
  - cbn [fold_left].
    assert (Hfin' : forall c' x, c' ∈ cs -> Db.ticket_number (name c') = Some x ->
                                 exists k, x = JS.Finite k).
    { intros c' x Hc'. apply Hfin, elem_of_cons. by right. }
    destruct (Db.ticket_number (name c)) as [x|] eqn:E.
    + destruct (Hfin c x) as [k ->]; [apply elem_of_cons; by left|done|].
      cbn [JS.gt]. destruct (N.ltb_spec acc k) as [Hlt|Hge].
      * destruct (IH k Hfin') as (m & Hm & Hle & Hall & Hatt).
        exists m. split; [exact Hm|]. split; [lia|]. split.
        -- intros c' k' [->|Hc']%elem_of_cons Hk'.
           ++ rewrite E in Hk'. injection Hk' as <-. lia.
           ++ by eapply Hall.
        -- right. destruct Hatt as [->|(c' & Hc' & Hm')].
           ++ exists c. split; [apply elem_of_cons; by left|done].
           ++ exists c'. split; [apply elem_of_cons; by right|done].
      * destruct (IH acc Hfin') as (m & Hm & Hle & Hall & Hatt).
        exists m. split; [exact Hm|]. split; [lia|]. split.
        -- intros c' k' [->|Hc']%elem_of_cons Hk'.
           ++ rewrite E in Hk'. injection Hk' as <-. lia.
           ++ by eapply Hall.
        -- destruct Hatt as [->|(c' & Hc' & Hm')]; [by left|].
           right. exists c'. split; [apply elem_of_cons; by right|done].
    + destruct (IH acc Hfin') as (m & Hm & Hle & Hall & Hatt).
      exists m. split; [exact Hm|]. split; [lia|]. split.
      * intros c' k' [->|Hc']%elem_of_cons Hk'; [congruence|by eapply Hall].
      * destruct Hatt as [->|(c' & Hc' & Hm')]; [by left|].
        right. exists c'. split; [apply elem_of_cons; by right|done].
Qed.

(** With the category in place and the numbers of the siblings below
    [MAX_SAFE_INTEGER], [getNextTicketNumber] is exact: one more than the
    largest number of a sibling, and 1 when there is none. *)
Lemma next_number_exact cache categoryId category :
  cache_get categoryId cache = Some category ->
  is_category (type category) = true ->
  (forall k, spec_sibling_number cache category k ->
             (k < JS.MAX_SAFE_INTEGER)%N) ->
  exists n,
    Db.getNextTicketNumber cache categoryId = JS.Finite n
    /\ (forall k, spec_sibling_number cache category k -> (k < n)%N)
    /\ (n = 1%N \/ spec_sibling_number cache category (n - 1))
    /\ (1 <= n <= JS.MAX_SAFE_INTEGER)%N.
Proof.
  intros Hget Hcat Hsafe. unfold Db.getNextTicketNumber.
  rewrite Hget, Hcat. cbn [negb].
  set (cs := List.filter _ (children category cache)).
  assert (Hsib : forall c x, c ∈ cs -> Db.ticket_number (name c) = Some x ->
            exists k, x = JS.Finite k /\ spec_sibling_number cache category k).
  { intros c x Hc Hx. apply ticket_channels_spec in Hc as [Hc Hs].
    apply ticket_number_spec in Hx as (ds & Hds & ->).
    assert (Hk : spec_sibling_number cache category (spec_digits_value ds))
      by by exists c, ds.
    exists (spec_digits_value ds). split; [|done].
    apply to_double_small. specialize (Hsafe _ Hk).
    unfold JS.MAX_SAFE_INTEGER in Hsafe. lia. }
  destruct (fold_ticket_numbers cs 0) as (m & Hm & _ & Hall & Hatt).
  { intros c x Hc Hx. destruct (Hsib c x Hc Hx) as (k & -> & _). by exists k. }
  rewrite Hm. cbn [JS.add1].
  assert (Hmax : m = 0%N \/ spec_sibling_number cache category m).
  { destruct Hatt as [->|(c & Hc & Hx)]; [by left|]. right.
    destruct (Hsib c _ Hc Hx) as (k & [= <-] & Hk). done. }
  assert (Hbound : (m < JS.MAX_SAFE_INTEGER)%N).
  { destruct Hmax as [->|Hk]; [by vm_compute|by apply Hsafe]. }
  exists (m + 1)%N. split.
  { apply to_double_small. unfold JS.MAX_SAFE_INTEGER in Hbound. lia. }
  split.
  { intros k (c & ds & Hc & Hs & Hds & ->).
    assert (Hin : c ∈ cs) by by apply ticket_channels_spec.
    assert (Hx : Db.ticket_number (name c) =
                 Some (JS.to_double (spec_digits_value ds)))
      by (apply ticket_number_spec; by exists ds).
    destruct (Hsib c _ Hin Hx) as (k & Hk & Hsk).
    rewrite Hk in Hx. specialize (Hall c k Hin Hx).
    assert (Hsame : k = spec_digits_value ds).
    { assert (Hk' : spec_sibling_number cache category (spec_digits_value ds))
        by by exists c, ds.
      specialize (Hsafe _ Hk'). unfold JS.MAX_SAFE_INTEGER in Hsafe.
      rewrite to_double_small in Hk by lia. by injection Hk as ->. }
    lia. }
  split.
  { destruct Hmax as [->|Hk]; [by left|]. right.
    by replace (m + 1 - 1)%N with m by lia. }
  lia.
Qed.

Lemma db_numbers_below_spec bound cache category :
  db_numbers_below bound cache category = true ->
  forall k, spec_sibling_number cache category k -> (k < bound)%N.
Proof.
  unfold db_numbers_below. rewrite forallb_forall.
  intros Hall k (c & ds & Hc & Hs & Hds & ->).
  assert (Hin : c ∈ List.filter
                      (fun c => JS.startsWith (name c) "ticket-" && is_text (type c))
                      (children category cache))
    by by apply ticket_channels_spec.
  apply list_elem_of_In, Hall in Hin.
  apply match_ticket_digits_spec in Hds. rewrite Hds in Hin.
  apply N.ltb_lt in Hin. by rewrite spec_digits_value_mathInt.
Qed.

Lemma cache_get_cached cache i c :
  spec_cached cache i c -> cache_get i cache = Some c.
Proof.
  intros (-> & Hin & Huniq). unfold cache_get.
  induction cache as [|c' cache IH]; [by apply elem_of_nil in Hin|].
  cbn [List.find JS.strict_eq].
  destruct (String.eqb_spec (id c') (id c)) as [Heq|Hne].
  - f_equal. apply Huniq; [apply elem_of_cons; by left|done].
  - apply IH.
    + apply elem_of_cons in Hin as [->|Hin]; [done|exact Hin].
    + intros c'' Hc''. apply Huniq, elem_of_cons. by right.
Qed.

Lemma cache_get_not_cached cache i :
  spec_not_cached cache i -> cache_get i cache = None.
Proof.
  intros Hnone. unfold cache_get.
  destruct (List.find _ cache) as [c|] eqn:E; [|done].
  apply find_some in E as [Hin Heq]. apply list_elem_of_In in Hin.
  destruct i as [i|]; [|done]. cbn [JS.strict_eq] in Heq.
  apply String.eqb_eq in Heq. subst i. by destruct (Hnone c Hin).
Qed.

(** C8, as the code has it. With the category in the cache and the numbers of
    the siblings below [MAX_SAFE_INTEGER], the next ticket number [n] is one more
    than the largest number of a sibling, and 1 when no sibling has a number;
    a sibling is a text channel of the category whose name starts with
    [ticket-], and its number is read from the digits behind the first
    [ticket-] that a digit follows: the numeric suffix for a name
    [ticket-<digits>], and one number at most for every name. The number is 1
    as well when the category is not in the cache or is not a category. The
    channel is created under the name [ticket-] followed by the decimal digits
    of [n], in the category, and that name is read back as [n]. *)
Theorem next_ticket_number :
  (forall cache categoryId category,
      spec_cached cache categoryId category ->
      type category = GuildCategory ->
      (forall k, spec_sibling_number cache category k ->
                 (k < JS.MAX_SAFE_INTEGER)%N) ->
      exists n,
        Db.getNextTicketNumber cache categoryId = JS.Finite n
        /\ (forall k, spec_sibling_number cache category k -> (k < n)%N)
        /\ (n = 1%N \/ spec_sibling_number cache category (n - 1))
        /\ ((forall k, ~ spec_sibling_number cache category k) -> n = 1%N)
        /\ (1 <= n <= JS.MAX_SAFE_INTEGER)%N
        /\ JS.number_to_string (JS.Finite n) <> ""
        /\ spec_all_digits (JS.number_to_string (JS.Finite n))
        /\ spec_digits_value (JS.number_to_string (JS.Finite n)) = n)
  /\ (forall cache categoryId,
      spec_not_cached cache categoryId \/
      (exists c, spec_cached cache categoryId c /\ type c <> GuildCategory) ->
      Db.getNextTicketNumber cache categoryId = JS.Finite 1)
  /\ (forall env i topicValue issue w,
      let config :=
        snd (Db.getGuildConfig (Db.db_io env) (Db.store w) (Db.i_guild i)) in
      let cache := guild_channels (Db.i_guild i) (Db.channels w) in
      let s := fst (Eff.run (Db.handleTicketCreation env i topicValue issue) w) in
      spec_creation_check (db_configured config)
        (topic_exists (Some topicValue) (Db.ticketTopics config))
        (db_open_ticket cache (Db.i_user i)) None = None ->
      exists c,
        head (Eff.trace s) =
          Some (Db.ChannelsCreate c, Db.accepts env (Db.ChannelsCreate c))
        /\ name c =
             "ticket-" ++
             JS.number_to_string
               (Db.getNextTicketNumber cache (Db.categoryId config))
        /\ parentId c = Db.categoryId config
        /\ type c = GuildText)
  /\ (forall n, (n <= JS.MAX_SAFE_INTEGER)%N ->
      Db.ticket_number ("ticket-" ++ JS.number_to_string (JS.Finite n)) =
        Some (JS.Finite n))
  /\ (forall ds, ds <> "" -> spec_all_digits ds ->
      spec_number_digits ("ticket-" ++ ds) ds)
  /\ (forall s ds ds',
      spec_number_digits s ds -> spec_number_digits s ds' -> ds = ds').
Proof.
  split.
  { intros cache categoryId category Hget%cache_get_cached Htype Hsafe.
    assert (Hcat : is_category (type category) = true) by by rewrite Htype.
    destruct (next_number_exact cache categoryId category Hget Hcat Hsafe)
      as (n & Hn & Hlt & Hatt & Hrange).
    exists n. split; [exact Hn|]. split; [exact Hlt|]. split; [exact Hatt|].
    split. { intros Hnone. destruct Hatt as [->|Hk]; [done|by apply Hnone in Hk]. }
    split; [exact Hrange|].
    assert (Hsmall : (n < 2 ^ 53)%N)
      by (unfold JS.MAX_SAFE_INTEGER in Hrange; lia).
    rewrite number_to_string_small by done.
    destruct (decimal_spec n) as (Hd & Hne & Hval).
    split; [exact Hne|]. split; [by apply spec_all_digits_forallb|].
    by rewrite spec_digits_value_mathInt. }
  split.
  { intros cache categoryId [Hnone|(c & Hc & Htype)];
      unfold Db.getNextTicketNumber.
    - by rewrite (cache_get_not_cached _ _ Hnone).
    - rewrite (cache_get_cached _ _ _ Hc). by destruct (type c). }
  split.
  { intros env i topicValue issue w config cache s Hpass.
    destruct (db_creation_first_call env i topicValue issue w Hpass)
      as (c & t & Hhead & _ & _ & _ & Hname & Htype & Hparent & _).
    exists c. done. }
  split.
  { intros n Hn. apply ticket_number_of_name.
    unfold JS.MAX_SAFE_INTEGER in Hn. lia. }
  split.
  { intros ds Hne Hd. rewrite <- (str_app_empty_r ds) at 1.
    by apply number_digits_here. }
  intros s ds ds' H H'. apply match_ticket_digits_spec in H, H'. congruence.
Qed.

Lemma next_ticket_number_witness :
  exists n,
    Db.getNextTicketNumber (Db.channels DbScene.world) (Some "500") = JS.Finite n
    /\ (n = 1%N \/ spec_sibling_number (Db.channels DbScene.world) Scene.category
                     (n - 1)).
Proof.
  destruct (proj1 next_ticket_number (Db.channels DbScene.world) (Some "500")
              Scene.category)
    as (n & Hn & _ & Hatt & _).
  - split; [reflexivity|]. split; [vm_compute; set_solver|].
    intros c' Hc' Hid. vm_compute in Hc'. set_unfold in Hc'.
    destruct Hc' as [->|[->|[->|[]]]]; [reflexivity|discriminate Hid..].
  - reflexivity.
  - apply db_numbers_below_spec. vm_compute. reflexivity.
  - exists n. by split.
Defined.

(** C8 as stated fails from [2 ^ 53] on: next to a sibling [ticket-2^53] the
    number computed in doubles is [2 ^ 53] again, not one more, and the name
    of that sibling is allocated a second time. And a sibling that is not
    named [ticket-<digits>] counts as well: [ticket-12-vip] counts as 12. *)
Lemma next_ticket_number_counterexample :
  let big :=
    mkChannel "808" "1" "ticket-9007199254740992" GuildText (Some "500") None [] in
  let vip := mkChannel "809" "1" "ticket-12-vip" GuildText (Some "500") None [] in
  (spec_sibling_number [Scene.category; big] Scene.category 9007199254740992
   /\ Db.getNextTicketNumber [Scene.category; big] (Some "500") =
        JS.Finite 9007199254740992
   /\ "ticket-" ++
      JS.number_to_string (Db.getNextTicketNumber [Scene.category; big] (Some "500"))
      = name big)
  /\ Db.getNextTicketNumber [Scene.category; vip] (Some "500") = JS.Finite 13
  /\ ~ (exists ds, spec_all_digits ds /\ name vip = "ticket-" ++ ds).
Proof.
  intros big vip. split; [split; [|split]|split].
  - exists big, "9007199254740992". split; [set_solver|]. split.
    + split; [done|]. split; [done|]. by exists "9007199254740992".
    + split; [|by vm_compute].
      apply (number_digits_here "9007199254740992" ""); [done| |done].
      apply spec_all_digits_forallb. reflexivity.
  - vm_compute. reflexivity.
  - vm_compute. reflexivity.
  - vm_compute. reflexivity.
  - intros (ds & Hd & Hname). cbn in Hname. injection Hname as Hds.
    rewrite str_app_nil in Hds. subst ds.
    apply spec_all_digits_forallb in Hd. done.
Qed.

(** ** Fresh ticket names *)

(** X6. With the numbers of the siblings below [MAX_SAFE_INTEGER], the name
    [ticket-n] that the database-backed bot gives to a new ticket is not the
    name of any text channel that is already in the ticket category. *)
Theorem next_ticket_name_is_fresh cache categoryId category c :
  cache_get categoryId cache = Some category ->
  is_category (type category) = true ->
  (forall k, spec_sibling_number cache category k ->
             (k < JS.MAX_SAFE_INTEGER)%N) ->
  c ∈ cache ->
  parentId c = Some (id category) ->
  type c = GuildText ->
  name c <> "ticket-" ++ JS.number_to_string (Db.getNextTicketNumber cache categoryId).
Proof.
  intros Hget Hcat Hsafe Hc Hparent Htext Hname.
  destruct (next_number_exact cache categoryId category Hget Hcat Hsafe)
    as (n & Hn & Hlt & _ & Hrange).
  rewrite Hn in Hname.
  rewrite number_to_string_small in Hname
    by (unfold JS.MAX_SAFE_INTEGER in Hrange; lia).
  destruct (decimal_spec n) as (Hd & Hne & Hval).
  assert (Hk : spec_sibling_number cache category n).
  { exists c, (JS.decimal n). split; [exact Hc|]. split.
    - split; [exact Hparent|]. split; [exact Htext|]. by eexists.
    - split; [|by rewrite spec_digits_value_mathInt].
      rewrite Hname, <- (str_app_empty_r (JS.decimal n)) at 1.
      apply number_digits_here; [done|by apply spec_all_digits_forallb|done]. }
  apply Hlt in Hk. lia.
Qed.

Lemma next_ticket_name_is_fresh_witness :
  name DbScene.ticket7 <>
    "ticket-" ++
    JS.number_to_string
      (Db.getNextTicketNumber (Db.channels DbScene.world) (Some "500")).
Proof.
  apply (next_ticket_name_is_fresh (Db.channels DbScene.world) (Some "500")
           Scene.category DbScene.ticket7).
  - reflexivity.
  - reflexivity.
  - apply db_numbers_below_spec. vm_compute. reflexivity.
  - vm_compute. set_solver.
  - reflexivity.
  - reflexivity.
Defined.

(** ** The creator recorded in the topic of a ticket *)

Lemma match_lit_digits_skip (a : ascii) (lit p s : string) :
  has_char a p = false ->
  JS.match_lit_digits (String a lit) (p ++ s) = JS.match_lit_digits (String a lit) s.
Proof.
  induction p as [|c p IH]; [done|]. cbn [has_char].
  intros [Hc Hp]%orb_false_elim. rewrite str_app_cons, match_lit_digits_eq.
  unfold match_here. cbn [JS.strip_prefix]. rewrite Hc. by apply IH.
Qed.

Lemma has_char_app (a : ascii) (s1 s2 : string) :
  has_char a (s1 ++ s2) = has_char a s1 || has_char a s2.
Proof.
  induction s1 as [|c s1 IH]; [done|]. rewrite str_app_cons. cbn [has_char].
  by rewrite IH, orb_assoc.
Qed.

Lemma has_char_digits (a : ascii) (d : string) :
  JS.is_digit a = false -> JS.forallb_str JS.is_digit d = true ->
  has_char a d = false.
Proof.
  intros Ha. induction d as [|c d IH]; [done|]. cbn [JS.forallb_str has_char].
  intros [Hc Hd]%andb_prop. rewrite (IH Hd), orb_false_r.
  destruct (Ascii.eqb_spec a c) as [->|]; [congruence|done].
Qed.

Lemma take_digits_stop (u s : string) (c : ascii) :
  JS.forallb_str JS.is_digit u = true -> JS.is_digit c = false ->
  JS.take_digits (u ++ String c s) = u.
Proof.
  intros Hu Hc. induction u as [|d u IH].
  - rewrite str_app_nil. cbn. by rewrite Hc.
  - cbn [JS.forallb_str] in Hu. apply andb_prop in Hu as [Hd Hu].
    rewrite str_app_cons. cbn [JS.take_digits]. by rewrite Hd, IH.
Qed.

Lemma match_lit_digits_stop (lit u s : string) (c : ascii) :
  JS.forallb_str JS.is_digit u = true -> u <> "" -> JS.is_digit c = false ->
  JS.match_lit_digits lit (lit ++ u ++ String c s) = Some u.
Proof.
  intros Hu Hne Hc. rewrite match_lit_digits_eq. unfold match_here.
  rewrite strip_prefix_app, take_digits_stop by done. by destruct u.
Qed.

Lemma includes_eq (s m : string) :
  JS.includes s m =
    JS.startsWith s m ||
    match s with
    | EmptyString => false
    | String _ s' => JS.includes s' m
    end.
Proof. by destruct s. Qed.

Lemma includes_here (m r : string) : JS.includes (m ++ r) m = true.
Proof. by rewrite includes_eq, (startsWith_app m r). Qed.

Lemma includes_app (p m r : string) : JS.includes (p ++ m ++ r) m = true.
Proof.
  induction p as [|c p IH]; [rewrite str_app_nil; apply includes_here|].
  rewrite str_app_cons. cbn [JS.includes]. by rewrite IH, orb_true_r.
Qed.

Lemma has_char_zeros (a : ascii) (n : nat) :
  Ascii.eqb a "0" = false -> has_char a (JS.zeros n) = false.
Proof.
  intros Ha. induction n as [|n IH]; [done|].
  cbn [JS.zeros has_char]. by rewrite Ha, IH.
Qed.

(** [String(x)] holds digits and, for the largest numbers, the characters of
    the exponent notation or of [Infinity]: never the letter [U]. *)
Lemma number_to_string_no_U (x : JS.Number) :
  has_char "U" (JS.number_to_string x) = false.
Proof.
  destruct x as [n|]; [|reflexivity]. unfold JS.number_to_string.
  assert (Hdec : forall k, has_char "U" (JS.decimal k) = false).
  { intros k. apply has_char_digits; [done|]. by destruct (decimal_spec k). }
  destruct (n <? 2 ^ 53)%N; [apply Hdec|].
  destruct (JS.shortest _ _ _) as [s e].
  specialize (Hdec s) as Hs.
  destruct (_ <=? 21)%nat.
  - rewrite has_char_app, Hs. by apply has_char_zeros.
  - destruct (JS.decimal s) as [|d [|d' rest]]; [done| |].
    + cbn [has_char] in *. apply orb_false_elim in Hs as [-> _].
      rewrite has_char_app, Hdec. reflexivity.
    + cbn [has_char] in Hs. apply orb_false_elim in Hs as [Hd Hs].
      apply orb_false_elim in Hs as [Hd' Hs].
      cbn [has_char]. rewrite Hd.
      rewrite !has_char_app. cbn [has_char]. rewrite Hd', Hs, Hdec. reflexivity.
Qed.

(** The topic that [handleTicketCreation] of the database-backed bot writes
    names the creator for [/UserID: (\d+)/] and holds [UserID: <id>]. *)
Lemma db_topic_names_creator (n : JS.Number) (u lbl : string) :
  let t := "Ticket ID: " ++ ("ticket-" ++ JS.number_to_string n) ++
           " | UserID: " ++ u ++ " | Topic: " ++ lbl in
  JS.includes t ("UserID: " ++ u) = true
  /\ (JS.forallb_str JS.is_digit u = true -> u <> "" ->
      JS.match_lit_digits "UserID: " t = Some u).
Proof.
  intros t. unfold t. split.
  - change (" | UserID: " ++ u ++ " | Topic: " ++ lbl)
      with (" | " ++ "UserID: " ++ u ++ " | Topic: " ++ lbl).
    rewrite <- (str_app_assoc "UserID: " u).
    rewrite <- (str_app_assoc ("ticket-" ++ JS.number_to_string n) " | ").
    rewrite <- (str_app_assoc "Ticket ID: ").
    apply includes_app.
  - intros Hu Hne.
    change (" | UserID: " ++ u ++ " | Topic: " ++ lbl)
      with (" | " ++ "UserID: " ++ u ++ String " " ("| Topic: " ++ lbl)).
    rewrite <- (str_app_assoc ("ticket-" ++ JS.number_to_string n) " | ").
    rewrite <- (str_app_assoc "Ticket ID: ").
    rewrite (match_lit_digits_skip "U" "serID: ").
    + by apply match_lit_digits_stop.
    + rewrite !has_char_app, number_to_string_no_U. reflexivity.
Qed.

Lemma db_get_again (io : Db.Io) (db : Db.Store) (guild : string) :
  Db.getGuildConfig io (fst (Db.getGuildConfig io db guild)) guild =
    Db.getGuildConfig io db guild.
Proof.
  unfold Db.getGuildConfig. destruct (Db.read_ok io); [|done].
  destruct (db !! guild) as [c|] eqn:E; cbn [fst].
  - by rewrite E.
  - by rewrite lookup_insert_eq.
Qed.

(** The world after a ticket creation of the database-backed bot in which
    every call is accepted. *)
Lemma db_creation_success env i topicValue issue w t :
  (forall c, Db.accepts env c = true) ->
  let config :=
    snd (Db.getGuildConfig (Db.db_io env) (Db.store w) (Db.i_guild i)) in
  let cache := guild_channels (Db.i_guild i) (Db.channels w) in
  db_configured config = true ->
  find_topic topicValue (Db.ticketTopics config) = Some t ->
  db_open_ticket cache (Db.i_user i) = None ->
  let ticketChannel :=
    mkChannel (Db.new_channel_id env) (Db.i_guild i)
      ("ticket-" ++
       JS.number_to_string (Db.getNextTicketNumber cache (Db.categoryId config)))
      GuildText (Db.categoryId config)
      (Some ("Ticket ID: " ++
             ("ticket-" ++
              JS.number_to_string
                (Db.getNextTicketNumber cache (Db.categoryId config))) ++
             " | UserID: " ++ Db.i_user i ++ " | Topic: " ++ label t))
      [] in
  exists welcome,
    Eff.world (fst (Eff.run (Db.handleTicketCreation env i topicValue issue) w)) =
      Db.mkWorld
        (fst (Db.getGuildConfig (Db.db_io env) (Db.store w) (Db.i_guild i)))
        (update_channel (Db.new_channel_id env) (post welcome)
           (Db.channels w ++ [ticketChannel])%list).
Proof.
  intros Hacc config cache Hconf Htopic Hopen ticketChannel.
  unfold db_configured in Hconf. apply andb_prop in Hconf as [Hcat Hrole].
  unfold db_open_ticket in Hopen.
  eexists.
  unfold Db.handleTicketCreation, Db.reply, Eff.run. eff_classes.
  rewrite bind_run, db_fetch_run.
  cbn [Eff.world Eff.trace Db.channels Db.store].
  fold config. rewrite Hcat, Hrole. cbn [negb orb]. rewrite Htopic.
  rewrite bind_run, get_run. cbn [Eff.world Eff.trace Db.channels Db.store].
  fold cache.
  destruct (List.find _ cache) as [existing|] eqn:Hfind; [done|].
  eff_unfold. rewrite !Hacc. cbn [Eff.world Eff.trace Db.channels Db.store].
  destruct (JS.truthy (Db.logsChannelId config)); [|reflexivity].
  destruct (cache_get _ _); cbn [Eff.world fst]; rewrite ?Hacc; reflexivity.
Qed.

Lemma find_map_same {A} (P : A -> bool) (f : A -> A) (l : list A) :
  (forall x, P (f x) = P x) ->
  List.find P (map f l) = f <$> List.find P l.
Proof.
  intros HP. induction l as [|x l IH]; [done|]. cbn [map List.find].
  rewrite HP. by destruct (P x).
Qed.

Lemma find_app_none {A} (P : A -> bool) (l1 l2 : list A) :
  List.find P l1 = None -> List.find P (l1 ++ l2) = List.find P l2.
Proof.
  induction l1 as [|x l1 IH]; [done|]. cbn [app List.find].
  destruct (P x); [done|]. exact IH.
Qed.

Lemma guild_channels_app (g : string) (cs1 cs2 : list Channel) :
  guild_channels g (cs1 ++ cs2) = (guild_channels g cs1 ++ guild_channels g cs2)%list.
Proof. unfold guild_channels. apply List.filter_app. Qed.

Lemma update_channel_post_same (P : Channel -> bool) (i : string) (m : Message) :
  (forall c ms, P (set_messages ms c) = P c) ->
  forall c, P (if String.eqb (id c) i then post m c else c) = P c.
Proof. intros HP c. destruct (String.eqb (id c) i); [apply HP|done]. Qed.

(** X7. After a ticket creation of the database-backed bot in which every
    call is accepted, the new channel is the last of the channel list, is
    named [ticket-n], and its topic names the requester: [/UserID: (\d+)/]
    reads the requester's id back when that id is a non-empty string of
    digits. The open-ticket check then finds this channel for the requester,
    so a further creation request of the same user is answered
    DuplicateTicket with the new channel and changes no channel. *)
Theorem db_creator_has_one_ticket env i topicValue issue w t :
  (forall c, Db.accepts env c = true) ->
  let config :=
    snd (Db.getGuildConfig (Db.db_io env) (Db.store w) (Db.i_guild i)) in
  let cache := guild_channels (Db.i_guild i) (Db.channels w) in
  db_configured config = true ->
  find_topic topicValue (Db.ticketTopics config) = Some t ->
  db_open_ticket cache (Db.i_user i) = None ->
  let w1 :=
    Eff.world (fst (Eff.run (Db.handleTicketCreation env i topicValue issue) w)) in
  (exists c,
      last (Db.channels w1) = Some c
      /\ id c = Db.new_channel_id env
      /\ guild c = Db.i_guild i
      /\ name c =
           "ticket-" ++
           JS.number_to_string (Db.getNextTicketNumber cache (Db.categoryId config))
      /\ (JS.forallb_str JS.is_digit (Db.i_user i) = true -> Db.i_user i <> "" ->
          Db.ticket_user_id c = Some (Db.i_user i)))
  /\ db_open_ticket (guild_channels (Db.i_guild i) (Db.channels w1)) (Db.i_user i) =
       Some (Db.new_channel_id env)
  /\ forall issue2,
       let s2 :=
         fst (Eff.run (Db.handleTicketCreation env i topicValue issue2) w1) in
       first_failure db_failure_of (Eff.trace s2) =
         Some (FailDuplicateTicket (Db.new_channel_id env))
       /\ Db.channels (Eff.world s2) = Db.channels w1.
Proof.
  intros Hacc config cache Hconf Htopic Hopen w1.
  destruct (db_creation_success env i topicValue issue w t Hacc Hconf Htopic Hopen)
    as (welcome & Hw).
  fold config cache in Hw. fold w1 in Hw.
  set (n := Db.getNextTicketNumber cache (Db.categoryId config)) in *.
  set (tc := mkChannel _ _ _ _ _ _ _) in Hw.
  assert (Hopen1 :
    db_open_ticket (guild_channels (Db.i_guild i) (Db.channels w1)) (Db.i_user i) =
      Some (Db.new_channel_id env)).
  { rewrite Hw. cbn [Db.channels]. unfold db_open_ticket in *.
    rewrite guild_channels_update by done. unfold update_channel.
    rewrite find_map_same.
    2:{ intros c. by destruct (String.eqb (id c) (Db.new_channel_id env)). }
    rewrite guild_channels_app. fold cache.
    rewrite find_app_none by (by destruct (List.find _ cache)).
    unfold guild_channels, tc. cbn [List.filter guild].
    rewrite String.eqb_refl. cbn [List.find name].
    rewrite startsWith_app. unfold topic_includes, tc. cbn [topic].
    rewrite (proj1 (db_topic_names_creator n (Db.i_user i) (label t))).
    cbn. by rewrite String.eqb_refl. }
  split; [|split; [exact Hopen1|]].
  - exists (post welcome tc). rewrite Hw. cbn [Db.channels]. unfold update_channel.
    rewrite map_app. cbn [map]. rewrite last_snoc. unfold tc. cbn [id].
    rewrite String.eqb_refl.
    repeat split; try done.
    intros Hd Hne. unfold Db.ticket_user_id. cbn [topic post set_messages].
    by apply (proj2 (db_topic_names_creator n (Db.i_user i) (label t))).
  - intros issue2 s2.
    destruct (db_creation_answer env i topicValue issue2 w1) as [Hans Hkeep].
    cbn zeta in Hans, Hkeep. rewrite Hopen1 in Hans, Hkeep.
    assert (Hcfg : snd (Db.getGuildConfig (Db.db_io env) (Db.store w1) (Db.i_guild i))
                   = config).
    { rewrite Hw. cbn [Db.store]. by rewrite db_get_again. }
    rewrite Hcfg in Hans, Hkeep. rewrite Hconf in Hans, Hkeep.
    unfold spec_creation_check, topic_exists in Hans, Hkeep.
    cbn [mbind option_bind negb] in Hans, Hkeep. rewrite Htopic in Hans, Hkeep.
    split; [exact Hans|]. by apply Hkeep.
Qed.

Lemma db_creator_has_one_ticket_witness :
  let w1 :=
    Eff.world (fst (Eff.run (Db.handleTicketCreation DbScene.env
                               StaffScene.db_carol "billing" None)
                      DbScene.world)) in
  db_open_ticket (guild_channels "1" (Db.channels w1)) "99" = Some "900".
Proof.
  refine (proj1 (proj2 (db_creator_has_one_ticket DbScene.env StaffScene.db_carol
                          "billing" None DbScene.world Sample.billing _ _ _ _))).
  - intros c. reflexivity.
  - vm_compute. reflexivity.
  - vm_compute. reflexivity.
  - vm_compute. reflexivity.
Defined.

(** ** The creator recorded in the topic of a select-menu ticket *)

Lemma menu_topic_names_creator (tag u subject : string) :
  let t := "Ticket for " ++ tag ++ " (User ID: " ++ u ++ "). Subject: " ++ subject in
  JS.includes t ("User ID: " ++ u) = true
  /\ (JS.forallb_str JS.is_digit u = true -> u <> "" ->
      JS.match_lit_digits "User ID: " tag = None ->
      JS.match_lit_digits "User ID: " t = Some u).
Proof.
  intros t. unfold t. split.
  - change (" (User ID: " ++ u ++ "). Subject: " ++ subject)
      with (" (" ++ "User ID: " ++ u ++ "). Subject: " ++ subject).
    rewrite <- (str_app_assoc "User ID: " u).
    rewrite <- (str_app_assoc tag " (").
    rewrite <- (str_app_assoc "Ticket for ").
    apply includes_app.
  - intros Hu Hne Htag.
    rewrite (match_lit_digits_skip "U" "ser ID: " "Ticket for ") by reflexivity.
    rewrite match_lit_digits_app; [|exact Htag| |done].
    + change (" (User ID: " ++ u ++ "). Subject: " ++ subject)
        with (" (" ++ "User ID: " ++ u ++ String ")" (". Subject: " ++ subject)).
      rewrite (match_lit_digits_skip "U" "ser ID: " " (") by reflexivity.
      by apply match_lit_digits_stop.
    + cbn [proper_suffixes]. repeat constructor.
Qed.

(** The world after a ticket creation of the select-menu bot in which every
    call is accepted. *)
Lemma menu_modal_world env i w config customId subject descr topicValue t :
  (forall c, Menu.accepts env c = true) ->
  Menu.i_kind i = Menu.ModalSubmit customId subject descr ->
  Menu.readConfig (Menu.fs env) (Menu.file w) !! Menu.i_guild i = Some config ->
  JS.strip_prefix "ticket_create_modal_" customId = Some topicValue ->
  find_topic topicValue (Menu.ticketTopics config) = Some t ->
  let newChannel :=
    mkChannel (Menu.new_channel_id env) (Menu.i_guild i)
      (value t ++ "-" ++ Menu.substring0 15 (Menu.i_username i)) GuildText
      (Menu.categoryId config)
      (Some ("Ticket for " ++ Menu.i_tag i ++ " (User ID: " ++ Menu.i_user i
             ++ "). Subject: " ++ subject))
      [] in
  Eff.world (fst (Eff.run (Menu.interactionCreate env i) w)) =
    Menu.mkWorld (Menu.file w)
      (<[Menu.i_user i := cooldown_expiry env]> (Menu.ticketCooldowns w))
      (update_channel (Menu.new_channel_id env)
         (post (Menu.control_panel env i t (Menu.new_channel_id env) subject descr))
         (Menu.channels w ++ [newChannel])%list).
Proof.
  intros Hacc Hkind Hcfg Hstrip Htopic newChannel.
  unfold Menu.interactionCreate, Menu.handleModalSubmit, Menu.send, Menu.reply,
    Menu.schedule, Eff.run.
  eff_unfold. cbn [Eff.world Eff.trace].
  rewrite Hcfg, Hkind, Hstrip. rewrite !Hacc. cbn [Eff.world Eff.trace].
  rewrite Htopic. rewrite !Hacc. cbn [Eff.world Eff.trace fst].
  reflexivity.
Qed.

(** X8. After a ticket creation of the select-menu bot in which every call
    is accepted, in a guild with a configured category: the new channel is
    the last of the channel list and lies in the category, and
    [/User ID: (\d+)/] reads the requester's id back from its topic when that
    id is a non-empty string of digits and the requester's tag holds no match
    of its own. When the requester had no open ticket before, the open-ticket
    check now finds the new channel, so once the cooldown timer has removed
    the requester's entry a selection of theirs is answered DuplicateTicket
    with the new channel. *)
Theorem menu_creator_has_one_ticket
    env i w config customId subject descr topicValue t cat :
  (forall c, Menu.accepts env c = true) ->
  Menu.i_kind i = Menu.ModalSubmit customId subject descr ->
  Menu.readConfig (Menu.fs env) (Menu.file w) !! Menu.i_guild i = Some config ->
  JS.strip_prefix "ticket_create_modal_" customId = Some topicValue ->
  find_topic topicValue (Menu.ticketTopics config) = Some t ->
  Menu.categoryId config = Some cat ->
  menu_open_ticket config (guild_channels (Menu.i_guild i) (Menu.channels w))
    (Menu.i_user i) = None ->
  let w1 := Eff.world (fst (Eff.run (Menu.interactionCreate env i) w)) in
  (exists c,
      last (Menu.channels w1) = Some c
      /\ id c = Menu.new_channel_id env
      /\ parentId c = Some cat
      /\ (JS.forallb_str JS.is_digit (Menu.i_user i) = true ->
          Menu.i_user i <> "" ->
          JS.match_lit_digits "User ID: " (Menu.i_tag i) = None ->
          Menu.getTicketCreatorId c = Some (Menu.i_user i)))
  /\ menu_open_ticket config (guild_channels (Menu.i_guild i) (Menu.channels w1))
       (Menu.i_user i) = Some (Menu.new_channel_id env)
  /\ forall values,
       let again :=
         Menu.mkInteraction (Menu.i_guild i) (Menu.i_channel i) (Menu.i_user i)
           (Menu.i_username i) (Menu.i_tag i) (Menu.i_roles i) (Menu.i_admin i)
           (Menu.StringSelectMenu "ticket_panel_menu" values) in
       first_failure menu_failure_of
         (Eff.trace
            (fst (Eff.run (Menu.interactionCreate env again)
                    (Menu.cooldown_timer_fires (Menu.i_user i) w1)))) =
         Some (FailDuplicateTicket (Menu.new_channel_id env)).
Proof.
  intros Hacc Hkind Hcfg Hstrip Htopic Hcat Hopen w1.
  pose proof (menu_modal_world env i w config customId subject descr topicValue t
                Hacc Hkind Hcfg Hstrip Htopic) as Hw.
  cbn zeta in Hw. fold w1 in Hw.
  set (panel := Menu.control_panel _ _ _ _ _ _) in Hw.
  assert (Hopen1 :
    menu_open_ticket config (guild_channels (Menu.i_guild i) (Menu.channels w1))
      (Menu.i_user i) = Some (Menu.new_channel_id env)).
  { rewrite Hw. cbn [Menu.channels]. unfold menu_open_ticket in *.
    rewrite guild_channels_update by done. unfold update_channel.
    rewrite find_map_same.
    2:{ intros c. by destruct (String.eqb (id c) (Menu.new_channel_id env)). }
    rewrite guild_channels_app.
    rewrite find_app_none by (by destruct (List.find _ _)).
    unfold guild_channels. cbn [List.filter guild].
    rewrite String.eqb_refl. cbn [List.find parentId].
    rewrite Hcat. cbn [JS.strict_eq]. rewrite String.eqb_refl.
    unfold topic_includes. cbn [topic].
    rewrite (proj1 (menu_topic_names_creator (Menu.i_tag i) (Menu.i_user i) subject)).
    cbn. by rewrite String.eqb_refl. }
  split; [|split; [exact Hopen1|]].
  - eexists. rewrite Hw. cbn [Menu.channels]. unfold update_channel.
    rewrite map_app. cbn [map]. rewrite last_snoc. cbn [id].
    rewrite String.eqb_refl. split; [reflexivity|].
    split; [done|]. split; [done|].
    intros Hd Hne Htag. unfold Menu.getTicketCreatorId. cbn [topic post set_messages].
    rewrite (proj2 (menu_topic_names_creator (Menu.i_tag i) (Menu.i_user i) subject))
      by done.
    reflexivity.
  - intros values again.
    destruct (menu_select_answer env again
                (Menu.cooldown_timer_fires (Menu.i_user i) w1) values eq_refl)
      as [Hans _].
    rewrite Hans. unfold Menu.cooldown_timer_fires, Menu.on_cooldowns.
    cbn [Menu.file Menu.channels Menu.ticketCooldowns Menu.i_guild Menu.i_user again].
    assert (Hfile : Menu.file w1 = Menu.file w) by by rewrite Hw.
    rewrite Hfile, Hcfg, Hopen1. unfold menu_creation_check, menu_cooldown_seconds.
    by rewrite lookup_delete_eq.
Qed.

Lemma menu_creator_has_one_ticket_witness :
  first_failure menu_failure_of
    (Eff.trace
       (fst (Eff.run (Menu.interactionCreate Scene.menu_env
                        (Scene.alice (Scene.select "billing")))
               (Menu.cooldown_timer_fires "77" Scene.menu_world_after_ticket)))) =
    Some (FailDuplicateTicket "900").
Proof.
  refine (proj2 (proj2 (menu_creator_has_one_ticket Scene.menu_env
                          (Scene.alice Scene.submit_billing) Scene.menu_world
                          Scene.menu_config "ticket_create_modal_billing" "Refund"
                          "I was charged twice this month." "billing"
                          Sample.billing "500" _ eq_refl _ eq_refl eq_refl eq_refl _))
            ["billing"]).
  - intros c. reflexivity.
  - vm_compute. reflexivity.
  - vm_compute. reflexivity.
Defined.

(** ** Unclaiming, and claiming a locked ticket *)

Lemma menu_row_edited cid file cds cs c m rest emb row n :
  cache_get (Some cid) cs = Some c ->
  messages c = m :: rest ->
  menu_row cid
    (Menu.mkWorld file cds
       (update_channel cid (post n)
          (edit_message cid 0 (mkMessage (author m) (content m) emb row) cs))) =
    row.
Proof.
  intros Hc Hm. unfold menu_row. cbn [Menu.channels].
  by rewrite (menu_cache_edited cid cs c m rest _ n Hc Hm).
Qed.

Lemma menu_unclaim_run env i w c m rest e cb st :
  cache_get (Some (Menu.i_channel i)) (Menu.channels w) = Some c ->
  messages c = m :: rest ->
  Menu.is_control_panel env m = true ->
  embed m = Some e ->
  Menu.get_field Menu.CLAIMED_BY (fields e) = Some cb ->
  Menu.get_field Menu.STATUS (fields e) = Some st ->
  (forall call, Menu.accepts env call = true) ->
  exists fs,
    Menu.get_field Menu.CLAIMED_BY fs = Some Menu.UNCLAIMED
    /\ Menu.get_field Menu.STATUS fs = Some Menu.OPEN
    /\ let edited :=
         mkMessage (author m) (content m)
           (Some (Menu.with_fields e 5793266 fs))
           [Menu.claim_button; Menu.lock_button; Menu.close_button] in
       Eff.run (Menu.handleUnclaimTicket env i) w =
         (Eff.mkState
            (Menu.mkWorld (Menu.file w) (Menu.ticketCooldowns w)
               (update_channel (id c) (post (Menu.notice env 5793266))
                  (edit_message (id c) 0 edited (Menu.channels w))))
            [(Menu.DeferUpdate, true);
             (Menu.MessagesFetchFirst (id c), true);
             (Menu.MessageEdit (id c) 0 edited, true);
             (Menu.ChannelSend (id c) (Menu.UnclaimNotice (Menu.i_user i)), true)],
          Eff.Done tt).
Proof.
  intros Hc Hm Hp He Hcb Hst Hacc.
  destruct (set_field_get Menu.CLAIMED_BY Menu.UNCLAIMED (fields e) _ Hcb)
    as (fs1 & Hset1 & Hget1 & Hother1).
  assert (Hst1 : Menu.get_field Menu.STATUS fs1 = Some st)
    by (rewrite Hother1; [done|discriminate]).
  destruct (set_field_get Menu.STATUS Menu.OPEN fs1 _ Hst1)
    as (fs & Hset & Hget & Hother).
  exists fs. split; [rewrite Hother; [done|discriminate]|]. split; [done|].
  intros edited. unfold edited.
  unfold Menu.handleUnclaimTicket, Eff.run. eff_classes.
  rewrite bind_run, call_run, Hacc. cbn [Eff.world Eff.trace].
  rewrite bind_run, (menu_current_channel_run i c) by done.
  rewrite bind_run, (menu_panel_run env c m rest) by done.
  cbv beta iota. rewrite He. cbn [mbind option_bind]. rewrite Hset1.
  cbn [option_bind]. rewrite Hset. cbn [fmap option_fmap option_map].
  unfold Menu.send. eff_unfold. rewrite !Hacc.
  cbn [Eff.world Eff.trace]. rewrite ?Hacc. reflexivity.
Qed.

(** X9. In the select-menu bot an unclaim, with the control panel in the
    first message and every call accepted, sets the panel to Unclaimed and
    Open whoever had claimed the ticket and whatever the status was, Locked
    included; it puts back the row Claim, Lock, Close, posts the unclaim
    notice and edits no permission. *)
Theorem unclaim_resets_panel env i w v :
  menu_view env (Menu.i_channel i) w = Some v ->
  (forall call, Menu.accepts env call = true) ->
  let s := fst (Eff.run (Menu.handleUnclaimTicket env i) w) in
  menu_view env (Menu.i_channel i) (Eff.world s) =
    Some (mkPanelView Menu.UNCLAIMED Menu.OPEN)
  /\ menu_row (Menu.i_channel i) (Eff.world s) =
       [Menu.claim_button; Menu.lock_button; Menu.close_button]
  /\ menu_posts_in (Menu.i_channel i) (Eff.trace s) =
       [Menu.UnclaimNotice (Menu.i_user i)]
  /\ menu_permission_edits (Eff.trace s) = [].
Proof.
  intros Hview Hacc s.
  destruct (menu_view_inv _ _ _ _ Hview)
    as (c & m & rest & e & Hc & Hm & Hp & He & Hcb & Hst).
  destruct (menu_unclaim_run env i w c m rest e _ _ Hc Hm Hp He Hcb Hst Hacc)
    as (fs & Hget1 & Hget2 & Hrun).
  assert (Hid := cache_get_id _ _ _ Hc).
  unfold s. rewrite Hrun. cbn [fst Eff.world Eff.trace]. rewrite Hid.
  split; [by apply (menu_view_edited env _ _ _ _ c m rest e)|].
  split; [by apply (menu_row_edited _ _ _ _ c m rest)|].
  split; [|done].
  unfold menu_posts_in. cbn [omap list_omap fst]. by rewrite String.eqb_refl.
Qed.

Lemma unclaim_resets_panel_witness :
  let claim := StaffScene.menu_bob (Menu.ButtonPress "ticket_claim") in
  let unclaim := StaffScene.menu_carol (Menu.ButtonPress "ticket_unclaim") in
  let w1 :=
    Eff.world (fst (Eff.run (Menu.handleClaimTicket Scene.menu_env claim false)
                      Scene.menu_world_after_ticket)) in
  menu_view Scene.menu_env "900"
    (Eff.world (fst (Eff.run (Menu.handleUnclaimTicket Scene.menu_env unclaim) w1))) =
    Some (mkPanelView "`Unclaimed`" "`Open`").
Proof.
  intros claim unclaim w1.
  refine (proj1 (unclaim_resets_panel Scene.menu_env unclaim w1
                   (mkPanelView "<@88>" "`In Progress`") _ _)).
  - vm_compute. reflexivity.
  - intros call. reflexivity.
Defined.

Lemma menu_lock_trace env i (lock : bool) w c m rest e creator btn cb st :
  cache_get (Some (Menu.i_channel i)) (Menu.channels w) = Some c ->
  messages c = m :: rest ->
  Menu.is_control_panel env m = true ->
  embed m = Some e ->
  Menu.get_field Menu.CLAIMED_BY (fields e) = Some cb ->
  Menu.get_field Menu.STATUS (fields e) = Some st ->
  Menu.getTicketCreatorId c = Some creator ->
  List.find (fun b => JS.includes (customId b) "claim") (buttons m) = Some btn ->
  (forall call, Menu.accepts env call = true) ->
  menu_permission_edits
    (Eff.trace (fst (Eff.run (Menu.handleLockTicket env i lock) w))) =
    [(id c, creator, negb lock)].
Proof.
  intros Hc Hm Hp He Hcb Hst Hcreator Hbtn Hacc.
  set (status' := if lock then Menu.LOCKED else unlocked_status cb).
  destruct (set_field_get Menu.STATUS status' (fields e) st Hst)
    as (fs & Hset & Hget & Hother).
  unfold Menu.handleLockTicket, Eff.run. eff_classes.
  rewrite bind_run, call_run, Hacc. cbn [Eff.world Eff.trace].
  rewrite bind_run, (menu_current_channel_run i c) by done.
  rewrite Hcreator.
  rewrite bind_run, (menu_panel_run env c m rest) by done.
  cbv beta iota. rewrite He.
  destruct (buttons m) as [|b0 row] eqn:Hrow; [done|]. rewrite Hbtn.
  unfold Menu.status_after.
  assert (Hstatus :
    (if lock then Some Menu.LOCKED
     else (fun claimedBy =>
             if String.eqb claimedBy Menu.UNCLAIMED then Menu.OPEN
             else Menu.IN_PROGRESS) <$> Menu.get_field Menu.CLAIMED_BY (fields e))
    = Some status').
  { unfold status', unlocked_status. destruct lock; [done|]. by rewrite Hcb. }
  rewrite Hstatus. cbn [mbind option_bind]. rewrite Hset.
  cbn [fmap option_fmap option_map].
  unfold Menu.send, Menu.reply. eff_unfold. rewrite !Hacc.
  cbn [Eff.world Eff.trace]. rewrite ?Hacc.
  by destruct (Menu.isCommand i); cbn; rewrite ?Hacc.
Qed.

(** X10. In the select-menu bot a claim does not look at the lock: on a
    ticket that was just locked (the lock denied the creator the right to
    send) a claim edits no permission, yet replaces the label Locked by In
    Progress and puts the row Unclaim, Lock, Close in place of the row with
    the Unlock button. *)
Theorem claim_on_locked_ticket env i1 i2 (force : bool) w v creator :
  menu_view env (Menu.i_channel i1) w = Some v ->
  claimed_by v = Menu.UNCLAIMED ->
  menu_lockable (Menu.i_channel i1) w = true ->
  (Menu.getTicketCreatorId <$> cache_get (Some (Menu.i_channel i1)) (Menu.channels w))
    = Some (Some creator) ->
  Menu.i_channel i2 = Menu.i_channel i1 ->
  (forall call, Menu.accepts env call = true) ->
  let s1 := fst (Eff.run (Menu.handleLockTicket env i1 true) w) in
  let s2 := fst (Eff.run (Menu.handleClaimTicket env i2 force) (Eff.world s1)) in
  menu_permission_edits (Eff.trace s1) = [(Menu.i_channel i1, creator, false)]
  /\ menu_view env (Menu.i_channel i1) (Eff.world s1) =
       Some (mkPanelView Menu.UNCLAIMED Menu.LOCKED)
  /\ menu_permission_edits (Eff.trace s2) = []
  /\ menu_view env (Menu.i_channel i1) (Eff.world s2) =
       Some (mkPanelView (Menu.mention (Menu.i_user i2)) Menu.IN_PROGRESS)
  /\ menu_row (Menu.i_channel i1) (Eff.world s2) =
       [Menu.unclaim_button; Menu.lock_button; Menu.close_button].
Proof.
  intros Hview Hcb Hlockable Hcreator Hch Hacc s1 s2.
  destruct (menu_view_inv _ _ _ _ Hview)
    as (c & m & rest & e & Hc & Hm & Hp & He & Hcb' & Hst).
  destruct (menu_lockable_inv _ _ Hlockable)
    as (c' & m' & creator' & btn & Hc' & Hm' & Hcreator' & Hbtn).
  rewrite Hc in Hc'. injection Hc' as <-.
  rewrite Hm in Hm'. injection Hm' as <-.
  rewrite Hc in Hcreator. cbn in Hcreator. rewrite Hcreator' in Hcreator.
  injection Hcreator as ->.
  assert (Hid := cache_get_id _ _ _ Hc).
  split.
  { unfold s1.
    rewrite (menu_lock_trace env i1 true w c m rest e creator btn _ _ Hc Hm Hp He
               Hcb' Hst Hcreator' Hbtn Hacc).
    by rewrite Hid. }
  destruct (menu_lock_step env i1 true w v Hview Hlockable Hacc) as [Hview1 _].
  fold s1 in Hview1. rewrite Hcb in Hview1. split; [exact Hview1|].
  rewrite <- Hch in Hview1.
  destruct (menu_view_inv _ _ _ _ Hview1)
    as (c1 & m1 & rest1 & e1 & Hc1 & Hm1 & Hp1 & He1 & Hcb1 & Hst1).
  cbn [claimed_by status] in Hcb1, Hst1.
  destruct (menu_claim_run env i2 force (Eff.world s1) c1 m1 rest1 e1 _ Hc1 Hm1 Hp1
              He1 Hcb1 Hst1 Hacc) as (fs & Hget1 & Hget2 & Hrun).
  assert (Hid1 := cache_get_id _ _ _ Hc1).
  unfold s2. rewrite Hrun. cbn [fst Eff.world Eff.trace]. rewrite Hid1, Hch.
  rewrite Hch in Hc1.
  split; [by destruct force|].
  split; [by apply (menu_view_edited env _ _ _ _ c1 m1 rest1 e1)|].
  by apply (menu_row_edited _ _ _ _ c1 m1 rest1).
Qed.

Lemma claim_on_locked_ticket_witness :
  let lock := StaffScene.menu_bob (Menu.ButtonPress "ticket_lock") in
  let claim := StaffScene.menu_carol (Menu.ButtonPress "ticket_claim") in
  let s1 :=
    fst (Eff.run (Menu.handleLockTicket Scene.menu_env lock true)
           Scene.menu_world_after_ticket) in
  let s2 :=
    fst (Eff.run (Menu.handleClaimTicket Scene.menu_env claim false)
           (Eff.world s1)) in
  menu_permission_edits (Eff.trace s1) = [("900", "77", false)]
  /\ menu_permission_edits (Eff.trace s2) = []
  /\ menu_view Scene.menu_env "900" (Eff.world s2) =
       Some (mkPanelView "<@99>" "`In Progress`").
Proof.
  intros lock claim s1 s2.
  destruct (claim_on_locked_ticket Scene.menu_env lock claim false
              Scene.menu_world_after_ticket
              (mkPanelView Menu.UNCLAIMED Menu.OPEN) "77")
    as (H1 & _ & H3 & H4 & _).
  - vm_compute. reflexivity.
  - reflexivity.
  - vm_compute. reflexivity.
  - vm_compute. reflexivity.
  - reflexivity.
  - intros call. reflexivity.
  - split; [exact H1|]. split; [exact H3|exact H4].
Defined.

(** ** Staff actions of the select-menu bot *)

Ltac menu_case_accept :=
  match goal with
  | |- context [Menu.accepts ?e ?c] => destruct (Menu.accepts e c)
  end.

Lemma menu_button_outside_ticket env i w customId config c :
  Menu.i_kind i = Menu.ButtonPress customId ->
  Menu.readConfig (Menu.fs env) (Menu.file w) !! Menu.i_guild i = Some config ->
  cache_get (Some (Menu.i_channel i)) (Menu.channels w) = Some c ->
  Menu.isTicketChannel c config = false ->
  Eff.run (Menu.interactionCreate env i) w = (Eff.mkState w [], Eff.Done tt).
Proof.
  intros Hkind Hcfg Hc Hticket.
  unfold Menu.interactionCreate, Menu.isCommand, Eff.run. eff_classes.
  rewrite try_catch_run, bind_run, get_run. cbn [Eff.world Eff.trace].
  rewrite Hcfg, Hkind. unfold Menu.handleButtonInteraction. eff_classes.
  rewrite bind_run, (menu_current_channel_run i c) by done.
  by rewrite Hticket.
Qed.

(** X11. In the select-menu bot a staff command or a staff button (claim,
    unclaim, lock, unlock) changes nothing unless the guild is configured,
    the channel of the request is a text channel of the configured category
    and the requester is a support user: otherwise the world is as before
    and every call made is a reply that turns the request down. A button
    pressed in a channel outside the category is not even answered. *)
Theorem staff_actions_are_guarded env i w :
  menu_is_staff_action (Menu.i_kind i) = true ->
  menu_authorised env i w = false ->
  let s := fst (Eff.run (Menu.interactionCreate env i) w) in
  Eff.world s = w
  /\ forallb (fun cb => menu_is_refusal (fst cb)) (Eff.trace s) = true
  /\ (forall customId config c,
        Menu.i_kind i = Menu.ButtonPress customId ->
        Menu.readConfig (Menu.fs env) (Menu.file w) !! Menu.i_guild i = Some config ->
        cache_get (Some (Menu.i_channel i)) (Menu.channels w) = Some c ->
        Menu.isTicketChannel c config = false ->
        Eff.trace s = []).
Proof.
  intros Hstaff Hauth s.
  assert (Hlast : forall customId config c,
        Menu.i_kind i = Menu.ButtonPress customId ->
        Menu.readConfig (Menu.fs env) (Menu.file w) !! Menu.i_guild i = Some config ->
        cache_get (Some (Menu.i_channel i)) (Menu.channels w) = Some c ->
        Menu.isTicketChannel c config = false ->
        Eff.trace s = []).
  { intros customId config c Hkind Hcfg Hc Hticket. unfold s.
    by rewrite (menu_button_outside_ticket env i w customId config c). }
  cut (Eff.world s = w
       /\ forallb (fun cb => menu_is_refusal (fst cb)) (Eff.trace s) = true).
  { intros [H1 H2]. done. }
  clear Hlast. unfold s. clear s.
  unfold menu_authorised in Hauth.
  unfold Menu.interactionCreate, Menu.isCommand, Eff.run. eff_classes.
  rewrite try_catch_run, bind_run, get_run. cbn [Eff.world Eff.trace].
  destruct (Menu.readConfig _ _ !! _) as [config|].
  2:{ unfold Menu.reply.
      destruct (Menu.i_kind i); rewrite call_run; cbn [Eff.world Eff.trace];
        menu_case_accept; cbn [fst]; rewrite ?tolerate_call_run;
        cbn [fst Eff.world Eff.trace]; split; try done;
        by repeat menu_case_accept. }
  unfold menu_is_staff_action in Hstaff.
  destruct (Menu.i_kind i) as [cmd|?|?|customId]; try done.
  - unfold Menu.executeSlashCommand, Menu.current_channel, Menu.reply. eff_classes.
    rewrite bind_run, bind_run, get_run. cbn [Eff.world].
    destruct (cache_get _ _) as [c|].
    2:{ unfold Eff.throw. cbv beta iota. rewrite tolerate_call_run.
        cbn [fst Eff.world Eff.trace]. split; [by menu_case_accept|done]. }
    unfold Eff.ret. cbv beta iota.
    destruct (Menu.isTicketChannel c config); cbn [negb andb] in *.
    2:{ rewrite call_run. cbn [Eff.world Eff.trace].
        menu_case_accept; cbn [fst]; rewrite ?tolerate_call_run;
          cbn [fst Eff.world Eff.trace]; split; try done;
          by repeat menu_case_accept. }
    rewrite Hauth. cbn [negb].
    rewrite call_run. cbn [Eff.world Eff.trace].
    menu_case_accept; cbn [fst]; rewrite ?tolerate_call_run;
      cbn [fst Eff.world Eff.trace]; split; try done;
      by repeat menu_case_accept.
  - unfold Menu.handleButtonInteraction, Menu.current_channel, Menu.reply.
    eff_classes. rewrite bind_run, bind_run, get_run. cbn [Eff.world].
    destruct (cache_get _ _) as [c|].
    2:{ unfold Eff.throw. cbv beta iota. rewrite tolerate_call_run.
        cbn [fst Eff.world Eff.trace]. split; [by menu_case_accept|done]. }
    unfold Eff.ret. cbv beta iota.
    destruct (Menu.isTicketChannel c config); cbn [negb andb] in *; [|done].
    rewrite Hstaff, Hauth. cbn [negb andb].
    rewrite call_run. cbn [Eff.world Eff.trace].
    menu_case_accept; cbn [fst]; rewrite ?tolerate_call_run;
      cbn [fst Eff.world Eff.trace]; split; try done;
      by repeat menu_case_accept.
Qed.

Lemma staff_actions_are_guarded_witness :
  let s :=
    fst (Eff.run (Menu.interactionCreate Scene.menu_env
                    (Menu.mkInteraction "1" "900" "77" "alice" "alice#0001" [] false
                       (Menu.ButtonPress "ticket_claim")))
           Scene.menu_world_after_ticket) in
  Eff.world s = Scene.menu_world_after_ticket
  /\ forallb (fun cb => menu_is_refusal (fst cb)) (Eff.trace s) = true.
Proof.
  intros s.
  destruct (staff_actions_are_guarded Scene.menu_env
              (Menu.mkInteraction "1" "900" "77" "alice" "alice#0001" [] false
                 (Menu.ButtonPress "ticket_claim"))
              Scene.menu_world_after_ticket) as (H1 & H2 & _).
  - reflexivity.
  - vm_compute. reflexivity.
  - split; [exact H1|exact H2].
Defined.

(** ** Failures while closing a select-menu ticket *)

(** X12. When the acknowledgement of the confirm button is rejected (the
    double click the source names), [closeTicket] of the select-menu bot stops
    there: no transcript, no message, no timer, and the world is as before. *)
Theorem close_stops_without_acknowledgement env i config w :
  Menu.accepts env (Menu.SendReply Menu.ClosingInProgress) = false ->
  Eff.run (Menu.closeTicket env i config) w =
    (Eff.mkState w [(Menu.SendReply Menu.ClosingInProgress, false)], Eff.Done tt).
Proof.
  intros Hacc. unfold Menu.closeTicket, Menu.reply, Eff.run. eff_classes.
  rewrite bind_run, try_bind_run, call_run, Hacc. reflexivity.
Qed.

Lemma close_stops_without_acknowledgement_witness :
  Eff.trace
    (fst (Eff.run
            (Menu.closeTicket
               (Menu.mkEnv Sample.all_ok_menu
                  (fun c =>
                     match c with
                     | Menu.SendReply Menu.ClosingInProgress => false
                     | _ => true
                     end) "900" false "42" 1000000 5)
               CloseScene.bob Scene.menu_config)
            Scene.menu_world_after_ticket)) =
    [(Menu.SendReply Menu.ClosingInProgress, false)].
Proof.
  rewrite close_stops_without_acknowledgement; reflexivity.
Defined.

(** X13. When the transcript cannot be created, [closeTicket] of the
    select-menu bot sends nothing to the logs channel and sets no deletion
    timer: after the acknowledgement and the failed transcript the only call
    left is the failure notice to the ticket channel, which is posted there
    when accepted, so the channel stays. *)
Theorem close_without_transcript_keeps_channel env i config w channel :
  cache_get (Some (Menu.i_channel i)) (Menu.channels w) = Some channel ->
  Menu.accepts env (Menu.SendReply Menu.ClosingInProgress) = true ->
  Menu.accepts env (Menu.CreateTranscript (id channel)) = false ->
  let notice := Menu.ChannelSend (id channel) Menu.CloseFailedNotice in
  let s := fst (Eff.run (Menu.closeTicket env i config) w) in
  Eff.trace s =
    [(Menu.SendReply Menu.ClosingInProgress, true);
     (Menu.CreateTranscript (id channel), false);
     (notice, Menu.accepts env notice)]
  /\ count_calls (menu_is_delete (id channel)) (Eff.trace s) = 0
  /\ (exists c, cache_get (Some (Menu.i_channel i)) (Menu.channels (Eff.world s))
                = Some c).
Proof.
  intros Hc Hack Htr notice s. unfold s.
  unfold Menu.closeTicket, Menu.reply, Menu.send, Menu.schedule, Eff.run.
  eff_classes.
  rewrite bind_run, try_bind_run, call_run, Hack. cbn [Eff.world Eff.trace].
  rewrite try_catch_run. cbn [Eff.ret negb].
  rewrite bind_run, (menu_current_channel_run i channel) by done.
  rewrite try_bind_run, call_run, Htr. cbn [Eff.world Eff.trace].
  rewrite call_run. cbn [fst Eff.world Eff.trace]. fold notice.
  split; [done|]. split.
  - unfold count_calls. cbn [app List.filter fst menu_is_delete length].
    unfold notice. done.
  - destruct (Menu.accepts env notice); [|by exists channel].
    unfold Menu.on_channels. cbn [Menu.channels].
    rewrite (cache_get_id _ _ _ Hc), cache_get_update, Hc by done. by eexists.
Qed.

Lemma close_without_transcript_keeps_channel_witness :
  let env :=
    Menu.mkEnv Sample.all_ok_menu
      (fun c => match c with Menu.CreateTranscript _ => false | _ => true end)
      "900" false "42" 1000000 5 in
  menu_posts_in "900"
    (Eff.trace (fst (Eff.run (Menu.closeTicket env CloseScene.bob Scene.menu_config)
                       Scene.menu_world_after_ticket))) =
    [Menu.CloseFailedNotice].
Proof.
  intros env.
  rewrite (proj1 (close_without_transcript_keeps_channel env CloseScene.bob
                    Scene.menu_config Scene.menu_world_after_ticket
                    CloseScene.menu_ticket ltac:(vm_compute; reflexivity)
                    eq_refl eq_refl)).
  reflexivity.
Defined.

(** X14. When the configured logs channel is not in the cache of the guild,
    [closeTicket] of the select-menu bot still closes: with the other calls
    accepted it creates the transcript, sends it nowhere, posts the warning
    and the closing notice in the ticket channel and sets the deletion
    timer. *)
Theorem close_without_logs_channel env i config w channel :
  cache_get (Some (Menu.i_channel i)) (Menu.channels w) = Some channel ->
  cache_get (Menu.logsChannelId config)
    (guild_channels (Menu.i_guild i) (Menu.channels w)) = None ->
  (forall c, Menu.accepts env c = true) ->
  Eff.trace (fst (Eff.run (Menu.closeTicket env i config) w)) =
    [(Menu.SendReply Menu.ClosingInProgress, true);
     (Menu.CreateTranscript (id channel), true);
     (Menu.ChannelSend (id channel) Menu.LogsChannelMissingWarning, true);
     (Menu.ChannelSend (id channel) Menu.ClosingNotice, true);
     (Menu.SetTimeoutDelete (id channel) 5000, true)].
Proof.
  intros Hc Hlogs Hacc.
  unfold Menu.closeTicket, Menu.reply, Menu.send, Menu.schedule, Eff.run.
  eff_classes.
  rewrite bind_run, try_bind_run, call_run, Hacc. cbn [Eff.world Eff.trace].
  rewrite try_catch_run. cbn [Eff.ret negb].
  rewrite bind_run, (menu_current_channel_run i channel) by done.
  eff_unfold. cbv beta iota. cbn [Eff.world Eff.trace Menu.channels].
  rewrite !Hacc. cbv beta iota. cbn [Eff.world Eff.trace Menu.channels].
  rewrite Hlogs. cbv beta iota. rewrite ?Hacc. cbv beta iota.
  cbn [Eff.world Eff.trace Menu.channels fst]. rewrite ?Hacc. reflexivity.
Qed.

Lemma close_without_logs_channel_witness :
  let config := Menu.mkGuildConfig (Some "500") (Some "666") (Some "700") [] in
  menu_posts_in "900"
    (Eff.trace (fst (Eff.run (Menu.closeTicket Scene.menu_env CloseScene.bob config)
                       Scene.menu_world_after_ticket))) =
    [Menu.LogsChannelMissingWarning; Menu.ClosingNotice].
Proof.
  intros config.
  rewrite (close_without_logs_channel Scene.menu_env CloseScene.bob config
             Scene.menu_world_after_ticket CloseScene.menu_ticket
             ltac:(vm_compute; reflexivity) ltac:(vm_compute; reflexivity)
             ltac:(intros c; reflexivity)).
  reflexivity.
Defined.

(** ** Variants of the close of the database-backed bot *)

Lemma ret_run {W C A} (a : A) (s : Eff.State W C) : Eff.ret a s = (s, Eff.Done a).
Proof. reflexivity. Qed.

(** X15. When the transcript cannot be created, [handleCloseTicket] of the
    database-backed bot gives up: it answers with the failure reply and makes
    no other call, so nothing is logged, nobody is messaged, no deletion is
    scheduled, and the channels are as before. *)
Theorem db_close_without_transcript env i (silent : bool) w channel :
  cache_get (Some (Db.i_channel i)) (Db.channels w) = Some channel ->
  JS.startsWith (name channel) "ticket-" = true ->
  Db.accepts env Db.DeferReply = true ->
  Db.accepts env (Db.CreateTranscript (id channel)) = false ->
  let s := fst (Eff.run (Db.handleCloseTicket env i silent) w) in
  Eff.trace s =
    ((if Db.i_acknowledged i then [] else [(Db.DeferReply, true)]) ++
     [(Db.CreateTranscript (id channel), false);
      (Db.SendReply Db.CloseFailed, Db.accepts env (Db.SendReply Db.CloseFailed))])%list
  /\ Db.channels (Eff.world s) = Db.channels w.
Proof.
  intros Hc Hprefix Hdefer Htr s. unfold s.
  db_unfold. unfold Eff.run. eff_classes.
  rewrite bind_run, (db_current_channel_run i channel) by done.
  rewrite bind_run, db_fetch_run.
  cbn [Eff.world Eff.trace Db.channels Db.store].
  rewrite Hprefix. cbn [negb].
  rewrite bind_run.
  destruct (Db.i_acknowledged i).
  - rewrite ret_run. cbv beta iota.
    rewrite try_bind_run, call_run, Htr. cbn [Eff.world Eff.trace].
    rewrite tolerate_call_run. cbn [fst Eff.world Eff.trace Db.channels].
    split; [done|]. try db_case_accept; done.
  - rewrite call_run, Hdefer. cbv beta iota.
    rewrite try_bind_run, call_run, Htr. cbn [Eff.world Eff.trace].
    rewrite tolerate_call_run. cbn [fst Eff.world Eff.trace Db.channels].
    split; [done|]. try db_case_accept; done.
Qed.

Lemma db_close_without_transcript_witness :
  let env :=
    Db.mkEnv Sample.all_ok_db
      (fun c => match c with Db.CreateTranscript _ => false | _ => true end)
      "900" "42" in
  Eff.trace (fst (Eff.run (Db.handleCloseTicket env DbScene.bob false) DbScene.world)) =
    [(Db.DeferReply, true); (Db.CreateTranscript "807", false);
     (Db.SendReply Db.CloseFailed, true)].
Proof.
  intros env.
  exact (proj1 (db_close_without_transcript env DbScene.bob false DbScene.world
                  DbScene.ticket7 eq_refl eq_refl eq_refl eq_refl)).
Defined.

(** The trace of a close of the database-backed bot in which every call is
    accepted, with the logs channel configured and cached. *)
Lemma db_close_accepted_run env i (silent : bool) w channel logs :
  cache_get (Some (Db.i_channel i)) (Db.channels w) = Some channel ->
  JS.startsWith (name channel) "ticket-" = true ->
  let config :=
    snd (Db.getGuildConfig (Db.db_io env) (Db.store w) (Db.i_guild i)) in
  let transcript := name channel ++ ".html" in
  JS.truthy (Db.logsChannelId config) = true ->
  cache_get (Db.logsChannelId config)
    (guild_channels (Db.i_guild i) (Db.channels w)) = Some logs ->
  (forall c, Db.accepts env c = true) ->
  Eff.trace (fst (Eff.run (Db.handleCloseTicket env i silent) w)) =
    ((if Db.i_acknowledged i then [] else [(Db.DeferReply, true)]) ++
     [(Db.CreateTranscript (id channel), true)] ++
     match Db.ticket_user_id channel with
     | Some u => [(Db.UsersFetch u, true)]
     | None => []
     end ++
     [(Db.ChannelSend (id logs)
         (Db.LogClosed (name channel) (Db.ticket_user_id channel) (Db.i_user i)
            (id channel) transcript), true)] ++
     match Db.ticket_user_id channel with
     | Some u =>
         [(Db.UserSend u
             (Db.DmClosed (Db.i_guild_name i) (name channel) (Db.i_user i)
                transcript), true)]
     | None => []
     end ++
     (if silent then []
      else [(Db.ChannelSend (id channel) (Db.ClosingNotice (Db.i_user i)), true)]) ++
     [(Db.SendReply (Db.ClosedAndArchived (name channel)), true);
      (Db.SetTimeoutDelete (id channel) 5000, true)])%list.
Proof.
  intros Hc Hprefix config transcript Hlogs Hcache Hacc.
  unfold config in Hlogs, Hcache. unfold transcript.
  db_unfold. unfold Eff.run. eff_classes.
  rewrite bind_run, (db_current_channel_run i channel) by done.
  rewrite bind_run, db_fetch_run.
  cbn [Eff.world Eff.trace Db.channels Db.store].
  rewrite Hprefix. cbn [negb].
  eff_unfold. cbv beta iota. cbn [Eff.world Eff.trace Db.channels Db.store].
  rewrite Hlogs. cbv beta iota.
  destruct (Db.i_acknowledged i), (Db.ticket_user_id channel) as [u|], silent;
    rewrite ?Hacc; cbv beta iota;
    cbn [Eff.world Eff.trace Db.channels Db.store negb]; rewrite ?Hcache;
    cbv beta iota; rewrite ?Hacc; cbv beta iota;
    cbn [Eff.world Eff.trace Db.channels Db.store negb fst];
    rewrite ?Hacc; reflexivity.
Qed.

(** X16. A silent close of the database-backed bot, with every call accepted
    and the logs channel configured and cached, posts nothing in the ticket
    channel; the transcript, the logs message, the success reply and the
    deletion timer are the same as in a close that is not silent, which posts
    the closing notice and nothing else in the ticket channel. *)
Theorem db_silent_close_posts_nothing env i (silent : bool) w channel logs :
  cache_get (Some (Db.i_channel i)) (Db.channels w) = Some channel ->
  JS.startsWith (name channel) "ticket-" = true ->
  let config :=
    snd (Db.getGuildConfig (Db.db_io env) (Db.store w) (Db.i_guild i)) in
  let transcript := name channel ++ ".html" in
  JS.truthy (Db.logsChannelId config) = true ->
  cache_get (Db.logsChannelId config)
    (guild_channels (Db.i_guild i) (Db.channels w)) = Some logs ->
  id logs <> id channel ->
  (forall c, Db.accepts env c = true) ->
  let t := Eff.trace (fst (Eff.run (Db.handleCloseTicket env i silent) w)) in
  db_posts_in (id channel) t =
    (if silent then [] else [Db.ClosingNotice (Db.i_user i)])
  /\ db_posts_elsewhere (id channel) t =
       [(id logs,
         Db.LogClosed (name channel) (Db.ticket_user_id channel) (Db.i_user i)
           (id channel) transcript)]
  /\ count_calls db_is_transcript t = 1
  /\ count_calls (db_is_delete (id channel)) t = 1
  /\ db_replies t = [Db.ClosedAndArchived (name channel)].
Proof.
  intros Hc Hprefix config transcript Hlogs Hcache Hne Hacc t.
  assert (Hne' : String.eqb (id logs) (id channel) = false)
    by by apply String.eqb_neq.
  unfold t.
  rewrite (db_close_accepted_run env i silent w channel logs Hc Hprefix Hlogs
             Hcache Hacc).
  fold transcript.
  unfold db_posts_in, db_posts_elsewhere, count_calls, db_replies.
  destruct (Db.i_acknowledged i), (Db.ticket_user_id channel) as [u|], silent;
    cbn [app omap list_omap List.filter fst db_is_transcript db_is_delete length];
    rewrite ?String.eqb_refl, ?Hne'; cbn; rewrite ?String.eqb_refl, ?Hne'; done.
Qed.

Lemma db_silent_close_posts_nothing_witness :
  db_posts_in "807"
    (Eff.trace (fst (Eff.run (Db.handleCloseTicket DbScene.env DbScene.bob true)
                       DbScene.world))) = [].
Proof.
  refine (proj1 (db_silent_close_posts_nothing DbScene.env DbScene.bob true
                   DbScene.world DbScene.ticket7 Scene.logs eq_refl eq_refl _ _ _ _)).
  - vm_compute. reflexivity.
  - vm_compute. reflexivity.
  - vm_compute. discriminate.
  - intros c. reflexivity.
Defined.

(** X17. The direct message of a close of the database-backed bot goes to
    the user whose id [/UserID: (\d+)/] finds in the topic of the channel, and
    to nobody else; that user is the only one fetched and the one the logs
    message records. When the topic names no user (or the channel has no
    topic) no user is fetched and nobody is messaged, the logs message
    records no user, and the ticket is closed all the same: one logs message
    with the transcript and one deletion timer. Every call is taken as
    accepted. *)
Theorem db_close_messages_topic_user env i (silent : bool) w channel logs :
  cache_get (Some (Db.i_channel i)) (Db.channels w) = Some channel ->
  JS.startsWith (name channel) "ticket-" = true ->
  let config :=
    snd (Db.getGuildConfig (Db.db_io env) (Db.store w) (Db.i_guild i)) in
  let transcript := name channel ++ ".html" in
  JS.truthy (Db.logsChannelId config) = true ->
  cache_get (Db.logsChannelId config)
    (guild_channels (Db.i_guild i) (Db.channels w)) = Some logs ->
  (forall c, Db.accepts env c = true) ->
  let t := Eff.trace (fst (Eff.run (Db.handleCloseTicket env i silent) w)) in
  db_direct_messages t =
    match Db.ticket_user_id channel with
    | Some u =>
        [(u, Db.DmClosed (Db.i_guild_name i) (name channel) (Db.i_user i)
               transcript)]
    | None => []
    end
  /\ db_users_fetched t =
       match Db.ticket_user_id channel with
       | Some u => [u]
       | None => []
       end
  /\ db_close_logs t = [(id logs, Db.ticket_user_id channel)]
  /\ count_calls (db_is_log_with (id logs) transcript) t = 1
  /\ count_calls (db_is_delete (id channel)) t = 1.
Proof.
  intros Hc Hprefix config transcript Hlogs Hcache Hacc t.
  unfold t.
  rewrite (db_close_accepted_run env i silent w channel logs Hc Hprefix Hlogs
             Hcache Hacc).
  fold transcript.
  unfold db_direct_messages, db_users_fetched, db_close_logs, count_calls.
  destruct (Db.i_acknowledged i), (Db.ticket_user_id channel) as [u|], silent;
    cbn [app omap list_omap List.filter fst db_is_log_with db_is_delete length];
    rewrite ?String.eqb_refl; cbn; rewrite ?String.eqb_refl; done.
Qed.

Lemma db_close_messages_topic_user_witness :
  let w :=
    Db.mkWorld (Db.store DbScene.world)
      [Scene.category; Scene.logs;
       mkChannel "807" "1" "ticket-7" GuildText (Some "500") None []] in
  db_direct_messages
    (Eff.trace (fst (Eff.run (Db.handleCloseTicket DbScene.env DbScene.bob false) w)))
  = [].
Proof.
  intros w.
  refine (proj1 (db_close_messages_topic_user DbScene.env DbScene.bob false w
                   (mkChannel "807" "1" "ticket-7" GuildText (Some "500") None [])
                   Scene.logs eq_refl eq_refl _ _ _)).
  - vm_compute. reflexivity.
  - vm_compute. reflexivity.
  - intros c. reflexivity.
Defined.

(** ** A ticket creation that fails half way *)

(** X18. When the select-menu bot has created the ticket channel and the
    welcome message with the control panel is then rejected, the channel
    stays, empty, at the end of the channel list; no cooldown is written, no
    timer is set and the requester is not told of a created ticket. *)
Theorem creation_failing_after_channel
    env i w config customId subject descr topicValue t :
  Menu.i_kind i = Menu.ModalSubmit customId subject descr ->
  Menu.readConfig (Menu.fs env) (Menu.file w) !! Menu.i_guild i = Some config ->
  JS.strip_prefix "ticket_create_modal_" customId = Some topicValue ->
  find_topic topicValue (Menu.ticketTopics config) = Some t ->
  let newChannel :=
    mkChannel (Menu.new_channel_id env) (Menu.i_guild i)
      (value t ++ "-" ++ Menu.substring0 15 (Menu.i_username i)) GuildText
      (Menu.categoryId config)
      (Some ("Ticket for " ++ Menu.i_tag i ++ " (User ID: " ++ Menu.i_user i
             ++ "). Subject: " ++ subject))
      [] in
  let panel :=
    Menu.control_panel env i t (Menu.new_channel_id env) subject descr in
  Menu.accepts env Menu.DeferReply = true ->
  Menu.accepts env (Menu.ChannelsCreate newChannel) = true ->
  Menu.accepts env (Menu.ChannelSend (Menu.new_channel_id env) (Menu.Posted panel))
    = false ->
  let s := fst (Eff.run (Menu.interactionCreate env i) w) in
  Eff.world s =
    Menu.mkWorld (Menu.file w) (Menu.ticketCooldowns w)
      (Menu.channels w ++ [newChannel])%list
  /\ (forall c b, (Menu.SendReply (Menu.TicketCreated c), b) ∉ Eff.trace s)
  /\ (forall u ms b, (Menu.SetTimeoutCooldown u ms, b) ∉ Eff.trace s).
Proof.
  intros Hkind Hcfg Hstrip Htopic newChannel panel Hdefer Hcreate Hsend s.
  unfold s.
  unfold Menu.interactionCreate, Menu.handleModalSubmit, Menu.send, Menu.reply,
    Menu.schedule, Eff.run.
  eff_classes. rewrite try_catch_run, bind_run, get_run.
  cbn [Eff.world Eff.trace]. rewrite Hcfg, Hkind, Hstrip.
  rewrite bind_run, call_run, Hdefer. cbn [Eff.world Eff.trace]. rewrite Htopic.
  rewrite try_bind_run, call_run. fold newChannel. rewrite Hcreate.
  cbn [Eff.world Eff.trace id newChannel].
  rewrite try_bind_run, call_run. fold panel. rewrite Hsend.
  cbn [Eff.world Eff.trace].
  destruct (Menu.missing_permissions env).
  - rewrite bind_run, get_run. cbn [Eff.world Eff.trace Menu.on_channels Menu.channels].
    destruct (cache_get _ _).
    + rewrite call_run. cbn [Eff.world Eff.trace].
      menu_case_accept; cbn [fst Eff.world Eff.trace]; rewrite ?tolerate_call_run;
        cbn [fst Eff.world Eff.trace];
        (split; [by repeat menu_case_accept|]);
        split; intros; intros Hin; trace_cases Hin.
    + unfold Eff.throw. rewrite tolerate_call_run.
      cbn [fst Eff.world Eff.trace].
      (split; [by repeat menu_case_accept|]);
        split; intros; intros Hin; trace_cases Hin.
  - rewrite call_run. cbn [Eff.world Eff.trace].
    menu_case_accept; cbn [fst Eff.world Eff.trace]; rewrite ?tolerate_call_run;
      cbn [fst Eff.world Eff.trace];
      (split; [by repeat menu_case_accept|]);
      split; intros; intros Hin; trace_cases Hin.
Qed.

Lemma creation_failing_after_channel_witness :
  let env :=
    Menu.mkEnv Sample.all_ok_menu
      (fun c => match c with Menu.ChannelSend _ _ => false | _ => true end)
      "900" false "42" 1000000 5 in
  let w1 :=
    Eff.world (fst (Eff.run (Menu.interactionCreate env
                               (Scene.alice Scene.submit_billing))
                      Scene.menu_world)) in
  Menu.ticketCooldowns w1 = ∅
  /\ menu_open_ticket Scene.menu_config (guild_channels "1" (Menu.channels w1)) "77"
     = Some "900".
Proof.
  intros env w1.
  pose proof (proj1 (creation_failing_after_channel env
                       (Scene.alice Scene.submit_billing) Scene.menu_world
                       Scene.menu_config "ticket_create_modal_billing" "Refund"
                       "I was charged twice this month." "billing" Sample.billing
                       eq_refl eq_refl eq_refl eq_refl eq_refl eq_refl eq_refl))
    as Hw.
  fold w1 in Hw. rewrite Hw. split; reflexivity.
Defined.

(** ** The open-ticket check compares by substring *)

Lemma strip_prefix_app_l (p r s : string) :
  JS.strip_prefix (p ++ r) s = JS.strip_prefix p s ≫= JS.strip_prefix r.
Proof.
  revert s. induction p as [|a p IH]; intros s; [done|].
  rewrite str_app_cons. cbn [JS.strip_prefix].
  destruct s as [|b s]; [done|]. destruct (Ascii.eqb a b); [apply IH|done].
Qed.

Lemma startsWith_prefix (s p r : string) :
  JS.startsWith s (p ++ r) = true -> JS.startsWith s p = true.
Proof.
  unfold JS.startsWith. rewrite strip_prefix_app_l.
  by destruct (JS.strip_prefix p s).
Qed.

Lemma includes_prefix (s p r : string) :
  JS.includes s (p ++ r) = true -> JS.includes s p = true.
Proof.
  induction s as [|c s IH]; cbn [JS.includes].
  - rewrite !orb_false_r. apply startsWith_prefix.
  - intros [H|H]%orb_prop.
    + by rewrite (startsWith_prefix _ _ _ H).
    + by rewrite (IH H), orb_true_r.
Qed.

Lemma find_is_some {A} (P : A -> bool) (l : list A) (x : A) :
  x ∈ l -> P x = true -> exists y, List.find P l = Some y.
Proof.
  induction l as [|z l IH]; [by intros ?%elem_of_nil|].
  intros [->|Hin]%elem_of_cons Hx; cbn [List.find].
  - rewrite Hx. by eexists.
  - destruct (P z); [by eexists|]. by apply IH.
Qed.

(** X19. The open-ticket check of both bots looks for the text
    [UserID: <id>] (database-backed bot) or [User ID: <id>] (select-menu bot)
    anywhere in the topic, so it also finds a ticket whose topic names a user
    whose id only begins with the id of the requester: that requester is
    taken to have an open ticket. *)
Theorem open_ticket_check_matches_id_prefix :
  (forall cache c t user rest,
      c ∈ cache ->
      JS.startsWith (name c) "ticket-" = true ->
      topic c = Some t ->
      JS.includes t ("UserID: " ++ user ++ rest) = true ->
      exists existing, db_open_ticket cache user = Some existing)
  /\ (forall config cache c t user rest,
      c ∈ cache ->
      JS.strict_eq (parentId c) (Menu.categoryId config) = true ->
      topic c = Some t ->
      JS.includes t ("User ID: " ++ user ++ rest) = true ->
      exists existing, menu_open_ticket config cache user = Some existing).
Proof.
  split.
  - intros cache c t user rest Hin Hname Htopic Hinc.
    unfold db_open_ticket.
    destruct (find_is_some
                (fun c => JS.startsWith (name c) "ticket-" &&
                          topic_includes c ("UserID: " ++ user)) cache c Hin)
      as [y ->]; [|by eexists].
    rewrite Hname. unfold topic_includes. rewrite Htopic.
    rewrite <- str_app_assoc in Hinc. by rewrite (includes_prefix _ _ _ Hinc).
  - intros config cache c t user rest Hin Hparent Htopic Hinc.
    unfold menu_open_ticket.
    destruct (find_is_some
                (fun c => JS.strict_eq (parentId c) (Menu.categoryId config) &&
                          topic_includes c ("User ID: " ++ user)) cache c Hin)
      as [y ->]; [|by eexists].
    rewrite Hparent. unfold topic_includes. rewrite Htopic.
    rewrite <- str_app_assoc in Hinc. by rewrite (includes_prefix _ _ _ Hinc).
Qed.

Lemma open_ticket_check_matches_id_prefix_witness :
  exists existing,
    db_open_ticket (guild_channels "1" (Db.channels DbScene.world)) "7"
    = Some existing.
Proof.
  apply (proj1 open_ticket_check_matches_id_prefix
           (guild_channels "1" (Db.channels DbScene.world)) DbScene.ticket7
           "Ticket ID: ticket-7 | UserID: 77 | Topic: Billing" "7"
           "7 | Topic: Billing").
  - vm_compute. do 2 (apply elem_of_cons; right). apply elem_of_cons. by left.
  - reflexivity.
  - reflexivity.
  - vm_compute. reflexivity.
Defined.

(** ** A forced claim in the database-backed bot *)

Lemma remove_lit_digits_eq (lit s : string) :
  JS.remove_lit_digits lit s =
    match JS.strip_prefix lit s with
    | Some rest =>
        match JS.take_digits rest with
        | EmptyString =>
            match s with
            | EmptyString => EmptyString
            | String c s' => String c (JS.remove_lit_digits lit s')
            end
        | _ => JS.drop_digits rest
        end
    | None =>
        match s with
        | EmptyString => EmptyString
        | String c s' => String c (JS.remove_lit_digits lit s')
        end
    end.
Proof.
  destruct s; cbn [JS.remove_lit_digits];
    destruct (JS.strip_prefix lit _) as [rest|]; try done;
    by destruct (JS.take_digits rest).
Qed.

Lemma match_here_none (lit s : string) :
  match_here lit s = None ->
  match JS.strip_prefix lit s with
  | Some rest => JS.take_digits rest = ""
  | None => True
  end.
Proof.
  unfold match_here. destruct (JS.strip_prefix lit s) as [rest|]; [|done].
  by destruct (JS.take_digits rest).
Qed.

Lemma remove_lit_digits_app (lit t x : string) :
  JS.match_lit_digits lit t = None ->
  Forall (fun l => match_here l x = None) (proper_suffixes lit) ->
  (lit = "" -> JS.take_digits x = "") ->
  JS.remove_lit_digits lit (t ++ x) = t ++ JS.remove_lit_digits lit x.
Proof.
  intros Hnone Hsuf Hx. induction t as [|c t IH]; [done|].
  rewrite match_lit_digits_eq in Hnone.
  destruct (match_here lit (String c t)) eqn:Hhere; [done|].
  pose proof (match_here_app lit (String c t) x Hhere ltac:(done) Hsuf Hx) as Happ.
  apply match_here_none in Happ.
  rewrite remove_lit_digits_eq. rewrite !str_app_cons in *.
  destruct (JS.strip_prefix lit (String c (t ++ x))) as [rest|].
  - rewrite Happ. f_equal. by apply IH.
  - f_equal. by apply IH.
Qed.

Lemma drop_digits_all (d : string) :
  JS.forallb_str JS.is_digit d = true -> JS.drop_digits d = "".
Proof.
  induction d as [|c d IH]; [done|]. cbn [JS.forallb_str JS.drop_digits].
  intros [Hc Hd]%andb_prop. rewrite Hc. by apply IH.
Qed.

Lemma match_lit_digits_longer (pre lit t : string) :
  JS.match_lit_digits lit t = None -> JS.match_lit_digits (pre ++ lit) t = None.
Proof.
  intros Hnone.
  assert (Hhere : forall s, JS.match_lit_digits lit s = None ->
                            match_here (pre ++ lit) s = None).
  { intros s Hs. unfold match_here.
    destruct (JS.strip_prefix (pre ++ lit) s) as [rest|] eqn:E; [|done].
    apply strip_prefix_inv in E. subst s. rewrite str_app_assoc in Hs.
    apply match_lit_digits_suffix in Hs. rewrite match_lit_digits_eq in Hs.
    unfold match_here in Hs. rewrite strip_prefix_app in Hs.
    by destruct (JS.take_digits rest). }
  induction t as [|c t IH].
  - rewrite match_lit_digits_eq. by rewrite (Hhere "" Hnone).
  - rewrite match_lit_digits_eq, (Hhere _ Hnone). apply IH.
    rewrite match_lit_digits_eq in Hnone.
    by destruct (match_here lit (String c t)).
Qed.

(** Removing the claim from a topic that the bot has claimed gives the topic
    before the claim. *)
Lemma remove_claim (t u : string) :
  JS.match_lit_digits "Claimed By: " t = None ->
  JS.forallb_str JS.is_digit u = true -> u <> "" ->
  JS.remove_lit_digits " | Claimed By: " (t ++ " | Claimed By: " ++ u) = t.
Proof.
  intros Hnone Hd Hne.
  rewrite remove_lit_digits_app.
  - rewrite remove_lit_digits_eq, strip_prefix_app, take_digits_all by done.
    destruct u as [|c u]; [done|].
    by rewrite drop_digits_all, str_app_empty_r.
  - by apply (match_lit_digits_longer " | " "Claimed By: ").
  - cbn [proper_suffixes]. repeat constructor.
  - done.
Qed.

Lemma remove_claim_none (t : string) :
  JS.match_lit_digits "Claimed By: " t = None ->
  JS.remove_lit_digits " | Claimed By: " t = t.
Proof. exact (remove_lit_digits_none " | " "Claimed By: " t). Qed.

Lemma db_claim_topic env i (force : bool) w c :
  cache_get (Some (Db.i_channel i)) (Db.channels w) = Some c ->
  Db.has_support_role i
    (snd (Db.getGuildConfig (Db.db_io env) (Db.store w) (Db.i_guild i))) = true ->
  JS.match_lit_digits "Claimed By: " (default "" (topic c)) = None \/ force = true ->
  (forall call, Db.accepts env call = true) ->
  let s := fst (Eff.run (Db.handleClaimTicket env i force) w) in
  topic <$> cache_get (Some (Db.i_channel i)) (Db.channels (Eff.world s)) =
    Some (Some (JS.remove_lit_digits " | Claimed By: " (default "" (topic c)) ++
                " | Claimed By: " ++ Db.i_user i))
  /\ db_replies (Eff.trace s) = [Db.Claimed (Db.i_user i)]
  /\ Db.store (Eff.world s) =
       fst (Db.getGuildConfig (Db.db_io env) (Db.store w) (Db.i_guild i)).
Proof.
  intros Hc Hrole Hgo Hacc.
  assert (Hid := cache_get_id _ _ _ Hc).
  unfold Db.handleClaimTicket, Db.reply, Eff.run. eff_classes.
  rewrite bind_run, call_run, Hacc. cbn [Eff.world Eff.trace].
  rewrite bind_run, (db_current_channel_run i c) by done.
  rewrite bind_run, db_fetch_run. cbn [Eff.world Eff.trace Db.store Db.channels].
  rewrite Hrole. cbn [negb].
  set (body := Eff.try_catch _ _).
  assert (Hbody :
    match JS.match_lit_digits "Claimed By: " (default "" (topic c)), force with
    | Some currentClaimerId, false =>
        if String.eqb currentClaimerId (Db.i_user i)
        then Eff.call (Db.accepts env) (Db.SendReply Db.AlreadyClaimedByYou)
               (fun w => w)
        else Eff.call (Db.accepts env)
               (Db.SendReply (Db.AlreadyClaimedByOther currentClaimerId))
               (fun w => w)
    | _, _ => body
    end = body).
  { destruct Hgo as [->| ->]; [done|].
    by destruct (JS.match_lit_digits _ _). }
  rewrite Hbody. unfold body. clear Hbody body.
  rewrite try_bind_run, call_run, Hacc. cbn [Eff.world Eff.trace].
  rewrite try_bind_run, call_run, Hacc. cbn [Eff.world Eff.trace].
  rewrite try_bind_run.
  destruct (List.find _ (recent 5 (messages c))) as [[index m]|].
  - rewrite tolerate_call_run, Hacc. cbv beta iota. cbn [Eff.world Eff.trace].
    rewrite try_catch_run, call_run, Hacc. cbn [fst Eff.world Eff.trace].
    split; [|done].
    unfold Db.on_channels. cbn [Db.channels].
    by rewrite Hid, db_cache_topic_edited, (db_cache_topic _ _ c).
  - unfold Eff.ret. cbv beta iota. rewrite try_catch_run, call_run, Hacc.
    cbn [fst Eff.world Eff.trace]. split; [|done].
    unfold Db.on_channels. cbn [Db.channels].
    by rewrite Hid, (db_cache_topic _ _ c).
Qed.

(** X20. In the database-backed bot a forced claim takes a claimed ticket
    over: on a ticket that a first user claimed from an unclaimed topic, the
    forced claim of a second user (both with the support role and non-empty
    numeric ids, every call accepted) is answered with the success reply,
    makes the second user the recorded claimer, and replaces the old claim in
    the topic: the topic is the topic before the first claim followed by one
    [ | Claimed By: <id>] for the second user. *)
Theorem forced_claim_reassigns env i1 i2 (force : bool) w c :
  cache_get (Some (Db.i_channel i1)) (Db.channels w) = Some c ->
  JS.match_lit_digits "Claimed By: " (default "" (topic c)) = None ->
  Db.has_support_role i1
    (snd (Db.getGuildConfig (Db.db_io env) (Db.store w) (Db.i_guild i1))) = true ->
  JS.forallb_str JS.is_digit (Db.i_user i1) = true -> Db.i_user i1 <> "" ->
  JS.forallb_str JS.is_digit (Db.i_user i2) = true -> Db.i_user i2 <> "" ->
  Db.i_channel i2 = Db.i_channel i1 ->
  (forall call, Db.accepts env call = true) ->
  let w1 := Eff.world (fst (Eff.run (Db.handleClaimTicket env i1 force) w)) in
  Db.has_support_role i2
    (snd (Db.getGuildConfig (Db.db_io env) (Db.store w1) (Db.i_guild i2))) = true ->
  let s2 := fst (Eff.run (Db.handleClaimTicket env i2 true) w1) in
  db_claimer (Db.i_channel i1) w1 = Some (Db.i_user i1)
  /\ db_claimer (Db.i_channel i1) (Eff.world s2) = Some (Db.i_user i2)
  /\ topic <$> cache_get (Some (Db.i_channel i1)) (Db.channels (Eff.world s2)) =
       Some (Some (default "" (topic c) ++ " | Claimed By: " ++ Db.i_user i2))
  /\ db_replies (Eff.trace s2) = [Db.Claimed (Db.i_user i2)].
Proof.
  intros Hc Hnone Hrole1 Hd1 Hne1 Hd2 Hne2 Hch Hacc w1 Hrole2 s2.
  destruct (db_claim_topic env i1 force w c Hc Hrole1 (or_introl Hnone) Hacc)
    as (Htopic1 & _ & _).
  fold w1 in Htopic1.
  rewrite (remove_claim_none _ Hnone) in Htopic1.
  assert (Hclaimer1 : db_claimer (Db.i_channel i1) w1 = Some (Db.i_user i1)).
  { rewrite db_claimer_topic, Htopic1. cbn [default].
    rewrite <- (remove_claim_none _ Hnone) at 1.
    by apply claimed_topic_match. }
  split; [exact Hclaimer1|].
  rewrite <- Hch in Htopic1.
  destruct (cache_get (Some (Db.i_channel i2)) (Db.channels w1)) as [c1|] eqn:Hc1;
    [|done].
  cbn in Htopic1. injection Htopic1 as Htopic1.
  destruct (db_claim_topic env i2 true w1 c1 Hc1 Hrole2 (or_intror eq_refl) Hacc)
    as (Htopic2 & Hreplies2 & _).
  fold s2 in Htopic2, Hreplies2. rewrite Htopic1 in Htopic2. cbn [default] in Htopic2.
  unfold Datatypes.id in Htopic2.
  rewrite remove_claim in Htopic2 by done. rewrite Hch in Htopic2.
  split; [|split; [exact Htopic2|exact Hreplies2]].
  rewrite db_claimer_topic, Htopic2. cbn [default].
  rewrite <- (remove_claim_none _ Hnone) at 1.
  by apply claimed_topic_match.
Qed.

Lemma forced_claim_reassigns_witness :
  let w1 :=
    Eff.world (fst (Eff.run (Db.handleClaimTicket DbScene.env DbScene.bob false)
                      DbScene.world)) in
  let s2 := fst (Eff.run (Db.handleClaimTicket DbScene.env StaffScene.db_carol true) w1) in
  db_claimer "807" (Eff.world s2) = Some "99"
  /\ topic <$> cache_get (Some "807") (Db.channels (Eff.world s2)) =
       Some (Some "Ticket ID: ticket-7 | UserID: 77 | Topic: Billing | Claimed By: 99").
Proof.
  intros w1 s2.
  destruct (forced_claim_reassigns DbScene.env DbScene.bob StaffScene.db_carol false
              DbScene.world DbScene.ticket7)
    as (_ & H2 & H3 & _).
  - reflexivity.
  - vm_compute. reflexivity.
  - vm_compute. reflexivity.
  - reflexivity.
  - discriminate.
  - reflexivity.
  - discriminate.
  - reflexivity.
  - intros call. reflexivity.
  - vm_compute. reflexivity.
  - split; [exact H2|exact H3].
Defined.

(** ** Adding and removing a topic *)

Lemma without_value_snoc (ts : list Topic) (t : Topic) (v : string) :
  v = value t -> v ∉ values ts -> without_value v (ts ++ [t]) = ts.
Proof.
  intros -> Hnot. unfold without_value. rewrite List.filter_app.
  cbn [List.filter]. rewrite String.eqb_refl. cbn [negb].
  rewrite app_nil_r. by apply without_value_absent.
Qed.

Lemma without_value_snoc_other (ts : list Topic) (t : Topic) (v : string) :
  v ∉ values ts -> v <> value t -> without_value v (ts ++ [t]) = (ts ++ [t])%list.
Proof.
  intros Hnot Hne. apply without_value_absent. rewrite values_app.
  rewrite elem_of_app. intros [H|H]; [done|].
  cbn in H. apply list_elem_of_singleton in H. done.
Qed.

(** X21. With the storage working, removing a topic right after it was added
    undoes the add: in the select-menu bot the configuration file is again
    the file before the add; in the database-backed bot the topic list of the
    guild is again the list before the add and the documents of other guilds
    were never touched. *)
Theorem topic_add_then_remove :
  (forall io file guild lbl raw d e file1 t,
      Menu.read_ok io = true -> Menu.write_ok io = true ->
      Menu.ticketTopicCommand io file guild (Menu.OpAdd lbl raw d e) =
        (file1, TopicAdded t) ->
      Menu.ticketTopicCommand io file1 guild (Menu.OpRemove (value t)) =
        (file, TopicRemoved (value t)))
  /\ (forall io db guild lbl raw d e db1 t,
      Db.read_ok io = true -> Db.write_ok io = true ->
      Db.ticketTopicCommand io db guild (Db.OpAdd lbl raw d e) =
        (db1, TopicAdded t) ->
      let r := Db.ticketTopicCommand io db1 guild (Db.OpRemove (value t)) in
      snd r = TopicRemoved (value t)
      /\ Db.topics_of (fst r) guild = Db.topics_of db guild
      /\ forall g, g <> guild -> fst r !! g = db !! g).
Proof.
  split.
  - intros io file guild lbl raw d e file1 t Hr Hw.
    unfold Menu.ticketTopicCommand, Menu.readConfig, Menu.writeConfig.
    rewrite Hr, Hw.
    destruct (file !! guild) as [g|] eqn:Hg; [|done].
    destruct (JS.truthy (Menu.categoryId g)) eqn:Hcat; cbn [negb]; [|done].
    destruct (String.eqb (Menu.clean_value raw) ""); [done|].
    destruct (has_value _ _) eqn:Hhas; [done|].
    destruct (25 <=? _)%nat; [done|].
    intros [= <- <-]. rewrite lookup_insert_eq. unfold Menu.set_topics.
    cbn [Menu.categoryId Menu.logsChannelId Menu.supportRoleId Menu.ticketTopics].
    rewrite Hcat. cbn [negb value].
    apply has_value_false in Hhas.
    rewrite (without_value_snoc (Menu.ticketTopics g) _ (Menu.clean_value raw))
      by done.
    rewrite length_app. cbn [length].
    destruct (Nat.eqb_spec (length (Menu.ticketTopics g))
                (length (Menu.ticketTopics g) + 1)) as [?|_]; [lia|].
    f_equal. rewrite insert_insert_eq.
    apply insert_id. rewrite Hg. by destruct g.
  - intros io db guild lbl raw d e db1 t Hr Hw.
    unfold Db.ticketTopicCommand, Db.getGuildConfig, Db.setGuildConfig, Db.topics_of.
    rewrite Hr, Hw.
    destruct (db !! guild) as [g|] eqn:Hg.
    + destruct (has_value _ _) eqn:Hhas; [done|].
      intros [= <- <-]. rewrite lookup_insert_eq. unfold Db.set_topics.
      cbn [Db.ticketTopics Db.categoryId Db.logsChannelId Db.supportRoleId value
           fst snd].
      apply has_value_false in Hhas.
      rewrite (without_value_snoc (Db.ticketTopics g) _ (Db.clean_value raw))
        by done.
      rewrite length_app. cbn [length].
      destruct (Nat.eqb_spec (length (Db.ticketTopics g))
                  (length (Db.ticketTopics g) + 1)) as [?|_]; [lia|].
      cbn [fst snd]. rewrite lookup_insert_eq. cbn [Db.ticketTopics].
      split; [done|]. split; [done|].
      intros g' Hg'. by rewrite !lookup_insert_ne.
    + cbn [Db.default_config Db.ticketTopics has_value existsb].
      intros [= <- <-]. rewrite lookup_insert_eq. unfold Db.set_topics.
      cbn [Db.ticketTopics Db.categoryId Db.logsChannelId Db.supportRoleId value
           fst snd app without_value List.filter].
      rewrite String.eqb_refl. cbn [negb length Nat.eqb fst snd].
      rewrite lookup_insert_eq. cbn [Db.ticketTopics].
      split; [done|]. split; [done|].
      intros g' Hg'. by rewrite !lookup_insert_ne.
Qed.

Lemma topic_add_then_remove_witness :
  let file := {[ "1" := Scene.menu_config ]} : gmap string Menu.GuildConfig in
  let t := mkTopic "Sales" "pre_sales" "Click to open a ticket." None in
  Menu.ticketTopicCommand Sample.all_ok_menu
    (<[ "1" := Menu.set_topics Scene.menu_config [Sample.billing; t] ]> file) "1"
    (Menu.OpRemove "pre_sales") = (file, TopicRemoved "pre_sales").
Proof.
  intros file t.
  apply (proj1 topic_add_then_remove Sample.all_ok_menu file "1" "Sales" "Pre Sales"
           None None _ t eq_refl eq_refl).
  vm_compute. reflexivity.
Defined.

(** X22. The remove subcommand compares the given text with the stored keys
    as it is, while the add subcommand stores the cleaned key: a topic that
    was just added under a text which the cleanup changes cannot be removed
    under that text; the answer is TopicNotFound and the topics stay. *)
Theorem topic_remove_takes_the_stored_key :
  (forall io file guild lbl raw d e file1 t,
      Menu.read_ok io = true -> Menu.write_ok io = true ->
      Menu.ticketTopicCommand io file guild (Menu.OpAdd lbl raw d e) =
        (file1, TopicAdded t) ->
      raw <> Menu.clean_value raw ->
      raw ∉ values (Menu.topics_of file guild) ->
      Menu.ticketTopicCommand io file1 guild (Menu.OpRemove raw) =
        (file1, TopicFailed TopicNotFound))
  /\ (forall io db guild lbl raw d e db1 t,
      Db.read_ok io = true -> Db.write_ok io = true ->
      Db.ticketTopicCommand io db guild (Db.OpAdd lbl raw d e) =
        (db1, TopicAdded t) ->
      raw <> Db.clean_value raw ->
      raw ∉ values (Db.topics_of db guild) ->
      let r := Db.ticketTopicCommand io db1 guild (Db.OpRemove raw) in
      snd r = TopicFailed TopicNotFound
      /\ Db.topics_of (fst r) guild = Db.topics_of db1 guild).
Proof.
  split.
  - intros io file guild lbl raw d e file1 t Hr Hw Hadd Hne Hnot.
    destruct (menu_add_success _ _ _ _ _ _ _ _ _ Hadd) as (Hv & _ & _ & _ & Hts).
    specialize (Hts Hw).
    revert Hadd. unfold Menu.ticketTopicCommand at 1, Menu.readConfig, Menu.writeConfig.
    rewrite Hr, Hw.
    destruct (file !! guild) as [g|] eqn:Hg; [|done].
    destruct (JS.truthy (Menu.categoryId g)) eqn:Hcat; cbn [negb]; [|done].
    destruct (String.eqb (Menu.clean_value raw) ""); [done|].
    destruct (has_value _ _); [done|].
    destruct (25 <=? _)%nat; [done|].
    intros [= <- <-].
    eapply menu_remove_absent; [done|apply lookup_insert_eq|done|].
    cbn [Menu.set_topics Menu.ticketTopics].
    unfold Menu.topics_of in Hnot. rewrite Hg in Hnot.
    rewrite values_app, elem_of_app. intros [H|H]; [done|].
    cbn in H. apply list_elem_of_singleton in H. done.
  - intros io db guild lbl raw d e db1 t Hr Hw Hadd Hne Hnot r.
    destruct (db_add_success _ _ _ _ _ _ _ _ _ Hadd) as (Hv & Hts).
    specialize (Hts Hw Hr).
    apply db_remove_absent. rewrite Hts, values_app, elem_of_app.
    intros [H|H]; [done|].
    cbn in H. apply list_elem_of_singleton in H. congruence.
Qed.

Lemma topic_remove_takes_the_stored_key_witness :
  let file := {[ "1" := Scene.menu_config ]} : gmap string Menu.GuildConfig in
  let t := mkTopic "Sales" "pre_sales" "Click to open a ticket." None in
  let file1 := <[ "1" := Menu.set_topics Scene.menu_config [Sample.billing; t] ]> file in
  Menu.ticketTopicCommand Sample.all_ok_menu file1 "1" (Menu.OpRemove "Pre Sales") =
    (file1, TopicFailed TopicNotFound).
Proof.
  intros file t file1.
  apply (proj1 topic_remove_takes_the_stored_key Sample.all_ok_menu file "1" "Sales"
           "Pre Sales" None None file1 t eq_refl eq_refl).
  - vm_compute. reflexivity.
  - vm_compute. discriminate.
  - vm_compute. intros H. apply elem_of_cons in H as [H|H]; [discriminate|].
    by apply elem_of_nil in H.
Defined.

(** X23. In the database-backed bot a topic add whose lookup fails while its
    write succeeds replaces the guild's document: the lookup hands back the
    unconfigured default, the new topic is pushed on its empty list and the
    result is written, so afterwards the guild has no category, no logs
    channel, no support role and the new topic as its only topic, whatever
    was stored before. The documents of other guilds are not touched. *)
Theorem db_add_after_failed_lookup_overwrites io db guild lbl raw d e :
  Db.read_ok io = false -> Db.write_ok io = true ->
  let r := Db.ticketTopicCommand io db guild (Db.OpAdd lbl raw d e) in
  let t := mkTopic lbl (Db.clean_value raw) d e in
  snd r = TopicAdded t
  /\ fst r !! guild = Some (Db.mkGuildConfig None None None [t])
  /\ forall g, g <> guild -> fst r !! g = db !! g.
Proof.
  intros Hr Hw r t. unfold r, Db.ticketTopicCommand, Db.getGuildConfig,
    Db.setGuildConfig. rewrite Hr, Hw. cbn.
  rewrite lookup_insert_eq. split; [done|]. split; [done|].
  intros g Hg. by rewrite lookup_insert_ne.
Qed.

Lemma db_add_after_failed_lookup_overwrites_witness :
  fst (Db.ticketTopicCommand (Db.mkIo false true) (Db.store DbScene.world) "1"
         (Db.OpAdd "Sales" "Pre Sales" "Offers" None)) !! "1" =
    Some (Db.mkGuildConfig None None None [mkTopic "Sales" "presales" "Offers" None]).
Proof.
  exact (proj1 (proj2 (db_add_after_failed_lookup_overwrites (Db.mkIo false true)
                         (Db.store DbScene.world) "1" "Sales" "Pre Sales" "Offers"
                         None eq_refl eq_refl))).
Defined.

(** ** Configuring the select-menu bot *)

Lemma missing_of_none required has :
  (0 <? length (MenuCommands.missing_of required has))%nat = false <->
  forall p, p ∈ required -> has p = true.
Proof.
  unfold MenuCommands.missing_of. induction required as [|q required IH].
  - split; [|done]. intros _ p H. by apply elem_of_nil in H.
  - cbn [List.filter]. destruct (has q) eqn:E; cbn [negb].
    + rewrite IH. split.
      * intros H p [->|Hp]%elem_of_cons; [done|by apply H].
      * intros H p Hp. apply H, elem_of_cons. by right.
    + split; [done|]. intros H.
      rewrite (H q) in E; [done|]. apply elem_of_cons. by left.
Qed.

(** The topics of the guild after [/ticket-config]: those before, or none
    when the file could not be read and was written. *)
Lemma menu_config_topics io file guild c r l lp cp :
  let file' := fst (MenuCommands.ticketConfigCommand io file guild c r l lp cp) in
  Menu.topics_of file' guild = Menu.topics_of file guild
  \/ Menu.topics_of file' guild = [].
Proof.
  unfold MenuCommands.ticketConfigCommand, Menu.readConfig, Menu.writeConfig.
  cbv zeta.
  destruct (0 <? _)%nat; [by left|].
  destruct (0 <? _)%nat; [by left|]. cbn [fst].
  destruct (Menu.write_ok io); [|by left].
  rewrite menu_topics_of_insert. cbn.
  destruct (Menu.read_ok io).
  - left. unfold Menu.topics_of. by destruct (file !! guild).
  - right. by rewrite lookup_empty.
Qed.

Lemma menu_topics_ok_nil : menu_topics_ok [].
Proof. split; [constructor|simpl; lia]. Qed.

Lemma menu_admin_step_ok io file guild op :
  menu_topics_ok (Menu.topics_of file guild) ->
  menu_topics_ok (Menu.topics_of (MenuCommands.admin_step io file guild op) guild).
Proof.
  intros Hok. destruct op as [c r l lp cp|op]; cbn [MenuCommands.admin_step].
  - destruct (menu_config_topics io file guild c r l lp cp) as [-> | ->];
      [done|apply menu_topics_ok_nil].
  - eapply menu_topic_step_ok; [apply menu_topic_command_step|done].
Qed.

Lemma menu_run_admin_ok file guild ops :
  menu_topics_ok (Menu.topics_of file guild) ->
  menu_topics_ok (Menu.topics_of (MenuCommands.run_admin file guild ops) guild).
Proof.
  revert file. induction ops as [|[io op] ops IH]; intros file Hok; simpl.
  - done.
  - by apply IH, menu_admin_step_ok.
Qed.

Lemma find_topic_nodup (ts : list Topic) (t : Topic) :
  NoDup (values ts) -> t ∈ ts -> find_topic (value t) ts = Some t.
Proof.
  unfold find_topic, values. induction ts as [|u ts IH]; intros Hnd Hin.
  - by apply elem_of_nil in Hin.
  - cbn [map] in Hnd. apply NoDup_cons in Hnd as [Hu Hnd].
    cbn [List.find]. apply elem_of_cons in Hin as [->|Hin].
    + by rewrite String.eqb_refl.
    + destruct (String.eqb (value u) (value t)) eqn:E.
      * apply String.eqb_eq in E. exfalso. apply Hu. rewrite E.
        apply list_elem_of_fmap. by exists t.
      * by apply IH.
Qed.

(** X24. A panel that [/ticket-panel] of the select-menu bot posts after any
    sequence of [/ticket-config] and [/ticket-topic] requests, whatever their
    outcome, carries the select menu [ticket_panel_menu] with at least 1 and
    at most 25 options of pairwise distinct values; every option is a stored
    topic, and looking its value up among the stored topics, as the selection
    handler does, finds the topic with the label and description shown. *)
Theorem panel_offers_stored_topics file guild ops io title descr send panel reply :
  menu_topics_ok (Menu.topics_of file guild) ->
  let file' := MenuCommands.run_admin file guild ops in
  MenuCommands.ticketPanelCommand io file' guild title descr send
    = (Some panel, reply) ->
  reply = MenuCommands.PanelPosted
  /\ MenuCommands.panel_customId panel = "ticket_panel_menu"
  /\ 1 <= length (MenuCommands.panel_options panel) <= 25
  /\ NoDup (map MenuCommands.option_value (MenuCommands.panel_options panel))
  /\ forall o, o ∈ MenuCommands.panel_options panel ->
       exists t, find_topic (MenuCommands.option_value o)
                   (Menu.topics_of file' guild) = Some t
                 /\ label t = MenuCommands.option_label o
                 /\ description t = MenuCommands.option_description o.
Proof.
  intros Hok file'.
  pose proof (menu_run_admin_ok file guild ops Hok) as [Hnd Hlen].
  fold file' in Hnd, Hlen.
  unfold MenuCommands.ticketPanelCommand, MenuCommands.select_options,
    Menu.readConfig, Menu.topics_of in *.
  destruct (Menu.read_ok io); [|by rewrite lookup_empty].
  destruct (file' !! guild) as [g|]; [|done].
  destruct (negb _); [done|].
  destruct (length (Menu.ticketTopics g) =? 0)%nat eqn:E; [done|].
  apply Nat.eqb_neq in E.
  destruct send; [|done..].
  intros [= <- <-]. cbn [MenuCommands.panel_customId MenuCommands.panel_options].
  rewrite length_map, <- list_fmap_compose.
  repeat split; [lia|done|done|].
  intros o (t & -> & Hin)%list_elem_of_fmap. exists t.
  cbn [MenuCommands.option_value MenuCommands.option_label
       MenuCommands.option_description].
  split; [by apply find_topic_nodup|done].
Qed.

Lemma panel_offers_stored_topics_witness :
  let ops :=
    [(Sample.all_ok_menu,
      MenuCommands.TicketConfig "10" "20" "30" MenuCommands.all_permissions
        MenuCommands.all_permissions);
     (Sample.all_ok_menu,
      MenuCommands.TicketTopic (Menu.OpAdd "Billing" "Billing" None None))] in
  let panel :=
    MenuCommands.mkPanel "Support" "Pick a topic" "ticket_panel_menu"
      [MenuCommands.mkSelectOption "Billing" "Click to open a ticket."
         "billing" None] in
  1 <= length (MenuCommands.panel_options panel) <= 25
  /\ NoDup (map MenuCommands.option_value (MenuCommands.panel_options panel)).
Proof.
  intros ops panel.
  assert (Hok : menu_topics_ok (Menu.topics_of (∅ : Menu.ConfigFile) "1")).
  { unfold Menu.topics_of. rewrite lookup_empty. apply menu_topics_ok_nil. }
  destruct (panel_offers_stored_topics ∅ "1" ops Sample.all_ok_menu "Support"
              "Pick a topic" MenuCommands.SendAccepted panel
              MenuCommands.PanelPosted Hok)
    as (_ & _ & Hlen & Hnd & _).
  - vm_compute. reflexivity.
  - by split.
Defined.

(** X25. With [config.json] readable, [/ticket-config] of the select-menu bot
    changes nothing but the three ids of its guild: the topics of every guild
    and the entries of all other guilds are as before, whether the write
    succeeds or not. It saves exactly when the bot holds ViewChannel,
    SendMessages and AttachFiles in the logs channel and ViewChannel,
    ManageChannels and ManageRoles in the category; otherwise the file is
    unchanged. When it saves and the write succeeds, the guild's entry holds
    the three given ids. *)
Theorem menu_config_changes_only_ids io file guild c r l lp cp :
  Menu.read_ok io = true ->
  let result := MenuCommands.ticketConfigCommand io file guild c r l lp cp in
  let held :=
    (forall p, p ∈ MenuCommands.REQUIRED_LOGS_PERMISSIONS -> lp p = true)
    /\ (forall p, p ∈ MenuCommands.REQUIRED_CATEGORY_PERMISSIONS -> cp p = true) in
  (forall g, Menu.topics_of (fst result) g = Menu.topics_of file g)
  /\ (forall g, g <> guild -> fst result !! g = file !! g)
  /\ (snd result = MenuCommands.Configured c r l <-> held)
  /\ (~ held -> fst result = file)
  /\ (held -> Menu.write_ok io = true ->
      exists g, fst result !! guild = Some g
        /\ Menu.categoryId g = Some c
        /\ Menu.logsChannelId g = Some l
        /\ Menu.supportRoleId g = Some r).
Proof.
  intros Hr result held. subst result held.
  unfold MenuCommands.ticketConfigCommand, Menu.readConfig, Menu.writeConfig.
  rewrite Hr. cbv zeta.
  destruct (0 <? length (MenuCommands.missing_of
                           MenuCommands.REQUIRED_LOGS_PERMISSIONS lp))%nat eqn:El.
  { assert (Hn : ~ forall p, p ∈ MenuCommands.REQUIRED_LOGS_PERMISSIONS ->
                   lp p = true).
    { intros H. apply missing_of_none in H. congruence. }
    cbn [fst snd]. repeat split; try done; by intros [? ?]. }
  pose proof (proj1 (missing_of_none _ _) El) as Hl.
  destruct (0 <? length (MenuCommands.missing_of
                           MenuCommands.REQUIRED_CATEGORY_PERMISSIONS cp))%nat eqn:Ec.
  { assert (Hn : ~ forall p, p ∈ MenuCommands.REQUIRED_CATEGORY_PERMISSIONS ->
                   cp p = true).
    { intros H. apply missing_of_none in H. congruence. }
    cbn [fst snd]. repeat split; try done; by intros [? ?]. }
  pose proof (proj1 (missing_of_none _ _) Ec) as Hc. cbn [fst snd].
  destruct (Menu.write_ok io).
  - split; [|split; [|split; [|split]]].
    + intros g. unfold Menu.topics_of.
      destruct (decide (g = guild)) as [->|Hne].
      * rewrite lookup_insert_eq. by destruct (file !! guild).
      * by rewrite lookup_insert_ne.
    + intros g Hne. by rewrite lookup_insert_ne.
    + done.
    + intros Hn. by destruct Hn.
    + intros _ _. rewrite lookup_insert_eq. by eexists.
  - split; [|split; [|split; [|split]]]; try done.
Qed.

Lemma menu_config_changes_only_ids_witness :
  let file := {[ "1" := Scene.menu_config ]} : Menu.ConfigFile in
  let result :=
    MenuCommands.ticketConfigCommand Sample.all_ok_menu file "1" "11" "21" "31"
      MenuCommands.all_permissions MenuCommands.all_permissions in
  Menu.topics_of (fst result) "1" = Menu.topics_of file "1".
Proof.
  intros file result.
  exact (proj1 (menu_config_changes_only_ids Sample.all_ok_menu file "1" "11"
                  "21" "31" MenuCommands.all_permissions
                  MenuCommands.all_permissions eq_refl) "1").
Defined.

(** X26. When [config.json] cannot be read while it can be written,
    [/ticket-config] of the select-menu bot (all permissions held) answers
    with the success message and replaces the file by one that holds only
    the guild of the request, with the three given ids and no topic: the
    topics of the guild and the entries of all other guilds are gone. *)
Theorem menu_config_after_failed_read io file guild c r l lp cp :
  Menu.read_ok io = false ->
  Menu.write_ok io = true ->
  (forall p, p ∈ MenuCommands.REQUIRED_LOGS_PERMISSIONS -> lp p = true) ->
  (forall p, p ∈ MenuCommands.REQUIRED_CATEGORY_PERMISSIONS -> cp p = true) ->
  MenuCommands.ticketConfigCommand io file guild c r l lp cp =
    ({[ guild := Menu.mkGuildConfig (Some c) (Some l) (Some r) [] ]},
     MenuCommands.Configured c r l).
Proof.
  intros Hr Hw Hl Hc.
  unfold MenuCommands.ticketConfigCommand, Menu.readConfig, Menu.writeConfig.
  apply missing_of_none in Hl, Hc. rewrite Hl, Hc, Hr, Hw. cbv zeta.
  by rewrite lookup_empty.
Qed.

Lemma menu_config_after_failed_read_witness :
  let file :=
    {[ "1" := Scene.menu_config; "2" := Scene.menu_config2 ]} : Menu.ConfigFile in
  MenuCommands.ticketConfigCommand (Menu.mkIo false true) file "1" "11" "21" "31"
    MenuCommands.all_permissions MenuCommands.all_permissions =
    ({[ "1" := Menu.mkGuildConfig (Some "11") (Some "31") (Some "21") [] ]},
     MenuCommands.Configured "11" "21" "31").
Proof.
  intros file.
  apply (menu_config_after_failed_read (Menu.mkIo false true) file "1" "11" "21"
           "31" MenuCommands.all_permissions MenuCommands.all_permissions
           eq_refl eq_refl); reflexivity.
Defined.

(** ** Configuring the database-backed bot *)


Lemma db_get_others io db guild g :
  g <> guild -> fst (Db.getGuildConfig io db guild) !! g = db !! g.
Proof.
  intros Hne. unfold Db.getGuildConfig.
  destruct (Db.read_ok io); [|done].
  destruct (db !! guild); [done|]. cbn [fst]. by rewrite lookup_insert_ne.
Qed.



Lemma db_panel_not_configured io db guild style title descr builds send_ok :
  DbCommands.isConfigured (snd (Db.getGuildConfig io db guild)) = false ->
  snd (DbCommands.ticketPanelCommand io db guild style title descr builds
         send_ok) =
    DbCommands.PanelNotConfigured.
Proof.
  intros H. unfold DbCommands.ticketPanelCommand.
  destruct (Db.getGuildConfig io db guild) as [db1 config].
  cbn [snd] in H. by rewrite H.
Qed.

(** X28. The reset action of [/ticket-config] of the database-backed bot
    ignores the other options and always answers that the configuration was
    reset, showing an empty configuration that is not ready. When the write
    succeeds the guild's document has no category, no logs channel, no
    support role and no topic, whatever it held, and [/ticket-panel] is
    refused as not configured; when the write fails the stored document is
    the one from before, in spite of the answer. Documents of other guilds
    are never touched. *)
Theorem db_config_reset_clears io db guild category logsChannel supportRole :
  let result :=
    DbCommands.ticketConfigCommand io db guild (Some DbCommands.Reset) category
      logsChannel supportRole in
  snd result =
    DbCommands.ConfigReset (DbCommands.createConfigViewEmbed Db.default_config)
  /\ DbCommands.view_ready (DbCommands.createConfigViewEmbed Db.default_config)
       = false
  /\ (Db.write_ok io = true ->
      fst result !! guild = Some Db.default_config
      /\ forall io' style title descr builds send_ok,
           snd (DbCommands.ticketPanelCommand io' (fst result) guild style title
                  descr builds send_ok) = DbCommands.PanelNotConfigured)
  /\ (Db.write_ok io = false ->
      fst result = fst (Db.getGuildConfig io db guild))
  /\ (forall g, g <> guild -> fst result !! g = db !! g).
Proof.
  intros result. subst result. unfold DbCommands.ticketConfigCommand.
  pose proof (db_get_others io db guild) as Hothers.
  destruct (Db.getGuildConfig io db guild) as [db1 config].
  cbn [fst snd] in *. unfold Db.setGuildConfig.
  split; [done|]. split; [done|].
  destruct (Db.write_ok io).
  - split; [|split; [done|]].
    + intros _. rewrite lookup_insert_eq. split; [done|].
      intros io' style title descr builds send_ok.
      apply db_panel_not_configured.
      unfold Db.getGuildConfig. destruct (Db.read_ok io'); [|done].
      by rewrite lookup_insert_eq.
    + intros g Hne. rewrite lookup_insert_ne by done. by apply Hothers.
  - split; [done|]. split; [done|]. apply Hothers.
Qed.

Lemma db_config_reset_clears_witness :
  let db := {[ "1" := DbScene.config ]} : Db.Store in
  fst (DbCommands.ticketConfigCommand Sample.all_ok_db db "1"
         (Some DbCommands.Reset) None None None) !! "1" = Some Db.default_config.
Proof.
  intros db.
  exact (proj1 (proj1 (proj2 (proj2
           (db_config_reset_clears Sample.all_ok_db db "1" None None None)))
           eq_refl)).
Defined.



(** ** From the panel to the creation of a ticket *)

Lemma lift_run {A} (m : Eff.M Db.World Db.Call A) (s : Eff.State Db.World DbRouter.Call) :
  DbRouter.lift m s =
    (Eff.mkState (Eff.world (fst (Eff.run m (Eff.world s))))
       (Eff.trace s ++
        map (fun cb => (DbRouter.Handled (fst cb), snd cb))
          (Eff.trace (fst (Eff.run m (Eff.world s))))),
     snd (Eff.run m (Eff.world s))).
Proof.
  unfold DbRouter.lift. by destruct (Eff.run m (Eff.world s)) as [s' o].
Qed.

Lemma db_open_modal_run env accepts i w config v t :
  Db.read_ok (Db.db_io env) = true ->
  Db.store w !! Db.i_guild i = Some config ->
  find_topic v (Db.ticketTopics config) = Some t ->
  let modal := DbRouter.ShowModal ("ticket_modal_" ++ v) ("Open Ticket: " ++ label t) in
  Eff.run (DbRouter.open_modal env accepts i (Some v)) w =
    (Eff.mkState w [(modal, accepts modal)],
     if accepts modal then Eff.Done tt else Eff.Thrown).
Proof.
  intros Hr Hc Ht modal. unfold DbRouter.open_modal, Eff.run.
  eff_classes. rewrite bind_run, lift_run. unfold Eff.run.
  rewrite db_fetch_run. cbn [fst snd Eff.world Eff.trace].
  unfold Db.getGuildConfig. rewrite Hr, Hc. cbn [fst snd map app].
  cbn [mbind option_bind]. rewrite Ht. rewrite call_run.
  cbn [Eff.world Eff.trace app default]. unfold Datatypes.id. fold modal.
  destruct w as [st chs]. cbn [Db.store Db.channels].
  by destruct (accepts modal).
Qed.

(** X30. In the database-backed bot every choice of a panel leads to the
    creation of a ticket for the chosen topic: with the database readable and
    pairwise distinct stored values, pressing the button [ticket_open_<value>]
    of a stored topic, or selecting its value in the menu
    [ticket_panel_topic_select], makes exactly one call, the modal with the
    custom id [ticket_modal_<value>] titled with the label of that topic, and
    changes nothing; submitting that modal acknowledges the interaction and
    then runs exactly the ticket creation for that value with the text
    entered, or does nothing more when the acknowledgement is rejected. *)
Theorem db_panel_choice_reaches_creation env accepts i w config t issue :
  Db.read_ok (Db.db_io env) = true ->
  Db.store w !! Db.i_guild i = Some config ->
  NoDup (values (Db.ticketTopics config)) ->
  t ∈ Db.ticketTopics config ->
  let modal :=
    DbRouter.ShowModal ("ticket_modal_" ++ value t) ("Open Ticket: " ++ label t) in
  let pressed :=
    Eff.run (DbRouter.interactionCreate env accepts i
               (DbRouter.Button ("ticket_open_" ++ value t))) w in
  let selected :=
    Eff.run (DbRouter.interactionCreate env accepts i
               (DbRouter.StringSelectMenu "ticket_panel_topic_select" [value t]))
      w in
  let submitted :=
    Eff.run (DbRouter.interactionCreate env accepts i
               (DbRouter.ModalSubmit ("ticket_modal_" ++ value t) issue)) w in
  let created :=
    Eff.run (Db.handleTicketCreation env i (value t) (Some issue)) w in
  fst pressed = Eff.mkState w [(modal, accepts modal)]
  /\ selected = pressed
  /\ (Db.accepts env Db.DeferReply = true ->
      Eff.world (fst submitted) = Eff.world (fst created)
      /\ Eff.trace (fst submitted) =
           (DbRouter.Handled Db.DeferReply, true) ::
           map (fun cb => (DbRouter.Handled (fst cb), snd cb))
             (Eff.trace (fst created)))
  /\ (Db.accepts env Db.DeferReply = false ->
      fst submitted =
        Eff.mkState w [(DbRouter.Handled Db.DeferReply, false)]).
Proof.
  intros Hr Hc Hnd Hin modal pressed selected submitted created.
  pose proof (find_topic_nodup _ _ Hnd Hin) as Ht.
  pose proof (db_open_modal_run env accepts i w config (value t) t Hr Hc Ht)
    as Hopen.
  assert (Hp : pressed =
               Eff.run (DbRouter.open_modal env accepts i (Some (value t))) w).
  { subst pressed. unfold DbRouter.interactionCreate.
    change (String.eqb ("ticket_open_" ++ value t) "ticket_close_confirm")
      with false.
    change (String.eqb ("ticket_open_" ++ value t) "ticket_close_final")
      with false.
    change (String.eqb ("ticket_open_" ++ value t) "ticket_cancel_close")
      with false.
    change (String.eqb ("ticket_open_" ++ value t) "ticket_claim") with false.
    change (JS.strip_prefix "ticket_open_" ("ticket_open_" ++ value t))
      with (JS.strip_prefix "" (value t)).
    by destruct (value t). }
  split; [by rewrite Hp, Hopen|]. split; [by rewrite Hp|].
  subst submitted created. unfold DbRouter.interactionCreate.
  change (JS.strip_prefix "ticket_modal_" ("ticket_modal_" ++ value t))
    with (JS.strip_prefix "" (value t)).
  assert (Hs : JS.strip_prefix "" (value t) = Some (value t))
    by by destruct (value t).
  rewrite Hs. unfold Eff.run. eff_classes.
  rewrite bind_run, lift_run. unfold Eff.run.
  rewrite !call_run. cbn [fst snd Eff.world Eff.trace app map].
  destruct (Db.accepts env Db.DeferReply).
  - split; [|done]. intros _. rewrite lift_run. unfold Eff.run.
    cbn [fst snd Eff.world Eff.trace app]. done.
  - split; [done|]. by intros _.
Qed.

Lemma db_panel_choice_reaches_creation_witness :
  fst (Eff.run (DbRouter.interactionCreate DbScene.env (fun _ => true)
                  DbScene.alice (DbRouter.Button "ticket_open_billing"))
         DbScene.world) =
    Eff.mkState DbScene.world
      [(DbRouter.ShowModal "ticket_modal_billing" "Open Ticket: Billing", true)].
Proof.
  refine (proj1 (db_panel_choice_reaches_creation DbScene.env (fun _ => true)
                   DbScene.alice DbScene.world DbScene.config Sample.billing
                   "My invoice is wrong" eq_refl _ _ _)).
  - reflexivity.
  - apply NoDup_singleton.
  - apply list_elem_of_singleton. reflexivity.
Defined.
